(* ===== verification/_CoqProject ===== *)
-Q . S2P
Prelude.v
Os.v
Protocol.v
IpcProtocol.v
Crypto.v
ToySodium.v
KeyManager.v
ClientManager.v
Enclave.v
EnclaveClient.v
VpnServer.v
Config.v
Tun.v
EnclaveMain.v
EnclaveDeath.v
ServerMain.v
VpnClient.v
System.v
Tunnel.v
Sessions.v
Lines.v
Dialing.v
Roaming.v
Output.v
TestPrograms.v
