(* ===== verification/Prelude.v ===== *)
(** * Verification of a VPN: client, server, enclave and the protocols between them
    (src/VPN)

    ** The program

    src/VPN is a VPN in C. A server process ([src/server/vpn_server.c]) moves IP
    packets between a TUN device and UDP datagrams of its clients. It keeps the
    connected clients in a table ([client_manager.c]) and leaves key exchange and
    encryption to a second process, the enclave ([src/enclave/enclave_main.c]),
    which alone holds the session keys ([key_manager.c]) and calls libsodium
    ([crypto.c]). Server and enclave talk over a stream socket with a small
    request/response protocol ([ipc_protocol.c]; stubs in [enclave_client.c]).
    Clients and server talk over UDP with 16-byte headers ([protocol.c]). The client
    ([src/client/vpn_client.c]) reads a configuration file ([config.c]), connects,
    opens a TUN device ([tun_manager.c]), keeps the connection alive and encrypts
    its packets itself.

    ** The files of the development

    - [Prelude]: outcomes of C code ([res], with the faults [Overrun], [Overread],
      [NullDeref], [SigPipe] and [BadFree]), the state monad [M], machine integers, byte order, byte
      buffers of fixed size, uninitialised arrays ([Garbage], [local]), and lemmas
      on arrays of slots with an [active] flag.
    - [Os]: the system calls of the server process. Their answers come from an
      environment ([Env]) that every theorem quantifies over; the state [os] records
      the datagrams sent and the packets written to the TUN device. The [heap] is the
      set of allocated blocks; freeing another one is the fault [BadFree].
    - [Protocol]: include/protocol.h and src/common/protocol.c. Packed structures
      are records; [..._bytes] and [..._of_bytes] are their memory images.
    - [IpcProtocol]: include/ipc_protocol.h and src/common/ipc_protocol.c.
    - [Crypto]: src/enclave/crypto.c over the class [Sodium] of libsodium functions;
      [SodiumLaws] states the documented behaviour that theorems rely on.
    - [ToySodium]: a concrete instance of both classes, so that the hypotheses can
      be met and evaluated.
    - [KeyManager]: src/enclave/key_manager.c; the table refines a finite map.
    - [ClientManager]: src/server/client_manager.c.
    - [Enclave]: src/enclave/enclave_main.c. [handle_ipc_request] works on the
      two byte streams of the connection; [serve] is the abstract service; the
      process is the step relation [enclave_step] over [phase]s and [event]s, and
      [enclave_dies] the ways a turn can kill it (a buffer is overrun, or SIGPIPE is raised
      by the answer to a peer that has closed the connection).
    - [EnclaveClient]: src/server/enclave_client.c over a class [Channel] of
      connected sockets. The class [EnclaveService] states what the stubs promise to
      the server; [enclave_service] proves it for the enclave of [Enclave].
    - [VpnServer]: the packet handlers and the event loop of
      src/server/vpn_server.c and udp_recv/udp_send of src/server/udp_server.c,
      proved against [EnclaveService].
    - [Config]: src/common/config.c with the string functions it uses.
    - [Tun]: file descriptors and src/server/tun_manager.c; [holds] says which
      descriptors a program has open.
    - [EnclaveMain]: main of src/enclave/enclave_main.c with its security settings, its
      listening socket and both loops. A signal arrives between two turns of a loop; one
      in the middle of a turn has the same effect ([turn_signalled]).
    - [EnclaveDeath]: the stubs and the server over [mortal], a connection to an enclave
      process that may end at any moment; [FallibleService] is what is left of the
      promise of [EnclaveService].
    - [ServerMain]: src/server/enclave.c, the sockets of the server and main of
      src/server/vpn_server.c; [child] is the enclave process seen from its parent.
    - [VpnClient]: src/client/vpn_client.c, from the command line to the exit code.
      [client_inv] ties the open descriptors to the client record; [safe] and
      [preserves] are small logics that follow the code.
    - [System]: theorems about client, server and enclave together.
    - [Tunnel]: one server and many clients as a distributed system: [act] takes a turn
      of one of the loops with what the network delivers, [run_tunnel] a schedule.
    - [Sessions]: the handshake establishes the sessions that [Tunnel] starts from.
    - [Lines]: the server among sockets that come and go; a [line] is a socket of a client
      with the request and the packets that were sent from it, [hub_good] what the server
      and the enclave keep about the lines, whoever connects or leaves.
    - [Dialing]: the client program cut at the blocking recvfrom of vpn_connect
      ([first_dial], [redial], [answered]); the program is shown to be made of these phases.
    - [Roaming]: the whole system from its start: [occurs] lets a client dial, receive its
      answer, take a turn or leave, or the server take a turn; [history] a sequence of these.
    - [Output]: src/common/logger.c and the texts of print_vpn_packet, print_ip_packet
      and config_print.
    - [TestPrograms]: src/server/test_enclave_ipc.c, src/server/tun_test.c and
      src/client/udp_test_client.c, a module each.

    A C function that changes an object through a pointer returns the new object; a
    pointer into an array of slots is an index. Results 0/-1 are kept as integers or
    become an option where the value is returned through a pointer. Printing is left
    out, except that functions that print a client also ask for the time, which
    is kept, and return what they display.

    ** What the theorems show

    - Data formats: a header is built in network byte order and shown with the numbers it
      was built from; as lemmas for the other files: fixed packets and IPC packets are read
      back as written, and sequence numbers do not repeat within 2^32 packets.
    - Tables: invariants of the key table and of the client table in all reachable
      states, the behaviour of every operation, and refinement of a finite map.
    - Enclave: request streams are answered as the abstract service answers, in
      order, also by the whole program, as a queue; the process keeps its invariant along
      every run and wipes its keys when it stops; the program cleans up on every exit, says
      which deaths it can die, and ends within two turns of its loops once it was told to.
    - Stubs: an exchange over the socket is transparent; encryption followed by
      decryption gives back the plaintext.
    - Server: no sequence of datagrams and of TUN packets that fit makes it fault; what reaches the TUN device is
      authentic; data, connect, ping and disconnect packets and packets from the TUN
      device are handled as specified on every branch.
    - Server program: every failure of the start-up and every end of the loop leaves no
      descriptor open, no memory allocated and no process behind.
    - Death of the enclave: at whatever moment it happens, the server program keeps its
      memory in order and gives everything back, or is killed by SIGPIPE, and exactly which
      packets kill it.
    - Client: the program returns from every run with all descriptors closed and all memory
      freed; the settings of a configuration file are the settings in use.
    - System: client and enclave agree on address, session and key after a
      handshake; packets cross the tunnel unchanged in both directions; over a network
      that loses, repeats and reorders datagrams nothing comes out of the tunnel that was
      not put into it for that receiver; the handshake brings such a tunnel about, client
      by client.
    - Clients that come and go: from the start of all programs on, through connections,
      timeouts, reconnections and departures, no program faults, client and server agree on
      address and key of each session, and packets reach only the client they are for.
    - Test programs: the IPC test passes against every enclave with a free slot; the
      packet the UDP test calls data is dropped by every server.
    - Limits of the code, as theorems on the same definitions: buffers that are
      overrun by large requests and large packets, keys that are not replaced or not
      stored, a key table that one client can fill, addresses that are handed out twice, a
      closed connection that is never left, an enclave that is killed by a peer which does
      not wait for its answer, responses that are not matched, short packets that are read
      beyond their end, replayed packets that are accepted, reconnections that are not
      retried, an address that is not terminated.

    ** Assumptions the theorems share

    Where a theorem says that the server or the client does not fault, packets read from a
    TUN device have at most 2004 bytes (larger ones overrun a buffer, a theorem of
    [VpnServer]); the client also gets no DATA packet of 16 to 27 bytes (these are read
    beyond their end, a theorem of [VpnClient]) and a terminated server address. In
    [Tunnel] and [Roaming] strangers may send the server any datagram but a CONNECT_REQ,
    and their datagrams do not reach the clients, which accept packets from anybody.

    ** Bounds

    No definition uses fuel: loops over arrays are structural, the event loops run
    over a given list of events (the turns of the client and of the server) or are
    step relations, and every theorem on an operation says that it returns. Buffers have the sizes of the C arrays.

    ** Not modelled

    libsodium and the kernel are parameters. The log calls of the client and the
    debug output of the other programs are left out. [Roaming] assumes that the network
    delivers a CONNECT_REQ at most once, that a new socket has an address that was not in
    use before, that strangers send no CONNECT_REQ, and that the clients dial at most 254
    times in all: after that VPN addresses are handed out again (a theorem of
    [ClientManager]), and a CONNECT_REQ that arrives again after the server has dropped the
    client would admit its socket under another address, which the client does not learn;
    such histories are not covered. The web application in src/CloudService is a separate
    Java program. *)

From stdpp Require Export base numbers strings option list list_numbers.

#[global] Open Scope Z_scope.

(** ** Outcomes of C code

    A C function either returns or does not. The ways this code base can fail to
    return are kept apart: a store outside an object, a load outside an object, the
    dereference of a null pointer, the signal that kills a process which writes
    to a connection its peer has closed, and the freeing of memory that is not allocated. *)
Inductive fault := Overrun | Overread | NullDeref | SigPipe | BadFree.

Inductive res (A : Type) : Type :=
| Ok (a : A)
| Fault (f : fault).
Arguments Ok {A} a.
Arguments Fault {A} f.

#[export] Instance fault_eq_dec : EqDecision fault.
Proof. solve_decision. Defined.

#[export] Instance res_ret : MRet res := λ _ a, Ok a.
#[export] Instance res_bind : MBind res := λ _ _ k m,
  match m with Ok a => k a | Fault f => Fault f end.

(** Stateful C code: explicit state passing over [res]. *)
Definition M (S A : Type) : Type := S → res (A * S).

#[export] Instance M_ret {S} : MRet (M S) := λ _ a s, Ok (a, s).
#[export] Instance M_bind {S} : MBind (M S) := λ _ _ k m s,
  match m s with Ok (a, s') => k a s' | Fault f => Fault f end.

Definition gets {S A} (f : S → A) : M S A := λ s, Ok (f s, s).
Definition modify {S} (f : S → S) : M S () := λ s, Ok ((), f s).
Definition lift {S A} (r : res A) : M S A := λ s,
  match r with Ok a => Ok (a, s) | Fault f => Fault f end.

(** Runs code that owns the part [T] of the state. *)
Definition zoom {S T A} (get : S → T) (put : T → S → S) (m : M T A) : M S A := λ s,
  match m (get s) with Ok (a, t) => Ok (a, put t s) | Fault f => Fault f end.

(** [p] as a pointer to a live object: a null pointer faults. *)
Definition deref {A} (p : option A) : res A :=
  match p with Some a => Ok a | None => Fault NullDeref end.

Section monad_laws.
Context {S : Type}.

Lemma run_bind {A B} (m : M S A) (k : A → M S B) s :
  (m ≫= k) s = match m s with Ok (a, s') => k a s' | Fault f => Fault f end.
Proof. reflexivity. Qed.

Lemma run_bind_ok {A B} (m : M S A) (k : A → M S B) s a s' :
  m s = Ok (a, s') → (m ≫= k) s = k a s'.
Proof. intros E. by rewrite run_bind, E. Qed.

Lemma bind_ok_inv {A B} (m : M S A) (k : A → M S B) s r :
  (m ≫= k) s = Ok r → ∃ a s', m s = Ok (a, s') ∧ k a s' = Ok r.
Proof. rewrite run_bind. destruct (m s) as [[a s']|f]; naive_solver. Qed.

Lemma run_ret {A} (a : A) (s : S) : (mret a : M S A) s = Ok (a, s).
Proof. reflexivity. Qed.

Lemma run_gets {A} (f : S → A) s : gets f s = Ok (f s, s).
Proof. reflexivity. Qed.

Lemma run_modify (f : S → S) s : modify f s = Ok ((), f s).
Proof. reflexivity. Qed.

Lemma run_lift {A} (a : A) (s : S) : lift (Ok a) s = Ok (a, s).
Proof. reflexivity. Qed.

Lemma run_zoom {T A} (get : S → T) put (m : M T A) s :
  zoom get put m s =
  match m (get s) with Ok (a, t) => Ok (a, put t s) | Fault f => Fault f end.
Proof. reflexivity. Qed.

Lemma run_ret_bind {A B} (a : A) (f : A → M S B) s : (mret a ≫= f) s = f a s.
Proof. reflexivity. Qed.

Lemma run_bind_assoc {A B C} (m : M S A) (f : A → M S B) (g : B → M S C) s :
  ((m ≫= f) ≫= g) s = (m ≫= λ a, f a ≫= g) s.
Proof. rewrite !run_bind. by destruct (m s) as [[a s']|]. Qed.

Lemma run_bind_ext {A B} (m : M S A) (f g : A → M S B) s :
  (∀ a s, f a s = g a s) → (m ≫= f) s = (m ≫= g) s.
Proof. intros Hfg. rewrite !run_bind. by destruct (m s) as [[a s']|]. Qed.
End monad_laws.

(** Code that returns with [P], or fails with a fault of [F]. *)
Definition except {S A} (F : fault → Prop) (r : res (A * S)) (P : A → S → Prop) : Prop :=
  match r with Ok (a, s) => P a s | Fault x => F x end.

Section except.
Context {S : Type} (F : fault → Prop).

Lemma except_ok {A} (r : res (A * S)) a s (P : A → S → Prop) :
  r = Ok (a, s) → P a s → except F r P.
Proof. by intros ->. Qed.

Lemma except_weaken {A} (r : res (A * S)) (P Q : A → S → Prop) :
  except F r P → (∀ a s, P a s → Q a s) → except F r Q.
Proof. unfold except. destruct r as [[a s]|]; auto. Qed.

Lemma except_bind {A B} (m : M S A) (k : A → M S B) s (P : A → S → Prop) (Q : B → S → Prop) :
  except F (m s) P → (∀ a s', P a s' → except F (k a s') Q) → except F ((m ≫= k) s) Q.
Proof.
  rewrite run_bind. intros Hm Hk. destruct (m s) as [[a s']|]; [by apply Hk|exact Hm].
Qed.

Lemma except_zoom {T A} (get : S → T) put (m : M T A) s (P : A → T → Prop) :
  except F (m (get s)) P → except F (zoom get put m s) (λ a s', ∃ t, P a t ∧ s' = put t s).
Proof. rewrite run_zoom. destruct (m (get s)) as [[a t]|]; [by exists t|done]. Qed.
End except.

(** More faults are allowed. *)
Lemma except_mono {S A} (F G : fault → Prop) (r : res (A * S)) P :
  (∀ f, F f → G f) → except F r P → except G r P.
Proof. intros HF. unfold except. destruct r as [[a s]|f]; auto. Qed.

(** Code without faults returns. *)
Lemma except_returns {S A} (r : res (A * S)) P :
  except (λ _, False) r P → ∃ a s, r = Ok (a, s) ∧ P a s.
Proof. destruct r as [[a s]|]; [by exists a, s|done]. Qed.

Create Rewrite HintDb run.
#[export] Hint Rewrite @run_bind @run_ret @run_gets @run_modify @run_lift @run_zoom : run.

(** Symbolic execution of one straight-line stretch of monadic code. *)
Ltac run := repeat (progress (autorewrite with run; cbn beta iota)).
(** Splits an execution [H : (m ≫= k) s = Ok r] into its first step and the rest. *)
Ltac run_inv H :=
  let a := fresh "a" in let s := fresh "s" in let H1 := fresh "Hrun" in
  apply bind_ok_inv in H as (a & s & H1 & H).

Lemma filter_fresh (fd : Z) (l : list Z) : fd ∉ l → filter (λ x, x ≠ fd) l = l.
Proof.
  intros Hfd. induction l as [|x l IH]; [done|]. apply not_elem_of_cons in Hfd as [? ?].
  rewrite filter_cons_True by done. by rewrite IH.
Qed.

(** ** Machine integers *)
Definition u8 (x : Z) : Z := x `mod` 2 ^ 8.
Definition u16 (x : Z) : Z := x `mod` 2 ^ 16.
Definition u32 (x : Z) : Z := x `mod` 2 ^ 32.
Definition u64 (x : Z) : Z := x `mod` 2 ^ 64.

(** [x] is a value of the [n]-byte unsigned type. *)
Definition is_uint (n x : Z) : Prop := 0 ≤ x < 2 ^ (8 * n).
#[export] Instance is_uint_dec n x : Decision (is_uint n x).
Proof. unfold is_uint. apply _. Defined.

Definition bytes (l : list Z) : Prop := Forall (λ b, 0 ≤ b < 2 ^ 8) l.
#[export] Instance bytes_dec l : Decision (bytes l).
Proof. unfold bytes. apply _. Defined.

(** ** Lengths and slices *)
Definition zlen {A} (l : list A) : Z := Z.of_nat (length l).
Definition slice {A} (off n : Z) (l : list A) : list A :=
  take (Z.to_nat n) (drop (Z.to_nat off) l).

Section slices.
Context {A : Type}.
Implicit Types l : list A.

Lemma zlen_nonneg l : 0 ≤ zlen l.
Proof. unfold zlen. lia. Qed.

Lemma zlen_nil : zlen (@nil A) = 0.
Proof. reflexivity. Qed.

Lemma zlen_cons x l : zlen (x :: l) = 1 + zlen l.
Proof. unfold zlen. simpl. lia. Qed.

Lemma zlen_app l1 l2 : zlen (l1 ++ l2) = zlen l1 + zlen l2.
Proof. unfold zlen. rewrite length_app. lia. Qed.

Lemma zlen_take n l : 0 ≤ n → zlen (take (Z.to_nat n) l) = n `min` zlen l.
Proof. unfold zlen. rewrite length_take. lia. Qed.

Lemma zlen_drop n l : 0 ≤ n → zlen (drop (Z.to_nat n) l) = 0 `max` (zlen l - n).
Proof. unfold zlen. rewrite length_drop. lia. Qed.

Lemma zlen_replicate n (x : A) : zlen (replicate n x) = Z.of_nat n.
Proof. unfold zlen. by rewrite length_replicate. Qed.

Lemma zlen_insert i x l : zlen (<[i:=x]> l) = zlen l.
Proof. unfold zlen. by rewrite length_insert. Qed.

Lemma zlen_rev l : zlen (rev l) = zlen l.
Proof. unfold zlen. by rewrite length_rev. Qed.

Lemma zlen_slice off n l :
  0 ≤ off → 0 ≤ n → off + n ≤ zlen l → zlen (slice off n l) = n.
Proof. intros. unfold slice. rewrite zlen_take, zlen_drop; lia. Qed.

Lemma take_all_zlen n l : zlen l ≤ n → take (Z.to_nat n) l = l.
Proof. unfold zlen. intros. apply take_ge. lia. Qed.

(** The slice that starts behind a prefix, and the one that is the prefix. *)
Lemma slice_skip off n l1 l2 :
  zlen l1 ≤ off → slice off n (l1 ++ l2) = slice (off - zlen l1) n l2.
Proof.
  unfold slice, zlen. intros. rewrite drop_app_ge by lia. do 2 f_equal. lia.
Qed.

Lemma slice_hit n l1 l2 : zlen l1 = n → slice 0 n (l1 ++ l2) = l1.
Proof. unfold slice, zlen. intros <-. rewrite drop_0. apply take_app_length'. lia. Qed.

Lemma slice_all n l : zlen l = n → slice 0 n l = l.
Proof. unfold slice, zlen. intros <-. rewrite drop_0. apply take_ge. lia. Qed.

Lemma slice_within off n l1 l2 :
  0 ≤ off → 0 ≤ n → off + n ≤ zlen l1 → slice off n (l1 ++ l2) = slice off n l1.
Proof.
  unfold slice, zlen. intros. rewrite drop_app_le by lia.
  apply take_app_le. rewrite length_drop. lia.
Qed.

Lemma slice_slice off n off' n' l :
  0 ≤ off → 0 ≤ off' → 0 ≤ n' → off' + n' ≤ n →
  slice off' n' (slice off n l) = slice (off + off') n' l.
Proof.
  unfold slice. intros. apply list_eq. intros i.
  destruct (decide (Z.of_nat i < n')).
  - rewrite !lookup_take_lt, !lookup_drop, lookup_take_lt, lookup_drop by lia.
    f_equal. lia.
  - by rewrite !lookup_take_ge by lia.
Qed.
End slices.

Create Rewrite HintDb zlen.
#[export] Hint Rewrite @zlen_nil @zlen_cons @zlen_app @zlen_replicate @zlen_insert
  @zlen_rev : zlen.
#[export] Hint Rewrite @zlen_take @zlen_drop @zlen_slice using lia : zlen.

(** ** Little-endian objects in memory and network byte order *)

(** The bytes of an [n]-byte integer object on the (little-endian) host. *)
Definition le (n x : Z) : list Z := Z_to_little_endian n 8 x.
Definition le_val (l : list Z) : Z := little_endian_to_Z 8 l.
(** The bytes of [x] in network byte order. *)
Definition be (n x : Z) : list Z := rev (le n x).

(** <arpa/inet.h>, <endian.h>: on a little-endian host the conversions to and
    from network byte order reverse the bytes of the object. *)
Definition bswap (n x : Z) : Z := le_val (rev (le n x)).
Definition htons : Z → Z := bswap 2.
Definition ntohs : Z → Z := bswap 2.
Definition htonl : Z → Z := bswap 4.
Definition ntohl : Z → Z := bswap 4.
Definition htobe64 : Z → Z := bswap 8.
Definition be64toh : Z → Z := bswap 8.

Section endian.
Implicit Types n x : Z.

Lemma zlen_le n x : 0 ≤ n → zlen (le n x) = n.
Proof. apply length_Z_to_little_endian. Qed.

Lemma bytes_le n x : 0 ≤ n → bytes (le n x).
Proof. intros. by apply Z_to_little_endian_bound. Qed.

Lemma bytes_rev l : bytes l → bytes (rev l).
Proof. apply Forall_rev. Qed.

Lemma bytes_app l1 l2 : bytes (l1 ++ l2) ↔ bytes l1 ∧ bytes l2.
Proof. apply Forall_app. Qed.

Lemma le_val_le n x : 0 ≤ n → is_uint n x → le_val (le n x) = x.
Proof.
  intros Hn [??]. unfold le_val, le. rewrite little_endian_to_Z_to_little_endian by lia.
  apply Z.mod_small. rewrite Z.mul_comm. lia.
Qed.

Lemma le_le_val n l : zlen l = n → bytes l → le n (le_val l) = l.
Proof. intros <- ?. by apply Z_to_little_endian_to_Z. Qed.

Lemma le_val_uint n l : zlen l = n → bytes l → is_uint n (le_val l).
Proof.
  intros <- ?. unfold is_uint, le_val, zlen. rewrite Z.mul_comm.
  by apply little_endian_to_Z_bound.
Qed.

Lemma bswap_uint n x : 0 ≤ n → is_uint n (bswap n x).
Proof.
  intros. apply le_val_uint; [by rewrite zlen_rev, zlen_le|].
  by apply bytes_rev, bytes_le.
Qed.

(** What [htonl] stores is the big-endian representation. *)
Lemma le_bswap n x : 0 ≤ n → le n (bswap n x) = be n x.
Proof.
  intros. unfold bswap, be.
  apply le_le_val; [by rewrite zlen_rev, zlen_le|by apply bytes_rev, bytes_le].
Qed.

Lemma bswap_involutive n x : 0 ≤ n → is_uint n x → bswap n (bswap n x) = x.
Proof.
  intros. unfold bswap at 1. rewrite le_bswap by done. unfold be.
  by rewrite rev_involutive, le_val_le.
Qed.

Lemma bswap_inj n x y :
  0 ≤ n → is_uint n x → is_uint n y → bswap n x = bswap n y → x = y.
Proof.
  intros ? Hx Hy E. rewrite <-(bswap_involutive n x), <-(bswap_involutive n y) by done.
  by rewrite E.
Qed.
End endian.

#[export] Hint Rewrite @zlen_le using lia : zlen.
Create HintDb uint.
#[export] Hint Resolve bswap_uint bytes_le bytes_rev le_val_uint : uint.

(** The constants of the code that are lengths or sizes of objects. *)
Create HintDb sizes.

(** Decides lengths of concatenations and slices. *)
Ltac zlen :=
  autounfold with sizes in *; autorewrite with zlen; autounfold with sizes; lia.
(** Reads a field of a structure that was built as a concatenation of fields. *)
Ltac field :=
  repeat first
    [ rewrite slice_hit by zlen | rewrite slice_all by zlen
    | rewrite slice_skip by zlen; autorewrite with zlen; simpl Z.sub ].

(** ** Objects of fixed size

    A stack buffer or a structure is a list of bytes of fixed length; stores
    and loads outside of it fault. *)
Definition buf_write (b : list Z) (off : Z) (d : list Z) : res (list Z) :=
  if decide (0 ≤ off ∧ off + zlen d ≤ zlen b)
  then Ok (take (Z.to_nat off) b ++ d ++ drop (Z.to_nat (off + zlen d)) b)
  else Fault Overrun.
Definition buf_read (b : list Z) (off n : Z) : res (list Z) :=
  if decide (0 ≤ off ∧ 0 ≤ n ∧ off + n ≤ zlen b) then Ok (slice off n b)
  else Fault Overread.

Section buffers.
Implicit Types b d : list Z.

Lemma buf_write_ok b off d b' :
  buf_write b off d = Ok b' ↔
  (0 ≤ off ∧ off + zlen d ≤ zlen b) ∧
  b' = take (Z.to_nat off) b ++ d ++ drop (Z.to_nat (off + zlen d)) b.
Proof. unfold buf_write. case_decide; naive_solver. Qed.

Lemma buf_write_overrun b off d :
  0 ≤ off → zlen b < off + zlen d → buf_write b off d = Fault Overrun.
Proof. intros. unfold buf_write. rewrite decide_False; [done|lia]. Qed.

Lemma zlen_buf_write b off d b' : buf_write b off d = Ok b' → zlen b' = zlen b.
Proof. intros [[??] ->]%buf_write_ok. pose proof (zlen_nonneg d). zlen. Qed.

Lemma slice_buf_write b off d b' :
  buf_write b off d = Ok b' → slice off (zlen d) b' = d.
Proof.
  intros [[??] ->]%buf_write_ok. pose proof (zlen_nonneg d).
  assert (zlen (take (Z.to_nat off) b) = off) as E by zlen.
  rewrite slice_skip, E, Z.sub_diag by lia. by rewrite slice_hit.
Qed.

(** Filling a buffer from its start, field after field. *)
Lemma buf_write_0 b d : zlen d ≤ zlen b → buf_write b 0 d = Ok (d ++ drop (length d) b).
Proof.
  intros. apply buf_write_ok. split; [lia|]. unfold zlen. rewrite Z.add_0_l, Nat2Z.id. done.
Qed.

Lemma buf_write_app a b off d :
  off = zlen a → zlen d ≤ zlen b → buf_write (a ++ b) off d = Ok (a ++ d ++ drop (length d) b).
Proof.
  intros -> ?. apply buf_write_ok. pose proof (zlen_nonneg a). pose proof (zlen_nonneg d).
  split; [zlen|]. unfold zlen. rewrite Nat2Z.id, take_app_length. do 2 f_equal.
  rewrite drop_app_ge by lia. f_equal. lia.
Qed.

Lemma take_app_zlen a b n : n = zlen a → take (Z.to_nat n) (a ++ b) = a.
Proof. intros ->. unfold zlen. rewrite Nat2Z.id. apply take_app_length. Qed.

Lemma drop_app_zlen a b n : n = zlen a → drop (Z.to_nat n) (a ++ b) = b.
Proof. intros ->. unfold zlen. rewrite Nat2Z.id. apply drop_app_length. Qed.

Lemma zlen_drop_length d b : zlen d ≤ zlen b → zlen (drop (length d) b) = zlen b - zlen d.
Proof. unfold zlen. rewrite length_drop. lia. Qed.

Lemma buf_read_ok b off n :
  0 ≤ off → 0 ≤ n → off + n ≤ zlen b → buf_read b off n = Ok (slice off n b).
Proof. intros. unfold buf_read. by rewrite decide_True. Qed.
End buffers.

(** A header and the first bytes of another buffer, assembled in a buffer and read
    back from it. *)
Lemma assemble_packet (buf h p rest : list Z) hl :
  zlen h = hl → hl ≤ zlen buf →
  (b ← buf_write buf 0 h; d ← buf_read (p ++ rest) 0 (zlen p);
   b ← buf_write b hl d; buf_read b 0 (hl + zlen p)) =
  if decide (hl + zlen p ≤ zlen buf) then Ok (h ++ p) else Fault Overrun.
Proof.
  intros Hh Hb. pose proof (zlen_nonneg p). pose proof (zlen_nonneg rest).
  pose proof (zlen_nonneg h). rewrite buf_write_0 by lia. cbn [mbind res_bind].
  rewrite buf_read_ok, slice_hit by zlen. cbn [mbind res_bind].
  assert (zlen (drop (length h) buf) = zlen buf - hl) as Hd by (rewrite zlen_drop_length; lia).
  case_decide.
  - rewrite buf_write_app by lia. cbn [mbind res_bind].
    assert (zlen (drop (length p) (drop (length h) buf)) = zlen buf - hl - zlen p)
      by (rewrite zlen_drop_length; lia).
    rewrite app_assoc, buf_read_ok by zlen. by rewrite slice_hit by zlen.
  - by rewrite buf_write_overrun by zlen.
Qed.

(** The contents of uninitialised local arrays: [garbage f i] is the byte at index
    [i] of the array named [f]. Theorems quantify over all of them. *)
Class Garbage := garbage : string → nat → Z.
Definition local `{Garbage} (name : string) (n : Z) : list Z :=
  garbage name <$> seq 0 (Z.to_nat n).
#[global] Arguments local : simpl never.

(** Arrays that happen to hold zeros. *)
Definition zero_garbage : Garbage := λ _ _, 0.

Lemma zlen_local `{Garbage} name n : 0 ≤ n → zlen (local name n) = n.
Proof. intros. unfold zlen, local. rewrite length_fmap, length_seq. lia. Qed.
#[export] Hint Rewrite @zlen_local using lia : zlen.

(** ** Fixed tables of slots with an [active] flag

    Both the key table of the enclave and the client table of the server are
    arrays of slots searched from index 0. *)
Section slots.
Context {A : Type} (act : A → bool).
Implicit Types l : list A.

Definition nactive (l : list A) : nat := length (filter (λ e, act e = true) l).

Lemma nactive_cons x l : nactive (x :: l) = if act x then S (nactive l) else nactive l.
Proof. unfold nactive. rewrite filter_cons. by destruct (act x). Qed.

Lemma nactive_insert l i e e' :
  l !! i = Some e →
  (nactive (<[i:=e']> l) + Z.to_nat (Z.b2z (act e)) =
   nactive l + Z.to_nat (Z.b2z (act e')))%nat.
Proof.
  revert i. unfold nactive. induction l as [|x l IH]; intros [|i] Hi; simplify_eq/=.
  - rewrite !filter_cons. destruct (act e) eqn:?, (act e') eqn:?; simplify_option_eq; simpl; lia.
  - specialize (IH _ Hi). rewrite !filter_cons. case_decide; simpl; lia.
Qed.

(** The active slots after one slot was overwritten. *)
Lemma filter_insert_perm l i e e' :
  l !! i = Some e →
  filter (λ e, act e = true) (<[i:=e']> l) ++ filter (λ e, act e = true) [e] ≡ₚ
  filter (λ e, act e = true) [e'] ++ filter (λ e, act e = true) l.
Proof.
  intros Hi. rewrite <-(take_drop_middle _ _ _ Hi) at 2.
  rewrite insert_take_drop by (by eapply lookup_lt_Some).
  rewrite !filter_app, !(filter_cons _ _ (drop _ _)), !filter_cons, !filter_nil.
  repeat case_decide; solve_Permutation.
Qed.

(** Updating a slot in place keeps what [f] does not touch. *)
Lemma filter_alter_proj {B} (g : A → B) (f : A → A) l i :
  (∀ x, act (f x) = act x) → (∀ x, g (f x) = g x) →
  g <$> filter (λ e, act e = true) (alter f i l) = g <$> filter (λ e, act e = true) l.
Proof.
  intros Ha Hg. revert i. induction l as [|x l IH]; intros [|i]; try done.
  - change (alter f 0%nat (x :: l)) with (f x :: l).
    rewrite !filter_cons, Ha. case_decide; rewrite ?fmap_cons; by rewrite ?Hg.
  - change (alter f (S i) (x :: l)) with (x :: alter f i l).
    rewrite !filter_cons. case_decide; rewrite ?fmap_cons; by rewrite IH.
Qed.

Lemma nactive_le l : (nactive l ≤ length l)%nat.
Proof. apply length_filter. Qed.

Lemma nactive_replicate n e : act e = false → nactive (replicate n e) = 0%nat.
Proof.
  intros He. unfold nactive. induction n as [|n IH]; [done|]. simpl.
  rewrite filter_cons_False; [done|]. by rewrite He.
Qed.

(** A table with fewer active slots than slots has a free one. *)
Lemma free_slot l :
  (nactive l < length l)%nat → is_Some (list_find (λ e, act e = false) l).
Proof.
  unfold nactive. induction l as [|x l IH]; simpl; [lia|].
  rewrite filter_cons. destruct (act x) eqn:E; simplify_option_eq; simpl; [|eauto].
  intros. destruct IH as [[i y] Hy]; [lia|]. rewrite Hy. simpl. eauto.
Qed.

Lemma no_free_slot l :
  list_find (λ e, act e = false) l = None → nactive l = length l.
Proof.
  intros H. pose proof (nactive_le l).
  destruct (decide (nactive l < length l)%nat) as [Hlt|]; [|lia].
  destruct (free_slot l Hlt) as [? E]. by rewrite H in E.
Qed.

Lemma nactive_0 l : nactive l = 0%nat ↔ Forall (λ e, act e = false) l.
Proof.
  unfold nactive. induction l as [|x l IH]; simpl; [by split|].
  rewrite filter_cons, Forall_cons. destruct (act x); simplify_option_eq; simpl; [|tauto].
  split; [lia|naive_solver].
Qed.

(** Two active slots that agree on a unique attribute are the same slot. *)
Lemma active_unique {B} (f : A → B) l i j x y :
  NoDup (f <$> filter (λ e, act e = true) l) →
  l !! i = Some x → l !! j = Some y → act x = true → act y = true → f x = f y → i = j.
Proof.
  assert (∀ l j z b, l !! j = Some z → act z = true → f z = b →
    b ∈ (f <$> filter (λ e, act e = true) l)) as Hin.
  { intros l' j' z b Hz Ha <-. apply list_elem_of_fmap_2, list_elem_of_filter.
    split; [done|by eapply list_elem_of_lookup_2]. }
  revert i j. induction l as [|e l IH]; intros i j Hd Hi Hj Hx Hy E; [done|].
  rewrite filter_cons in Hd. destruct i as [|i], j as [|j]; simplify_eq/=; [done|..].
  - rewrite decide_True in Hd by done. apply NoDup_cons in Hd as [[] _]. by eapply Hin.
  - rewrite decide_True in Hd by done. apply NoDup_cons in Hd as [[] _]. by eapply Hin.
  - f_equal. eapply IH; eauto. case_decide; [|done]. by apply NoDup_cons in Hd as [_ ?].
Qed.
End slots.

Lemma filter_ext_elem {A} (P Q : A → Prop) `{∀ x, Decision (P x), ∀ x, Decision (Q x)}
    (l : list A) :
  (∀ x, x ∈ l → P x ↔ Q x) → filter P l = filter Q l.
Proof.
  induction l as [|x l IH]; intros HPQ; [done|]. rewrite !filter_cons.
  rewrite IH by (intros; apply HPQ; by right).
  pose proof (HPQ x (list_elem_of_here _ _)). repeat case_decide; tauto.
Qed.

(** Searching a table after one slot was overwritten. *)
Section find_insert.
Context {A : Type} (P : A → Prop) `{∀ x, Decision (P x)}.
Implicit Types l : list A.

Lemma list_find_insert_skip l i e e' :
  l !! i = Some e → ¬ P e → ¬ P e' → list_find P (<[i:=e']> l) = list_find P l.
Proof.
  revert i. induction l as [|x l IH]; intros [|i] Hi ??; simplify_eq/=.
  - by rewrite !decide_False.
  - case_decide; [done|]. by rewrite IH.
Qed.

Lemma list_find_insert_new l i e e' :
  l !! i = Some e → ¬ P e → P e' →
  list_find P (<[i:=e']> l) =
  match list_find P l with
  | Some (j, x) => if decide (j < i)%nat then Some (j, x) else Some (i, e')
  | None => Some (i, e')
  end.
Proof.
  revert i. induction l as [|x l IH]; intros [|i] Hi ??; simplify_eq/=.
  - rewrite decide_True, (decide_False (P := P e)) by done.
    by destruct (list_find P l) as [[j y]|].
  - case_decide; [by rewrite decide_True by lia|]. rewrite IH by done.
    destruct (list_find P l) as [[j y]|]; simpl; [|done].
    repeat case_decide; simpl; done || lia.
Qed.

(** Clearing the only matching slot leaves none. *)
Lemma list_find_insert_clear l i e e' :
  list_find P l = Some (i, e) → ¬ P e' →
  (∀ j x, l !! j = Some x → P x → j = i) → list_find P (<[i:=e']> l) = None.
Proof.
  intros (Hi & ? & ?)%list_find_Some ? Huniq. apply list_find_None, Forall_lookup.
  intros j x Hj HP. destruct (decide (i = j)) as [->|].
  - rewrite list_lookup_insert_eq in Hj by (eapply lookup_lt_Some; eauto). by simplify_eq.
  - rewrite list_lookup_insert_ne in Hj by done. naive_solver.
Qed.

Lemma list_find_lookup l i e : list_find P l = Some (i, e) → l !! i = Some e ∧ P e.
Proof. rewrite list_find_Some. naive_solver. Qed.
End find_insert.
