(* ===== verification/Os.v ===== *)
(** * The operating system and C library services the server process uses

    Every call whose answer the program cannot predict draws it from an
    environment: the value returned by the [k]-th call of a service is
    [env_... k]. The state counts the calls and records what left the process:
    the UDP datagrams handed to [sendto] and the packets written to the TUN
    device. Theorems quantify over all environments. *)

From S2P Require Import Prelude.

(** <netinet/in.h>: struct sockaddr_in; the address and the port are in
    network byte order. *)
Record sockaddr_in := SockAddrIn { sin_family : Z; sin_port : Z; sin_addr : Z }.

#[export] Instance sockaddr_in_eq_dec : EqDecision sockaddr_in.
Proof. solve_decision. Defined.

Definition AF_INET : Z := 2.

Class Env := {
  env_time : nat → Z;             (** time(NULL), in seconds *)
  env_timeofday : nat → Z * Z;    (** gettimeofday: tv_sec, tv_usec *)
  env_rand : nat → Z;             (** rand() *)
  env_sendto : nat → bool;        (** does sendto accept the datagram? *)
  env_write : nat → bool          (** does write on the TUN device succeed? *)
}.

(** An environment in which time stands still and every call succeeds. *)
Definition quiet_env : Env := {|
  env_time := λ _, 1000;
  env_timeofday := λ _, (1000, 0);
  env_rand := λ _, 7;
  env_sendto := λ _, true;
  env_write := λ _, true
|}.

Record os := Os {
  time_calls : nat;
  timeofday_calls : nat;
  rand_calls : nat;
  sendto_calls : nat;
  write_calls : nat;
  udp_out : list (sockaddr_in * list Z);
  tun_out : list (list Z)
}.

Definition os_boot : os := Os 0 0 0 0 0 [] [].

Section os.
Context `{Env}.

Definition time : M os Z := λ o,
  Ok (env_time (time_calls o),
      Os (S (time_calls o)) (timeofday_calls o) (rand_calls o) (sendto_calls o)
         (write_calls o) (udp_out o) (tun_out o)).

Definition gettimeofday : M os (Z * Z) := λ o,
  Ok (env_timeofday (timeofday_calls o),
      Os (time_calls o) (S (timeofday_calls o)) (rand_calls o) (sendto_calls o)
         (write_calls o) (udp_out o) (tun_out o)).

Definition rand : M os Z := λ o,
  Ok (env_rand (rand_calls o),
      Os (time_calls o) (timeofday_calls o) (S (rand_calls o)) (sendto_calls o)
         (write_calls o) (udp_out o) (tun_out o)).

(** A UDP socket accepts a datagram as a whole or fails with -1. *)
Definition sendto (buf : list Z) (dest : sockaddr_in) : M os Z := λ o,
  let ok := env_sendto (sendto_calls o) in
  Ok (if ok then zlen buf else -1,
      Os (time_calls o) (timeofday_calls o) (rand_calls o) (S (sendto_calls o))
         (write_calls o) (if ok then udp_out o ++ [(dest, buf)] else udp_out o)
         (tun_out o)).

(** A TUN device takes a packet as a whole or fails with -1. *)
Definition write (buf : list Z) : M os Z := λ o,
  let ok := env_write (write_calls o) in
  Ok (if ok then zlen buf else -1,
      Os (time_calls o) (timeofday_calls o) (rand_calls o) (sendto_calls o)
         (S (write_calls o)) (udp_out o)
         (if ok then tun_out o ++ [buf] else tun_out o)).
End os.

(** recvfrom on a datagram socket with a buffer of [size] bytes: the datagram
    is cut to the buffer; the rest of the buffer keeps its old contents. *)
Definition recv_datagram (buf d : list Z) : Z * list Z :=
  let n := zlen d `min` zlen buf in
  (n, take (Z.to_nat n) d ++ drop (Z.to_nat n) buf).

Lemma recv_datagram_zlen buf d n buf' :
  recv_datagram buf d = (n, buf') → zlen buf' = zlen buf ∧ 0 ≤ n ≤ zlen buf ∧ n ≤ zlen d.
Proof.
  intros [= <- <-]. pose proof (zlen_nonneg d). pose proof (zlen_nonneg buf).
  autorewrite with zlen. lia.
Qed.

(** The buffer after a datagram was read into it: the datagram, cut to the size of
    the buffer, and behind it what the buffer held before. *)
Lemma recv_datagram_cut buf d :
  recv_datagram buf d =
  (zlen (take (length buf) d), take (length buf) d ++ drop (length (take (length buf) d)) buf).
Proof.
  unfold recv_datagram.
  assert (zlen (take (length buf) d) = zlen d `min` zlen buf) as Hz.
  { unfold zlen. rewrite length_take. lia. }
  rewrite Hz. do 2 f_equal.
  - unfold zlen. destruct (decide (length d ≤ length buf)%nat).
    + rewrite !take_ge by lia. done.
    + f_equal. lia.
  - f_equal. unfold zlen in *. lia.
Qed.

(** ** <stdlib.h>: malloc and free

    Blocks are numbered as they are allocated, so a leak is visible in the set of live
    blocks, and freeing a block that is not live is a fault. *)
Record heap := Heap { next_block : Z; blocks : list Z }.
Definition heap_boot : heap := Heap 1 [].

(** [ok]: whether there is memory. *)
Definition malloc (ok : bool) : M heap (option Z) := λ h,
  if ok then Ok (Some (next_block h), Heap (next_block h + 1) (next_block h :: blocks h))
  else Ok (None, h).
Definition free (p : Z) : M heap () := λ h,
  if decide (p ∈ blocks h) then Ok ((), Heap (next_block h) (filter (λ b, b ≠ p) (blocks h)))
  else Fault BadFree.

Definition wf_heap (h : heap) : Prop :=
  NoDup (blocks h) ∧ Forall (λ p, p < next_block h) (blocks h).

Lemma malloc_run h :
  wf_heap h → ∃ p h', malloc true h = Ok (Some p, h') ∧ wf_heap h' ∧ blocks h' = p :: blocks h.
Proof.
  intros [Hnd Hlt]. eexists _, _. split; [reflexivity|]. split; [|done]. split; cbn.
  - apply NoDup_cons. split; [|done]. intros Hin. rewrite Forall_forall in Hlt.
    specialize (Hlt _ Hin). lia.
  - apply Forall_cons. split; [lia|]. eapply Forall_impl; [exact Hlt|]. cbn. lia.
Qed.

(** Freeing the block that was allocated last. *)
Lemma free_run p bs h :
  wf_heap h → blocks h = p :: bs → ∃ h', free p h = Ok ((), h') ∧ wf_heap h' ∧ blocks h' = bs.
Proof.
  intros [Hnd Hlt] E. rewrite E in Hnd, Hlt. apply NoDup_cons in Hnd as [Hp Hnd].
  apply Forall_cons in Hlt as [_ Hlt]. unfold free. rewrite E, decide_True by left.
  assert (filter (λ b, b ≠ p) (p :: bs) = bs) as Hf.
  { rewrite filter_cons_False by auto. by apply filter_fresh. }
  rewrite Hf. eexists. by split_and!.
Qed.

