(* ===== verification/Protocol.v ===== *)
(** * The VPN wire protocol (include/protocol.h, src/common/protocol.c)

    Packet headers and the fixed packets as packed C structures: the fields
    hold what the code stores in them, so multi-byte fields are in network
    byte order, and the bytes of a structure are the little-endian images of
    its fields in order. *)

From S2P Require Import Prelude Os.

Definition PKT_CONNECT_REQ : Z := 1.
Definition PKT_CONNECT_RESP : Z := 2.
Definition PKT_DATA : Z := 3.
Definition PKT_PING : Z := 4.
Definition PKT_PONG : Z := 5.
Definition PKT_DISCONNECT : Z := 6.
Definition VPN_PROTOCOL_VERSION : Z := 1.

Record vpn_header_t := VpnHeader {
  hdr_type : Z;
  hdr_version : Z;
  hdr_length : Z;
  hdr_sequence : Z;
  hdr_timestamp : Z
}.
Definition sizeof_vpn_header_t : Z := 16.

Record connect_request_t := ConnectRequest {
  req_header : vpn_header_t;
  req_username : list Z;
  req_auth_token : list Z
}.
Definition sizeof_connect_request_t : Z := 80.

Record connect_response_t := ConnectResponse {
  resp_header : vpn_header_t;
  resp_status : Z;
  resp_vpn_ip : Z;
  resp_session_id : Z;
  resp_server_public_key : list Z
}.
Definition sizeof_connect_response_t : Z := 57.

#[export] Hint Unfold sizeof_vpn_header_t sizeof_connect_request_t
  sizeof_connect_response_t : sizes.

(** ** Memory images of the packed structures *)
Definition vpn_header_bytes (h : vpn_header_t) : list Z :=
  le 1 (hdr_type h) ++ le 1 (hdr_version h) ++ le 2 (hdr_length h) ++ le 4 (hdr_sequence h) ++
  le 8 (hdr_timestamp h).
Definition vpn_header_of_bytes (b : list Z) : vpn_header_t :=
  VpnHeader (le_val (slice 0 1 b)) (le_val (slice 1 1 b)) (le_val (slice 2 2 b))
            (le_val (slice 4 4 b)) (le_val (slice 8 8 b)).

Definition connect_request_bytes (r : connect_request_t) : list Z :=
  vpn_header_bytes (req_header r) ++ req_username r ++ req_auth_token r.
Definition connect_request_of_bytes (b : list Z) : connect_request_t :=
  ConnectRequest (vpn_header_of_bytes b) (slice 16 32 b) (slice 48 32 b).

Definition connect_response_bytes (r : connect_response_t) : list Z :=
  vpn_header_bytes (resp_header r) ++ le 1 (resp_status r) ++ le 4 (resp_vpn_ip r) ++
  le 4 (resp_session_id r) ++ resp_server_public_key r.
Definition connect_response_of_bytes (b : list Z) : connect_response_t :=
  ConnectResponse (vpn_header_of_bytes b) (le_val (slice 16 1 b)) (le_val (slice 17 4 b))
                  (le_val (slice 21 4 b)) (slice 25 32 b).

Definition data_packet_bytes (h : vpn_header_t) (data : list Z) : list Z :=
  vpn_header_bytes h ++ data.

#[global] Arguments vpn_header_bytes : simpl never.
#[global] Arguments vpn_header_of_bytes : simpl never.
#[global] Arguments connect_request_of_bytes : simpl never.
#[global] Arguments connect_response_bytes : simpl never.
#[global] Arguments connect_response_of_bytes : simpl never.

(** ** Operations *)
Definition packet_type_str (t : Z) : string :=
  if decide (t = PKT_CONNECT_REQ) then "CONNECT_REQ"
  else if decide (t = PKT_CONNECT_RESP) then "CONNECT_RESP"
  else if decide (t = PKT_DATA) then "DATA"
  else if decide (t = PKT_PING) then "PING"
  else if decide (t = PKT_PONG) then "PONG"
  else if decide (t = PKT_DISCONNECT) then "DISCONNECT"
  else "UNKNOWN".

Section operations.
Context `{Env}.

(** (uint64_t)tv_sec * 1000 + (uint64_t)tv_usec / 1000, modulo 2^64 *)
Definition get_timestamp_ms : M os Z :=
  '(tv_sec, tv_usec) ← gettimeofday;
  mret (u64 (u64 tv_sec * 1000 + u64 tv_usec `div` 1000)).

(** [global_sequence] is the static counter of protocol.c. *)
Definition init_vpn_header (global_sequence t len : Z) : M os (vpn_header_t * Z) :=
  let global_sequence := u32 (global_sequence + 1) in
  ts ← get_timestamp_ms;
  mret (VpnHeader (u8 t) VPN_PROTOCOL_VERSION (htons (u16 len))
                  (htonl global_sequence) (htobe64 ts),
        global_sequence).
End operations.

(** ** Layout and round trips *)

(** The fields have the types of the structure. *)
Definition wf_header (h : vpn_header_t) : Prop :=
  is_uint 1 (hdr_type h) ∧ is_uint 1 (hdr_version h) ∧ is_uint 2 (hdr_length h) ∧
  is_uint 4 (hdr_sequence h) ∧ is_uint 8 (hdr_timestamp h).
Definition wf_connect_request (r : connect_request_t) : Prop :=
  wf_header (req_header r) ∧ zlen (req_username r) = 32 ∧ zlen (req_auth_token r) = 32.
Definition wf_connect_response (r : connect_response_t) : Prop :=
  wf_header (resp_header r) ∧ is_uint 1 (resp_status r) ∧ is_uint 4 (resp_vpn_ip r) ∧
  is_uint 4 (resp_session_id r) ∧ zlen (resp_server_public_key r) = 32.

Lemma zlen_vpn_header_bytes h : zlen (vpn_header_bytes h) = sizeof_vpn_header_t.
Proof. unfold vpn_header_bytes. zlen. Qed.
#[export] Hint Rewrite zlen_vpn_header_bytes : zlen.

Lemma zlen_connect_request_bytes r :
  wf_connect_request r → zlen (connect_request_bytes r) = sizeof_connect_request_t.
Proof.
  intros (_ & Hu & Ht). unfold connect_request_bytes. autorewrite with zlen. rewrite Hu, Ht.
  reflexivity.
Qed.

Lemma zlen_connect_response_bytes r :
  wf_connect_response r → zlen (connect_response_bytes r) = sizeof_connect_response_t.
Proof.
  intros (_ & _ & _ & _ & Hk). unfold connect_response_bytes. autorewrite with zlen.
  rewrite Hk. reflexivity.
Qed.

Lemma vpn_header_roundtrip h rest :
  wf_header h → vpn_header_of_bytes (vpn_header_bytes h ++ rest) = h.
Proof.
  intros (?&?&?&?&?). unfold vpn_header_of_bytes, vpn_header_bytes.
  rewrite <-!app_assoc. field. rewrite !le_val_le by done. by destruct h.
Qed.

Lemma connect_response_fields r :
  wf_connect_response r → connect_response_of_bytes (connect_response_bytes r) = r.
Proof.
  intros (Hh & ? & ? & ? & Hk). unfold connect_response_of_bytes, connect_response_bytes.
  rewrite vpn_header_roundtrip by done. field.
  rewrite !le_val_le by done. by destruct r.
Qed.

(** What follows a response in a buffer does not matter. *)
Lemma connect_response_prefix b rest :
  57 ≤ zlen b → connect_response_of_bytes (b ++ rest) = connect_response_of_bytes b.
Proof.
  intros. unfold connect_response_of_bytes, vpn_header_of_bytes.
  by rewrite !slice_within by lia.
Qed.

Lemma connect_request_fields r rest :
  wf_connect_request r → connect_request_of_bytes (connect_request_bytes r ++ rest) = r.
Proof.
  intros (Hh & Hu & Ht). unfold connect_request_of_bytes, connect_request_bytes.
  rewrite <-!app_assoc, vpn_header_roundtrip by done.
  assert (zlen (vpn_header_bytes (req_header r)) = 16) as Hl by zlen.
  rewrite (slice_skip 16), (slice_skip 48), Hl by lia. simpl Z.sub.
  rewrite (slice_skip 32), Hu by lia. simpl Z.sub. rewrite !slice_hit by done. by destruct r.
Qed.

Lemma init_vpn_header_run `{Env} g t len o :
  ∃ ts o', is_uint 8 ts ∧
    init_vpn_header g t len o =
    Ok ((VpnHeader (u8 t) VPN_PROTOCOL_VERSION (htons (u16 len)) (htonl (u32 (g + 1)))
                   (htobe64 ts), u32 (g + 1)), o') ∧
    time_calls o' = time_calls o ∧ rand_calls o' = rand_calls o ∧
    udp_out o' = udp_out o ∧ tun_out o' = tun_out o ∧
    sendto_calls o' = sendto_calls o ∧ write_calls o' = write_calls o.
Proof.
  destruct (env_timeofday (timeofday_calls o)) as [sec usec] eqn:E.
  eexists (u64 (u64 sec * 1000 + u64 usec `div` 1000)), _. split.
  { unfold u64. apply Z.mod_pos_bound. lia. }
  unfold init_vpn_header, get_timestamp_ms, gettimeofday. run. rewrite E. simpl.
  split; [reflexivity|]. done.
Qed.

Lemma uint_u8 x : is_uint 1 (u8 x).
Proof. apply Z.mod_pos_bound. lia. Qed.
Lemma uint_u16 x : is_uint 2 (u16 x).
Proof. apply Z.mod_pos_bound. lia. Qed.
Lemma uint_u32 x : is_uint 4 (u32 x).
Proof. apply Z.mod_pos_bound. lia. Qed.
#[export] Hint Resolve uint_u8 uint_u16 uint_u32 : uint.

Lemma wf_init_header t len seq ts :
  wf_header (VpnHeader (u8 t) VPN_PROTOCOL_VERSION (htons len) (htonl seq) (htobe64 ts)).
Proof.
  unfold wf_header, htons, htonl, htobe64; simpl.
  split_and!; try (apply bswap_uint; lia); [apply uint_u8|done].
Qed.

(** ** Properties *)

(** The fixed packets survive the wire: a CONNECT_REQ (80 bytes) and a
    CONNECT_RESP (57 bytes) that are read back from their bytes, the request also
    from a longer buffer, are the packets that were written. *)
Lemma connect_packets_roundtrip req resp rest :
  wf_connect_request req → wf_connect_response resp →
  zlen (connect_request_bytes req) = 80 ∧ zlen (connect_response_bytes resp) = 57 ∧
  connect_request_of_bytes (connect_request_bytes req ++ rest) = req ∧
  connect_response_of_bytes (connect_response_bytes resp) = resp.
Proof.
  intros. split_and!; auto using zlen_connect_request_bytes, zlen_connect_response_bytes,
    connect_request_fields, connect_response_fields.
Qed.

Section properties.
Context `{Env}.

(** The header on the wire: type and version bytes, then length, sequence
    number and time stamp in network byte order; the sequence number is the
    counter plus one modulo 2^32, which becomes the new counter. *)
Lemma header_wire_format g t len o :
  0 ≤ t < 256 → 0 ≤ len < 65536 →
  ∃ h ts o', init_vpn_header g t len o = Ok ((h, u32 (g + 1)), o') ∧ is_uint 8 ts ∧
    vpn_header_bytes h =
      le 1 t ++ le 1 1 ++ be 2 len ++ be 4 (u32 (g + 1)) ++ be 8 ts ∧
    udp_out o' = udp_out o ∧ tun_out o' = tun_out o.
Proof.
  intros Ht Hlen. destruct (init_vpn_header_run g t len o) as (ts & o' & Hts & E & _ & _ & ? & ? & _).
  eexists _, ts, o'. split_and!; [exact E|done| |done|done].
  unfold vpn_header_bytes, htons, htonl, htobe64.
  cbn [hdr_type hdr_version hdr_length hdr_sequence hdr_timestamp]. rewrite !le_bswap by lia.
  unfold u8, u16. by rewrite !Z.mod_small by lia.
Qed.

(** A process that builds one header after the other. *)
Fixpoint init_headers (g : Z) (l : list (Z * Z)) : M os (list vpn_header_t * Z) :=
  match l with
  | [] => mret ([], g)
  | (t, len) :: l =>
      '(h, g) ← init_vpn_header g t len;
      '(hs, g) ← init_headers g l;
      mret (h :: hs, g)
  end.

Lemma u32_add_l x y : u32 (u32 x + y) = u32 (x + y).
Proof. unfold u32. apply Z.add_mod_idemp_l. lia. Qed.

Lemma init_headers_run l g o :
  ∃ hs g' o', init_headers g l o = Ok ((hs, g'), o') ∧
    hdr_sequence <$> hs = (λ i, htonl (u32 (g + 1 + Z.of_nat i))) <$> seq 0 (length l).
Proof.
  revert g o. induction l as [|[t len] l IH]; intros g o; [by eexists _, _, _|].
  destruct (init_vpn_header_run g t len o) as (ts & o1 & _ & E1 & _).
  destruct (IH (u32 (g + 1)) o1) as (hs & g' & o2 & E2 & Hs).
  eexists _, _, _. split.
  - simpl. rewrite (run_bind_ok _ _ _ _ _ E1). cbn iota beta.
    rewrite (run_bind_ok _ _ _ _ _ E2). reflexivity.
  - rewrite fmap_cons, Hs. cbn [hdr_sequence length seq]. rewrite fmap_cons, <-fmap_S_seq.
    rewrite <-list_fmap_compose. f_equal; [do 2 f_equal; lia|].
    apply list_fmap_ext. intros i x _. unfold compose. f_equal.
    rewrite <-Z.add_assoc, u32_add_l. f_equal. lia.
Qed.

(** Sequence numbers are not repeated: the headers a process builds one
    after the other have different sequence numbers, up to 2^32 of them. *)
Lemma sequence_numbers_distinct l g o :
  Z.of_nat (length l) ≤ 2 ^ 32 →
  ∃ hs g' o', init_headers g l o = Ok ((hs, g'), o') ∧ length hs = length l ∧
    NoDup (hdr_sequence <$> hs).
Proof.
  intros Hl. destruct (init_headers_run l g o) as (hs & g' & o' & E & Hs).
  exists hs, g', o'. split_and!; [done| |].
  - apply (f_equal length) in Hs. by rewrite !length_fmap, length_seq in Hs.
  - rewrite Hs. apply NoDup_fmap_2_strong; [|apply NoDup_seq].
    intros i j Hi%elem_of_seq Hj%elem_of_seq Heq.
    apply (bswap_inj 4) in Heq; [|lia|apply uint_u32..]. unfold u32 in Heq.
    apply Z.cong_iff_ex in Heq as [k Hk].
    assert (k = 0) by nia. lia.
Qed.
End properties.

(** ** Instances of the properties *)
Example toy_connect_packets :
  let h := VpnHeader PKT_CONNECT_REQ 1 0 0 0 in
  let req := ConnectRequest h (replicate 32 97) (replicate 32 2) in
  let resp := ConnectResponse h 0 (htonl 0x0a080002) 5 (replicate 32 1) in
  zlen (connect_request_bytes req) = 80 ∧ zlen (connect_response_bytes resp) = 57 ∧
  connect_request_of_bytes (connect_request_bytes req ++ [1; 2]) = req ∧
  connect_response_of_bytes (connect_response_bytes resp) = resp.
Proof. intros h req resp. apply connect_packets_roundtrip; by vm_compute. Qed.

