(* ===== verification/IpcProtocol.v ===== *)
(** * The IPC protocol between server and enclave
    (include/ipc_protocol.h, src/common/ipc_protocol.c)

    Requests and responses are packed headers of 11 and 7 bytes followed by
    data; both are built in caller-supplied buffers of fixed size. *)

From S2P Require Import Prelude.

Definition IPC_MAX_DATA_SIZE : Z := 4096.

(** ipc_command_t *)
Definition IPC_PING : Z := 1.
Definition IPC_ENCRYPT : Z := 2.
Definition IPC_DECRYPT : Z := 3.
Definition IPC_ADD_KEY : Z := 4.
Definition IPC_REMOVE_KEY : Z := 5.
Definition IPC_HANDSHAKE : Z := 6.
Definition IPC_SHUTDOWN : Z := 255.

(** The fixed part of ipc_request_t. *)
Record ipc_request_t := IpcRequest {
  req_command : Z;
  req_request_id : Z;
  req_vpn_ip : Z;
  req_data_len : Z
}.
Definition sizeof_ipc_request_t : Z := 11.

(** The fixed part of ipc_response_t. *)
Record ipc_response_t := IpcResponse {
  resp_request_id : Z;
  resp_status : Z;
  resp_data_len : Z
}.
Definition sizeof_ipc_response_t : Z := 7.

Definition sizeof_ipc_add_key_data_t : Z := 32.
Definition sizeof_ipc_handshake_data_t : Z := 32.
Definition sizeof_ipc_handshake_response_t : Z := 64.

#[export] Hint Unfold IPC_MAX_DATA_SIZE sizeof_ipc_request_t sizeof_ipc_response_t
  sizeof_ipc_add_key_data_t sizeof_ipc_handshake_data_t
  sizeof_ipc_handshake_response_t : sizes.

(** int8_t *)
Definition i8 (x : Z) : Z := (x + 2 ^ 7) `mod` 2 ^ 8 - 2 ^ 7.

Definition ipc_request_bytes (r : ipc_request_t) : list Z :=
  le 1 (req_command r) ++ le 4 (req_request_id r) ++ le 4 (req_vpn_ip r) ++
  le 2 (req_data_len r).
Definition ipc_request_of_bytes (b : list Z) : ipc_request_t :=
  IpcRequest (le_val (slice 0 1 b)) (le_val (slice 1 4 b)) (le_val (slice 5 4 b))
             (le_val (slice 9 2 b)).

Definition ipc_response_bytes (r : ipc_response_t) : list Z :=
  le 4 (resp_request_id r) ++ le 1 (resp_status r) ++ le 2 (resp_data_len r).
Definition ipc_response_of_bytes (b : list Z) : ipc_response_t :=
  IpcResponse (le_val (slice 0 4 b)) (i8 (le_val (slice 4 1 b))) (le_val (slice 5 2 b)).

#[global] Arguments ipc_request_bytes : simpl never.
#[global] Arguments ipc_request_of_bytes : simpl never.
#[global] Arguments ipc_response_bytes : simpl never.
#[global] Arguments ipc_response_of_bytes : simpl never.

Definition ipc_command_str (command : Z) : string :=
  if decide (command = IPC_PING) then "PING"
  else if decide (command = IPC_ENCRYPT) then "ENCRYPT"
  else if decide (command = IPC_DECRYPT) then "DECRYPT"
  else if decide (command = IPC_ADD_KEY) then "ADD_KEY"
  else if decide (command = IPC_REMOVE_KEY) then "REMOVE_KEY"
  else if decide (command = IPC_HANDSHAKE) then "HANDSHAKE"
  else if decide (command = IPC_SHUTDOWN) then "SHUTDOWN"
  else "UNKNOWN".

(** if (data && data_len > 0) memcpy(buf + off, data, data_len); *)
Definition copy_data (buf : list Z) (off : Z) (data : option (list Z)) (data_len : Z) :
    res (list Z) :=
  match data with
  | Some d =>
      if decide (0 < data_len) then src ← buf_read d 0 data_len; buf_write buf off src
      else Ok buf
  | None => Ok buf
  end.

(** Builds the request in the buffer [req]; [global_request_id] is the static
    counter of ipc_protocol.c, its new value is the second result. *)
Definition init_ipc_request (req : list Z) (global_request_id command vpn_ip : Z)
    (data : option (list Z)) (data_len : Z) : res (list Z * Z) :=
  let data_len := u16 data_len in
  let global_request_id := u32 (global_request_id + 1) in
  req ← buf_write req 0
    (ipc_request_bytes (IpcRequest (u8 command) (htonl global_request_id) vpn_ip (htons data_len)));
  req ← copy_data req sizeof_ipc_request_t data data_len;
  Ok (req, global_request_id).

Definition init_ipc_response (resp : list Z) (request_id status : Z)
    (data : option (list Z)) (data_len : Z) : res (list Z) :=
  let data_len := u16 data_len in
  resp ← buf_write resp 0 (ipc_response_bytes (IpcResponse request_id status (htons data_len)));
  copy_data resp sizeof_ipc_response_t data data_len.

(** ** Layout and round trips *)
Definition wf_ipc_request (r : ipc_request_t) : Prop :=
  is_uint 1 (req_command r) ∧ is_uint 4 (req_request_id r) ∧ is_uint 4 (req_vpn_ip r) ∧
  is_uint 2 (req_data_len r).
Definition wf_ipc_response (r : ipc_response_t) : Prop :=
  is_uint 4 (resp_request_id r) ∧ -128 ≤ resp_status r < 128 ∧ is_uint 2 (resp_data_len r).

Lemma zlen_ipc_request_bytes r : zlen (ipc_request_bytes r) = sizeof_ipc_request_t.
Proof. unfold ipc_request_bytes. zlen. Qed.
Lemma zlen_ipc_response_bytes r : zlen (ipc_response_bytes r) = sizeof_ipc_response_t.
Proof. unfold ipc_response_bytes. zlen. Qed.
#[export] Hint Rewrite zlen_ipc_request_bytes zlen_ipc_response_bytes : zlen.

Lemma i8_le x : -128 ≤ x < 128 → i8 (le_val (le 1 x)) = x.
Proof.
  intros. unfold i8, le_val, le. rewrite little_endian_to_Z_to_little_endian by lia.
  simpl Z.mul. rewrite Z.add_mod_idemp_l by lia. rewrite Z.mod_small; lia.
Qed.

Lemma ipc_request_roundtrip r rest :
  wf_ipc_request r → ipc_request_of_bytes (ipc_request_bytes r ++ rest) = r.
Proof.
  intros (?&?&?&?). unfold ipc_request_of_bytes, ipc_request_bytes.
  rewrite <-!app_assoc. field. rewrite !le_val_le by done. by destruct r.
Qed.

Lemma ipc_response_roundtrip r rest :
  wf_ipc_response r → ipc_response_of_bytes (ipc_response_bytes r ++ rest) = r.
Proof.
  intros (?&?&?). unfold ipc_response_of_bytes, ipc_response_bytes.
  rewrite <-!app_assoc. field. rewrite i8_le, !le_val_le by done. by destruct r.
Qed.

(** A header and the data behind it, written into a buffer. *)
Lemma fill_packet buf h data off :
  zlen h = off → off + zlen data ≤ zlen buf →
  (buf ← buf_write buf 0 h; copy_data buf off (Some data) (zlen data)) =
  Ok (h ++ data ++ drop (length data) (drop (length h) buf)).
Proof.
  intros Hh Hb. pose proof (zlen_nonneg data). pose proof (zlen_nonneg h).
  rewrite buf_write_0 by lia. cbn [mbind res_bind]. unfold copy_data. case_decide.
  - rewrite buf_read_ok, slice_all by lia. cbn [mbind res_bind].
    apply buf_write_app; [done|rewrite zlen_drop_length; lia].
  - destruct data; [done|]. rewrite zlen_cons in *. pose proof (zlen_nonneg data). lia.
Qed.

Lemma fill_packet_overrun buf h data off :
  zlen h = off → zlen buf < off + zlen data →
  (buf ← buf_write buf 0 h; copy_data buf off (Some data) (zlen data)) = Fault Overrun.
Proof.
  intros Hh Hb. pose proof (zlen_nonneg data). pose proof (zlen_nonneg h).
  destruct (decide (zlen h ≤ zlen buf)).
  - rewrite buf_write_0 by lia. cbn [mbind res_bind]. unfold copy_data.
    rewrite decide_True by lia. rewrite buf_read_ok, slice_all by lia. cbn [mbind res_bind].
    apply buf_write_overrun; [lia|]. rewrite zlen_app, zlen_drop_length by lia. lia.
  - by rewrite buf_write_overrun by lia.
Qed.

(** ** Properties *)

(** What [init_ipc_request] and [init_ipc_response] build is read back as it
    was passed: command, next request id, VPN address, length and data of a
    request; id, signed status, length and data of a response. *)
Lemma ipc_packets_roundtrip buf g command ip id status data :
  is_uint 1 command → is_uint 4 ip → is_uint 4 id → -128 ≤ status < 128 →
  zlen data ≤ 65535 → 11 + zlen data ≤ zlen buf →
  (∃ b, init_ipc_request buf g command ip (Some data) (zlen data) = Ok (b, u32 (g + 1)) ∧
     zlen b = zlen buf ∧
     ipc_request_of_bytes b =
       IpcRequest command (htonl (u32 (g + 1))) ip (htons (zlen data)) ∧
     slice sizeof_ipc_request_t (zlen data) b = data) ∧
  (∃ b, init_ipc_response buf id status (Some data) (zlen data) = Ok b ∧
     zlen b = zlen buf ∧ ipc_response_of_bytes b = IpcResponse id status (htons (zlen data)) ∧
     slice sizeof_ipc_response_t (zlen data) b = data).
Proof.
  intros Hc Hip Hid Hst Hl Hb. pose proof (zlen_nonneg data).
  unfold init_ipc_request, init_ipc_response.
  replace (u8 command) with command by (symmetry; apply Z.mod_small; exact Hc).
  replace (u16 (zlen data)) with (zlen data) by (symmetry; apply Z.mod_small; lia).
  set (h1 := ipc_request_bytes _). set (h2 := ipc_response_bytes _).
  assert (zlen h1 = 11) as H1 by apply zlen_ipc_request_bytes.
  assert (zlen h2 = 7) as H2 by apply zlen_ipc_response_bytes.
  pose proof (fill_packet buf h1 data 11 H1 ltac:(lia)) as E1.
  pose proof (fill_packet buf h2 data 7 H2 ltac:(lia)) as E2.
  split; eexists; split.
  - rewrite buf_write_0 in E1 |- * by lia. cbn [mbind res_bind] in E1 |- *.
    change sizeof_ipc_request_t with 11. rewrite E1. reflexivity.
  - split_and!; [rewrite !zlen_app, !zlen_drop_length; rewrite ?zlen_drop_length; lia|..].
    + apply ipc_request_roundtrip. split_and!; simpl; try done; by apply bswap_uint.
    + by field.
  - exact E2.
  - split_and!; [rewrite !zlen_app, !zlen_drop_length; rewrite ?zlen_drop_length; lia|..].
    + apply ipc_response_roundtrip. split_and!; simpl; try done; [lia..|by apply bswap_uint].
    + by field.
Qed.

(** A buffer that is too small for the header and the data is overrun. *)
Lemma ipc_packet_overruns_small_buffer buf g command ip id status data :
  zlen data ≤ 65535 →
  (zlen buf < 11 + zlen data →
   init_ipc_request buf g command ip (Some data) (zlen data) = Fault Overrun) ∧
  (zlen buf < 7 + zlen data →
   init_ipc_response buf id status (Some data) (zlen data) = Fault Overrun).
Proof.
  intros Hl. pose proof (zlen_nonneg data). unfold init_ipc_request, init_ipc_response.
  replace (u16 (zlen data)) with (zlen data) by (symmetry; apply Z.mod_small; lia).
  set (h1 := ipc_request_bytes _). set (h2 := ipc_response_bytes _).
  assert (zlen h1 = 11) as H1 by apply zlen_ipc_request_bytes.
  assert (zlen h2 = 7) as H2 by apply zlen_ipc_response_bytes.
  split; intros Hb.
  - pose proof (fill_packet_overrun buf h1 data 11 H1 Hb) as E1.
    destruct (buf_write buf 0 h1); cbn [mbind res_bind] in E1 |- *; [|by simplify_eq].
    change sizeof_ipc_request_t with 11. by rewrite E1.
  - exact (fill_packet_overrun buf h2 data 7 H2 Hb).
Qed.

(** ** Instances of the properties *)
