(* ===== verification/Crypto.v ===== *)
(** * The cryptographic layer (include/crypto.h, src/enclave/crypto.c)

    libsodium is not part of the repository: its functions are the fields of
    the class [Sodium], and what the code relies on is the class [SodiumLaws]
    of their documented behaviour. *)

From S2P Require Import Prelude.

Definition CRYPTO_KEY_SIZE : Z := 32.
Definition CRYPTO_NONCE_SIZE : Z := 12.
Definition CRYPTO_MAC_SIZE : Z := 16.
#[export] Hint Unfold CRYPTO_KEY_SIZE CRYPTO_NONCE_SIZE CRYPTO_MAC_SIZE : sizes.

Class Sodium := {
  sodium_init : Z;
  (** crypto_aead_chacha20poly1305_ietf_encrypt/_decrypt without additional
      data: message, nonce, key; [None] when the function returns non-zero *)
  aead_encrypt : list Z → list Z → list Z → option (list Z);
  aead_decrypt : list Z → list Z → list Z → option (list Z);
  (** crypto_box_keypair, [k]-th call: public and secret key *)
  box_keypair : nat → list Z * list Z;
  (** crypto_box_beforenm: public key of the peer, own secret key *)
  box_beforenm : list Z → list Z → option (list Z);
  (** crypto_kdf_derive_from_key: subkey length, subkey id, context, master key *)
  kdf_derive_from_key : Z → Z → string → list Z → list Z;
  (** randombytes_buf, [k]-th call: size *)
  randombytes_buf : nat → Z → list Z
}.

(** Documented behaviour of libsodium. *)
Class SodiumLaws (L : Sodium) := {
  aead_encrypt_len m n k c :
    aead_encrypt m n k = Some c → zlen c = zlen m + CRYPTO_MAC_SIZE;
  (** decryption returns the message that was encrypted *)
  aead_decrypt_encrypt m n k c : aead_encrypt m n k = Some c → aead_decrypt c n k = Some m;
  (** a ciphertext that verifies has the length of the message plus the tag *)
  aead_decrypt_len c n k m :
    aead_decrypt c n k = Some m → zlen c = zlen m + CRYPTO_MAC_SIZE;
  aead_encrypt_bytes m n k c : bytes m → aead_encrypt m n k = Some c → bytes c;
  box_keypair_len i : zlen (box_keypair i).1 = 32 ∧ zlen (box_keypair i).2 = 32;
  box_keypair_bytes i : bytes (box_keypair i).1 ∧ bytes (box_keypair i).2;
  (** both sides of the exchange compute the same shared key *)
  box_beforenm_comm i j :
    box_beforenm (box_keypair i).1 (box_keypair j).2 =
    box_beforenm (box_keypair j).1 (box_keypair i).2;
  box_beforenm_len pk sk s : box_beforenm pk sk = Some s → zlen s = 32;
  kdf_len n i ctx k : 0 ≤ n → zlen (kdf_derive_from_key n i ctx k) = n;
  kdf_bytes n i ctx k : bytes (kdf_derive_from_key n i ctx k);
  randombytes_len i n : 0 ≤ n → zlen (randombytes_buf i n) = n;
  randombytes_bytes i n : bytes (randombytes_buf i n)
}.

Section crypto.
Context `{Sodium}.

Definition crypto_init : Z := if decide (sodium_init < 0) then -1 else 0.

(** The ciphertext and tag, or [None] for the result -1. *)
Definition crypto_encrypt (plaintext key nonce : list Z) : option (list Z) :=
  aead_encrypt plaintext nonce key.

Definition crypto_decrypt (ciphertext key nonce : list Z) : option (list Z) :=
  aead_decrypt ciphertext nonce key.

Definition crypto_generate_keypair (k : nat) : list Z * list Z := box_keypair k.

Definition crypto_ecdh (my_private_key their_public_key : list Z) : option (list Z) :=
  box_beforenm their_public_key my_private_key.

(** for (i = 0; i < CRYPTO_KEY_SIZE && i < salt_len; i++) session_key[i] ^= salt[i]; *)
Fixpoint xor_salt (session_key salt : list Z) : list Z :=
  match session_key, salt with
  | k :: ks, s :: ss => Z.lxor k s :: xor_salt ks ss
  | ks, _ => ks
  end.

Definition crypto_derive_session_key (shared_secret : list Z) (salt : option (list Z)) :
    list Z :=
  let session_key := kdf_derive_from_key CRYPTO_KEY_SIZE 1 "VPN_SESS" shared_secret in
  match salt with
  | Some salt => xor_salt session_key salt
  | None => session_key
  end.

Definition crypto_random_nonce (k : nat) : list Z := randombytes_buf k CRYPTO_NONCE_SIZE.
Definition crypto_random_key (k : nat) : list Z := randombytes_buf k CRYPTO_KEY_SIZE.
End crypto.

#[global] Arguments crypto_encrypt : simpl never.
#[global] Arguments crypto_decrypt : simpl never.
#[global] Arguments crypto_ecdh : simpl never.
#[global] Arguments crypto_derive_session_key : simpl never.
#[global] Arguments crypto_random_nonce : simpl never.
