(* ===== verification/ToySodium.v ===== *)
(** * A small concrete implementation of the libsodium interface

    It encrypts nothing, but it satisfies every law of [SodiumLaws], so the
    theorems that assume the laws can be evaluated on concrete inputs. *)

From S2P Require Import Prelude Crypto.

Definition toy_sum (l : list Z) : Z := foldr Z.add 0 l.
Definition toy_tag (m n k : list Z) : list Z :=
  replicate 16 (u8 (toy_sum m + toy_sum n + toy_sum k)).
Definition toy_encrypt (m n k : list Z) : option (list Z) := Some (m ++ toy_tag m n k).
Definition toy_decrypt (c n k : list Z) : option (list Z) :=
  let m := take (length c - 16)%nat c in
  if decide (drop (length c - 16)%nat c = toy_tag m n k) then Some m else None.
Definition toy_keypair (i : nat) : list Z * list Z :=
  let k := replicate 32 (1 + Z.of_nat i `mod` 255) in (k, k).
(** The all-zero public key is refused. *)
Definition toy_beforenm (pk sk : list Z) : option (list Z) :=
  if decide (zlen pk = 32 ∧ zlen sk = 32 ∧ pk ≠ replicate 32 0)
  then Some (zip_with (λ a b, u8 (a + b)) pk sk) else None.
Definition toy_kdf (n i : Z) (ctx : string) (k : list Z) : list Z :=
  take (Z.to_nat n) ((u8 <$> k) ++ replicate (Z.to_nat n) 0).

#[export] Instance toy_sodium : Sodium := {|
  sodium_init := 0;
  aead_encrypt := toy_encrypt;
  aead_decrypt := toy_decrypt;
  box_keypair := toy_keypair;
  box_beforenm := toy_beforenm;
  kdf_derive_from_key := toy_kdf;
  randombytes_buf := λ i n, replicate (Z.to_nat n) (u8 (Z.of_nat i))
|}.

Lemma toy_u8_bytes n x : bytes (replicate n (u8 x)).
Proof. apply Forall_replicate. apply Z.mod_pos_bound. lia. Qed.

Lemma toy_decrypt_len c n k m :
  toy_decrypt c n k = Some m → zlen c = zlen m + CRYPTO_MAC_SIZE.
Proof.
  unfold toy_decrypt. case_decide as Hd; intros [= <-].
  apply (f_equal length) in Hd as E. unfold toy_tag in E. rewrite length_replicate in E.
  rewrite length_drop in E. unfold zlen, CRYPTO_MAC_SIZE. rewrite length_take. lia.
Qed.

Lemma toy_key_byte i : 1 ≤ 1 + Z.of_nat i `mod` 255 ≤ 255.
Proof. pose proof (Z.mod_pos_bound (Z.of_nat i) 255). lia. Qed.

Lemma toy_key_nonzero i : (toy_keypair i).1 ≠ replicate 32 0.
Proof. pose proof (toy_key_byte i). intros E. injection E. lia. Qed.

Lemma toy_keypair_bytes i : bytes (toy_keypair i).1.
Proof. pose proof (toy_key_byte i). unfold toy_keypair. apply Forall_replicate. lia. Qed.

Lemma toy_beforenm_comm i j :
  toy_beforenm (toy_keypair i).1 (toy_keypair j).2 =
  toy_beforenm (toy_keypair j).1 (toy_keypair i).2.
Proof.
  pose proof (toy_key_nonzero i). pose proof (toy_key_nonzero j).
  unfold toy_beforenm. rewrite !decide_True by done. unfold toy_keypair. simpl.
  by rewrite (Z.add_comm (1 + Z.of_nat i `mod` 255) (1 + Z.of_nat j `mod` 255)).
Qed.

#[export] Instance toy_sodium_laws : SodiumLaws toy_sodium.
Proof.
  split; simpl.
  - intros ???? [= <-]. unfold toy_tag. zlen.
  - intros m n k ? [= <-]. unfold toy_decrypt.
    replace (length (m ++ toy_tag m n k) - 16)%nat with (length m)
      by (unfold toy_tag; rewrite length_app, length_replicate; lia).
    rewrite take_app_length, drop_app_length. by rewrite decide_True.
  - apply toy_decrypt_len.
  - intros ???? ? [= <-]. apply bytes_app. split; [done|apply toy_u8_bytes].
  - done.
  - intros i. split; apply toy_keypair_bytes.
  - apply toy_beforenm_comm.
  - unfold toy_beforenm. intros ?? s ?; simplify_option_eq. destruct_and!.
    unfold zlen in *. rewrite length_zip_with. lia.
  - intros. unfold toy_kdf. unfold zlen. rewrite length_take, length_app, length_replicate. lia.
  - intros. unfold toy_kdf, bytes. apply Forall_take, Forall_app. split.
    + apply Forall_fmap, Forall_true. intros. apply Z.mod_pos_bound. lia.
    + apply Forall_replicate. lia.
  - intros. zlen.
  - intros. apply toy_u8_bytes.
Qed.
