(* ===== verification/KeyManager.v ===== *)
(** * The enclave's key table (include/key_manager.h, src/enclave/key_manager.c)

    An array of [MAX_KEYS] slots maps VPN addresses to session keys; beside it
    the manager keeps the server's key pair. *)

From stdpp Require Import gmap.
From S2P Require Import Prelude Os Crypto ToySodium.

Definition MAX_KEYS : nat := 256.

Record key_entry_t := KeyEntry {
  key_vpn_ip : Z;
  key_session_key : list Z;
  key_active : bool
}.

Record key_manager_t := KeyManager {
  keys : list key_entry_t;
  key_count : Z;
  server_private_key : list Z;
  server_public_key : list Z
}.

(** The table after memset 0. *)
Definition zero_key_entry : key_entry_t := KeyEntry 0 (replicate 32 0) false.
Definition zero_keys : list key_entry_t := replicate MAX_KEYS zero_key_entry.
#[global] Arguments zero_keys : simpl never.

Section key_manager.
Context `{Sodium}.

(** [malloc_ok]: the result of malloc; [k]: index of the key pair drawn. *)
Definition init_key_manager (malloc_ok : bool) (k : nat) : option key_manager_t :=
  if malloc_ok then
    let '(pk, sk) := crypto_generate_keypair k in
    Some (KeyManager zero_keys 0 sk pk)
  else None.

(** The same with the block of memory that is allocated. *)
Definition new_key_manager (malloc_ok : bool) (k : nat) : M heap (option (Z * key_manager_t)) :=
  p ← malloc malloc_ok;
  match p, init_key_manager malloc_ok k with
  | Some p, Some km => mret (Some (p, km))
  | _, _ => mret None
  end.

(** The contents of the memory when it is handed to free: sodium_memzero. *)
Definition destroy_key_manager (km : option key_manager_t) : option key_manager_t :=
  match km with
  | Some _ => Some (KeyManager zero_keys 0
                               (replicate 32 0) (replicate 32 0))
  | None => None
  end.

(** The new table and 0, or the old one and -1 when no slot is free. *)
Definition add_key (km : key_manager_t) (vpn_ip : Z) (session_key : list Z) :
    Z * key_manager_t :=
  match list_find (λ e, key_active e = false) (keys km) with
  | Some (index, _) =>
      (0, KeyManager (<[index := KeyEntry vpn_ip session_key true]> (keys km))
                     (key_count km + 1) (server_private_key km) (server_public_key km))
  | None => (-1, km)
  end.

(** The predicate of the two search loops. *)
Definition key_matches (vpn_ip : Z) (e : key_entry_t) : Prop :=
  key_active e = true ∧ key_vpn_ip e = vpn_ip.
#[export] Instance key_matches_dec vpn_ip e : Decision (key_matches vpn_ip e).
Proof. unfold key_matches. apply _. Defined.

Definition get_key (km : key_manager_t) (vpn_ip : Z) : option (list Z) :=
  match list_find (key_matches vpn_ip) (keys km) with
  | Some (_, e) => Some (key_session_key e)
  | None => None
  end.

Definition remove_key (km : key_manager_t) (vpn_ip : Z) : key_manager_t :=
  match list_find (key_matches vpn_ip) (keys km) with
  | Some (i, e) =>
      KeyManager (<[i := KeyEntry (key_vpn_ip e) (replicate 32 0) false]> (keys km))
                 (key_count km - 1) (server_private_key km) (server_public_key km)
  | None => km
  end.

Definition get_server_public_key (km : key_manager_t) : list Z := server_public_key km.

(** The session key on success. The result of [add_key] is ignored, as in the
    code. *)
Definition perform_handshake (km : key_manager_t) (vpn_ip : Z)
    (client_public_key : list Z) : option (list Z) * key_manager_t :=
  match crypto_ecdh (server_private_key km) client_public_key with
  | None => (None, km)
  | Some shared_secret =>
      let session_key := crypto_derive_session_key shared_secret None in
      let '(_, km) := add_key km vpn_ip session_key in
      (Some session_key, km)
  end.
End key_manager.

(** ** Invariants *)

(** The table has its size and [count] is the number of active slots. *)
Definition wf_key_manager (km : key_manager_t) : Prop :=
  length (keys km) = MAX_KEYS ∧ key_count km = Z.of_nat (nactive key_active (keys km)).

(** No session key stays in a slot that is not active. *)
Definition wiped (km : key_manager_t) : Prop :=
  Forall (λ e, key_active e = false → key_session_key e = replicate 32 0) (keys km).

Definition active_keys (km : key_manager_t) : list key_entry_t :=
  filter (λ e, key_active e = true) (keys km).

(** At most one active slot per VPN address. *)
Definition unique_keys (km : key_manager_t) : Prop := NoDup (key_vpn_ip <$> active_keys km).

(** ** Abstraction: the key table as a finite map *)
Definition key_map (km : key_manager_t) : gmap Z (list Z) :=
  list_to_map ((λ e, (key_vpn_ip e, key_session_key e)) <$> active_keys km).

Lemma lookup_key_map km ip : key_map km !! ip = get_key km ip.
Proof.
  unfold key_map, active_keys, get_key. induction (keys km) as [|e l IH]; [done|].
  rewrite filter_cons; simpl. destruct (decide (key_matches ip e)) as [[? <-]|Hne].
  - rewrite decide_True by done. simpl. by rewrite lookup_insert_eq.
  - transitivity (list_to_map (M := gmap Z (list Z))
      ((λ e, (key_vpn_ip e, key_session_key e)) <$> filter (λ e, key_active e = true) l) !! ip).
    + unfold key_matches in Hne. case_decide; [|done]; simpl.
      rewrite lookup_insert_ne; naive_solver.
    + rewrite IH. by destruct (list_find _ l) as [[??]|].
Qed.

Lemma size_key_map km : unique_keys km → size (key_map km) = nactive key_active (keys km).
Proof.
  intros Hu. unfold key_map. rewrite map_size_list_to_map.
  - by rewrite length_fmap.
  - by rewrite <-list_fmap_compose.
Qed.

(** ** Lemmas on the operations *)
Section lemmas.
Context `{Sodium}.

Lemma free_not_matches ip e : key_active e = false → ¬ key_matches ip e.
Proof. unfold key_matches. intros ->. naive_solver. Qed.

Lemma add_key_fresh km ip k i e :
  list_find (λ e, key_active e = false) (keys km) = Some (i, e) →
  add_key km ip k =
  (0, KeyManager (<[i := KeyEntry ip k true]> (keys km)) (key_count km + 1)
                 (server_private_key km) (server_public_key km)).
Proof. intros Hf. unfold add_key. by rewrite Hf. Qed.

Lemma add_key_wf km ip k : wf_key_manager km → wf_key_manager (add_key km ip k).2.
Proof.
  unfold add_key. intros [Hl Hc]. destruct (list_find _ _) as [[i e]|] eqn:Hf; [|done].
  apply list_find_lookup in Hf as [Hi He]. split; simpl; [by rewrite length_insert|].
  pose proof (nactive_insert key_active _ _ _ (KeyEntry ip k true) Hi) as Hn.
  rewrite He in Hn. simpl in Hn. lia.
Qed.

Lemma remove_key_wf km ip : wf_key_manager km → wf_key_manager (remove_key km ip).
Proof.
  unfold remove_key. intros [Hl Hc]. destruct (list_find _ _) as [[i e]|] eqn:Hf; [|done].
  apply list_find_lookup in Hf as [Hi [He _]]. split; simpl; [by rewrite length_insert|].
  pose proof (nactive_insert key_active _ _ _
    (KeyEntry (key_vpn_ip e) (replicate 32 0) false) Hi) as Hn.
  rewrite He in Hn. simpl in Hn. lia.
Qed.

Lemma add_key_wiped km ip k : wiped km → wiped (add_key km ip k).2.
Proof.
  unfold add_key. intros Hw. destruct (list_find _ _) as [[i e]|]; [|done].
  by apply Forall_insert.
Qed.

Lemma remove_key_wiped km ip : wiped km → wiped (remove_key km ip).
Proof.
  unfold remove_key. intros Hw. destruct (list_find _ _) as [[i e]|]; [|done].
  by apply Forall_insert.
Qed.

(** A lookup of another address is not affected. *)
Lemma get_key_add_ne km ip ip' k :
  ip ≠ ip' → get_key (add_key km ip k).2 ip' = get_key km ip'.
Proof.
  intros Hne. unfold add_key. destruct (list_find _ _) as [[i e]|] eqn:Hf; [|done].
  apply list_find_lookup in Hf as [Hi He]. unfold get_key; simpl.
  erewrite list_find_insert_skip; eauto using free_not_matches.
  unfold key_matches. naive_solver.
Qed.

Lemma get_key_remove_ne km ip ip' :
  ip ≠ ip' → get_key (remove_key km ip) ip' = get_key km ip'.
Proof.
  intros Hne. unfold remove_key. destruct (list_find _ _) as [[i e]|] eqn:Hf; [|done].
  apply list_find_lookup in Hf as [Hi [??]]. unfold get_key; simpl.
  erewrite list_find_insert_skip; eauto; unfold key_matches; naive_solver.
Qed.

(** The key a lookup finds after [add_key]: the new one, unless an older
    entry for the address sits in a lower slot. *)
Lemma get_key_add_eq km ip k i e :
  list_find (λ e, key_active e = false) (keys km) = Some (i, e) →
  get_key (add_key km ip k).2 ip =
  match list_find (key_matches ip) (keys km) with
  | Some (j, old) => if decide (j < i)%nat then Some (key_session_key old) else Some k
  | None => Some k
  end.
Proof.
  intros Hf. rewrite (add_key_fresh _ _ _ _ _ Hf). unfold get_key; simpl.
  apply list_find_lookup in Hf as [Hi He].
  erewrite list_find_insert_new; eauto using free_not_matches; [|done].
  destruct (list_find (key_matches ip) (keys km)) as [[j old]|]; [|done].
  by case_decide.
Qed.

(** The keys the table holds for an address, in the order of the slots; the first is in
    force, and removing the address uncovers the next. *)
Definition held_keys (km : key_manager_t) (ip : Z) : list (list Z) :=
  key_session_key <$> filter (key_matches ip) (keys km).

Lemma get_key_held km ip : get_key km ip = head (held_keys km ip).
Proof.
  unfold get_key, held_keys. induction (keys km) as [|e l IH]; [done|].
  rewrite filter_cons. cbn [list_find]. case_decide; [done|]. rewrite <-IH.
  by destruct (list_find _ l) as [[??]|].
Qed.

Lemma held_keys_remove km ip : held_keys (remove_key km ip) ip = tail (held_keys km ip).
Proof.
  unfold held_keys, remove_key. destruct (list_find _ (keys km)) as [[i e]|] eqn:Hf; cbn [keys].
  - revert i Hf. induction (keys km) as [|x l IH]; intros i Hf; [done|]. cbn [list_find] in Hf.
    destruct (decide (key_matches ip x)) as [Hx|Hx].
    + injection Hf as <- <-. cbn [insert list_insert]. rewrite (filter_cons_True _ x) by done.
      rewrite filter_cons_False; [done|]. by intros [? _].
    + destruct (list_find (key_matches ip) l) as [[j y]|]; [|done]. injection Hf as <- <-.
      cbn [insert list_insert]. rewrite !filter_cons_False by done. by apply IH.
  - apply list_find_None in Hf. induction Hf as [|x l Hx _ IH]; [done|].
    by rewrite filter_cons_False.
Qed.

(** An address without a key gets the key, as long as a slot is free. *)
Lemma store_new_key km ip k :
  wf_key_manager km → key_count km < 256 → get_key km ip = None →
  (add_key km ip k).1 = 0 ∧ get_key (add_key km ip k).2 ip = Some k.
Proof.
  intros [Hl Hc] Hroom Hn.
  destruct (free_slot key_active (keys km)) as [[i e] Hf]; [unfold MAX_KEYS in *; lia|].
  split; [unfold add_key; by rewrite Hf|]. rewrite (get_key_add_eq _ _ _ _ _ Hf).
  unfold get_key in Hn. by destruct (list_find (key_matches ip) (keys km)) as [[??]|].
Qed.
End lemmas.

(** ** Refinement of a finite map *)

(** The promise of the component: a bounded finite map from VPN addresses to
    session keys. [None] marks the calls outside the contract: a second key for
    an address, or more than [MAX_KEYS] keys. *)
Inductive key_op := AddKey (ip : Z) (k : list Z) | RemoveKey (ip : Z).

Definition spec_step (m : gmap Z (list Z)) (op : key_op) : option (gmap Z (list Z)) :=
  match op with
  | AddKey ip k =>
      if decide (m !! ip = None ∧ (size m < MAX_KEYS)%nat) then Some (<[ip:=k]> m) else None
  | RemoveKey ip => Some (delete ip m)
  end.
Fixpoint spec_run (m : gmap Z (list Z)) (ops : list key_op) : option (gmap Z (list Z)) :=
  match ops with
  | [] => Some m
  | op :: ops => m ← spec_step m op; spec_run m ops
  end.

Definition key_step (km : key_manager_t) (op : key_op) : key_manager_t :=
  match op with
  | AddKey ip k => (add_key km ip k).2
  | RemoveKey ip => remove_key km ip
  end.
Definition key_run (km : key_manager_t) (ops : list key_op) : key_manager_t :=
  foldl key_step km ops.

Section refinement.
Context `{Sodium}.

Lemma get_key_None km ip : get_key km ip = None ↔ ip ∉ (key_vpn_ip <$> active_keys km).
Proof.
  rewrite <-lookup_key_map. unfold key_map. rewrite <-not_elem_of_list_to_map.
  by rewrite <-list_fmap_compose.
Qed.

Lemma add_key_active km ip k i e :
  list_find (λ e, key_active e = false) (keys km) = Some (i, e) →
  active_keys (add_key km ip k).2 ≡ₚ KeyEntry ip k true :: active_keys km.
Proof.
  intros Hf. rewrite (add_key_fresh _ _ _ _ _ Hf). apply list_find_lookup in Hf as [Hi He].
  pose proof (filter_insert_perm key_active _ _ _ (KeyEntry ip k true) Hi) as Hp.
  rewrite !filter_cons, !filter_nil in Hp. rewrite decide_False in Hp by (by rewrite He).
  rewrite decide_True, app_nil_r in Hp by done. exact Hp.
Qed.

Lemma remove_key_active km ip i e :
  list_find (key_matches ip) (keys km) = Some (i, e) →
  e :: active_keys (remove_key km ip) ≡ₚ active_keys km.
Proof.
  intros Hf. unfold remove_key. rewrite Hf. apply list_find_lookup in Hf as [Hi [He _]].
  pose proof (filter_insert_perm key_active _ _ _
    (KeyEntry (key_vpn_ip e) (replicate 32 0) false) Hi) as Hp.
  rewrite !filter_cons, !filter_nil in Hp.
  rewrite decide_True, (decide_False (P := key_active (KeyEntry _ _ _) = true)) in Hp by done.
  simpl in Hp. rewrite <-Hp. unfold active_keys. simpl. solve_Permutation.
Qed.

Lemma add_key_unique km ip k :
  unique_keys km → get_key km ip = None → unique_keys (add_key km ip k).2.
Proof.
  intros Hu Hn. destruct (list_find (λ e, key_active e = false) (keys km)) as [[i e]|] eqn:Hf.
  - unfold unique_keys. rewrite (add_key_active _ _ _ _ _ Hf). simpl.
    apply NoDup_cons. split; [by apply get_key_None|done].
  - unfold add_key. by rewrite Hf.
Qed.

Lemma remove_key_unique km ip : unique_keys km → unique_keys (remove_key km ip).
Proof.
  intros Hu. destruct (list_find (key_matches ip) (keys km)) as [[i e]|] eqn:Hf.
  - unfold unique_keys in *. rewrite <-(remove_key_active _ _ _ _ Hf) in Hu. simpl in Hu.
    by apply NoDup_cons in Hu as [_ ?].
  - unfold remove_key. by rewrite Hf.
Qed.

Lemma get_key_remove_eq km ip : unique_keys km → get_key (remove_key km ip) ip = None.
Proof.
  intros Hu. destruct (list_find (key_matches ip) (keys km)) as [[i e]|] eqn:Hf.
  - apply get_key_None. unfold unique_keys in Hu.
    rewrite <-(remove_key_active _ _ _ _ Hf) in Hu. simpl in Hu.
    apply NoDup_cons in Hu as [Hn _]. apply list_find_lookup in Hf as [_ [_ <-]]. done.
  - unfold remove_key, get_key. by rewrite !Hf.
Qed.

Lemma wf_free_slot km :
  wf_key_manager km → key_count km < Z.of_nat MAX_KEYS →
  ∃ i e, list_find (λ e, key_active e = false) (keys km) = Some (i, e).
Proof.
  intros [Hl Hc] ?. destruct (free_slot key_active (keys km)) as [[i e] ?]; [lia|eauto].
Qed.

Lemma add_key_map km ip k :
  wf_key_manager km → key_count km < Z.of_nat MAX_KEYS → get_key km ip = None →
  (add_key km ip k).1 = 0 ∧ key_map (add_key km ip k).2 = <[ip := k]> (key_map km).
Proof.
  intros Hwf Hc Hn. destruct (wf_free_slot km Hwf Hc) as (i & e & Hf). split.
  { by rewrite (add_key_fresh _ _ _ _ _ Hf). }
  apply map_eq. intros ip'. rewrite lookup_key_map. destruct (decide (ip = ip')) as [<-|].
  - rewrite lookup_insert_eq, (get_key_add_eq _ _ _ _ _ Hf).
    unfold get_key in Hn. by destruct (list_find (key_matches ip) _) as [[??]|].
  - by rewrite lookup_insert_ne, lookup_key_map, get_key_add_ne.
Qed.

Lemma remove_key_map km ip :
  unique_keys km → key_map (remove_key km ip) = delete ip (key_map km).
Proof.
  intros Hu. apply map_eq. intros ip'. rewrite lookup_key_map.
  destruct (decide (ip = ip')) as [<-|].
  - by rewrite lookup_delete_eq, get_key_remove_eq.
  - by rewrite lookup_delete_ne, lookup_key_map, get_key_remove_ne.
Qed.

(** The simulation relation between the table and the map. *)
Definition key_sim (km : key_manager_t) (m : gmap Z (list Z)) : Prop :=
  wf_key_manager km ∧ unique_keys km ∧ key_map km = m.

Lemma key_sim_step km m op m' :
  key_sim km m → spec_step m op = Some m' → key_sim (key_step km op) m'.
Proof.
  intros (Hwf & Hu & <-) Hs. destruct op as [ip k|ip]; simpl in Hs; simplify_option_eq.
  - destruct_and!. rewrite lookup_key_map in *. rewrite size_key_map in * by done.
    destruct Hwf as [Hl Hc] eqn:E. split_and!; simpl.
    + by apply add_key_wf.
    + by apply add_key_unique.
    + apply add_key_map; [done|lia|done].
  - split_and!; simpl; auto using remove_key_wf, remove_key_unique, remove_key_map.
Qed.

Lemma key_sim_run ops km m m' :
  key_sim km m → spec_run m ops = Some m' → key_sim (key_run km ops) m'.
Proof.
  revert km m. induction ops as [|op ops IH]; intros km m Hsim Hs; simplify_eq/=; [done|].
  destruct (spec_step m op) eqn:E; simplify_eq/=. eauto using key_sim_step.
Qed.

Lemma zero_keys_sim sk pk :
  key_sim (KeyManager zero_keys 0 sk pk) ∅ ∧ wiped (KeyManager zero_keys 0 sk pk).
Proof. repeat split; try done; [vm_compute; constructor|by apply Forall_replicate]. Qed.

Lemma init_key_manager_sim i km :
  init_key_manager true i = Some km → key_sim km ∅ ∧ wiped km.
Proof.
  unfold init_key_manager. destruct (crypto_generate_keypair i) as [pk sk].
  intros [= <-]. apply zero_keys_sim.
Qed.
End refinement.

(** ** Properties *)
Section properties.
Context `{Sodium}.

(** The states the enclave can bring the key table into. *)
Inductive km_reachable : key_manager_t → Prop :=
| reach_init i km : init_key_manager true i = Some km → km_reachable km
| reach_add km ip k : km_reachable km → km_reachable (add_key km ip k).2
| reach_remove km ip : km_reachable km → km_reachable (remove_key km ip)
| reach_handshake km ip pk :
    km_reachable km → km_reachable (perform_handshake km ip pk).2.

Lemma perform_handshake_fst_snd km ip pk :
  (perform_handshake km ip pk).2 = km ∨
  ∃ k, perform_handshake km ip pk = (Some k, (add_key km ip k).2).
Proof.
  unfold perform_handshake. destruct (crypto_ecdh _ _) as [s|]; [right|by left].
  destruct (add_key _ _ _) eqn:E. eexists. by rewrite E.
Qed.

Lemma km_reachable_inv km : km_reachable km → wf_key_manager km ∧ wiped km.
Proof.
  induction 1 as [i km Hi|km ip k _ [??]|km ip _ [??]|km ip pk _ [??]].
  - apply init_key_manager_sim in Hi as [(?&_&_) ?]. done.
  - split; [by apply add_key_wf|by apply add_key_wiped].
  - split; [by apply remove_key_wf|by apply remove_key_wiped].
  - destruct (perform_handshake_fst_snd km ip pk) as [->|[k ->]]; [done|].
    split; [by apply add_key_wf|by apply add_key_wiped].
Qed.

(** (C10) The key table refines a bounded finite map: along every sequence of
    [add_key] and [remove_key] calls that stays within the contract (no
    second key for an address, at most [MAX_KEYS] keys), the table started by
    [init_key_manager] answers [get_key] as the map does for every address. *)
Theorem key_table_refines_map i km ops m :
  init_key_manager true i = Some km → spec_run ∅ ops = Some m →
  ∀ ip, get_key (key_run km ops) ip = m !! ip.
Proof.
  intros [Hsim _]%init_key_manager_sim Hs ip. rewrite <-lookup_key_map.
  by destruct (key_sim_run _ _ _ _ Hsim Hs) as (_ & _ & ->).
Qed.
(** In every state the enclave can reach, the table has [MAX_KEYS] slots,
    [count] is the number of active ones (so it stays within 0..256) and no
    inactive slot holds key material. *)
Lemma key_table_invariant km :
  km_reachable km →
  length (keys km) = MAX_KEYS ∧
  key_count km = Z.of_nat (nactive key_active (keys km)) ∧
  0 ≤ key_count km ≤ 256 ∧
  (∀ i e, keys km !! i = Some e → key_active e = false →
          key_session_key e = replicate 32 0).
Proof.
  intros [[Hl Hc] Hw]%km_reachable_inv. pose proof (nactive_le key_active (keys km)).
  split_and!; try done; [lia|unfold MAX_KEYS in *; lia|].
  intros i e Hi. by apply (Forall_lookup_1 _ _ _ _ Hw Hi).
Qed.

(** ** Two keys for one address *)

Lemma find_free_mono km ip k i e j e' :
  list_find (λ e, key_active e = false) (keys km) = Some (i, e) →
  list_find (λ e, key_active e = false) (keys (add_key km ip k).2) = Some (j, e') →
  (i < j)%nat.
Proof.
  intros Hf. rewrite (add_key_fresh _ _ _ _ _ Hf); simpl.
  rewrite list_find_Some in Hf. destruct Hf as (Hi & _ & Hbef).
  intros (Hj & ? & _)%list_find_Some. pose proof (lookup_lt_Some _ _ _ Hi).
  destruct (decide (i = j)) as [<-|].
  - rewrite list_lookup_insert_eq in Hj by done. by simplify_eq.
  - rewrite list_lookup_insert_ne in Hj by done.
    destruct (decide (j < i)%nat); [by destruct (Hbef _ _ Hj)|lia].
Qed.

(** The slots after two keys were added for an address that had none. *)
Lemma add_key_twice km ip k1 k2 i e j e' :
  get_key km ip = None →
  list_find (λ e, key_active e = false) (keys km) = Some (i, e) →
  list_find (λ e, key_active e = false) (keys (add_key km ip k1).2) = Some (j, e') →
  let km2 := (add_key (add_key km ip k1).2 ip k2).2 in
  list_find (key_matches ip) (keys km2) = Some (i, KeyEntry ip k1 true) ∧
  get_key (remove_key km2 ip) ip = Some k2.
Proof.
  intros Hn Hf1 Hf2 km2. pose proof (find_free_mono _ _ _ _ _ _ _ Hf1 Hf2) as Hlt.
  assert (list_find (key_matches ip) (keys km) = None) as Hm.
  { unfold get_key in Hn. by destruct (list_find _ (keys km)) as [[??]|]. }
  subst km2. rewrite (add_key_fresh _ _ _ _ _ Hf2), (add_key_fresh _ _ _ _ _ Hf1) in *.
  simpl in *. apply list_find_lookup in Hf1 as [Hi He], Hf2 as [Hj Hej].
  assert (list_find (key_matches ip)
    (<[j:=KeyEntry ip k2 true]> (<[i:=KeyEntry ip k1 true]> (keys km))) =
    Some (i, KeyEntry ip k1 true)) as Hm2.
  { erewrite list_find_insert_new by eauto using free_not_matches || done.
    erewrite list_find_insert_new, Hm by eauto using free_not_matches || done.
    by rewrite decide_True. }
  split; [done|]. unfold remove_key; simpl. rewrite Hm2. unfold get_key; simpl.
  rewrite list_insert_insert_ne, list_insert_insert_eq by lia.
  rewrite list_lookup_insert_ne in Hj by lia.
  erewrite list_find_insert_new; [|rewrite list_lookup_insert_ne by lia; exact Hj| |done].
  - erewrite list_find_insert_skip by eauto using free_not_matches. by rewrite Hm.
  - by apply free_not_matches.
Qed.

Lemma perform_handshake_add km ip pk k km' :
  perform_handshake km ip pk = (Some k, km') → km' = (add_key km ip k).2.
Proof.
  unfold perform_handshake. destruct (crypto_ecdh _ _); [|done].
  destruct (add_key _ _ _) as [r km1] eqn:E. intros [= <- <-]. by rewrite E.
Qed.

(** (C31) A second handshake does not replace the key of the first: when an address has no
    key, two slots are free and two handshakes for it follow each other, the table
    keeps answering with the key of the first handshake while the second
    client was given another one, and removing the address uncovers the
    second key instead of leaving the address without a key. *)
Theorem second_handshake_keeps_first_key km ip pk1 pk2 k1 k2 km1 km2 :
  wf_key_manager km → key_count km + 1 < 256 → get_key km ip = None →
  perform_handshake km ip pk1 = (Some k1, km1) →
  perform_handshake km1 ip pk2 = (Some k2, km2) →
  get_key km2 ip = Some k1 ∧ get_key (remove_key km2 ip) ip = Some k2.
Proof.
  intros Hwf Hc Hn ->%perform_handshake_add ->%perform_handshake_add.
  destruct (wf_free_slot km Hwf) as (i & e & Hf); [unfold MAX_KEYS; lia|].
  destruct (wf_free_slot (add_key km ip k1).2) as (j & e' & Hf').
  { by apply add_key_wf. }
  { rewrite (add_key_fresh _ _ _ _ _ Hf). unfold MAX_KEYS; simpl; lia. }
  destruct (add_key_twice km ip k1 k2 i e j e' Hn Hf Hf') as [Hm ?].
  split; [|done]. unfold get_key. by rewrite Hm.
Qed.

(** With a full table a handshake still reports success and hands out a
    session key, but no key is stored: the address stays without one. *)
Lemma handshake_full_table_loses_key km ip pk s :
  wf_key_manager km → key_count km = 256 → get_key km ip = None →
  crypto_ecdh (server_private_key km) pk = Some s →
  ∃ k, perform_handshake km ip pk = (Some k, km) ∧
    get_key (perform_handshake km ip pk).2 ip = None.
Proof.
  intros [Hl Hc] Hfull Hn Hs. unfold perform_handshake. rewrite Hs.
  assert (list_find (λ e, key_active e = false) (keys km) = None) as Hf.
  { destruct (list_find _ _) as [[i e]|] eqn:E; [|done].
    pose proof (nactive_insert key_active _ _ _ (KeyEntry 0 [] true)
      (proj1 (list_find_lookup _ _ _ _ E))) as Hx.
    rewrite (proj2 (list_find_lookup _ _ _ _ E)) in Hx. simpl in Hx.
    pose proof (nactive_le key_active (<[i:=KeyEntry 0 [] true]> (keys km))) as Hle.
    rewrite length_insert in Hle. unfold MAX_KEYS in *. lia. }
  unfold add_key. rewrite Hf. eauto.
Qed.
(** What the server makes the enclave do when a client that it knows sends its
    CONNECT_REQ again and again: handshakes for one address. *)
Definition handshakes (km : key_manager_t) (ip : Z) (pks : list (list Z)) : key_manager_t :=
  foldl (λ km pk, (perform_handshake km ip pk).2) km pks.

Lemma perform_handshake_secret km ip pk :
  server_private_key (perform_handshake km ip pk).2 = server_private_key km.
Proof.
  unfold perform_handshake. destruct (crypto_ecdh _ _); [|done]. unfold add_key.
  by destruct (list_find _ _) as [[??]|].
Qed.

(** Each of them takes a slot, as long as there is one. *)
Lemma handshake_takes_slot km ip pk :
  wf_key_manager km → is_Some (crypto_ecdh (server_private_key km) pk) →
  wf_key_manager (perform_handshake km ip pk).2 ∧
  key_count (perform_handshake km ip pk).2 = Z.min 256 (key_count km + 1).
Proof.
  intros Hwf [s Hs]. unfold perform_handshake. rewrite Hs.
  set (k := crypto_derive_session_key s None). pose proof (add_key_wf km ip k Hwf) as Hwf'.
  assert (key_count (add_key km ip k).2 = Z.min 256 (key_count km + 1)) as Hc.
  { destruct Hwf as [Hl Hc]. unfold add_key. destruct (list_find _ _) as [[i e]|] eqn:Hf.
    - destruct Hwf' as [Hl' Hc']. rewrite (add_key_fresh _ _ _ _ _ Hf) in Hl', Hc'.
      cbn [snd keys key_count] in *.
      pose proof (nactive_le key_active (<[i:=KeyEntry ip k true]> (keys km))) as Hle.
      rewrite Hl' in Hle. unfold MAX_KEYS in *. lia.
    - apply no_free_slot in Hf. cbn [snd]. unfold MAX_KEYS in *. lia. }
  by destruct (add_key km ip k).
Qed.

Lemma handshakes_take_slots pks km ip :
  wf_key_manager km → Forall (λ pk, is_Some (crypto_ecdh (server_private_key km) pk)) pks →
  wf_key_manager (handshakes km ip pks) ∧
  key_count (handshakes km ip pks) = Z.min 256 (key_count km + zlen pks) ∧
  server_private_key (handshakes km ip pks) = server_private_key km ∧
  (∀ ip', ip ≠ ip' → get_key (handshakes km ip pks) ip' = get_key km ip').
Proof.
  revert km. induction pks as [|pk pks IH]; intros km Hwf Hpks; cbn [handshakes foldl].
  { split_and!; try done. destruct Hwf as [Hl Hc]. pose proof (nactive_le key_active (keys km)).
    unfold MAX_KEYS, zlen in *. cbn. lia. }
  apply Forall_cons in Hpks as [Hpk Hpks].
  destruct (handshake_takes_slot km ip pk Hwf Hpk) as [Hwf1 Hc1].
  destruct (IH (perform_handshake km ip pk).2 Hwf1) as (Hwf2 & Hc2 & Hs2 & Hg2).
  { by rewrite perform_handshake_secret. }
  fold (handshakes (perform_handshake km ip pk).2 ip pks). rewrite perform_handshake_secret in Hs2.
  split_and!; [done| |done|].
  - rewrite Hc2, Hc1. unfold zlen. cbn [length]. lia.
  - intros ip' Hne. rewrite Hg2 by done. unfold perform_handshake.
    destruct (crypto_ecdh _ _) as [s|]; [|done].
    rewrite <-(get_key_add_ne km ip ip' (crypto_derive_session_key s None) Hne).
    by destruct (add_key _ _ _).
Qed.

(** (C32) One client can use up the key table: after as many handshakes for its address as
    the table has free slots - a client that is connected need only repeat its CONNECT_REQ -
    the handshake of any other client that has no key yet, with a valid public key, still
    reports success and hands out a session key, but the enclave has no key for it, so
    nothing of its traffic can be carried. *)
Theorem repeated_handshakes_exhaust_table km ip ip' pks pk :
  wf_key_manager km → ip ≠ ip' → get_key km ip' = None → 256 - key_count km ≤ zlen pks →
  Forall (λ pk, is_Some (crypto_ecdh (server_private_key km) pk)) (pk :: pks) →
  ∃ k km', perform_handshake (handshakes km ip pks) ip' pk = (Some k, km') ∧
    get_key km' ip' = None.
Proof.
  intros Hwf Hne Hn Hlen [[s Hs] Hpks]%Forall_cons.
  destruct (handshakes_take_slots pks km ip Hwf Hpks) as (Hwf' & Hc & Hsec & Hg).
  destruct (handshake_full_table_loses_key (handshakes km ip pks) ip' pk s) as (k & E & Hk);
    [done|lia|by rewrite Hg|by rewrite Hsec|].
  rewrite E in Hk. by exists k, (handshakes km ip pks).
Qed.
End properties.

(** ** Instances of the properties on concrete tables *)
Definition toy_km : key_manager_t := KeyManager zero_keys 0 (replicate 32 1) (replicate 32 1).

Lemma key_table_refines_map_witness :
  get_key (key_run toy_km [AddKey 1 [10]; AddKey 2 [20]; RemoveKey 1]) 2 =
  (delete 1 (<[2:=[20]]> (<[1:=[10]]> ∅)) : gmap Z (list Z)) !! 2.
Proof. apply (key_table_refines_map 0); reflexivity. Defined.

Lemma second_handshake_keeps_first_key_witness :
  let km1 := (perform_handshake toy_km 9 (replicate 32 2)).2 in
  let km2 := (perform_handshake km1 9 (replicate 32 3)).2 in
  get_key km2 9 = Some (replicate 32 3) ∧ get_key (remove_key km2 9) 9 = Some (replicate 32 4).
Proof.
  intros km1 km2. apply (second_handshake_keeps_first_key toy_km 9 (replicate 32 2)
    (replicate 32 3) _ _ km1); [split| | | |]; vm_compute; reflexivity.
Defined.

Lemma repeated_handshakes_exhaust_table_witness :
  ∃ k km', perform_handshake (handshakes toy_km 9 (replicate 256 (replicate 32 2))) 10 (replicate 32 7) =
      (Some k, km') ∧ get_key km' 10 = None.
Proof.
  apply repeated_handshakes_exhaust_table; [by split|done|by vm_compute|by vm_compute|].
  apply Forall_cons. split; [by eexists|]. apply Forall_replicate. by eexists.
Defined.
