(* ===== verification/ClientManager.v ===== *)
(** * The server's client table
    (include/client_manager.h, src/server/client_manager.c)

    An array of [MAX_CLIENTS] slots holds the connected clients; a pointer to a
    slot is its index together with its contents. The functions that print a
    client return the values they display. *)

From S2P Require Import Prelude Os.

Definition MAX_CLIENTS : nat := 254.
Definition CLIENT_TIMEOUT : Z := 300.
(** 10.8.0.2 and 10.8.0.255 in host byte order *)
Definition FIRST_IP : Z := 0x0a080002.
Definition LAST_IP : Z := 0x0a0800ff.

Record client_entry_t := ClientEntry {
  vpn_ip : Z;                 (** network byte order *)
  real_addr : sockaddr_in;
  last_seen : Z;
  session_id : Z;
  active : bool
}.

Record client_table_t := ClientTable {
  clients : list client_entry_t;
  count : Z;
  next_ip : Z                 (** host byte order *)
}.

Definition set_last_seen (t : Z) (c : client_entry_t) : client_entry_t :=
  ClientEntry (vpn_ip c) (real_addr c) t (session_id c) (active c).
Definition set_inactive (c : client_entry_t) : client_entry_t :=
  ClientEntry (vpn_ip c) (real_addr c) (last_seen c) (session_id c) false.

(** The table after memset 0. *)
Definition zero_client_entry : client_entry_t := ClientEntry 0 (SockAddrIn 0 0 0) 0 0 false.
Definition zero_clients : list client_entry_t := replicate MAX_CLIENTS zero_client_entry.
#[global] Arguments zero_clients : simpl never.

Definition init_client_table (malloc_ok : bool) : option client_table_t :=
  if malloc_ok then Some (ClientTable zero_clients 0 FIRST_IP) else None.

(** The same with the block the table is in, and its end. *)
Definition new_client_table (malloc_ok : bool) : M heap (option (Z * client_table_t)) :=
  p ← malloc malloc_ok;
  match p, init_client_table malloc_ok with
  | Some p, Some t => mret (Some (p, t))
  | _, _ => mret None
  end.
Definition destroy_client_table (table : option Z) : M heap () :=
  match table with Some p => free p | None => mret () end.

(** The predicates of the two search loops. *)
Definition has_vpn_ip (ip : Z) (c : client_entry_t) : Prop :=
  active c = true ∧ vpn_ip c = ip.
#[export] Instance has_vpn_ip_dec ip c : Decision (has_vpn_ip ip c).
Proof. unfold has_vpn_ip. apply _. Defined.
Definition has_addr (addr : sockaddr_in) (c : client_entry_t) : Prop :=
  active c = true ∧ sin_addr (real_addr c) = sin_addr addr ∧
  sin_port (real_addr c) = sin_port addr.
#[export] Instance has_addr_dec addr c : Decision (has_addr addr c).
Proof. unfold has_addr. apply _. Defined.

Definition find_client_by_vpn_ip (t : client_table_t) (ip : Z) : option (nat * client_entry_t) :=
  list_find (has_vpn_ip ip) (clients t).
Definition find_client_by_addr (t : client_table_t) (addr : sockaddr_in) :
    option (nat * client_entry_t) :=
  list_find (has_addr addr) (clients t).

(** The values [print_client_info] displays. *)
Record client_info := ClientInfo {
  info_vpn_ip : Z; info_real_addr : Z; info_real_port : Z; info_session_id : Z;
  info_last_seen : Z
}.

Section operations.
Context `{Env}.

Definition generate_session_id : M os Z :=
  t ← time; r ← rand; mret (Z.lxor (u32 t) (u32 r)).

Definition update_client_activity (t : client_table_t) (i : nat) : M os client_table_t :=
  now ← time;
  mret (ClientTable (alter (set_last_seen now) i (clients t)) (count t) (next_ip t)).

Definition print_client_info (c : client_entry_t) : M os client_info :=
  now ← time;
  mret (ClientInfo (vpn_ip c) (sin_addr (real_addr c)) (ntohs (sin_port (real_addr c)))
                   (session_id c) (now - last_seen c)).

(** The number of active clients and, when there is one, each of them. *)
Fixpoint print_clients (i : nat) (l : list client_entry_t) : M os (list (nat * client_info)) :=
  match l with
  | [] => mret []
  | c :: l =>
      if active c then
        info ← print_client_info c; rest ← print_clients (S i) l; mret ((i, info) :: rest)
      else print_clients (S i) l
  end.
Definition print_client_table (t : client_table_t) : M os (Z * list (nat * client_info)) :=
  if decide (count t = 0) then mret (0, [])
  else infos ← print_clients 0 (clients t); mret (count t, infos).

(** The assigned VPN address, 0 on failure, and the new table. *)
Definition add_client (t : client_table_t) (addr : sockaddr_in) : M os (Z * client_table_t) :=
  if decide (Z.of_nat MAX_CLIENTS ≤ count t) then mret (0, t)
  else match find_client_by_addr t addr with
  | Some (i, existing) =>
      t ← update_client_activity t i;
      mret (vpn_ip existing, t)
  | None =>
      let vpn_ip_host := next_ip t in
      let vpn_ip_host := if decide (LAST_IP < vpn_ip_host) then FIRST_IP else vpn_ip_host in
      let vpn_ip := htonl vpn_ip_host in
      match list_find (λ c, active c = false) (clients t) with
      | None => mret (0, t)
      | Some (index, _) =>
          now ← time;
          sid ← generate_session_id;
          let client := ClientEntry vpn_ip addr now sid true in
          _ ← print_client_info client;
          mret (vpn_ip, ClientTable (<[index := client]> (clients t)) (count t + 1)
                                    (u32 (vpn_ip_host + 1)))
      end
  end.

Definition remove_client (t : client_table_t) (ip : Z) : M os client_table_t :=
  match find_client_by_vpn_ip t ip with
  | Some (i, client) =>
      _ ← print_client_info client;
      mret (ClientTable (<[i := set_inactive client]> (clients t)) (count t - 1) (next_ip t))
  | None => mret t
  end.

(** The loop of [check_client_timeouts] over the slots. *)
Fixpoint expire (now : Z) (l : list client_entry_t) (count : Z) : list client_entry_t * Z :=
  match l with
  | [] => ([], count)
  | c :: l =>
      let '(c, count) :=
        if active c then
          if decide (CLIENT_TIMEOUT < now - last_seen c) then (set_inactive c, count - 1)
          else (c, count)
        else (c, count) in
      let '(l, count) := expire now l count in
      (c :: l, count)
  end.
Definition check_client_timeouts (t : client_table_t) : M os client_table_t :=
  now ← time;
  let '(l, n) := expire now (clients t) (count t) in
  mret (ClientTable l n (next_ip t)).
End operations.

(** ** Invariant *)
Definition active_clients (t : client_table_t) : list client_entry_t :=
  filter (λ c, active c = true) (clients t).
Definition endpoint (c : client_entry_t) : Z * Z :=
  (sin_addr (real_addr c), sin_port (real_addr c)).

(** [ip] is an address of the pool 10.8.0.2 .. 10.8.0.255 in network order. *)
Definition in_pool (ip : Z) : Prop := ∃ host, FIRST_IP ≤ host ≤ LAST_IP ∧ ip = htonl host.

Record wf_table (t : client_table_t) : Prop := WfTable {
  wf_size : length (clients t) = MAX_CLIENTS;
  wf_count : count t = Z.of_nat (nactive active (clients t));
  wf_next : FIRST_IP ≤ next_ip t ≤ LAST_IP + 1;
  wf_pool : Forall (λ c, in_pool (vpn_ip c)) (active_clients t);
  wf_endpoints : NoDup (endpoint <$> active_clients t)
}.

(** ** The active clients after each kind of update *)
Section updates.
Implicit Types t : client_table_t.

Lemma active_insert_new l i c c' n ip :
  l !! i = Some c → active c = false → active c' = true →
  active_clients (ClientTable (<[i := c']> l) n ip) ≡ₚ
  c' :: filter (λ c, active c = true) l.
Proof.
  intros Hi Hc Hc'. pose proof (filter_insert_perm active _ _ _ c' Hi) as Hp.
  rewrite !filter_cons, !filter_nil in Hp. rewrite decide_False in Hp by (by rewrite Hc).
  rewrite decide_True, app_nil_r in Hp by done. exact Hp.
Qed.

Lemma active_insert_same l i c c' n ip :
  l !! i = Some c → active c = true → active c' = true →
  active_clients (ClientTable (<[i := c']> l) n ip) ++ [c] ≡ₚ
  c' :: filter (λ c, active c = true) l.
Proof.
  intros Hi Hc Hc'. pose proof (filter_insert_perm active _ _ _ c' Hi) as Hp.
  rewrite !filter_cons, !filter_nil in Hp. by rewrite !decide_True in Hp by done.
Qed.

Lemma active_insert_drop l i c n ip :
  l !! i = Some c → active c = true →
  c :: active_clients (ClientTable (<[i := set_inactive c]> l) n ip) ≡ₚ
  filter (λ c, active c = true) l.
Proof.
  intros Hi Hc. pose proof (filter_insert_perm active _ _ _ (set_inactive c) Hi) as Hp.
  rewrite !filter_cons, !filter_nil in Hp.
  rewrite (decide_True (P := active c = true)) in Hp by done.
  rewrite decide_False in Hp by done. simpl in Hp. rewrite <-Hp.
  unfold active_clients. simpl. solve_Permutation.
Qed.

(** The slots after a timeout check. *)
Definition expired (now : Z) (c : client_entry_t) : Prop :=
  active c = true ∧ CLIENT_TIMEOUT < now - last_seen c.
#[export] Instance expired_dec now c : Decision (expired now c).
Proof. unfold expired. apply _. Defined.
Definition keep (now : Z) (c : client_entry_t) : client_entry_t :=
  if decide (expired now c) then set_inactive c else c.

Lemma filter_keep now (l : list client_entry_t) :
  filter (λ c, active c = true) (keep now <$> l) =
  filter (λ c, ¬ expired now c) (filter (λ c, active c = true) l).
Proof.
  induction l as [|c l IH]; [done|]; simpl. unfold keep at 1.
  rewrite !filter_cons. destruct (decide (expired now c)) as [[Ha Ht]|Hn]; simpl.
  - rewrite (decide_True (P := active c = true)) by done.
    rewrite filter_cons, decide_False; [exact IH|]. intros Hne. by apply Hne.
  - case_decide; [|exact IH]. by rewrite filter_cons, decide_True, <-IH.
Qed.

Lemma expire_spec now (l : list client_entry_t) n :
  expire now l n =
  (keep now <$> l,
   n - Z.of_nat (nactive active l) + Z.of_nat (nactive active (keep now <$> l))).
Proof.
  assert (∀ c, expired now c → keep now c = set_inactive c) as Hk1.
  { intros c ?. unfold keep. by rewrite decide_True. }
  assert (∀ c, ¬ expired now c → keep now c = c) as Hk2.
  { intros c ?. unfold keep. by rewrite decide_False. }
  revert n. induction l as [|c l IH]; intros n; [simpl; f_equal; lia|].
  rewrite fmap_cons, !nactive_cons. cbn [expire]. destruct (active c) eqn:Ha.
  - case_decide.
    + rewrite IH, Hk1 by done. simpl. f_equal. lia.
    + rewrite IH, Hk2, Ha by (by intros []). f_equal. lia.
  - rewrite IH, Hk2, Ha by (intros []; congruence). done.
Qed.
End updates.

(** ** The operations preserve the invariant *)
Section preservation.
Context `{Env}.
Implicit Types t : client_table_t.

Lemma active_zero n ip : active_clients (ClientTable zero_clients n ip) = [].
Proof. reflexivity. Qed.

Lemma init_client_table_wf t : init_client_table true = Some t → wf_table t.
Proof. intros [= <-]. split; rewrite ?active_zero; done || constructor. Qed.

Lemma update_client_activity_run t i o :
  ∃ o', update_client_activity t i o =
    Ok (ClientTable (alter (set_last_seen (env_time (time_calls o))) i (clients t))
                    (count t) (next_ip t), o').
Proof. eexists. reflexivity. Qed.

Lemma update_wf t i now :
  wf_table t →
  wf_table (ClientTable (alter (set_last_seen now) i (clients t)) (count t) (next_ip t)).
Proof.
  intros [Hl Hc Hn Hp He]. split; simpl; try done.
  - by rewrite length_alter.
  - rewrite Hc. f_equal. unfold nactive.
    rewrite <-(length_fmap active), <-(length_fmap active (filter _ (alter _ _ _))).
    by rewrite filter_alter_proj.
  - unfold active_clients; simpl.
    rewrite <-(Forall_fmap vpn_ip in_pool) in *. by rewrite filter_alter_proj.
  - unfold active_clients; simpl. by rewrite filter_alter_proj.
Qed.

Lemma insert_wf t i c c' :
  wf_table t → clients t !! i = Some c → active c = false → active c' = true →
  in_pool (vpn_ip c') → endpoint c' ∉ (endpoint <$> active_clients t) →
  ∀ ip, FIRST_IP ≤ ip ≤ LAST_IP + 1 →
  wf_table (ClientTable (<[i := c']> (clients t)) (count t + 1) ip).
Proof.
  intros [Hl Hc Hn Hp He] Hi Ha Ha' Hpool Hfresh ip Hip. split; simpl; try done.
  - by rewrite length_insert.
  - pose proof (nactive_insert active _ _ _ c' Hi) as Hx. rewrite Ha, Ha' in Hx.
    simpl in Hx. lia.
  - rewrite (active_insert_new _ _ _ _ _ _ Hi Ha Ha'). by constructor.
  - rewrite (active_insert_new _ _ _ _ _ _ Hi Ha Ha'). simpl. by constructor.
Qed.

Lemma drop_wf t i c :
  wf_table t → clients t !! i = Some c → active c = true →
  wf_table (ClientTable (<[i := set_inactive c]> (clients t)) (count t - 1) (next_ip t)).
Proof.
  intros [Hl Hc Hn Hp He] Hi Ha. unfold active_clients in Hp, He.
  rewrite <-(active_insert_drop _ _ _ (count t - 1) (next_ip t) Hi Ha) in Hp, He.
  split; simpl; try done.
  - by rewrite length_insert.
  - pose proof (nactive_insert active _ _ _ (set_inactive c) Hi) as Hx.
    rewrite Ha in Hx. simpl in Hx. lia.
  - by apply Forall_cons in Hp as [_ ?].
  - simpl in He. by apply NoDup_cons in He as [_ ?].
Qed.

Lemma expire_wf t now l n :
  wf_table t → expire now (clients t) (count t) = (l, n) →
  wf_table (ClientTable l n (next_ip t)).
Proof.
  intros [Hl Hc Hn Hp He]. rewrite expire_spec. intros [= <- <-].
  split; simpl; try done.
  - by rewrite length_fmap.
  - lia.
  - unfold active_clients; simpl. rewrite filter_keep. apply Forall_forall.
    intros c [_ ?]%list_elem_of_filter. by eapply (proj1 (Forall_forall _ _) Hp).
  - unfold active_clients; simpl. rewrite filter_keep.
    eapply sublist_NoDup; [exact He|]. apply fmap_sublist, sublist_filter.
Qed.
End preservation.

(** ** Functional behaviour of the operations *)

(** The call sends and writes nothing. *)
Definition os_quiet (o o' : os) : Prop :=
  udp_out o' = udp_out o ∧ tun_out o' = tun_out o ∧
  sendto_calls o' = sendto_calls o ∧ write_calls o' = write_calls o.

(** The host-order address the next new client gets. *)
Definition alloc_ip (t : client_table_t) : Z :=
  if decide (LAST_IP < next_ip t) then FIRST_IP else next_ip t.

(** The three ways [add_client] can end on a well-formed table. *)
Inductive add_outcome (t : client_table_t) (addr : sockaddr_in) : Z → client_table_t → Prop :=
| add_full : count t = Z.of_nat MAX_CLIENTS → add_outcome t addr 0 t
| add_known i c now :
    count t < Z.of_nat MAX_CLIENTS → find_client_by_addr t addr = Some (i, c) →
    add_outcome t addr (vpn_ip c)
      (ClientTable (alter (set_last_seen now) i (clients t)) (count t) (next_ip t))
| add_new i c now sid :
    count t < Z.of_nat MAX_CLIENTS → find_client_by_addr t addr = None →
    list_find (λ c, active c = false) (clients t) = Some (i, c) →
    is_uint 4 sid →
    add_outcome t addr (htonl (alloc_ip t))
      (ClientTable (<[i := ClientEntry (htonl (alloc_ip t)) addr now sid true]> (clients t))
                   (count t + 1) (alloc_ip t + 1)).

Section functional.
Context `{Env}.
Implicit Types t : client_table_t.

Lemma count_le t : wf_table t → 0 ≤ count t ≤ Z.of_nat MAX_CLIENTS.
Proof.
  intros [Hl Hc _ _ _]. pose proof (nactive_le active (clients t)). lia.
Qed.

Lemma lxor_u32 x y : is_uint 4 (Z.lxor (u32 x) (u32 y)).
Proof.
  assert (∀ x, 0 ≤ u32 x < 2 ^ 32) as Hb by (intros; apply Z.mod_pos_bound; lia).
  unfold is_uint. apply Z.bounded_iff_bits_nonneg'; [lia|apply Z.lxor_nonneg; naive_solver lia|].
  intros l Hl. rewrite Z.lxor_spec.
  pose proof (Hb x) as Hx. pose proof (Hb y) as Hy.
  rewrite Z.bounded_iff_bits_nonneg' in Hx, Hy by lia. by rewrite Hx, Hy.
Qed.

Lemma alloc_ip_range t : wf_table t → FIRST_IP ≤ alloc_ip t ≤ LAST_IP.
Proof.
  intros [_ _ Hn _ _]. unfold alloc_ip, FIRST_IP, LAST_IP in *. case_decide; lia.
Qed.

Lemma add_client_run t addr o :
  wf_table t →
  ∃ ip t' o', add_client t addr o = Ok ((ip, t'), o') ∧ add_outcome t addr ip t' ∧
    os_quiet o o'.
Proof.
  intros Hwf. pose proof (count_le t Hwf). pose proof (alloc_ip_range t Hwf) as Ha.
  unfold add_client. case_decide.
  { eexists _, _, _. split_and!; [reflexivity|constructor; lia|done]. }
  destruct (find_client_by_addr t addr) as [[i c]|] eqn:Hf.
  { eexists _, _, _. split_and!; [reflexivity|eapply add_known; [lia|exact Hf]|done]. }
  destruct (list_find (λ c, active c = false) (clients t)) as [[i c]|] eqn:Hs.
  - eexists _, _, _. split_and!; [reflexivity| |done].
    fold (alloc_ip t). unfold u32 at 3. rewrite Z.mod_small
      by (unfold FIRST_IP, LAST_IP in *; lia).
    eapply add_new; eauto using lxor_u32; lia.
  - apply no_free_slot in Hs. destruct Hwf as [Hl Hc _ _ _]. lia.
Qed.

Lemma add_outcome_wf t addr ip t' : wf_table t → add_outcome t addr ip t' → wf_table t'.
Proof.
  intros Hwf Ho. destruct Ho as [|i c now|i c now sid ? Hf Hs]; [done|by apply update_wf|].
  pose proof (alloc_ip_range t Hwf). pose proof Hs as [Hi Hc]%list_find_lookup.
  eapply insert_wf; eauto; [by exists (alloc_ip t)| |lia].
  apply list_find_None in Hf. rewrite Forall_forall in Hf.
  intros (c' & Heq & Hin)%list_elem_of_fmap.
  apply list_elem_of_filter in Hin as [? Hin]. apply (Hf _ Hin).
  injection Heq as ??. unfold has_addr. naive_solver.
Qed.

Lemma remove_client_run t ip o :
  ∃ t' o', remove_client t ip o = Ok (t', o') ∧ os_quiet o o' ∧
    t' = match find_client_by_vpn_ip t ip with
         | Some (i, c) => ClientTable (<[i := set_inactive c]> (clients t)) (count t - 1)
                                      (next_ip t)
         | None => t
         end.
Proof.
  unfold remove_client. destruct (find_client_by_vpn_ip t ip) as [[i c]|];
    eexists _, _; (split_and!; [reflexivity|done|reflexivity]).
Qed.

Lemma remove_client_wf t ip o t' o' :
  wf_table t → remove_client t ip o = Ok (t', o') → wf_table t'.
Proof.
  intros Hwf Hr. destruct (remove_client_run t ip o) as (t2 & o2 & E & _ & Ht).
  rewrite E in Hr. injection Hr as <- <-. rewrite Ht.
  destruct (find_client_by_vpn_ip t ip) as [[i c]|] eqn:Hf; [|done].
  apply list_find_lookup in Hf as [Hi [Ha _]]. by apply drop_wf.
Qed.

Lemma check_client_timeouts_run t o :
  ∃ o', check_client_timeouts t o =
    Ok (ClientTable (keep (env_time (time_calls o)) <$> clients t)
         (count t - Z.of_nat (nactive active (clients t)) +
          Z.of_nat (nactive active (keep (env_time (time_calls o)) <$> clients t)))
         (next_ip t), o').
Proof.
  eexists. unfold check_client_timeouts, time. run. rewrite expire_spec. reflexivity.
Qed.

Lemma check_client_timeouts_wf t o t' o' :
  wf_table t → check_client_timeouts t o = Ok (t', o') → wf_table t'.
Proof.
  intros Hwf Hr. destruct (check_client_timeouts_run t o) as [o2 E]. rewrite E in Hr.
  injection Hr as <- <-. eapply expire_wf; [exact Hwf|apply expire_spec].
Qed.

Lemma check_client_timeouts_quiet t o t' o' :
  check_client_timeouts t o = Ok (t', o') → os_quiet o o'.
Proof.
  unfold check_client_timeouts, time. run. destruct (expire _ _ _). by intros [= <- <-].
Qed.

(** After [add_client] succeeded the client is found by its address. *)
Lemma add_outcome_find t addr ip t' :
  add_outcome t addr ip t' → ip ≠ 0 →
  ∃ i c, find_client_by_addr t' addr = Some (i, c) ∧ vpn_ip c = ip.
Proof.
  intros Ho Hip. destruct Ho as [|i c now ? Hf|i c now sid ? Hf Hs Hsid]; [done|..].
  - exists i, (set_last_seen now c). split; [|done]. unfold find_client_by_addr in *; simpl.
    apply list_find_Some in Hf as (Hi & Hc & Hbef). apply list_find_Some. split_and!.
    + rewrite list_lookup_alter_eq, Hi. done.
    + done.
    + intros j y Hj Hlt. rewrite list_lookup_alter_ne in Hj by lia. eauto.
  - exists i, (ClientEntry (htonl (alloc_ip t)) addr now sid true).
    split; [|done]. unfold find_client_by_addr in *; simpl.
    apply list_find_lookup in Hs as [Hi Hc].
    erewrite list_find_insert_new; [|exact Hi| |done].
    + by rewrite Hf.
    + unfold has_addr. rewrite Hc. naive_solver.
Qed.
End functional.

Lemma pool_uint host : FIRST_IP ≤ host ≤ LAST_IP + 1 → is_uint 4 host.
Proof. unfold FIRST_IP, LAST_IP, is_uint. simpl. lia. Qed.

Lemma htonl_pool_inj h h' :
  FIRST_IP ≤ h ≤ LAST_IP + 1 → FIRST_IP ≤ h' ≤ LAST_IP + 1 → htonl h = htonl h' → h = h'.
Proof. intros. eapply (bswap_inj 4); auto using pool_uint. lia. Qed.

Lemma in_pool_nonzero ip : in_pool ip → ip ≠ 0.
Proof.
  intros (host & Hh & ->) E. change 0 with (htonl 0) in E.
  apply (bswap_inj 4) in E; [|lia|apply pool_uint; lia|done].
  subst. unfold FIRST_IP in Hh. lia.
Qed.

Lemma in_pool_uint ip : in_pool ip → is_uint 4 ip.
Proof. intros (host & _ & ->). by apply bswap_uint. Qed.

Lemma add_outcome_ip t addr ip t' :
  wf_table t → add_outcome t addr ip t' →
  (ip = 0 ∧ count t = Z.of_nat MAX_CLIENTS ∧ t' = t) ∨
  (in_pool ip ∧ count t < Z.of_nat MAX_CLIENTS).
Proof.
  intros Hwf Ho. destruct Ho as [|i c now ? Hf|i c now sid]; [by left|right..].
  - split; [|done]. destruct Hwf as [_ _ _ Hp _].
    apply list_find_lookup in Hf as [Hi [Ha _]]. rewrite Forall_forall in Hp.
    apply Hp, list_elem_of_filter. split; [done|by eapply list_elem_of_lookup_2].
  - split; [|done]. exists (alloc_ip t). by split; [apply alloc_ip_range|].
Qed.

(** ** Reachable tables and properties *)
Section properties.
Context `{Env}.
Implicit Types t : client_table_t.

(** Tables the server can build with the operations of this component; [n]
    counts the clients that were admitted so far. *)
Inductive table_reachable : Z → client_table_t → Prop :=
| tr_init t : init_client_table true = Some t → table_reachable 0 t
| tr_add n t addr o ip t' o' :
    table_reachable n t → add_client t addr o = Ok ((ip, t'), o') →
    table_reachable (n + (count t' - count t)) t'
| tr_remove n t ip o t' o' :
    table_reachable n t → remove_client t ip o = Ok (t', o') → table_reachable n t'
| tr_timeouts n t o t' o' :
    table_reachable n t → check_client_timeouts t o = Ok (t', o') → table_reachable n t'
| tr_touch n t i o t' o' :
    table_reachable n t → update_client_activity t i o = Ok (t', o') → table_reachable n t'.

Lemma table_reachable_wf n t : table_reachable n t → wf_table t.
Proof.
  induction 1 as [t|n t addr o ip t' o' _ IH Hr|n t ip o t' o' _ IH Hr
    |n t o t' o' _ IH Hr|n t i o t' o' _ IH Hr].
  - by apply init_client_table_wf.
  - destruct (add_client_run t addr o IH) as (ip2 & t2 & o2 & E & Ho & _).
    rewrite E in Hr. injection Hr as <- <- <-. by eapply add_outcome_wf.
  - by eapply remove_client_wf.
  - by eapply check_client_timeouts_wf.
  - destruct (update_client_activity_run t i o) as [o2 E]. rewrite E in Hr.
    injection Hr as <- <-. by apply update_wf.
Qed.

(** (C21) The client table invariant: in every state the server can reach the
    table has [MAX_CLIENTS] slots, [count] is the number of active ones,
    every active client has an address of the pool 10.8.0.2..10.8.0.255 and no
    two active clients have the same real address and port. *)
Theorem client_table_invariant n t :
  table_reachable n t →
  length (clients t) = MAX_CLIENTS ∧
  count t = Z.of_nat (nactive active (clients t)) ∧
  0 ≤ count t ≤ 254 ∧
  Forall (λ c, in_pool (vpn_ip c)) (active_clients t) ∧
  NoDup (endpoint <$> active_clients t).
Proof.
  intros Hwf%table_reachable_wf. pose proof (count_le t Hwf).
  destruct Hwf. unfold MAX_CLIENTS in *. split_and!; done || lia.
Qed.

(** The entries and the table as the C types have them: uint32_t for the address and
    the session id of every slot, active or not, and for the next address; int for the
    number of clients. *)
Definition typed_entry (c : client_entry_t) : Prop := is_uint 4 (vpn_ip c) ∧ is_uint 4 (session_id c).

Lemma typed_insert l i c : Forall typed_entry l → typed_entry c → Forall typed_entry (<[i := c]> l).
Proof. intros. by apply Forall_insert. Qed.

Lemma typed_entries n t : table_reachable n t → Forall typed_entry (clients t).
Proof.
  induction 1 as [t Hi|n t addr o ip t' o' Ht IH Hr|n t ip o t' o' _ IH Hr
    |n t o t' o' _ IH Hr|n t i o t' o' _ IH Hr].
  - injection Hi as <-. apply Forall_replicate. by split.
  - pose proof (table_reachable_wf _ _ Ht) as Hwf.
    destruct (add_client_run t addr o Hwf) as (ip2 & t2 & o2 & E & Ho & _).
    rewrite E in Hr. injection Hr as <- <- <-. destruct Ho; cbn [clients]; [done|..].
    + apply Forall_alter; [done|]. by intros ? ? [??].
    + apply typed_insert; [done|]. split; [by apply bswap_uint|done].
  - destruct (remove_client_run t ip o) as (t2 & o2 & E & _ & ->). rewrite E in Hr.
    injection Hr as <- <-. destruct (find_client_by_vpn_ip t ip) as [[i c]|] eqn:Hf; [|done].
    apply list_find_lookup in Hf as [Hi _]. apply typed_insert; [done|].
    exact (Forall_lookup_1 _ _ _ _ IH Hi).
  - destruct (check_client_timeouts_run t o) as [o2 E]. rewrite E in Hr. injection Hr as <- <-.
    cbn [clients]. apply Forall_fmap. eapply Forall_impl; [exact IH|]. intros c Hc.
    unfold compose, keep. by case_decide.
  - injection Hr as <- <-. cbn [clients]. apply Forall_alter; [done|]. by intros ? ? [??].
Qed.

(** Every table the server can reach is well typed: in every slot, also in those of
    clients that have left, address and session id are values of uint32_t, the next
    address is one, and [count] is a value of int; no operation depends on wrap-around. *)
Lemma client_table_typed n t :
  table_reachable n t →
  Forall typed_entry (clients t) ∧ is_uint 4 (next_ip t) ∧ - 2 ^ 31 ≤ count t < 2 ^ 31.
Proof.
  intros Ht. pose proof (table_reachable_wf _ _ Ht) as Hwf. pose proof (count_le t Hwf).
  split; [by eapply typed_entries|]. destruct Hwf. unfold MAX_CLIENTS in *.
  split; [by apply pool_uint|lia].
Qed.

(** [add_client] never faults on a reachable table. It fails (returns 0)
    exactly when the table is full; otherwise the client is found by its
    address afterwards under the VPN address that was returned, which is an
    address of the pool, and nothing is sent or written. *)
Lemma add_client_correct n t addr o :
  table_reachable n t →
  ∃ ip t' o', add_client t addr o = Ok ((ip, t'), o') ∧ os_quiet o o' ∧
    (ip = 0 ↔ count t = 254) ∧
    (ip = 0 → t' = t) ∧
    (ip ≠ 0 → in_pool ip ∧
      ∃ i c, find_client_by_addr t' addr = Some (i, c) ∧ vpn_ip c = ip).
Proof.
  intros Hwf%table_reachable_wf.
  destruct (add_client_run t addr o Hwf) as (ip & t' & o' & Hr & Ho & Hq).
  exists ip, t', o'. destruct (add_outcome_ip _ _ _ _ Hwf Ho) as [(-> & Hc & ->)|[Hp Hc]].
  - unfold MAX_CLIENTS in Hc. by split_and!.
  - pose proof (in_pool_nonzero ip Hp). unfold MAX_CLIENTS in Hc.
    split_and!; try done; [split; [done|lia]|]. eauto using add_outcome_find.
Qed.

(** (C23) [check_client_timeouts] drops exactly the clients that were silent for
    more than [CLIENT_TIMEOUT] seconds: the active clients afterwards are, in
    order, those seen within that time, and the invariant is kept. *)
Theorem check_client_timeouts_correct n t o :
  table_reachable n t →
  ∃ t' o', check_client_timeouts t o = Ok (t', o') ∧ table_reachable n t' ∧
    active_clients t' =
      filter (λ c, env_time (time_calls o) - last_seen c ≤ 300) (active_clients t).
Proof.
  intros Hr. destruct (check_client_timeouts_run t o) as [o' E].
  eexists _, o'. split_and!; [exact E|by eapply tr_timeouts|].
  unfold active_clients; simpl. rewrite filter_keep. apply filter_ext_elem.
  intros c [Ha _]%list_elem_of_filter. unfold expired, CLIENT_TIMEOUT. intuition lia.
Qed.

(** [remove_client] frees the slot of the first active client with the
    address, and no other: the other active clients stay as they were. *)
Lemma remove_client_correct n t ip o :
  table_reachable n t →
  ∃ t' o', remove_client t ip o = Ok (t', o') ∧ table_reachable n t' ∧ os_quiet o o' ∧
    match find_client_by_vpn_ip t ip with
    | None => t' = t
    | Some (i, c) => active_clients t ≡ₚ c :: active_clients t' ∧ count t' = count t - 1
    end.
Proof.
  intros Hr. destruct (remove_client_run t ip o) as (t' & o' & E & Hq & Ht).
  exists t', o'. split_and!; [done|by eapply tr_remove|done|].
  destruct (find_client_by_vpn_ip t ip) as [[i c]|] eqn:Hf; [|done].
  apply list_find_lookup in Hf as [Hi [Ha _]]. rewrite Ht. split; [|done].
  symmetry. by apply active_insert_drop.
Qed.

(** While no address was reused, VPN addresses are handed out in order. *)
Definition fresh_ips (n : Z) (t : client_table_t) : Prop :=
  next_ip t = FIRST_IP + n ∧ NoDup (vpn_ip <$> active_clients t) ∧
  Forall (λ c, ∃ h, FIRST_IP ≤ h < next_ip t ∧ vpn_ip c = htonl h) (active_clients t).

Lemma fresh_ips_sub n t t' :
  fresh_ips n t → next_ip t' = next_ip t → active_clients t' ⊆+ active_clients t →
  fresh_ips n t'.
Proof.
  intros (Hn & Hd & Hf) Hnext [rest Hp]%submseteq_Permutation. rewrite Hp in Hd, Hf.
  rewrite fmap_app in Hd. apply NoDup_app in Hd as [? _]. apply Forall_app in Hf as [? _].
  split_and!; [congruence|done|]. by rewrite Hnext.
Qed.

Lemma fresh_ips_update n t i now :
  fresh_ips n t →
  fresh_ips n (ClientTable (alter (set_last_seen now) i (clients t)) (count t) (next_ip t)).
Proof.
  unfold fresh_ips, active_clients. simpl.
  rewrite <-!(Forall_fmap vpn_ip (λ ip, ∃ h, FIRST_IP ≤ h < next_ip t ∧ ip = htonl h)).
  by rewrite !filter_alter_proj.
Qed.

Lemma fresh_ips_new n t i c now sid addr :
  fresh_ips n t → 0 ≤ n → n + 1 ≤ 254 →
  list_find (λ c, active c = false) (clients t) = Some (i, c) →
  fresh_ips (n + 1)
    (ClientTable (<[i := ClientEntry (htonl (alloc_ip t)) addr now sid true]> (clients t))
                 (count t + 1) (alloc_ip t + 1)).
Proof.
  intros (Hn & Hd & Hf) H0 H1 [Hi Hc]%list_find_lookup.
  assert (alloc_ip t = next_ip t) as Ha.
  { unfold alloc_ip. rewrite decide_False; [done|]. rewrite Hn. unfold FIRST_IP, LAST_IP. lia. }
  assert (FIRST_IP ≤ next_ip t ≤ LAST_IP) as Hr.
  { rewrite Hn. unfold FIRST_IP, LAST_IP. lia. }
  rewrite Forall_forall in Hf. split_and!; simpl; [lia|..];
    rewrite (active_insert_new _ _ _ _ _ _ Hi Hc) by done; fold (active_clients t); simpl.
  - constructor; [|done]. intros (c' & Heq & Hin)%list_elem_of_fmap.
    destruct (Hf _ Hin) as (h & ? & E).
    rewrite Ha, E in Heq. apply htonl_pool_inj in Heq; lia.
  - rewrite Ha. constructor; simpl; [exists (next_ip t); split; [lia|done]|].
    apply Forall_forall. intros c' Hin. destruct (Hf _ Hin) as (h & ? & E).
    exists h. split; [lia|done].
Qed.

Lemma fresh_reachable n t :
  table_reachable n t → 0 ≤ n ∧ (n ≤ 254 → fresh_ips n t).
Proof.
  induction 1 as [t Hi|n t addr o ip t' o' Ht [IH0 IH] Hr|n t ip o t' o' Ht [IH0 IH] Hr
    |n t o t' o' Ht [IH0 IH] Hr|n t i o t' o' Ht [IH0 IH] Hr].
  - injection Hi as <-. split; [done|]. intros _. unfold fresh_ips. rewrite active_zero.
    split_and!; [done|constructor..].
  - destruct (add_client_run t addr o (table_reachable_wf _ _ Ht))
      as (ip2 & t2 & o2 & E & Ho & _).
    rewrite E in Hr. injection Hr as <- <- <-.
    destruct Ho as [|j c now|j c now sid]; simpl; rewrite ?Z.sub_diag, ?Z.add_0_r; try done.
    + split; [done|]. intros. by apply fresh_ips_update, IH.
    + replace (count t + 1 - count t) with 1 by lia. split; [lia|].
      intros. eapply fresh_ips_new; eauto. apply IH. lia.
  - split; [done|]. intros Hn. destruct (remove_client_run t ip o) as (t2 & o2 & E & _ & Ht2).
    rewrite E in Hr. injection Hr as <- <-. rewrite Ht2.
    destruct (find_client_by_vpn_ip t ip) as [[j c]|] eqn:Hf; [|auto].
    apply list_find_lookup in Hf as [Hj [Ha _]].
    apply (fresh_ips_sub n t); [auto|done|].
    unfold active_clients at 2. rewrite <-(active_insert_drop _ _ _ (count t - 1)
      (next_ip t) Hj Ha). by apply submseteq_cons.
  - split; [done|]. intros Hn. destruct (check_client_timeouts_run t o) as [o2 E].
    rewrite E in Hr. injection Hr as <- <-. apply (fresh_ips_sub n t); [auto|done|].
    unfold active_clients; simpl. rewrite filter_keep.
    apply sublist_submseteq, sublist_filter.
  - split; [done|]. intros Hn. destruct (update_client_activity_run t i o) as [o2 E].
    rewrite E in Hr. injection Hr as <- <-. by apply fresh_ips_update, IH.
Qed.

(** (C24) As long as no more than 254 clients were admitted since the start, no
    two active clients share a VPN address. *)
Theorem vpn_ips_unique_until_wrap n t :
  table_reachable n t → n ≤ 254 → NoDup (vpn_ip <$> active_clients t).
Proof. intros [_ Hf]%fresh_reachable Hn. by destruct (Hf Hn) as (_ & ? & _). Qed.

(** Sequences of connects and disconnects. *)
Inductive client_op := Connect (addr : sockaddr_in) | Disconnect (ip : Z).
Definition exec_op (op : client_op) (t : client_table_t) : M os client_table_t :=
  match op with
  | Connect addr => '(_, t) ← add_client t addr; mret t
  | Disconnect ip => remove_client t ip
  end.
Fixpoint exec_ops (ops : list client_op) (t : client_table_t) : M os client_table_t :=
  match ops with
  | [] => mret t
  | op :: ops => t ← exec_op op t; exec_ops ops t
  end.

Lemma exec_ops_reachable ops n t o t' o' :
  table_reachable n t → exec_ops ops t o = Ok (t', o') → ∃ n', table_reachable n' t'.
Proof.
  revert n t o. induction ops as [|op ops IH]; intros n t o Ht Hr; simpl in Hr.
  { injection Hr as <- <-. eauto. }
  run_inv Hr. destruct op as [addr|ip]; simpl in Hrun.
  - run_inv Hrun. destruct a0 as [ip t1]. injection Hrun as <- <-. eauto using tr_add.
  - eauto using tr_remove.
Qed.

End properties.

(** One client stays while 253 others come and go; one more connects. *)
Definition peer (k : nat) : sockaddr_in := SockAddrIn AF_INET (Z.of_nat k) 1.
Definition churn : list client_op :=
  Connect (peer 0) ::
  concat ((λ k, [Connect (peer k); Disconnect (htonl (FIRST_IP + Z.of_nat k))]) <$> seq 1 253)
  ++ [Connect (peer 254)].

(** (C33) After the pool has wrapped around, addresses that are still in use are
    handed out again: a reachable table has two active clients with different
    real addresses and the same VPN address, and a lookup of that address finds
    the first of them, so packets for the second go to the first. *)
Theorem vpn_ip_reused_after_wrap :
  ∃ (E : Env) n t i j c c',
    table_reachable n t ∧ i ≠ j ∧ clients t !! i = Some c ∧ clients t !! j = Some c' ∧
    active c = true ∧ active c' = true ∧ endpoint c ≠ endpoint c' ∧
    vpn_ip c = vpn_ip c' ∧ find_client_by_vpn_ip t (vpn_ip c') = Some (i, c).
Proof.
  exists quiet_env.
  destruct (@exec_ops quiet_env churn (ClientTable zero_clients 0 FIRST_IP) os_boot)
    as [[t o']|] eqn:E; [|by vm_compute in E].
  destruct (exec_ops_reachable _ 0 _ _ _ _ (tr_init _ eq_refl) E) as [n Hn].
  vm_compute in E. injection E as <- _.
  eexists n, _, 0%nat, 1%nat, _, _. split; [exact Hn|].
  split_and!; [done|reflexivity|reflexivity|done|done|by vm_compute|done|].
  vm_compute. reflexivity.
Qed.

(** The pool ends with the broadcast address of 10.8.0.0/24: it is handed out like any other. *)
Lemma broadcast_address_is_handed_out :
  ∃ (E : Env) n t c, table_reachable n t ∧ c ∈ active_clients t ∧ vpn_ip c = htonl 0x0a0800ff.
Proof.
  exists quiet_env.
  destruct (@exec_ops quiet_env (Connect ∘ peer <$> seq 0 254) (ClientTable zero_clients 0 FIRST_IP) os_boot)
    as [[t o']|] eqn:E; [|by vm_compute in E].
  destruct (exec_ops_reachable _ 0 _ _ _ _ (tr_init _ eq_refl) E) as [n Hn].
  vm_compute in E. injection E as <- _.
  eexists n, _, (ClientEntry (htonl 0x0a0800ff) (peer 253) _ _ true).
  split; [exact Hn|]. split; [|reflexivity]. apply list_elem_of_filter. split; [done|].
  apply (list_elem_of_lookup_2 _ 253). vm_compute. reflexivity.
Qed.

(** ** Instances of the properties: two clients in a quiet environment *)
Section instances.
#[local] Existing Instance quiet_env.

Definition empty_table : client_table_t := ClientTable zero_clients 0 FIRST_IP.
Definition one_client : client_table_t :=
  ClientTable (<[0%nat := ClientEntry (htonl FIRST_IP) (peer 1) 1000 (Z.lxor 1000 7) true]> zero_clients)
              1 (FIRST_IP + 1).

Lemma one_client_reachable : table_reachable 1 one_client.
Proof.
  change 1 with (0 + (count one_client - count empty_table)).
  eapply (tr_add _ empty_table (peer 1) os_boot (htonl FIRST_IP) one_client);
    [by apply tr_init|]. vm_compute. reflexivity.
Qed.

Lemma client_table_invariant_witness :
  length (clients one_client) = MAX_CLIENTS ∧
  count one_client = Z.of_nat (nactive active (clients one_client)) ∧
  0 ≤ count one_client ≤ 254 ∧
  Forall (λ c, in_pool (vpn_ip c)) (active_clients one_client) ∧
  NoDup (endpoint <$> active_clients one_client).
Proof. apply (client_table_invariant 1), one_client_reachable. Defined.

Lemma check_client_timeouts_correct_witness :
  ∃ t' o', check_client_timeouts one_client os_boot = Ok (t', o') ∧ table_reachable 1 t' ∧
    active_clients t' =
      filter (λ c, env_time (time_calls os_boot) - last_seen c ≤ 300)
             (active_clients one_client).
Proof. apply check_client_timeouts_correct, one_client_reachable. Defined.

Lemma vpn_ips_unique_until_wrap_witness : NoDup (vpn_ip <$> active_clients one_client).
Proof. apply (vpn_ips_unique_until_wrap 1); [apply one_client_reachable|lia]. Defined.
End instances.
