(* ===== verification/Enclave.v ===== *)
(** * The enclave process (include/enclave.h, src/enclave/enclave_main.c)

    The enclave serves one connection of a stream socket at a time. Its state is
    the key manager, the run flag, the number of random draws so far and the two
    directions of the connection: the bytes it has not read yet and the bytes it
    has sent. *)

From S2P Require Import Prelude IpcProtocol Crypto ToySodium KeyManager.

Record enclave := Enclave {
  e_km : key_manager_t;
  enclave_running : bool;
  e_rng : nat;
  e_in : list Z;
  e_out : list Z;
  e_eof : bool           (** the peer has closed its end *)
}.

Definition set_km (km : key_manager_t) (e : enclave) : enclave :=
  Enclave km (enclave_running e) (e_rng e) (e_in e) (e_out e) (e_eof e).
Definition set_running (r : bool) (e : enclave) : enclave :=
  Enclave (e_km e) r (e_rng e) (e_in e) (e_out e) (e_eof e).
Definition set_in (i : list Z) (e : enclave) : enclave :=
  Enclave (e_km e) (enclave_running e) (e_rng e) i (e_out e) (e_eof e).
Definition set_out (o : list Z) (e : enclave) : enclave :=
  Enclave (e_km e) (enclave_running e) (e_rng e) (e_in e) o (e_eof e).

(** recv on the connection: at most [n] of the waiting bytes; an empty result is
    the end of the stream. With MSG_PEEK the bytes stay in the queue. *)
Definition recv (peek : bool) (n : Z) : M enclave (list Z) := λ e,
  let d := take (Z.to_nat n) (e_in e) in
  Ok (d, if peek then e else set_in (drop (Z.to_nat n) (e_in e)) e).
(** send on the connection. When the peer has closed it, SIGPIPE is raised, for which the
    enclave has no handler. *)
Definition send (d : list Z) : M enclave Z := λ e,
  if e_eof e then Fault SigPipe else Ok (zlen d, set_out (e_out e ++ d) e).

(** The sizes of request_buffer and of the data part of response_buffer. *)
Definition REQUEST_BUFFER : Z := sizeof_ipc_request_t + IPC_MAX_DATA_SIZE.
Definition RESPONSE_DATA : Z := IPC_MAX_DATA_SIZE.
#[export] Hint Unfold REQUEST_BUFFER RESPONSE_DATA : sizes.

(** What a command leaves in the response: status, data_len (network order) and
    the data part of the response buffer. *)
Record reply := Reply { rp_status : Z; rp_data_len : Z; rp_data : list Z }.

Section enclave.
Context `{Sodium}.

Definition draw_nonce : M enclave (list Z) := λ e,
  Ok (crypto_random_nonce (e_rng e),
      Enclave (e_km e) (enclave_running e) (S (e_rng e)) (e_in e) (e_out e) (e_eof e)).

(** case IPC_ADD_KEY *)
Definition on_add_key (vpn_ip : Z) (data rdata : list Z) : M enclave reply :=
  if decide (zlen data = sizeof_ipc_add_key_data_t) then
    km ← gets e_km;
    let '(ret, km) := add_key km vpn_ip data in
    _ ← modify (set_km km);
    mret (Reply (if decide (ret = 0) then 0 else -1) 0 rdata)
  else mret (Reply (-1) 0 rdata).

(** case IPC_REMOVE_KEY *)
Definition on_remove_key (vpn_ip : Z) (rdata : list Z) : M enclave reply :=
  km ← gets e_km;
  _ ← modify (set_km (remove_key km vpn_ip));
  mret (Reply 0 0 rdata).

(** case IPC_ENCRYPT *)
Definition on_encrypt (vpn_ip : Z) (data rdata : list Z) : M enclave reply :=
  km ← gets e_km;
  match get_key km vpn_ip with
  | None => mret (Reply (-1) 0 rdata)
  | Some key =>
      nonce ← draw_nonce;
      rdata ← lift (buf_write rdata 0 nonce);
      match crypto_encrypt data key nonce with
      | Some c =>
          rdata ← lift (buf_write rdata CRYPTO_NONCE_SIZE c);
          mret (Reply 0 (htons (u16 (CRYPTO_NONCE_SIZE + zlen data + CRYPTO_MAC_SIZE))) rdata)
      | None => mret (Reply (-1) 0 rdata)
      end
  end.

(** case IPC_DECRYPT *)
Definition on_decrypt (vpn_ip : Z) (data rdata : list Z) : M enclave reply :=
  km ← gets e_km;
  match get_key km vpn_ip with
  | None => mret (Reply (-1) 0 rdata)
  | Some key =>
      if decide (zlen data < CRYPTO_NONCE_SIZE + CRYPTO_MAC_SIZE)
      then mret (Reply (-1) 0 rdata)
      else
        let nonce := slice 0 CRYPTO_NONCE_SIZE data in
        let ciphertext_len := zlen data - CRYPTO_NONCE_SIZE in
        let ciphertext := slice CRYPTO_NONCE_SIZE ciphertext_len data in
        match crypto_decrypt ciphertext key nonce with
        | Some p =>
            rdata ← lift (buf_write rdata 0 p);
            mret (Reply 0 (htons (u16 (ciphertext_len - CRYPTO_MAC_SIZE))) rdata)
        | None => mret (Reply (-1) 0 rdata)
        end
  end.

(** case IPC_HANDSHAKE *)
Definition on_handshake (vpn_ip : Z) (data rdata : list Z) : M enclave reply :=
  if decide (zlen data = sizeof_ipc_handshake_data_t) then
    km ← gets e_km;
    rdata ← lift (buf_write rdata 0 (get_server_public_key km));
    match perform_handshake km vpn_ip data with
    | (Some session_key, km) =>
        _ ← modify (set_km km);
        rdata ← lift (buf_write rdata 32 session_key);
        mret (Reply 0 (htons sizeof_ipc_handshake_response_t) rdata)
    | (None, km) =>
        _ ← modify (set_km km);
        mret (Reply (-1) 0 rdata)
    end
  else mret (Reply (-1) 0 rdata).

(** switch (req->command) *)
Definition dispatch (command vpn_ip : Z) (data rdata : list Z) : M enclave reply :=
  if decide (command = IPC_PING) then mret (Reply 0 0 rdata)
  else if decide (command = IPC_ADD_KEY) then on_add_key vpn_ip data rdata
  else if decide (command = IPC_REMOVE_KEY) then on_remove_key vpn_ip rdata
  else if decide (command = IPC_ENCRYPT) then on_encrypt vpn_ip data rdata
  else if decide (command = IPC_DECRYPT) then on_decrypt vpn_ip data rdata
  else if decide (command = IPC_HANDSHAKE) then on_handshake vpn_ip data rdata
  else if decide (command = IPC_SHUTDOWN) then
    _ ← modify (set_running false); mret (Reply 0 0 rdata)
  else mret (Reply (-1) 0 rdata).

(** [request_buffer], [stack]: what request_buffer and the data part of
    response_buffer hold before the call. *)
Definition handle_ipc_request (request_buffer stack : list Z) : M enclave () :=
  hdr ← recv true sizeof_ipc_request_t;
  if decide (zlen hdr < sizeof_ipc_request_t) then mret ()
  else
    let data_len := ntohs (req_data_len (ipc_request_of_bytes hdr)) in
    let total_len := sizeof_ipc_request_t + data_len in
    request ← recv false total_len;
    request_buffer ← lift (buf_write request_buffer 0 request);
    if decide (zlen request = total_len) then
      let req := ipc_request_of_bytes request_buffer in
      let data := slice sizeof_ipc_request_t data_len request_buffer in
      rp ← dispatch (req_command req) (req_vpn_ip req) data stack;
      let response := IpcResponse (req_request_id req) (rp_status rp) (rp_data_len rp) in
      _ ← send (ipc_response_bytes response ++
                take (Z.to_nat (ntohs (rp_data_len rp))) (rp_data rp));
      mret ()
    else mret ().
End enclave.

(** ** The service the enclave promises

    The effect of one request on the enclave and the status and data of its
    response, without sockets, headers or buffers. *)
Section service.
Context `{Sodium}.

Definition bump_rng (e : enclave) : enclave :=
  Enclave (e_km e) (enclave_running e) (S (e_rng e)) (e_in e) (e_out e) (e_eof e).

Definition serve (command vpn_ip : Z) (data : list Z) (e : enclave) :
    (Z * list Z) * enclave :=
  let km := e_km e in
  if decide (command = IPC_PING) then ((0, []), e)
  else if decide (command = IPC_ADD_KEY) then
    if decide (zlen data = 32) then
      let '(ret, km) := add_key km vpn_ip data in
      ((if decide (ret = 0) then 0 else -1, []), set_km km e)
    else ((-1, []), e)
  else if decide (command = IPC_REMOVE_KEY) then
    ((0, []), set_km (remove_key km vpn_ip) e)
  else if decide (command = IPC_ENCRYPT) then
    match get_key km vpn_ip with
    | None => ((-1, []), e)
    | Some key =>
        let nonce := crypto_random_nonce (e_rng e) in
        match crypto_encrypt data key nonce with
        | Some c => ((0, nonce ++ c), bump_rng e)
        | None => ((-1, []), bump_rng e)
        end
    end
  else if decide (command = IPC_DECRYPT) then
    match get_key km vpn_ip with
    | None => ((-1, []), e)
    | Some key =>
        if decide (zlen data < 28) then ((-1, []), e)
        else match crypto_decrypt (slice 12 (zlen data - 12) data) key (slice 0 12 data) with
        | Some p => ((0, p), e)
        | None => ((-1, []), e)
        end
    end
  else if decide (command = IPC_HANDSHAKE) then
    if decide (zlen data = 32) then
      match perform_handshake km vpn_ip data with
      | (Some session_key, km') => ((0, server_public_key km ++ session_key), set_km km' e)
      | (None, km') => ((-1, []), set_km km' e)
      end
    else ((-1, []), e)
  else if decide (command = IPC_SHUTDOWN) then ((0, []), set_running false e)
  else ((-1, []), e).

(** The requests the fixed buffers can hold. *)
Definition request_fits (command : Z) (data : list Z) : Prop :=
  zlen data ≤ IPC_MAX_DATA_SIZE ∧
  (command = IPC_ENCRYPT →
   CRYPTO_NONCE_SIZE + zlen data + CRYPTO_MAC_SIZE ≤ IPC_MAX_DATA_SIZE).

Context `{!SodiumLaws _}.

Lemma crypto_random_nonce_len k : zlen (crypto_random_nonce k) = 12.
Proof. by apply randombytes_len. Qed.

Lemma session_key_len s : zlen (crypto_derive_session_key s None) = 32.
Proof. by apply kdf_len. Qed.

Lemma perform_handshake_key_len km ip pk k km' :
  perform_handshake km ip pk = (Some k, km') → zlen k = 32.
Proof.
  unfold perform_handshake. destruct (crypto_ecdh _ _); [|done].
  destruct (add_key _ _ _). intros [= <- <-]. apply session_key_len.
Qed.

(** A command leaves its data at the start of the response buffer. *)
Definition replies (st : Z) (payload : list Z) (rp : reply) : Prop :=
  rp_status rp = st ∧ rp_data_len rp = htons (zlen payload) ∧
  take (length payload) (rp_data rp) = payload ∧ zlen payload ≤ RESPONSE_DATA.

Lemma replies_empty st rdata : replies st [] (Reply st 0 rdata).
Proof. done. Qed.

Lemma u16_small x : 0 ≤ x ≤ 4096 → u16 x = x.
Proof. intros. apply Z.mod_small. lia. Qed.

Lemma on_encrypt_serve ip data stack e :
  zlen stack = RESPONSE_DATA → request_fits IPC_ENCRYPT data →
  ∃ rp, on_encrypt ip data stack e = Ok (rp, (serve IPC_ENCRYPT ip data e).2) ∧
    replies (serve IPC_ENCRYPT ip data e).1.1 (serve IPC_ENCRYPT ip data e).1.2 rp.
Proof.
  intros Hs [Hfit Henc]. specialize (Henc eq_refl).
  unfold on_encrypt, serve. simpl decide. cbn iota. rewrite run_bind, run_gets.
  destruct (get_key (e_km e) ip) as [key|]; simpl; [|by eexists].
  unfold draw_nonce. run. pose proof (crypto_random_nonce_len (e_rng e)) as Hn.
  rewrite buf_write_0 by zlen. run.
  destruct (crypto_encrypt data key _) as [c|] eqn:Hc; simpl; [|by eexists].
  apply aead_encrypt_len in Hc. autounfold with sizes in *. pose proof (zlen_nonneg data).
  run. rewrite buf_write_app; [|done|rewrite zlen_drop_length; lia]. run.
  eexists. split; [reflexivity|]. split_and!; simpl; [done| | |zlen].
  - rewrite zlen_app, Hn, Hc, u16_small by lia. f_equal. lia.
  - rewrite app_assoc. apply take_app_length.
Qed.

Lemma on_decrypt_serve ip data stack e :
  zlen stack = RESPONSE_DATA → zlen data ≤ IPC_MAX_DATA_SIZE →
  ∃ rp, on_decrypt ip data stack e = Ok (rp, (serve IPC_DECRYPT ip data e).2) ∧
    replies (serve IPC_DECRYPT ip data e).1.1 (serve IPC_DECRYPT ip data e).1.2 rp.
Proof.
  intros Hs Hfit. unfold on_decrypt, serve. simpl decide. cbn iota. rewrite run_bind, run_gets.
  destruct (get_key (e_km e) ip) as [key|]; simpl; [|by eexists].
  change (CRYPTO_NONCE_SIZE + CRYPTO_MAC_SIZE) with 28.
  change CRYPTO_NONCE_SIZE with 12. case_decide as Hlt; [by eexists|].
  destruct (crypto_decrypt _ key _) as [p|] eqn:Hc; simpl; [|by eexists].
  apply aead_decrypt_len in Hc. rewrite zlen_slice in Hc by lia.
  autounfold with sizes in *. pose proof (zlen_nonneg p).
  run. rewrite buf_write_0 by lia. run.
  eexists. split; [reflexivity|]. split_and!; simpl; [done| | |zlen].
  - rewrite u16_small by lia. f_equal. lia.
  - apply take_app_length.
Qed.

Lemma on_handshake_serve ip data stack e :
  zlen stack = RESPONSE_DATA → zlen (server_public_key (e_km e)) = 32 →
  ∃ rp, on_handshake ip data stack e = Ok (rp, (serve IPC_HANDSHAKE ip data e).2) ∧
    replies (serve IPC_HANDSHAKE ip data e).1.1 (serve IPC_HANDSHAKE ip data e).1.2 rp.
Proof.
  intros Hs Hpk. unfold on_handshake, serve. simpl decide. cbn iota.
  autounfold with sizes in *. case_decide; [|by eexists].
  run. unfold get_server_public_key. rewrite buf_write_0 by lia. run.
  destruct (perform_handshake (e_km e) ip data) as [[k|] km'] eqn:Hh; run; [|by eexists].
  apply perform_handshake_key_len in Hh.
  rewrite buf_write_app; [|done|rewrite zlen_drop_length; lia]. run.
  eexists. split; [reflexivity|]. split_and!; simpl; [done| | |zlen].
  - by rewrite zlen_app, Hpk, Hh.
  - rewrite app_assoc. apply take_app_length.
Qed.

Lemma dispatch_serve command ip data stack e :
  zlen stack = RESPONSE_DATA → zlen (server_public_key (e_km e)) = 32 →
  request_fits command data →
  ∃ rp, dispatch command ip data stack e = Ok (rp, (serve command ip data e).2) ∧
    replies (serve command ip data e).1.1 (serve command ip data e).1.2 rp.
Proof.
  intros Hs Hpk Hfit. unfold dispatch.
  repeat case_decide; subst;
    eauto using on_encrypt_serve, on_decrypt_serve, on_handshake_serve.
  - by eexists.
  - unfold on_add_key, serve; simpl decide; cbn iota.
    change sizeof_ipc_add_key_data_t with 32. case_decide; [|by eexists]. run.
    destruct (add_key _ _ _). run. by eexists.
  - by eexists.
  - apply on_decrypt_serve; [done|apply Hfit].
  - by eexists.
  - unfold serve. rewrite !decide_False by done. by eexists.
Qed.
End service.

(** ** Requests and responses on the wire *)
Definition wire_request (command request_id vpn_ip : Z) (data : list Z) : list Z :=
  ipc_request_bytes (IpcRequest command request_id vpn_ip (htons (zlen data))) ++ data.
Definition wire_response (request_id status : Z) (data : list Z) : list Z :=
  ipc_response_bytes (IpcResponse request_id status (htons (zlen data))) ++ data.

Lemma zlen_wire_request c i ip d : zlen (wire_request c i ip d) = 11 + zlen d.
Proof. unfold wire_request. zlen. Qed.
Lemma zlen_wire_response i s d : zlen (wire_response i s d) = 7 + zlen d.
Proof. unfold wire_response. zlen. Qed.
#[export] Hint Rewrite zlen_wire_request zlen_wire_response : zlen.

Section handler.
Context `{Sodium}.

Lemma serve_frame command ip data e :
  e_in (serve command ip data e).2 = e_in e ∧ e_out (serve command ip data e).2 = e_out e ∧
  e_eof (serve command ip data e).2 = e_eof e.
Proof.
  unfold serve. repeat (case_match; subst); simplify_eq/=; done.
Qed.

(** The handler on a complete request at the head of the stream: the request is
    taken off the stream if the buffer can hold it, and then dispatched. *)
Lemma handle_ipc_request_head reqbuf stack e command id ip data rest :
  zlen reqbuf = REQUEST_BUFFER → zlen data ≤ 65535 →
  is_uint 1 command → is_uint 4 id → is_uint 4 ip →
  e_in e = wire_request command id ip data ++ rest →
  handle_ipc_request reqbuf stack e =
  if decide (zlen data ≤ IPC_MAX_DATA_SIZE) then
    (rp ← dispatch command ip data stack;
     _ ← send (ipc_response_bytes (IpcResponse id (rp_status rp) (rp_data_len rp)) ++
               take (Z.to_nat (ntohs (rp_data_len rp))) (rp_data rp));
     mret ()) (set_in rest e)
  else Fault Overrun.
Proof.
  intros Hb Hlen Hc Hid Hip Hin. pose proof (zlen_nonneg data).
  assert (is_uint 2 (zlen data)) as Hdl by (unfold is_uint; simpl; lia).
  set (r := IpcRequest command id ip (htons (zlen data))).
  assert (wf_ipc_request r) as Hr by (by split_and!; try apply bswap_uint).
  assert (ntohs (req_data_len r) = zlen data) as Hdata by (by apply (bswap_involutive 2)).
  unfold handle_ipc_request, recv. run.
  rewrite Hin. unfold wire_request. fold r. rewrite <-app_assoc.
  rewrite take_app_zlen by zlen. rewrite decide_False by zlen.
  replace (ipc_request_of_bytes (ipc_request_bytes r)) with r
    by (rewrite <-(app_nil_r (ipc_request_bytes r)); symmetry; by apply ipc_request_roundtrip).
  rewrite Hdata. run. rewrite Hin. unfold wire_request. fold r.
  rewrite take_app_zlen, drop_app_zlen by zlen. destruct (decide (zlen data ≤ IPC_MAX_DATA_SIZE)).
  - rewrite buf_write_0 by zlen. run.
    rewrite decide_True by zlen. rewrite <-app_assoc.
    rewrite ipc_request_roundtrip by done. rewrite slice_skip by zlen.
    rewrite zlen_ipc_request_bytes, Z.sub_diag, slice_hit by done. done.
  - rewrite buf_write_overrun by zlen. done.
Qed.

Context `{!SodiumLaws _}.

(** One complete request at the head of the stream is taken off the stream,
    served, and answered with one response that echoes its id; if the peer has closed the
    connection meanwhile, the answer kills the enclave. *)
Lemma handle_ipc_request_serve reqbuf stack e command id ip data rest st p e' :
  zlen reqbuf = REQUEST_BUFFER → zlen stack = RESPONSE_DATA →
  zlen (server_public_key (e_km e)) = 32 →
  is_uint 1 command → is_uint 4 id → is_uint 4 ip → request_fits command data →
  e_in e = wire_request command id ip data ++ rest →
  serve command ip data (set_in rest e) = ((st, p), e') →
  handle_ipc_request reqbuf stack e =
  if e_eof e then Fault SigPipe else Ok ((), set_out (e_out e ++ wire_response id st p) e').
Proof.
  intros Hb Hs Hpk Hc Hid Hip Hfit Hin Hserve. pose proof Hfit as [Hlen _].
  rewrite (handle_ipc_request_head _ _ _ command id ip data rest) by (done || zlen). rewrite decide_True by done.
  destruct (dispatch_serve command ip data stack (set_in rest e)) as (rp & Hd & Hrp);
    [done..|]. rewrite Hserve in Hd, Hrp. simpl in Hd, Hrp.
  destruct Hrp as (Hst & Hdlen & Htake & Hplen). pose proof (zlen_nonneg p).
  pose proof (serve_frame command ip data (set_in rest e)) as (_ & Hout & Heof).
  rewrite Hserve in Hout, Heof. simpl in Hout, Heof. autounfold with sizes in *.
  run. rewrite Hd. unfold send. run. rewrite Heof. destruct (e_eof e); [done|].
  rewrite Hst, Hdlen, Hout. unfold wire_response, ntohs, htons.
  rewrite bswap_involutive by (unfold is_uint; simpl; lia).
  unfold zlen at 2. rewrite Nat2Z.id, Htake. reflexivity.
Qed.
End handler.

(** ** The process: accept one client, serve it, clean up *)
Inductive phase := Accepting | Serving | Stopped.
Record proc := Proc { p_phase : phase; p_encl : enclave }.

(** What happens at one turn of the loops of [main], or outside of them. *)
Inductive event :=
| EvTimeout          (** select reports nothing (or an error on the client socket) *)
| EvSelectError      (** select on the listening socket fails *)
| EvAccept | EvAcceptError
| EvDeliver (d : list Z)   (** bytes of the peer arrive *)
| EvClose            (** the peer closes its end *)
| EvRequest          (** the client socket is readable *)
| EvLeave            (** the loop condition is found false *)
| EvSignal.          (** SIGINT or SIGTERM: [enclave_signal_handler] *)

Definition fresh_connection (e : enclave) : enclave :=
  Enclave (e_km e) (enclave_running e) (e_rng e) [] [] false.

(** Cleanup of [main]: the key manager is wiped. *)
Definition shut_down (e : enclave) : enclave :=
  match destroy_key_manager (Some (e_km e)) with
  | Some km => fresh_connection (set_km km e)
  | None => e
  end.

Section process.
Context `{Sodium}.

Inductive enclave_step : event → proc → proc → Prop :=
| step_signal ph e :
    ph ≠ Stopped → enclave_step EvSignal (Proc ph e) (Proc ph (set_running false e))
(** while (enclave_running), on the listening socket *)
| step_leave e :
    enclave_running e = false →
    enclave_step EvLeave (Proc Accepting e) (Proc Stopped (shut_down e))
| step_select_error e :
    enclave_running e = true →
    enclave_step EvSelectError (Proc Accepting e) (Proc Stopped (shut_down e))
| step_timeout e :
    enclave_running e = true → enclave_step EvTimeout (Proc Accepting e) (Proc Accepting e)
| step_accept_error e :
    enclave_running e = true → enclave_step EvAcceptError (Proc Accepting e) (Proc Accepting e)
| step_accept e :
    enclave_running e = true →
    enclave_step EvAccept (Proc Accepting e) (Proc Serving (fresh_connection e))
(** while (enclave_running), on the client socket *)
| step_client_leave e :
    enclave_running e = false →
    enclave_step EvLeave (Proc Serving e) (Proc Accepting (fresh_connection e))
| step_client_idle e :
    enclave_running e = true → enclave_step EvTimeout (Proc Serving e) (Proc Serving e)
| step_request e reqbuf stack e' :
    enclave_running e = true → e_in e ≠ [] ∨ e_eof e = true →
    zlen reqbuf = REQUEST_BUFFER → zlen stack = RESPONSE_DATA →
    handle_ipc_request reqbuf stack e = Ok ((), e') →
    enclave_step EvRequest (Proc Serving e) (Proc Serving e')
(** the peer *)
| step_deliver e d :
    e_eof e = false →
    enclave_step (EvDeliver d) (Proc Serving e) (Proc Serving (set_in (e_in e ++ d) e))
| step_close e :
    enclave_step EvClose (Proc Serving e)
      (Proc Serving (Enclave (e_km e) (enclave_running e) (e_rng e) (e_in e) (e_out e) true)).

(** A process does not survive every turn: a request that overruns a buffer or whose answer
    finds the connection closed ends it. *)
Inductive enclave_dies : proc → fault → Prop :=
| dies_in_request e reqbuf stack f :
    enclave_running e = true → e_in e ≠ [] ∨ e_eof e = true →
    zlen reqbuf = REQUEST_BUFFER → zlen stack = RESPONSE_DATA →
    handle_ipc_request reqbuf stack e = Fault f →
    enclave_dies (Proc Serving e) f.

Inductive enclave_steps : list event → proc → proc → Prop :=
| steps_nil p : enclave_steps [] p p
| steps_cons ev evs p p' p'' :
    enclave_step ev p p' → enclave_steps evs p' p'' → enclave_steps (ev :: evs) p p''.

Lemma steps_one ev p p' : enclave_step ev p p' → enclave_steps [ev] p p'.
Proof. intros. eapply steps_cons; [done|apply steps_nil]. Qed.

Lemma steps_app tr tr' p p' p'' :
  enclave_steps tr p p' → enclave_steps tr' p' p'' → enclave_steps (tr ++ tr') p p''.
Proof. induction 1; [done|]. intros. eapply steps_cons; eauto. Qed.

(** *** The faults of the handler *)
Definition lethal (e : enclave) (f : fault) : Prop := f = Overrun ∨ (f = SigPipe ∧ e_eof e = true).

(** The connection is as open as before. *)
Definition same_eof {A} (e : enclave) (_ : A) (e' : enclave) : Prop := e_eof e' = e_eof e.

Lemma write_or_overrun F b off d (e : enclave) :
  F Overrun → except F (lift (buf_write b off d) e) (same_eof e).
Proof. intros HF. unfold lift, buf_write. by case_decide. Qed.

Lemma dispatch_faults command ip data rdata e :
  except (.= Overrun) (dispatch command ip data rdata e) (same_eof e).
Proof.
  unfold dispatch. repeat (case_decide; [|]); try done.
  - unfold on_add_key. case_decide; [|done]. run. by destruct (add_key _ _ _).
  - unfold on_encrypt. rewrite run_bind, run_gets. destruct (get_key _ _); [|done].
    rewrite run_bind. unfold draw_nonce.
    eapply except_bind; [by apply write_or_overrun|]. intros rd e' He.
    destruct (crypto_encrypt _ _ _); [|done].
    eapply except_bind; [by apply write_or_overrun|]. intros rd' e2 He2.
    unfold same_eof in *. cbn in *. congruence.
  - unfold on_decrypt. rewrite run_bind, run_gets. destruct (get_key _ _); [|done].
    case_decide; [done|]. destruct (crypto_decrypt _ _ _); [|done].
    eapply except_bind; [by apply write_or_overrun|done].
  - unfold on_handshake. case_decide; [|done]. rewrite run_bind, run_gets.
    eapply except_bind; [by apply write_or_overrun|]. intros rd e' He.
    destruct (perform_handshake _ _ _) as [[k|] km]; [|done]. rewrite run_bind, run_modify.
    eapply except_bind; [by apply write_or_overrun|]. intros rd' e2 He2.
    unfold same_eof in *. cbn in *. congruence.
Qed.

Lemma handle_ipc_request_faults reqbuf stack e :
  except (lethal e) (handle_ipc_request reqbuf stack e) (same_eof e).
Proof.
  unfold handle_ipc_request. rewrite run_bind. unfold recv at 1. case_decide; [done|].
  rewrite run_bind. unfold recv at 1.
  eapply except_bind; [apply write_or_overrun; by left|]. intros rb e1 He1.
  unfold same_eof in He1. cbn [e_eof set_in] in He1. case_decide; [|exact He1].
  eapply (except_bind _ _ _ _ (same_eof e)).
  - pose proof (dispatch_faults (req_command (ipc_request_of_bytes rb))
      (req_vpn_ip (ipc_request_of_bytes rb)) (slice sizeof_ipc_request_t
      (ntohs (req_data_len (ipc_request_of_bytes (take (Z.to_nat sizeof_ipc_request_t) (e_in e))))) rb)
      stack e1) as Hd. unfold except, same_eof in *.
    destruct (dispatch _ _ _ _ e1) as [[rp e2]|f]; [congruence|by left].
  - intros rp e2 He2. rewrite run_bind. unfold send, same_eof in *. rewrite He2.
    destruct (e_eof e) eqn:Heof; [right; done|]. cbn. congruence.
Qed.

(** A process that finds something to read takes a turn or dies, and it dies of nothing else. *)
Lemma request_or_death e :
  enclave_running e = true → e_in e ≠ [] ∨ e_eof e = true →
  (∃ p', enclave_step EvRequest (Proc Serving e) p') ∨ (∃ f, enclave_dies (Proc Serving e) f).
Proof.
  intros Hr Hin. set (b := replicate (Z.to_nat REQUEST_BUFFER) 0).
  set (d := replicate (Z.to_nat RESPONSE_DATA) 0).
  destruct (handle_ipc_request b d e) as [[[] e']|f] eqn:E; [left|right]; eexists.
  - by apply (step_request _ b d).
  - by apply (dies_in_request _ b d).
Qed.

Lemma enclave_dies_lethal p f : enclave_dies p f → lethal (p_encl p) f.
Proof.
  intros [e reqbuf stack f' _ _ _ _ E]. pose proof (handle_ipc_request_faults reqbuf stack e) as Hx.
  by rewrite E in Hx.
Qed.

(** The handler does not look at the flag: a signal in the middle of a turn does what a
    signal right after it does. *)
Lemma dispatch_signalled command ip data rdata e :
  dispatch command ip data rdata (set_running false e) =
  match dispatch command ip data rdata e with
  | Ok (rp, e') => Ok (rp, set_running false e')
  | Fault f => Fault f
  end.
Proof.
  unfold dispatch. repeat (case_decide; try done).
  - unfold on_add_key. case_decide; [|done]. run. cbn [e_km set_running]. by destruct (add_key _ _ _).
  - unfold on_encrypt, draw_nonce, lift. run. cbn [e_km set_running]. destruct (get_key _ _); [|done].
    run. cbn [e_rng set_running]. destruct (buf_write _ _ _); [|done]. run.
    destruct (crypto_encrypt _ _ _); [|done]. run. by destruct (buf_write _ _ _).
  - unfold on_decrypt, lift. run. cbn [e_km set_running]. destruct (get_key _ _); [|done].
    case_decide; [done|]. destruct (crypto_decrypt _ _ _); [|done]. run. by destruct (buf_write _ _ _).
  - unfold on_handshake, lift. case_decide; [|done]. run. cbn [e_km set_running].
    destruct (buf_write _ _ _); [|done]. run. destruct (perform_handshake _ _ _) as [[k|] km]; [|done].
    run. by destruct (buf_write _ _ _).
Qed.

Lemma handle_ipc_request_signalled reqbuf stack e :
  handle_ipc_request reqbuf stack (set_running false e) =
  match handle_ipc_request reqbuf stack e with
  | Ok (_, e') => Ok ((), set_running false e')
  | Fault f => Fault f
  end.
Proof.
  unfold handle_ipc_request, recv. rewrite !run_bind. cbn [e_in set_running].
  case_decide; [done|]. rewrite !run_bind. cbn [e_in set_running]. unfold lift.
  destruct (buf_write _ _ _) as [rb|f]; [|done]. case_decide; [|done]. rewrite !run_bind.
  change (set_in ?i (set_running false e)) with (set_running false (set_in i e)).
  rewrite dispatch_signalled. destruct (dispatch _ _ _ _ _) as [[rp e']|f]; [|done].
  unfold send. rewrite !run_bind. cbn [e_eof set_running]. by destruct (e_eof e').
Qed.

(** Every command changes the key table only through its operations. *)
Lemma dispatch_km command ip data stack e rp e' :
  km_reachable (e_km e) → dispatch command ip data stack e = Ok (rp, e') →
  km_reachable (e_km e').
Proof.
  intros Hk. unfold dispatch. repeat case_decide.
  all: unfold on_add_key, on_remove_key, on_encrypt, on_decrypt, on_handshake, draw_nonce,
    lift; run.
  all: repeat (run; case_match); run; intros Hr; simplify_eq/=; try done.
  all: try (by eapply reach_remove).
  all: match goal with
       | E : add_key ?km ?ip ?k = (_, ?km') |- _ =>
           replace km' with (add_key km ip k).2 by (by rewrite E); by apply reach_add
       | E : perform_handshake ?km ?ip ?k = (_, ?km') |- _ =>
           replace km' with (perform_handshake km ip k).2 by (by rewrite E);
           by apply reach_handshake
       | _ => idtac
       end.
Qed.

Lemma handle_ipc_request_km reqbuf stack e e' :
  km_reachable (e_km e) → handle_ipc_request reqbuf stack e = Ok ((), e') →
  km_reachable (e_km e').
Proof.
  intros Hk Hr. unfold handle_ipc_request in Hr.
  run_inv Hr. injection Hrun as <- <-. case_decide; [by injection Hr as <-|].
  run_inv Hr. injection Hrun as <- <-. run_inv Hr.
  destruct (buf_write _ _ _); [|done]. injection Hrun as <- <-.
  case_decide; [|by injection Hr as <-].
  run_inv Hr. eapply dispatch_km in Hrun; [|exact Hk].
  run_inv Hr. unfold send in Hrun0. case_match; [done|].
  injection Hrun0 as <- <-. by injection Hr as <-.
Qed.

(** What holds of the process at every moment. *)
Definition proc_inv (p : proc) : Prop :=
  match p_phase p with
  | Stopped => keys (e_km (p_encl p)) = zero_keys ∧
               server_private_key (e_km (p_encl p)) = replicate 32 0
  | _ => km_reachable (e_km (p_encl p))
  end.

Lemma enclave_step_inv ev p p' : enclave_step ev p p' → proc_inv p → proc_inv p'.
Proof.
  intros Hstep Hi. destruct Hstep; unfold proc_inv in *; simpl in *;
    try done. by eapply handle_ipc_request_km.
Qed.

Lemma enclave_steps_inv evs p p' : enclave_steps evs p p' → proc_inv p → proc_inv p'.
Proof. induction 1; eauto using enclave_step_inv. Qed.

(** [main] before the loop. *)
Definition enclave_start (i : nat) (e : enclave) : Prop :=
  ∃ km, init_key_manager true i = Some km ∧ e = Enclave km true 0 [] [] false.

(** (C22) Whatever bytes arrive and whatever happens at the sockets, an enclave that has not
    stopped holds a key table its operations can build (so the invariant of the table
    holds), and once it has stopped every slot and the server's private key are zero. When
    it finds something to read it takes the request or dies, and it dies only by overrunning
    a buffer or by SIGPIPE, the latter only when it answers a peer that has closed the
    connection; a process that dies wipes nothing. *)
Theorem enclave_process_invariant i e evs ph e' :
  enclave_start i e → enclave_steps evs (Proc Accepting e) (Proc ph e') →
  (ph ≠ Stopped → wf_key_manager (e_km e') ∧ wiped (e_km e')) ∧
  (ph = Stopped → keys (e_km e') = zero_keys ∧
                  server_private_key (e_km e') = replicate 32 0) ∧
  (ph = Serving → enclave_running e' = true → e_in e' ≠ [] ∨ e_eof e' = true →
   (∃ p, enclave_step EvRequest (Proc ph e') p) ∨ ∃ f, enclave_dies (Proc ph e') f) ∧
  (∀ f, enclave_dies (Proc ph e') f → f = Overrun ∨ (f = SigPipe ∧ e_eof e' = true)).
Proof.
  intros (km & Hi & ->) Hs. apply enclave_steps_inv in Hs; [|by apply (reach_init i)].
  unfold proc_inv in Hs. split_and!.
  - intros Hph. apply km_reachable_inv. by destruct ph.
  - by intros ->.
  - intros -> Hr Hin. by apply request_or_death.
  - intros f. apply enclave_dies_lethal.
Qed.

(** ** A peer that has gone away *)
Definition abandoned (p : proc) : Prop :=
  p_phase p = Serving ∧ e_eof (p_encl p) = true ∧ e_in (p_encl p) = [] ∧
  enclave_running (p_encl p) = true.

Lemma handle_ipc_request_eof reqbuf stack e :
  e_in e = [] → handle_ipc_request reqbuf stack e = Ok ((), e).
Proof.
  intros Hin. unfold handle_ipc_request, recv. run. rewrite Hin, take_nil. done.
Qed.

Lemma abandoned_step ev p p' :
  abandoned p → ev ≠ EvSignal → enclave_step ev p p' → p' = p.
Proof.
  intros (Hp & He & Hin & Hr) Hev Hstep.
  destruct Hstep; simpl in *; simplify_eq; try done; try congruence.
  - rewrite handle_ipc_request_eof in * by done. by simplify_eq.
  - destruct e; simpl in *; by subst.
Qed.

(** (C36) Once the peer has closed the connection and all bytes it had sent are used up, the
    enclave stays in the inner loop: as long as no signal arrives its state
    does not change any more and it does not die, so it never accepts another client. *)
Theorem closed_connection_is_never_left evs p p' :
  abandoned p → EvSignal ∉ evs → enclave_steps evs p p' → p' = p ∧ ∀ f, ¬ enclave_dies p' f.
Proof.
  intros Ha Hev Hs. assert (p' = p) as ->.
  { induction Hs as [p|ev evs p p' p'' Hstep _ IH]; [done|].
    rewrite not_elem_of_cons in Hev. destruct Hev as [? Hev].
    apply abandoned_step in Hstep as ->; [|done..]. auto. }
  split; [done|]. intros f Hd. destruct Ha as (_ & _ & Hin & _). destruct Hd as [e reqbuf stack f _ _ _ _ E].
  by rewrite handle_ipc_request_eof in E.
Qed.
End process.

(** ** Streams of requests, and requests that do not fit *)
Record request := Request { rq_command : Z; rq_id : Z; rq_ip : Z; rq_data : list Z }.

Definition wf_request (r : request) : Prop :=
  is_uint 1 (rq_command r) ∧ is_uint 4 (rq_id r) ∧ is_uint 4 (rq_ip r) ∧
  request_fits (rq_command r) (rq_data r).

Definition request_wire (r : request) : list Z :=
  wire_request (rq_command r) (rq_id r) (rq_ip r) (rq_data r).

Section stream.
Context `{Sodium}.

(** The responses to a sequence of requests, and the state after it. *)
Fixpoint serve_all (rs : list request) (e : enclave) : list Z * enclave :=
  match rs with
  | [] => ([], e)
  | r :: rs =>
      let '((st, p), e) := serve (rq_command r) (rq_ip r) (rq_data r) e in
      let '(out, e) := serve_all rs e in
      (wire_response (rq_id r) st p ++ out, e)
  end.

(** The handler called [n] times. *)
Fixpoint handle_all (n : nat) (reqbuf stack : list Z) : M enclave () :=
  match n with
  | O => mret ()
  | S n => _ ← handle_ipc_request reqbuf stack; handle_all n reqbuf stack
  end.

Lemma serve_set_in command ip data i e :
  serve command ip data (set_in i e) =
  ((serve command ip data e).1, set_in i (serve command ip data e).2).
Proof. unfold serve. repeat (case_match; subst; simpl in *; simplify_eq); done. Qed.

Lemma serve_set_out command ip data o e :
  serve command ip data (set_out o e) =
  ((serve command ip data e).1, set_out o (serve command ip data e).2).
Proof. unfold serve. repeat (case_match; subst; simpl in *; simplify_eq); done. Qed.

Lemma serve_all_set_out rs o e :
  serve_all rs (set_out o e) = ((serve_all rs e).1, set_out o (serve_all rs e).2).
Proof.
  revert e. induction rs as [|r rs IH]; intros e; [done|]; simpl. rewrite serve_set_out.
  destruct (serve _ _ _ e) as [[st p] e1]; simpl. rewrite IH.
  by destruct (serve_all rs e1).
Qed.

Lemma add_key_public km ip k : server_public_key (add_key km ip k).2 = server_public_key km.
Proof. unfold add_key. by repeat case_match. Qed.

Lemma serve_public command ip data e :
  server_public_key (e_km (serve command ip data e).2) = server_public_key (e_km e).
Proof.
  unfold serve, remove_key, perform_handshake.
  repeat (case_match; subst; simplify_eq/=); try done;
    match goal with E : add_key ?km ?ip ?k = _ |- _ =>
      pose proof (add_key_public km ip k) as Hp; by rewrite E in Hp end.
Qed.

Lemma serve_running command ip data e :
  command ≠ IPC_SHUTDOWN → enclave_running (serve command ip data e).2 = enclave_running e.
Proof. intros Hc. unfold serve. repeat (case_match; subst; simplify_eq/=); done. Qed.

Context `{!SodiumLaws _}.

Lemma handle_all_open rs reqbuf stack e rest :
  zlen reqbuf = REQUEST_BUFFER → zlen stack = RESPONSE_DATA →
  zlen (server_public_key (e_km e)) = 32 → Forall wf_request rs → e_eof e = false →
  handle_all (length rs) reqbuf stack (set_in (concat (request_wire <$> rs) ++ rest) e) =
  Ok ((), set_in rest (set_out (e_out e ++ (serve_all rs e).1) (serve_all rs e).2)).
Proof.
  intros Hb Hs Hpk Hwf. revert e Hpk. induction Hwf as [|r rs (Hc & Hid & Hip & Hfit) _ IH];
    intros e Hpk Heof; [simpl; rewrite app_nil_r; by destruct e|].
  rewrite fmap_cons, concat_cons, <-app_assoc. cbn [length handle_all serve_all].
  destruct (serve (rq_command r) (rq_ip r) (rq_data r) e) as [[st p] e1] eqn:Hserve.
  pose proof (serve_public (rq_command r) (rq_ip r) (rq_data r) e) as Hpub.
  pose proof (serve_frame (rq_command r) (rq_ip r) (rq_data r) e) as (_ & Hout & Heof').
  rewrite Hserve in Hpub, Hout, Heof'. simpl in Hpub, Hout, Heof'.
  set (in' := concat (request_wire <$> rs) ++ rest).
  rewrite (run_bind_ok _ _ _ () (set_in in' (set_out (e_out e ++ wire_response (rq_id r) st p) e1))).
  - rewrite IH by (simpl; congruence). rewrite serve_all_set_out.
    destruct (serve_all rs e1) as [out e2]; simpl. by rewrite <-app_assoc.
  - rewrite (handle_ipc_request_serve _ _ (set_in (request_wire r ++ in') e)
      (rq_command r) (rq_id r) (rq_ip r) (rq_data r) in' st p
      (set_in in' e1)); try done; [cbn [e_eof set_in]; by rewrite Heof|].
    change (set_in in' (set_in _ e)) with (set_in in' e). by rewrite serve_set_in, Hserve.
Qed.

(** A request of a peer that closes the connection without waiting for the answer. *)
Lemma handle_ipc_request_closed r reqbuf stack e rest :
  zlen reqbuf = REQUEST_BUFFER → zlen stack = RESPONSE_DATA →
  zlen (server_public_key (e_km e)) = 32 → wf_request r → e_eof e = true →
  e_in e = request_wire r ++ rest → handle_ipc_request reqbuf stack e = Fault SigPipe.
Proof.
  intros Hb Hs Hpk (Hc & Hid & Hip & Hfit) Heof Hin.
  destruct (serve (rq_command r) (rq_ip r) (rq_data r) (set_in rest e)) as [[st p] e1] eqn:Hserve.
  rewrite (handle_ipc_request_serve _ _ e (rq_command r) (rq_id r) (rq_ip r) (rq_data r) rest st p e1)
    by done. by rewrite Heof.
Qed.

(** (C8) The enclave serves a stream of requests in order: [n] calls of the
    handler on the bytes of [n] requests (each within the buffers) consume
    exactly those bytes and append the responses of the service, in order and
    with the ids of the requests; they never fault, and what the buffers held
    before does not matter. Only if the peer has closed the connection there is nobody to
    answer: then the first request kills the enclave by SIGPIPE. *)
Theorem request_stream_is_served rs reqbuf stack e rest :
  zlen reqbuf = REQUEST_BUFFER → zlen stack = RESPONSE_DATA →
  zlen (server_public_key (e_km e)) = 32 → Forall wf_request rs →
  handle_all (length rs) reqbuf stack (set_in (concat (request_wire <$> rs) ++ rest) e) =
  if decide (e_eof e = true ∧ rs ≠ []) then Fault SigPipe
  else Ok ((), set_in rest (set_out (e_out e ++ (serve_all rs e).1) (serve_all rs e).2)).
Proof.
  intros Hb Hs Hpk Hwf. case_decide as Hd.
  - destruct Hd as [Heof Hne]. destruct Hwf as [|r rs Hr Hwf]; [done|].
    rewrite fmap_cons, concat_cons, <-app_assoc. cbn [length handle_all]. rewrite run_bind.
    by rewrite (handle_ipc_request_closed r _ _ _ (concat (request_wire <$> rs) ++ rest)).
  - destruct (e_eof e) eqn:Heof; [|by apply handle_all_open].
    destruct rs as [|r rs]; [|by destruct Hd]. simpl. rewrite app_nil_r. by destruct e.
Qed.

(** (C35) A peer that closes the connection without waiting for its answers kills the
    enclave: if the first of the unread bytes are a request within the buffers, the turn
    that reads it ends the process by SIGPIPE, for which it has no handler. The cleanup of
    [main] is not reached, so no key is wiped. *)
Theorem closed_peer_kills_enclave r e rest :
  enclave_running e = true → e_eof e = true → zlen (server_public_key (e_km e)) = 32 →
  wf_request r → e_in e = request_wire r ++ rest →
  enclave_dies (Proc Serving e) SigPipe ∧ ¬ ∃ p, enclave_step EvRequest (Proc Serving e) p.
Proof.
  intros Hr Heof Hpk Hwf Hin. split.
  - apply (dies_in_request e (replicate (Z.to_nat REQUEST_BUFFER) 0)
      (replicate (Z.to_nat RESPONSE_DATA) 0)); [done|by right|done|done|].
    by apply (handle_ipc_request_closed r _ _ _ rest).
  - intros [p Hstep]. inversion Hstep as [| | | | | | | |? reqbuf stack e' _ _ Hb Hs E| |]; subst.
    by rewrite (handle_ipc_request_closed r _ _ _ rest) in E.
Qed.

(** (C29) Requests that do not fit write behind the fixed buffers: a request
    whose data is longer than 4096 bytes overruns the request buffer, and an
    encryption of more than 4068 bytes overruns the response buffer. *)
Theorem large_requests_overrun_buffers reqbuf stack e command id ip data rest :
  zlen reqbuf = REQUEST_BUFFER → zlen stack = RESPONSE_DATA →
  is_uint 1 command → is_uint 4 id → is_uint 4 ip →
  e_in e = wire_request command id ip data ++ rest →
  4096 < zlen data ≤ 65535 ∨
  (command = IPC_ENCRYPT ∧ 4068 < zlen data ≤ 4096 ∧
   ∃ key c, get_key (e_km e) ip = Some key ∧
     crypto_encrypt data key (crypto_random_nonce (e_rng e)) = Some c) →
  handle_ipc_request reqbuf stack e = Fault Overrun.
Proof.
  intros Hb Hs Hc Hid Hip Hin Hbig.
  rewrite (handle_ipc_request_head _ _ _ command id ip data rest) by (done || lia).
  destruct Hbig as [Hbig|(-> & Hbig & key & c & Hkey & Henc)].
  { rewrite decide_False by zlen. done. }
  rewrite decide_True by zlen.
  change (dispatch IPC_ENCRYPT ip data stack) with (on_encrypt ip data stack).
  unfold on_encrypt, draw_nonce. run. cbn [e_km set_in e_rng]. rewrite Hkey. run.
  cbn [e_km set_in e_rng]. pose proof (crypto_random_nonce_len (e_rng e)) as Hn.
  pose proof (aead_encrypt_len _ _ _ _ Henc) as Hcl.
  rewrite buf_write_0 by zlen. run. rewrite Henc. run.
  rewrite buf_write_overrun; [done|done|]. autorewrite with zlen.
  rewrite zlen_drop_length by zlen. zlen.
Qed.
End stream.

(** ** Instances of the properties *)
Definition toy_enclave : enclave := Enclave toy_km true 0 [] [] false.
Definition zero_request_buffer : list Z := replicate 4107 0.
Definition zero_response_data : list Z := replicate 4096 0.
#[global] Arguments zero_request_buffer : simpl never.
#[global] Arguments zero_response_data : simpl never.
(** A handshake and an encryption for the address 9. *)
Definition toy_requests : list request :=
  [Request IPC_HANDSHAKE 1 9 (replicate 32 2); Request IPC_ENCRYPT 2 9 [1; 2; 3]].
(** The enclave after the handshake. *)
Definition keyed_enclave : enclave :=
  set_km (perform_handshake toy_km 9 (replicate 32 2)).2 toy_enclave.

(** A client that sends a request and closes the connection. *)
Definition hasty_enclave : enclave := Enclave toy_km true 0 (request_wire (Request IPC_PING 1 0 [])) [] true.

Lemma enclave_process_invariant_witness :
  (wf_key_manager (e_km hasty_enclave) ∧ wiped (e_km hasty_enclave)) ∧
  ((∃ p, enclave_step EvRequest (Proc Serving hasty_enclave) p) ∨
   ∃ f, enclave_dies (Proc Serving hasty_enclave) f).
Proof.
  assert (enclave_steps [EvAccept; EvDeliver (e_in hasty_enclave); EvClose]
    (Proc Accepting toy_enclave) (Proc Serving hasty_enclave)) as Hs.
  { eapply steps_cons; [by apply step_accept|].
    eapply steps_cons; [by apply step_deliver|]. apply steps_one, step_close. }
  destruct (enclave_process_invariant 0 toy_enclave [EvAccept; EvDeliver (e_in hasty_enclave); EvClose]
    Serving hasty_enclave) as (Hw & _ & Hp & _); [by exists toy_km|exact Hs|].
  split; [by apply Hw|by apply Hp; [..|right]].
Defined.

Lemma closed_peer_kills_enclave_witness :
  enclave_dies (Proc Serving hasty_enclave) SigPipe ∧
  ¬ ∃ p, enclave_step EvRequest (Proc Serving hasty_enclave) p.
Proof.
  apply (closed_peer_kills_enclave (Request IPC_PING 1 0 []) hasty_enclave []); try done.
Defined.

Lemma closed_connection_is_never_left_witness :
  let p := Proc Serving (Enclave toy_km true 0 [] [] true) in
  ∃ p', enclave_steps [EvTimeout; EvRequest] p p' ∧ p' = p ∧ ∀ f, ¬ enclave_dies p' f.
Proof.
  intros p. assert (enclave_steps [EvTimeout; EvRequest] p p) as Hs.
  { eapply steps_cons; [by apply step_client_idle|]. eapply steps_cons; [|apply steps_nil].
    apply (step_request _ zero_request_buffer zero_response_data); [done|by right|by vm_compute..|].
    by apply handle_ipc_request_eof. }
  exists p. split; [exact Hs|].
  apply (closed_connection_is_never_left [EvTimeout; EvRequest] p p); [done| |exact Hs].
  by intros [?|?%list_elem_of_singleton]%elem_of_cons.
Defined.

Lemma request_stream_is_served_witness :
  handle_all 2 zero_request_buffer zero_response_data
    (set_in (concat (request_wire <$> toy_requests) ++ []) toy_enclave) =
  Ok ((), set_in [] (set_out (e_out toy_enclave ++ (serve_all toy_requests toy_enclave).1)
                             (serve_all toy_requests toy_enclave).2)).
Proof.
  pose proof (request_stream_is_served toy_requests zero_request_buffer zero_response_data
    toy_enclave []) as Hs. rewrite decide_False in Hs by (intros [? _]; discriminate).
  apply Hs; [by vm_compute..|]. repeat constructor; by vm_compute.
Defined.

Lemma large_requests_overrun_buffers_witness :
  let data := replicate 4069 0 in
  handle_ipc_request zero_request_buffer zero_response_data
    (set_in (wire_request IPC_ENCRYPT 1 9 data ++ []) keyed_enclave) = Fault Overrun.
Proof.
  intros data. apply (large_requests_overrun_buffers _ _ _ IPC_ENCRYPT 1 9 data []);
    [by vm_compute..|done|]. right. split_and!; [done|by vm_compute|by vm_compute|].
  eexists _, _. split; vm_compute; reflexivity.
Defined.
