(* ===== verification/EnclaveClient.v ===== *)
(** * The server's stubs for the enclave
    (include/enclave_client.h, src/server/enclave_client.c)

    The stubs talk to the enclave over a connected stream socket, the class
    [Channel]. Its instance for the enclave process connects the stubs to the
    request handler: a server that blocks in recv lets the enclave run. *)

From stdpp Require Import gmap.
From S2P Require Import Prelude IpcProtocol Crypto ToySodium KeyManager Enclave.

(** send and recv on the socket; [None] is the result -1. *)
Class Channel (C : Type) := {
  ch_send : list Z → M C Z;
  ch_recv : bool → Z → M C (option (list Z))
}.

(** The state behind the stubs: the static request counter of ipc_protocol.c and
    the connection. *)
Record ipc (C : Type) := Ipc { global_request_id : Z; channel : C }.
Arguments Ipc {C} _ _.
Arguments global_request_id {C} _.
Arguments channel {C} _.

Section stubs.
Context {C : Type} `{Channel C} `{Garbage}.

Definition on_channel {A} (m : M C A) : M (ipc C) A :=
  zoom channel (λ c s, Ipc (global_request_id s) c) m.

Definition new_request (req : list Z) (command vpn_ip : Z) (data : option (list Z))
    (data_len : Z) : M (ipc C) (list Z) := λ s,
  match init_ipc_request req (global_request_id s) command vpn_ip data data_len with
  | Ok (req, id) => Ok (req, Ipc id (channel s))
  | Fault f => Fault f
  end.

(** The response buffer after a successful exchange, [None] for -1. *)
Definition send_ipc_request (req resp : list Z) : M C (option (list Z)) :=
  sent ← ch_send req;
  if decide (sent ≠ zlen req) then mret None else
  n ← ch_recv true sizeof_ipc_response_t;
  match n with
  | None => mret None
  | Some hdr =>
      if decide (zlen hdr < sizeof_ipc_response_t) then mret None else
      let data_len := ntohs (resp_data_len (ipc_response_of_bytes hdr)) in
      let total_len := sizeof_ipc_response_t + data_len in
      if decide (zlen resp < total_len) then mret None else
      n ← ch_recv false total_len;
      match n with
      | None => mret None
      | Some full =>
          resp ← lift (buf_write resp 0 full);
          if decide (zlen full ≠ total_len) then mret None else
          if decide (resp_status (ipc_response_of_bytes resp) ≠ 0) then mret None else
          mret (Some resp)
      end
  end.

Definition enclave_ping : M (ipc C) Z :=
  req ← new_request (local "enclave_ping.req" sizeof_ipc_request_t) IPC_PING 0 None 0;
  r ← on_channel (send_ipc_request req (local "enclave_ping.resp" sizeof_ipc_response_t));
  mret (match r with Some _ => 0 | None => -1 end).

Definition enclave_add_key (vpn_ip : Z) (session_key : list Z) : M (ipc C) Z :=
  key_data ← lift (buf_read session_key 0 32);
  req ← new_request
    (local "enclave_add_key.req" (sizeof_ipc_request_t + sizeof_ipc_add_key_data_t))
    IPC_ADD_KEY vpn_ip (Some key_data) sizeof_ipc_add_key_data_t;
  r ← on_channel (send_ipc_request req (local "enclave_add_key.resp" sizeof_ipc_response_t));
  mret (match r with Some _ => 0 | None => -1 end).

Definition enclave_remove_key (vpn_ip : Z) : M (ipc C) Z :=
  req ← new_request (local "enclave_remove_key.req" sizeof_ipc_request_t)
    IPC_REMOVE_KEY vpn_ip None 0;
  r ← on_channel (send_ipc_request req (local "enclave_remove_key.resp" sizeof_ipc_response_t));
  mret (match r with Some _ => 0 | None => -1 end).

(** The server's public key and the session key. *)
Definition enclave_handshake (vpn_ip : Z) (client_public_key : list Z) :
    M (ipc C) (option (list Z * list Z)) :=
  hs_data ← lift (buf_read client_public_key 0 32);
  req ← new_request
    (local "enclave_handshake.req" (sizeof_ipc_request_t + sizeof_ipc_handshake_data_t))
    IPC_HANDSHAKE vpn_ip (Some hs_data) sizeof_ipc_handshake_data_t;
  r ← on_channel (send_ipc_request req
    (local "enclave_handshake.resp" (sizeof_ipc_response_t + sizeof_ipc_handshake_response_t)));
  match r with
  | None => mret None
  | Some resp =>
      server_public_key ← lift (buf_read resp sizeof_ipc_response_t 32);
      session_key ← lift (buf_read resp (sizeof_ipc_response_t + 32) 32);
      mret (Some (server_public_key, session_key))
  end.

(** The common body of [enclave_encrypt] and [enclave_decrypt]: the caller's
    output buffer [out] and the length stored through the pointer. *)
Definition crypt_request (command vpn_ip : Z) (input out : list Z) :
    M (ipc C) (option (list Z * Z)) :=
  if decide (IPC_MAX_DATA_SIZE < zlen input) then mret None else
  req ← new_request (local "crypt.req" (sizeof_ipc_request_t + IPC_MAX_DATA_SIZE))
    command vpn_ip (Some input) (zlen input);
  r ← on_channel (send_ipc_request (take (Z.to_nat (sizeof_ipc_request_t + zlen input)) req)
    (local "crypt.resp" (sizeof_ipc_response_t + IPC_MAX_DATA_SIZE)));
  match r with
  | None => mret None
  | Some resp =>
      let len := ntohs (resp_data_len (ipc_response_of_bytes resp)) in
      data ← lift (buf_read resp sizeof_ipc_response_t len);
      out ← lift (buf_write out 0 data);
      mret (Some (out, len))
  end.

Definition enclave_encrypt (vpn_ip : Z) (plaintext ciphertext : list Z) :
    M (ipc C) (option (list Z * Z)) :=
  crypt_request IPC_ENCRYPT vpn_ip plaintext ciphertext.

Definition enclave_decrypt (vpn_ip : Z) (ciphertext plaintext : list Z) :
    M (ipc C) (option (list Z * Z)) :=
  crypt_request IPC_DECRYPT vpn_ip ciphertext plaintext.

Definition enclave_shutdown : M (ipc C) Z :=
  req ← new_request (local "enclave_shutdown.req" sizeof_ipc_request_t) IPC_SHUTDOWN 0 None 0;
  r ← on_channel (send_ipc_request req (local "enclave_shutdown.resp" sizeof_ipc_response_t));
  mret (match r with Some _ => 0 | None => -1 end).
End stubs.

(** ** The enclave behind the socket *)
Section connection.
Context `{Sodium} `{Garbage}.

(** A blocked recv lets the enclave handle what it was sent. *)
Definition enclave_turn : M enclave () := λ e,
  if enclave_running e then
    match e_out e, e_in e with
    | [], _ :: _ =>
        handle_ipc_request (local "request_buffer" REQUEST_BUFFER)
                           (local "response_buffer" RESPONSE_DATA) e
    | _, _ => Ok ((), e)
    end
  else Ok ((), e).

#[export] Instance enclave_channel : Channel enclave := {|
  ch_send := λ d e, Ok (zlen d, set_in (e_in e ++ d) e);
  ch_recv := λ peek n e,
    match enclave_turn e with
    | Ok (_, e) =>
        Ok (Some (take (Z.to_nat n) (e_out e)),
            if peek then e else set_out (drop (Z.to_nat n) (e_out e)) e)
    | Fault f => Fault f
    end
|}.
End connection.

(** ** Requests and responses over the connection *)
Section building.
(** The buffer a request is built in starts with the request. *)
Lemma init_ipc_request_wire req g command ip data :
  is_uint 1 command → zlen data ≤ 65535 → 11 + zlen data ≤ zlen req →
  init_ipc_request req g command ip (Some data) (zlen data) =
  Ok (wire_request command (htonl (u32 (g + 1))) ip data ++
      drop (length data) (drop 11 req), u32 (g + 1)).
Proof.
  intros Hc Hl Hr. pose proof (zlen_nonneg data). unfold init_ipc_request, wire_request.
  replace (u8 command) with command by (symmetry; apply Z.mod_small; exact Hc).
  replace (u16 (zlen data)) with (zlen data) by (symmetry; apply Z.mod_small; lia).
  set (h := ipc_request_bytes _).
  assert (zlen h = 11) as Hh by (apply zlen_ipc_request_bytes).
  pose proof (fill_packet req h data 11 Hh Hr) as E.
  replace 11%nat with (length h) by (unfold zlen in Hh; lia).
  rewrite buf_write_0 in E |- * by lia. cbn [mbind res_bind] in E |- *.
  change sizeof_ipc_request_t with 11. rewrite E. cbn [mbind res_bind]. by rewrite <-app_assoc.
Qed.

Lemma init_ipc_request_empty req g command ip :
  is_uint 1 command → 11 ≤ zlen req →
  init_ipc_request req g command ip None 0 =
  Ok (wire_request command (htonl (u32 (g + 1))) ip [] ++ drop 11 req, u32 (g + 1)).
Proof.
  intros. pose proof (init_ipc_request_wire req g command ip [] ltac:(done)) as E.
  rewrite zlen_nil in E. cbn [length] in E. rewrite drop_0 in E. rewrite <-E by lia.
  unfold init_ipc_request, copy_data. by destruct (buf_write _ _ _).
Qed.
End building.

(** The connection between two requests. *)
Record idle (e : enclave) : Prop := Idle {
  idle_in : e_in e = [];
  idle_out : e_out e = [];
  idle_running : enclave_running e = true;
  idle_open : e_eof e = false;
  idle_key : zlen (server_public_key (e_km e)) = 32
}.

Section exchange.
Context `{Sodium, Garbage} `{!SodiumLaws _}.

Lemma serve_status command ip data e :
  (serve command ip data e).1.1 = 0 ∨ (serve command ip data e).1.1 = -1.
Proof. unfold serve. repeat (case_match; subst; simplify_eq/=); auto. Qed.

Lemma serve_payload command ip data e :
  zlen (server_public_key (e_km e)) = 32 → request_fits command data →
  zlen (serve command ip data e).1.2 ≤ 4096.
Proof.
  intros Hpk Hfit.
  destruct (dispatch_serve command ip data (replicate 4096 0) e) as (rp & _ & Hr); try done.
  destruct Hr as (_ & _ & _ & ?). done.
Qed.

(** The service, command by command. *)
Lemma serve_add_key ip k e :
  serve IPC_ADD_KEY ip k e =
  if decide (zlen k = 32) then
    let '(ret, km) := add_key (e_km e) ip k in
    ((if decide (ret = 0) then 0 else -1, []), set_km km e)
  else ((-1, []), e).
Proof. reflexivity. Qed.

Lemma serve_handshake ip pk e :
  serve IPC_HANDSHAKE ip pk e =
  if decide (zlen pk = 32) then
    match perform_handshake (e_km e) ip pk with
    | (Some k, km') => ((0, server_public_key (e_km e) ++ k), set_km km' e)
    | (None, km') => ((-1, []), set_km km' e)
    end
  else ((-1, []), e).
Proof. reflexivity. Qed.

Lemma serve_encrypt ip m e :
  serve IPC_ENCRYPT ip m e =
  match get_key (e_km e) ip with
  | None => ((-1, []), e)
  | Some k =>
      match crypto_encrypt m k (crypto_random_nonce (e_rng e)) with
      | Some c => ((0, crypto_random_nonce (e_rng e) ++ c), bump_rng e)
      | None => ((-1, []), bump_rng e)
      end
  end.
Proof. reflexivity. Qed.

Lemma serve_decrypt ip c e :
  serve IPC_DECRYPT ip c e =
  match get_key (e_km e) ip with
  | None => ((-1, []), e)
  | Some k =>
      if decide (zlen c < 28) then ((-1, []), e)
      else match crypto_decrypt (slice 12 (zlen c - 12) c) k (slice 0 12 c) with
      | Some p => ((0, p), e)
      | None => ((-1, []), e)
      end
  end.
Proof. reflexivity. Qed.

(** A request sent over an idle connection is answered by the next recv. *)
Lemma enclave_turn_serve command id ip data e st p e' :
  idle e → is_uint 1 command → is_uint 4 id → is_uint 4 ip → request_fits command data →
  serve command ip data e = ((st, p), e') →
  enclave_turn (set_in (e_in e ++ wire_request command id ip data) e) =
  Ok ((), set_out (wire_response id st p) e').
Proof.
  intros [Hin Hout Hrun Hopen Hpk] Hc Hid Hip Hfit Hserve.
  set (w := wire_request command id ip data).
  assert (∃ b w', w = b :: w') as (b & w' & E).
  { destruct w as [|b w'] eqn:E; [|eauto]. apply (f_equal zlen) in E.
    subst w. rewrite zlen_wire_request, zlen_nil in E. pose proof (zlen_nonneg data). lia. }
  unfold enclave_turn. cbn [enclave_running set_in e_out e_in]. rewrite Hrun, Hout, Hin.
  simpl app. rewrite E. rewrite <-E.
  rewrite (handle_ipc_request_serve _ _ (set_in w e) command id ip data [] st p e');
    try done; [cbn [e_out e_eof set_in]; by rewrite Hout, Hopen|by rewrite zlen_local..|by rewrite app_nil_r|].
  rewrite <-Hserve, <-Hin. by destruct e.
Qed.

Lemma wire_response_header id st (p rest : list Z) :
  is_uint 4 id → st = 0 ∨ st = -1 →
  ipc_response_of_bytes (ipc_response_bytes (IpcResponse id st (htons (zlen p))) ++ rest) =
  IpcResponse id st (htons (zlen p)).
Proof.
  intros. apply ipc_response_roundtrip. split_and!; simpl; [done|lia|lia|by apply bswap_uint].
Qed.

Lemma wire_response_app id st p rest :
  wire_response id st p ++ rest =
  ipc_response_bytes (IpcResponse id st (htons (zlen p))) ++ p ++ rest.
Proof. unfold wire_response. by rewrite <-app_assoc. Qed.

Lemma wire_response_peek id st p :
  take (Z.to_nat sizeof_ipc_response_t) (wire_response id st p) =
  ipc_response_bytes (IpcResponse id st (htons (zlen p))).
Proof. unfold wire_response. apply take_app_zlen. zlen. Qed.

(** A recv that finds a response waiting does not run the enclave. *)
Lemma enclave_turn_waiting e : e_out e ≠ [] → enclave_turn e = Ok ((), e).
Proof. intros Hout. unfold enclave_turn. by repeat case_match. Qed.

Lemma wire_response_nonempty id st p : wire_response id st p ≠ [].
Proof.
  intros E%(f_equal zlen). rewrite zlen_wire_response, zlen_nil in E.
  pose proof (zlen_nonneg p). lia.
Qed.

(** What the caller makes of the response it finds in the socket. A response
    that does not fit its buffer stays in the socket. *)
Lemma send_ipc_request_receive req resp e id st p e' :
  enclave_turn (set_in (e_in e ++ req) e) = Ok ((), set_out (wire_response id st p) e') →
  is_uint 4 id → st = 0 ∨ st = -1 → zlen p ≤ 4096 →
  send_ipc_request req resp e =
  if decide (zlen resp < 7 + zlen p)
  then Ok (None, set_out (wire_response id st p) e')
  else Ok (if decide (st = 0)
           then Some (wire_response id st p ++ drop (length (wire_response id st p)) resp)
           else None, set_out [] e').
Proof.
  intros Ht Hid Hst Hp. pose proof (zlen_wire_response id st p) as Hrl.
  pose proof (zlen_nonneg p).
  unfold send_ipc_request. rewrite run_bind. cbn [ch_send enclave_channel].
  rewrite decide_False by lia. rewrite run_bind. cbn [ch_recv enclave_channel]. rewrite Ht.
  cbn [e_out set_out]. rewrite wire_response_peek.
  rewrite <-(app_nil_r (ipc_response_bytes _)), wire_response_header by done.
  cbn [resp_data_len]. unfold ntohs, htons.
  rewrite bswap_involutive by (unfold is_uint; simpl; lia).
  rewrite decide_False by zlen. change sizeof_ipc_response_t with 7.
  case_decide as Hbig; [by run|]. rewrite run_bind. cbn [ch_recv enclave_channel].
  rewrite enclave_turn_waiting by apply wire_response_nonempty.
  cbn [e_out set_out]. rewrite !take_all_zlen, drop_ge
    by (unfold zlen in Hrl, Hbig |- *; lia).
  rewrite run_bind, buf_write_0 by lia. rewrite run_lift. cbn iota beta.
  rewrite decide_False by lia. rewrite wire_response_app, wire_response_header by done.
  cbn [resp_status]. repeat case_decide; done.
Qed.

(** One exchange over an idle connection: the caller gets the response of the
    service when the status is 0 and the response fits its buffer. *)
Lemma send_ipc_request_serve command id ip data resp e st p e' :
  idle e → is_uint 1 command → is_uint 4 id → is_uint 4 ip → request_fits command data →
  serve command ip data e = ((st, p), e') →
  send_ipc_request (wire_request command id ip data) resp e =
  if decide (zlen resp < 7 + zlen p)
  then Ok (None, set_out (wire_response id st p) e')
  else Ok (if decide (st = 0)
           then Some (wire_response id st p ++ drop (length (wire_response id st p)) resp)
           else None, e').
Proof.
  intros Hidle Hc Hid Hip Hfit Hserve.
  pose proof (enclave_turn_serve _ _ _ _ _ _ _ _ Hidle Hc Hid Hip Hfit Hserve) as Ht.
  destruct Hidle as [Hin Hout _ _ Hpk].
  pose proof (serve_status command ip data e) as Hst.
  pose proof (serve_payload command ip data e Hpk Hfit) as Hp.
  pose proof (serve_frame command ip data e) as (_ & Hout' & _).
  rewrite Hserve in Hst, Hp, Hout'. simpl in Hst, Hp, Hout'. rewrite Hout in Hout'.
  rewrite (send_ipc_request_receive _ _ _ id st p e') by done.
  replace (set_out [] e') with e' by (rewrite <-Hout'; by destruct e'). done.
Qed.
End exchange.

(** The plaintext of a packet (nonce, ciphertext and tag) under a key. *)
Definition open_packet `{Sodium} (key : option (list Z)) (c : list Z) : option (list Z) :=
  match key with
  | None => None
  | Some k =>
      if decide (zlen c < 28) then None
      else crypto_decrypt (slice 12 (zlen c - 12) c) k (slice 0 12 c)
  end.

Lemma open_packet_sealed `{SodiumLaws} m k n c :
  zlen n = 12 → crypto_encrypt m k n = Some c → open_packet (Some k) (n ++ c) = Some m.
Proof.
  intros Hn Hc. pose proof (aead_encrypt_len _ _ _ _ Hc) as Hl. unfold CRYPTO_MAC_SIZE in Hl.
  pose proof (zlen_nonneg m). unfold open_packet. rewrite decide_False by zlen.
  rewrite slice_hit by done. replace (slice 12 _ (n ++ c)) with c.
  - by apply aead_decrypt_encrypt.
  - rewrite slice_skip, Hn, Z.sub_diag by lia. rewrite slice_all; [done|zlen].
Qed.

(** ** What the stubs promise to the server

    [svc_ready]: no request or response is in flight; [svc_key]: the session key
    in force for a VPN address; [svc_held]: all keys held for it, that one first. The laws say what each stub returns and what it
    changes; the theorems on the server are proved from them. *)
Class EnclaveService (C : Type) `{Channel C, Sodium, Garbage} := {
  svc_ready : C → Prop;
  svc_key : C → Z → option (list Z);
  svc_held : C → Z → list (list Z);
  svc_public : C → list Z;

  svc_key_held (c : C) ip : svc_key c ip = head (svc_held c ip);

  svc_ping (s : ipc C) :
    svc_ready (channel s) →
    ∃ s', enclave_ping s = Ok (0, s') ∧ svc_ready (channel s') ∧
      (∀ ip, svc_key (channel s') ip = svc_key (channel s) ip);

  svc_handshake (s : ipc C) ip pk :
    svc_ready (channel s) → is_uint 4 ip → zlen pk = 32 →
    ∃ r s', enclave_handshake ip pk s = Ok (r, s') ∧ svc_ready (channel s') ∧
      svc_public (channel s') = svc_public (channel s) ∧
      (∀ ip', ip' ≠ ip → svc_key (channel s') ip' = svc_key (channel s) ip') ∧
      match r with
      | Some (spk, sk) =>
          spk = svc_public (channel s) ∧ zlen spk = 32 ∧ zlen sk = 32 ∧
          (svc_key (channel s') ip = svc_key (channel s) ip ∨
           svc_key (channel s') ip = Some sk)
      | None => svc_key (channel s') ip = svc_key (channel s) ip
      end;

  svc_remove_key (s : ipc C) ip :
    svc_ready (channel s) → is_uint 4 ip →
    ∃ s', enclave_remove_key ip s = Ok (0, s') ∧ svc_ready (channel s') ∧
      svc_public (channel s') = svc_public (channel s) ∧
      svc_held (channel s') ip = tail (svc_held (channel s) ip) ∧
      (∀ ip', ip' ≠ ip → svc_key (channel s') ip' = svc_key (channel s) ip');

  svc_encrypt (s : ipc C) ip p out :
    svc_ready (channel s) → is_uint 4 ip → zlen p ≤ 4068 →
    ∃ s', svc_ready (channel s') ∧
      svc_public (channel s') = svc_public (channel s) ∧
      (∀ ip', svc_key (channel s') ip' = svc_key (channel s) ip') ∧
      match svc_key (channel s) ip with
      | None => enclave_encrypt ip p out s = Ok (None, s')
      | Some k =>
          ∃ n, zlen n = 12 ∧
          match crypto_encrypt p k n with
          | None => enclave_encrypt ip p out s = Ok (None, s')
          | Some c =>
              (zlen p + 28 ≤ zlen out →
               enclave_encrypt ip p out s =
               Ok (Some ((n ++ c) ++ drop (length (n ++ c)) out, zlen p + 28), s')) ∧
              (zlen out < zlen p + 28 → enclave_encrypt ip p out s = Fault Overrun)
          end
      end;

  svc_decrypt (s : ipc C) ip c out :
    svc_ready (channel s) → is_uint 4 ip → zlen c ≤ 4096 → zlen c ≤ zlen out + 28 →
    ∃ s', svc_ready (channel s') ∧
      svc_public (channel s') = svc_public (channel s) ∧
      (∀ ip', svc_key (channel s') ip' = svc_key (channel s) ip') ∧
      enclave_decrypt ip c out s =
      Ok (match open_packet (svc_key (channel s) ip) c with
          | Some p => Some (p ++ drop (length p) out, zlen p)
          | None => None
          end, s');

  svc_shutdown (s : ipc C) :
    svc_ready (channel s) → ∃ s', enclave_shutdown s = Ok (0, s')
}.

(** ** The enclave process keeps the promise *)
Section implementation.
Context `{Sodium, Garbage} `{!SodiumLaws _}.
Implicit Types s : ipc enclave.

Definition next_id (s : ipc enclave) : Z := htonl (u32 (global_request_id s + 1)).
Definition bump (s : ipc enclave) (e : enclave) : ipc enclave :=
  Ipc (u32 (global_request_id s + 1)) e.

Lemma next_id_uint s : is_uint 4 (next_id s).
Proof. by apply bswap_uint. Qed.

Lemma serve_idle command ip data e :
  idle e → command ≠ IPC_SHUTDOWN → idle (serve command ip data e).2.
Proof.
  intros [Hin Hout Hrun Hopen Hpk] Hc.
  pose proof (serve_frame command ip data e) as (? & ? & ?).
  pose proof (serve_public command ip data e). split; try congruence.
  unfold serve. repeat (case_match; subst; simplify_eq/=); done.
Qed.

(** A stub that passes [data]: what it gets is what the service returns. *)
Lemma call_with_data req resp command ip data s st p e' :
  idle (channel s) → is_uint 1 command → is_uint 4 ip → request_fits command data →
  11 + zlen data ≤ zlen req → 7 + zlen p ≤ zlen resp →
  serve command ip data (channel s) = ((st, p), e') →
  new_request req command ip (Some data) (zlen data) s =
    Ok (wire_request command (next_id s) ip data ++ drop (length data) (drop 11 req),
        bump s (channel s)) ∧
  on_channel (send_ipc_request (wire_request command (next_id s) ip data) resp)
             (bump s (channel s)) =
    Ok (if decide (st = 0)
        then Some (wire_response (next_id s) st p ++
                   drop (length (wire_response (next_id s) st p)) resp)
        else None, bump s e').
Proof.
  intros Hidle Hc Hip Hfit Hreq Hresp Hserve. pose proof Hfit as [? _].
  autounfold with sizes in *. split.
  - unfold new_request. by rewrite init_ipc_request_wire by (done || lia).
  - unfold on_channel. rewrite run_zoom. cbn [channel bump].
    rewrite (send_ipc_request_serve _ _ _ _ _ _ st p e') by auto using next_id_uint.
    by rewrite decide_False by lia.
Qed.

(** Nothing follows the request in a buffer of its size. *)
Lemma request_exact (req data : list Z) :
  zlen req ≤ 11 + zlen data → drop (length data) (drop 11 req) = [].
Proof. unfold zlen. intros. rewrite drop_drop. apply drop_ge. lia. Qed.

Lemma request_fits_nil command : request_fits command [].
Proof. by split. Qed.

Lemma call_without_data req resp command ip s st p e' :
  idle (channel s) → is_uint 1 command → is_uint 4 ip →
  zlen req = 11 → 7 + zlen p ≤ zlen resp →
  serve command ip [] (channel s) = ((st, p), e') →
  new_request req command ip None 0 s =
    Ok (wire_request command (next_id s) ip [], bump s (channel s)) ∧
  on_channel (send_ipc_request (wire_request command (next_id s) ip []) resp)
             (bump s (channel s)) =
    Ok (if decide (st = 0)
        then Some (wire_response (next_id s) st p ++
                   drop (length (wire_response (next_id s) st p)) resp)
        else None, bump s e').
Proof.
  intros Hidle Hc Hip Hreq Hresp Hserve. split.
  - unfold new_request. rewrite init_ipc_request_empty by (done || lia).
    rewrite drop_ge by (unfold zlen in Hreq; lia). by rewrite app_nil_r.
  - unfold on_channel. rewrite run_zoom. cbn [channel bump].
    rewrite (send_ipc_request_serve _ _ _ _ _ _ st p e')
      by auto using next_id_uint, request_fits_nil.
    by rewrite decide_False by lia.
Qed.

Lemma enclave_ping_run s :
  idle (channel s) → enclave_ping s = Ok (0, bump s (channel s)).
Proof.
  intros Hidle. unfold enclave_ping.
  destruct (call_without_data (local "enclave_ping.req" sizeof_ipc_request_t)
    (local "enclave_ping.resp" sizeof_ipc_response_t) IPC_PING 0 s 0 [] (channel s))
    as [E1 E2]; try done; [by rewrite zlen_local..|].
  by rewrite (run_bind_ok _ _ _ _ _ E1), (run_bind_ok _ _ _ _ _ E2).
Qed.

Lemma enclave_shutdown_run s :
  idle (channel s) → enclave_shutdown s = Ok (0, bump s (set_running false (channel s))).
Proof.
  intros Hidle. unfold enclave_shutdown.
  destruct (call_without_data (local "enclave_shutdown.req" sizeof_ipc_request_t)
    (local "enclave_shutdown.resp" sizeof_ipc_response_t) IPC_SHUTDOWN 0 s 0 []
    (set_running false (channel s))) as [E1 E2]; try done; [by rewrite zlen_local..|].
  by rewrite (run_bind_ok _ _ _ _ _ E1), (run_bind_ok _ _ _ _ _ E2).
Qed.

Lemma enclave_remove_key_run s ip :
  idle (channel s) → is_uint 4 ip →
  enclave_remove_key ip s =
  Ok (0, bump s (set_km (remove_key (e_km (channel s)) ip) (channel s))).
Proof.
  intros Hidle Hip. unfold enclave_remove_key.
  destruct (call_without_data (local "enclave_remove_key.req" sizeof_ipc_request_t)
    (local "enclave_remove_key.resp" sizeof_ipc_response_t) IPC_REMOVE_KEY ip s 0 []
    (set_km (remove_key (e_km (channel s)) ip) (channel s)))
    as [E1 E2]; try done; [by rewrite zlen_local..|].
  by rewrite (run_bind_ok _ _ _ _ _ E1), (run_bind_ok _ _ _ _ _ E2).
Qed.

Lemma enclave_add_key_run s ip k :
  idle (channel s) → is_uint 4 ip → zlen k = 32 →
  enclave_add_key ip k s =
  Ok ((add_key (e_km (channel s)) ip k).1,
      bump s (set_km (add_key (e_km (channel s)) ip k).2 (channel s))).
Proof.
  intros Hidle Hip Hk. unfold enclave_add_key. rewrite buf_read_ok, slice_all by lia.
  rewrite run_bind, run_lift. cbn iota beta.
  replace sizeof_ipc_add_key_data_t with (zlen k) by (autounfold with sizes; lia).
  destruct (add_key (e_km (channel s)) ip k) as [r km'] eqn:Ha.
  assert (r = 0 ∨ r = -1) as Hr by (unfold add_key in Ha; repeat case_match; simplify_eq; auto).
  destruct (call_with_data (local "enclave_add_key.req" (sizeof_ipc_request_t + zlen k))
    (local "enclave_add_key.resp" sizeof_ipc_response_t) IPC_ADD_KEY ip k s r []
    (set_km km' (channel s))) as [E1 E2]; try done.
  - split; [autounfold with sizes; lia|done].
  - rewrite zlen_local; autounfold with sizes; lia.
  - rewrite serve_add_key, decide_True, Ha by done. destruct Hr as [->| ->]; done.
  - rewrite (run_bind_ok _ _ _ _ _ E1).
    rewrite request_exact by (rewrite zlen_local; autounfold with sizes; lia).
    rewrite app_nil_r, (run_bind_ok _ _ _ _ _ E2). destruct Hr as [->| ->]; done.
Qed.

Lemma enclave_handshake_run s ip pk :
  idle (channel s) → is_uint 4 ip → zlen pk = 32 →
  enclave_handshake ip pk s =
  let '(r, km') := perform_handshake (e_km (channel s)) ip pk in
  Ok (match r with
      | Some k => Some (server_public_key (e_km (channel s)), k)
      | None => None
      end, bump s (set_km km' (channel s))).
Proof.
  intros Hidle Hip Hk. pose proof (idle_key _ Hidle) as Hpk.
  unfold enclave_handshake. rewrite buf_read_ok, slice_all by lia.
  rewrite run_bind, run_lift. cbn iota beta.
  replace sizeof_ipc_handshake_data_t with (zlen pk) by (autounfold with sizes; lia).
  destruct (perform_handshake (e_km (channel s)) ip pk) as [r km'] eqn:Hh.
  set (resp := local "enclave_handshake.resp" _).
  assert (zlen resp = 71) as Hresp by (subst resp; by rewrite zlen_local).
  set (st := match r with Some _ => 0 | None => -1 end).
  set (p := match r with Some k => server_public_key (e_km (channel s)) ++ k | None => [] end).
  assert (7 + zlen p ≤ zlen resp) as Hp.
  { subst p. destruct r; [|rewrite zlen_nil; lia].
    apply perform_handshake_key_len in Hh. rewrite zlen_app. lia. }
  destruct (call_with_data (local "enclave_handshake.req" (sizeof_ipc_request_t + zlen pk))
    resp IPC_HANDSHAKE ip pk s st p (set_km km' (channel s))) as [E1 E2]; try done.
  - split; [autounfold with sizes; lia|done].
  - rewrite zlen_local; autounfold with sizes; lia.
  - rewrite serve_handshake, decide_True, Hh by done. by destruct r.
  - rewrite (run_bind_ok _ _ _ _ _ E1).
    rewrite request_exact by (rewrite zlen_local; autounfold with sizes; lia).
    rewrite app_nil_r, (run_bind_ok _ _ _ _ _ E2). subst st p.
    destruct r as [k|]; [|done]. rewrite decide_True by done.
    apply perform_handshake_key_len in Hh.
    rewrite wire_response_app, <-app_assoc. set (rest := drop _ resp).
    pose proof (zlen_nonneg rest).
    rewrite run_bind, buf_read_ok by zlen. rewrite run_lift. cbn iota beta.
    rewrite run_bind, buf_read_ok by zlen. rewrite run_lift. cbn iota beta.
    autounfold with sizes. rewrite run_ret. do 4 f_equal.
    + by field.
    + rewrite !slice_skip by zlen. autorewrite with zlen. rewrite Hpk.
      by apply slice_hit.
Qed.

(** The shared body of the encryption and decryption stubs. *)
Lemma crypt_request_run s command ip input out st p e' :
  idle (channel s) → is_uint 1 command → is_uint 4 ip → request_fits command input →
  serve command ip input (channel s) = ((st, p), e') →
  crypt_request command ip input out s =
  if decide (st = 0) then
    if decide (zlen p ≤ zlen out)
    then Ok (Some (p ++ drop (length p) out, zlen p), bump s e')
    else Fault Overrun
  else Ok (None, bump s e').
Proof.
  intros Hidle Hc Hip Hfit Hserve. pose proof Hfit as [Hin _].
  pose proof (serve_payload command ip input (channel s) (idle_key _ Hidle) Hfit) as Hp.
  rewrite Hserve in Hp. simpl in Hp. pose proof (zlen_nonneg p). pose proof (zlen_nonneg input).
  set (resp := local "crypt.resp" (sizeof_ipc_response_t + IPC_MAX_DATA_SIZE)).
  assert (zlen resp = 4103) as Hresp by (subst resp; by rewrite zlen_local).
  unfold crypt_request. rewrite decide_False by lia. fold resp.
  destruct (call_with_data (local "crypt.req" (sizeof_ipc_request_t + IPC_MAX_DATA_SIZE)) resp
    command ip input s st p e') as [E1 E2]; try done; [rewrite zlen_local; zlen|lia|].
  rewrite (run_bind_ok _ _ _ _ _ E1), take_app_zlen by zlen.
  rewrite (run_bind_ok _ _ _ _ _ E2). destruct (decide (st = 0)) as [->|]; [|done].
  rewrite wire_response_app. rewrite wire_response_header by auto using next_id_uint.
  cbn [resp_data_len]. unfold ntohs, htons.
  rewrite bswap_involutive by (unfold is_uint; simpl; lia).
  set (rest := drop _ resp). pose proof (zlen_nonneg rest).
  rewrite run_bind, buf_read_ok by zlen. rewrite run_lift. cbn iota beta.
  replace (slice _ _ _) with p by (by field).
  rewrite run_bind. case_decide.
  - by rewrite buf_write_0.
  - by rewrite buf_write_overrun by lia.
Qed.
End implementation.

Section instance.
Context `{Sodium, Garbage} `{!SodiumLaws _}.
Implicit Types s : ipc enclave.

Lemma perform_handshake_none km ip pk km' :
  perform_handshake km ip pk = (None, km') → km' = km.
Proof.
  unfold perform_handshake. destruct (crypto_ecdh _ _); [|naive_solver].
  by destruct (add_key _ _ _).
Qed.

Lemma get_key_add_either km ip k :
  get_key (add_key km ip k).2 ip = get_key km ip ∨ get_key (add_key km ip k).2 ip = Some k.
Proof.
  destruct (list_find (λ e, key_active e = false) (keys km)) as [[i e]|] eqn:Hf.
  - rewrite (get_key_add_eq _ _ _ _ _ Hf). unfold get_key.
    destruct (list_find (key_matches ip) (keys km)) as [[j old]|]; [|auto].
    case_decide; auto.
  - left. unfold add_key. by rewrite Hf.
Qed.

Lemma enclave_handshake_law s ip pk :
  idle (channel s) → is_uint 4 ip → zlen pk = 32 →
  ∃ r s', enclave_handshake ip pk s = Ok (r, s') ∧ idle (channel s') ∧
    server_public_key (e_km (channel s')) = server_public_key (e_km (channel s)) ∧
    (∀ ip', ip' ≠ ip → get_key (e_km (channel s')) ip' = get_key (e_km (channel s)) ip') ∧
    match r with
    | Some (spk, sk) =>
        spk = server_public_key (e_km (channel s)) ∧ zlen spk = 32 ∧ zlen sk = 32 ∧
        (get_key (e_km (channel s')) ip = get_key (e_km (channel s)) ip ∨
         get_key (e_km (channel s')) ip = Some sk)
    | None => get_key (e_km (channel s')) ip = get_key (e_km (channel s)) ip
    end.
Proof.
  intros Hidle Hip Hpk. pose proof (idle_key _ Hidle).
  rewrite enclave_handshake_run by done.
  pose proof (serve_idle IPC_HANDSHAKE ip pk _ Hidle ltac:(done)) as Hi.
  rewrite serve_handshake, decide_True in Hi by done.
  destruct (perform_handshake (e_km (channel s)) ip pk) as [[k|] km'] eqn:Hh;
    eexists _, _; (split; [reflexivity|]); cbn [channel bump e_km set_km]; split; try done.
  - pose proof (perform_handshake_key_len _ _ _ _ _ Hh).
    apply perform_handshake_add in Hh as ->. rewrite add_key_public.
    split_and!; auto using get_key_add_either, get_key_add_ne.
  - by apply perform_handshake_none in Hh as ->.
Qed.

Lemma enclave_encrypt_law s ip p out :
  idle (channel s) → is_uint 4 ip → zlen p ≤ 4068 →
  ∃ s', idle (channel s') ∧
    server_public_key (e_km (channel s')) = server_public_key (e_km (channel s)) ∧
    (∀ ip', get_key (e_km (channel s')) ip' = get_key (e_km (channel s)) ip') ∧
    match get_key (e_km (channel s)) ip with
    | None => enclave_encrypt ip p out s = Ok (None, s')
    | Some k =>
        ∃ n, zlen n = 12 ∧
        match crypto_encrypt p k n with
        | None => enclave_encrypt ip p out s = Ok (None, s')
        | Some c =>
            (zlen p + 28 ≤ zlen out →
             enclave_encrypt ip p out s =
             Ok (Some ((n ++ c) ++ drop (length (n ++ c)) out, zlen p + 28), s')) ∧
            (zlen out < zlen p + 28 → enclave_encrypt ip p out s = Fault Overrun)
        end
    end.
Proof.
  intros Hidle Hip Hp.
  pose proof (serve_idle IPC_ENCRYPT ip p _ Hidle ltac:(done)) as Hi.
  assert (request_fits IPC_ENCRYPT p) as Hfit by (split; autounfold with sizes; lia).
  destruct (serve IPC_ENCRYPT ip p (channel s)) as [[st pl] e'] eqn:Hserve.
  pose proof (crypt_request_run s IPC_ENCRYPT ip p out _ _ _ Hidle ltac:(done) Hip Hfit Hserve)
    as Hrun.
  exists (bump s e'). split; [done|]. rewrite serve_encrypt in Hserve.
  unfold enclave_encrypt. rewrite Hrun. clear Hrun.
  destruct (get_key (e_km (channel s)) ip) as [k|]; [|by simplify_eq].
  set (n := crypto_random_nonce _) in Hserve.
  assert (zlen n = 12) as Hn by apply crypto_random_nonce_len.
  destruct (crypto_encrypt p k n) as [c|] eqn:Hc; simplify_eq.
  2:{ split_and!; try done. exists n. by rewrite Hc. }
  split_and!; try done. exists n. rewrite Hc. apply aead_encrypt_len in Hc.
  unfold CRYPTO_MAC_SIZE in Hc. split; [done|].
  assert (zlen (n ++ c) = zlen p + 28) as Hl by zlen. rewrite Hl.
  split; intros; rewrite decide_True by done; [by rewrite decide_True|by rewrite decide_False by lia].
Qed.

Lemma enclave_decrypt_law s ip c out :
  idle (channel s) → is_uint 4 ip → zlen c ≤ 4096 → zlen c ≤ zlen out + 28 →
  ∃ s', idle (channel s') ∧
    server_public_key (e_km (channel s')) = server_public_key (e_km (channel s)) ∧
    (∀ ip', get_key (e_km (channel s')) ip' = get_key (e_km (channel s)) ip') ∧
    enclave_decrypt ip c out s =
    Ok (match open_packet (get_key (e_km (channel s)) ip) c with
        | Some p => Some (p ++ drop (length p) out, zlen p)
        | None => None
        end, s').
Proof.
  intros Hidle Hip Hc Hout.
  pose proof (serve_idle IPC_DECRYPT ip c _ Hidle ltac:(done)) as Hi.
  assert (request_fits IPC_DECRYPT c) as Hfit by (split; [done|by intros]).
  destruct (serve IPC_DECRYPT ip c (channel s)) as [[st pl] e'] eqn:Hserve.
  pose proof (crypt_request_run s IPC_DECRYPT ip c out _ _ _ Hidle ltac:(done) Hip Hfit Hserve)
    as Hrun.
  exists (bump s e'). split; [done|]. rewrite serve_decrypt in Hserve.
  unfold enclave_decrypt. rewrite Hrun. clear Hrun. unfold open_packet.
  destruct (get_key (e_km (channel s)) ip) as [k|]; [|by simplify_eq].
  case_decide; [by simplify_eq|].
  destruct (crypto_decrypt _ k _) as [p|] eqn:Hd; simplify_eq; [|done].
  apply aead_decrypt_len in Hd. rewrite zlen_slice in Hd by lia. unfold CRYPTO_MAC_SIZE in Hd.
  split_and!; try done. rewrite decide_True by done. by rewrite decide_True by lia.
Qed.

Lemma enclave_remove_key_law s ip :
  idle (channel s) → is_uint 4 ip →
  ∃ s', enclave_remove_key ip s = Ok (0, s') ∧ idle (channel s') ∧
    server_public_key (e_km (channel s')) = server_public_key (e_km (channel s)) ∧
    held_keys (e_km (channel s')) ip = tail (held_keys (e_km (channel s)) ip) ∧
    (∀ ip', ip' ≠ ip → get_key (e_km (channel s')) ip' = get_key (e_km (channel s)) ip').
Proof.
  intros Hidle Hip. eexists. split; [by apply enclave_remove_key_run|]. split_and!.
  - by apply (serve_idle IPC_REMOVE_KEY ip []).
  - apply (serve_public IPC_REMOVE_KEY ip []).
  - apply held_keys_remove.
  - intros. by apply get_key_remove_ne.
Qed.

#[export] Instance enclave_service : EnclaveService enclave := {|
  svc_ready := idle;
  svc_key := λ e, get_key (e_km e);
  svc_held := λ e, held_keys (e_km e);
  svc_public := λ e, server_public_key (e_km e);
  svc_key_held e := get_key_held (e_km e);
  svc_ping s Hs := ex_intro _ _ (conj (enclave_ping_run s Hs) (conj Hs (λ _, eq_refl)));
  svc_handshake := enclave_handshake_law;
  svc_remove_key := enclave_remove_key_law;
  svc_encrypt := enclave_encrypt_law;
  svc_decrypt := enclave_decrypt_law;
  svc_shutdown s Hs := ex_intro _ _ (enclave_shutdown_run s Hs)
|}.
End instance.

(** ** Properties *)
Section properties.
Context `{Sodium, Garbage} `{!SodiumLaws _}.

(** (C9) The exchange over the socket is transparent: on an idle connection a
    request returns what the service of the enclave returns (the data of a
    response with status 0, an error otherwise), the enclave is left in the
    state of the service and the connection is idle again. *)
Theorem exchange_refines_service command id ip data resp e st p e' :
  idle e → is_uint 1 command → is_uint 4 id → is_uint 4 ip → request_fits command data →
  command ≠ IPC_SHUTDOWN →
  serve command ip data e = ((st, p), e') → 7 + zlen p ≤ zlen resp →
  ∃ r, send_ipc_request (wire_request command id ip data) resp e = Ok (r, e') ∧ idle e' ∧
    (st ≠ 0 → r = None) ∧
    (st = 0 → ∃ b, r = Some b ∧ zlen b = zlen resp ∧
                   slice sizeof_ipc_response_t (zlen p) b = p).
Proof.
  intros Hidle Hc Hid Hip Hfit Hsd Hserve Hr.
  pose proof (serve_idle command ip data e Hidle Hsd) as Hi. rewrite Hserve in Hi.
  eexists. split.
  { rewrite (send_ipc_request_serve _ _ _ _ _ _ st p e') by done.
    rewrite decide_False by lia. reflexivity. }
  split; [done|]. split; intros; case_decide; try done.
  eexists. split; [done|]. pose proof (zlen_wire_response id st p). split.
  - rewrite zlen_app, zlen_drop_length by lia. lia.
  - rewrite wire_response_app. by field.
Qed.

(** What one client's packet is encrypted to, the enclave decrypts: the
    ciphertext [enclave_encrypt] stores in the caller's buffer is 28 bytes
    longer than the plaintext and [enclave_decrypt] recovers the plaintext
    from it. *)
Lemma encrypt_decrypt_roundtrip s ip k m out out' :
  idle (channel s) → is_uint 4 ip → get_key (e_km (channel s)) ip = Some k →
  zlen m ≤ 4068 → zlen m + 28 ≤ zlen out → zlen m ≤ zlen out' →
  (∀ n, is_Some (crypto_encrypt m k n)) →
  ∃ c s' s'', enclave_encrypt ip m out s = Ok (Some (c, zlen m + 28), s') ∧
    zlen c = zlen out ∧
    enclave_decrypt ip (slice 0 (zlen m + 28) c) out' s' =
    Ok (Some (m ++ drop (length m) out', zlen m), s'').
Proof.
  intros Hidle Hip Hk Hm Hout Hout' Hok.
  destruct (enclave_encrypt_law s ip m out) as (s' & Hi' & _ & Hkeys & He); [done..|].
  rewrite Hk in He. destruct He as (n & Hn & He). destruct (Hok n) as [c Hc].
  rewrite Hc in He. destruct He as [He _]. specialize (He Hout).
  pose proof (aead_encrypt_len _ _ _ _ Hc) as Hl. unfold CRYPTO_MAC_SIZE in Hl.
  assert (zlen (n ++ c) = zlen m + 28) as Hlen by zlen.
  destruct (enclave_decrypt_law s' ip (n ++ c) out') as (s'' & _ & _ & _ & Hd); [done|done|lia|lia|].
  eexists _, s', s''. split_and!; [exact He|rewrite zlen_app, zlen_drop_length; lia|].
  rewrite slice_hit by done. rewrite Hd, Hkeys, Hk. by rewrite (open_packet_sealed m k n c).
Qed.

(** Responses are not matched with requests: after a response that did not
    fit the caller's buffer was left in the socket, the next exchange returns
    that old response as its own, whatever it asked for. *)
Lemma stale_response_is_taken_for_the_answer
    command id ip data resp e st p e' command2 id2 ip2 data2 resp2 :
  idle e → is_uint 1 command → is_uint 4 id → is_uint 4 ip → request_fits command data →
  serve command ip data e = ((st, p), e') →
  zlen resp < 7 + zlen p → 7 + zlen p ≤ zlen resp2 → st = 0 →
  ∃ e1 b e2,
    send_ipc_request (wire_request command id ip data) resp e = Ok (None, e1) ∧
    send_ipc_request (wire_request command2 id2 ip2 data2) resp2 e1 = Ok (Some b, e2) ∧
    resp_request_id (ipc_response_of_bytes b) = id ∧
    slice sizeof_ipc_response_t (zlen p) b = p.
Proof.
  intros Hidle Hc Hid Hip Hfit Hserve Hbig Hr2 ->.
  pose proof (serve_payload command ip data e (idle_key _ Hidle) Hfit) as Hp.
  rewrite Hserve in Hp. simpl in Hp. pose proof (zlen_nonneg p).
  set (r := wire_response id 0 p). assert (zlen r = 7 + zlen p) as Hrl by apply zlen_wire_response.
  eexists _, (r ++ drop (length r) resp2), _. split_and!.
  - rewrite (send_ipc_request_serve _ _ _ _ _ _ 0 p e') by done. by rewrite decide_True.
  - rewrite (send_ipc_request_receive _ _ _ id 0 p (set_in _ e')) by
      (rewrite ?enclave_turn_waiting by apply wire_response_nonempty; auto).
    by rewrite decide_False by lia.
  - subst r. rewrite wire_response_app, wire_response_header by auto. done.
  - subst r. rewrite wire_response_app. by field.
Qed.
End properties.

(** ** Instances of the properties *)
Section instances.
#[local] Existing Instance zero_garbage.

Lemma toy_enclave_idle : idle toy_enclave.
Proof. by split. Qed.
Lemma keyed_enclave_idle : idle keyed_enclave.
Proof. by split. Qed.

Lemma exchange_refines_service_witness :
  ∃ r, send_ipc_request (wire_request IPC_HANDSHAKE 1 9 (replicate 32 2)) (replicate 71 0)
         toy_enclave = Ok (r, keyed_enclave) ∧ idle keyed_enclave ∧
    (0 ≠ 0 → r = None) ∧
    (0 = 0 → ∃ b, r = Some b ∧ zlen b = zlen (replicate 71 0) ∧
       slice sizeof_ipc_response_t (zlen (replicate 32 1 ++ replicate 32 3)) b =
       replicate 32 1 ++ replicate 32 3).
Proof.
  apply (exchange_refines_service IPC_HANDSHAKE 1 9 (replicate 32 2) (replicate 71 0)
    toy_enclave 0 (replicate 32 1 ++ replicate 32 3) keyed_enclave);
    [apply toy_enclave_idle|done..|by vm_compute|by vm_compute].
Defined.

Lemma stale_response_is_taken_for_the_answer_witness :
  ∃ e1 b e2,
    send_ipc_request (wire_request IPC_HANDSHAKE 1 9 (replicate 32 2)) (replicate 7 0)
      toy_enclave = Ok (None, e1) ∧
    send_ipc_request (wire_request IPC_PING 2 0 []) (replicate 71 0) e1 = Ok (Some b, e2) ∧
    resp_request_id (ipc_response_of_bytes b) = 1 ∧
    slice sizeof_ipc_response_t (zlen (replicate 32 1 ++ replicate 32 3)) b =
    replicate 32 1 ++ replicate 32 3.
Proof.
  apply (stale_response_is_taken_for_the_answer IPC_HANDSHAKE 1 9 (replicate 32 2)
    (replicate 7 0) toy_enclave 0 _ keyed_enclave);
    [apply toy_enclave_idle|done..|by vm_compute|by vm_compute|by vm_compute|done].
Defined.
End instances.
