(* ===== verification/VpnServer.v ===== *)
(** * The VPN server (src/server/vpn_server.c, src/server/udp_server.c)

    The two packet handlers and the event loop, over the client table, the stubs
    of the enclave and the operating system. Printing is left out, except that
    [print_client_table] asks for the time. *)

From S2P Require Import Prelude Os Crypto ToySodium IpcProtocol KeyManager Enclave.
From S2P Require Import EnclaveClient ClientManager Protocol.

Definition PACKET_BUFFER : Z := 2048.
Definition sizeof_iphdr : Z := 20.
#[export] Hint Unfold PACKET_BUFFER sizeof_iphdr : sizes.

(** The client table, the static counter of protocol.c, the connection to the
    enclave and the rest of the world. *)
Record server (C : Type) := Server {
  table : client_table_t;
  global_sequence : Z;
  enclave_conn : ipc C;
  sys : os
}.
Arguments Server {C} _ _ _ _.
Arguments table {C} _.
Arguments global_sequence {C} _.
Arguments enclave_conn {C} _.
Arguments sys {C} _.

(** What select found: [None] for the result -1 of recvfrom or read. *)
Definition datagram : Type := option (sockaddr_in * list Z).
Definition tun_packet : Type := option (list Z).

(** The number of bytes, the buffer and the sender, or [None] for -1. *)
Definition udp_recv (buffer : list Z) (arrived : datagram) : option (Z * list Z * sockaddr_in) :=
  match arrived with
  | Some (client_addr, d) => let '(n, buffer) := recv_datagram buffer d in Some (n, buffer, client_addr)
  | None => None
  end.

(** The bit field [version] and the address [daddr] of the packed struct iphdr. *)
Definition ip_version (packet : list Z) : Z := Z.shiftr (le_val (slice 0 1 packet)) 4.
Definition ip_daddr (packet : list Z) : Z := le_val (slice 16 4 packet).

Section server.
Context {C : Type} `{Channel C, Garbage, Env}.

Definition on_sys {A} (m : M os A) : M (server C) A :=
  zoom sys (λ o s, Server (table s) (global_sequence s) (enclave_conn s) o) m.
Definition on_enclave {A} (m : M (ipc C) A) : M (server C) A :=
  zoom enclave_conn (λ i s, Server (table s) (global_sequence s) i (sys s)) m.
(** Runs a function of client_manager.c that updates the table in place. *)
Definition on_table (f : client_table_t → M os client_table_t) : M (server C) () :=
  t ← gets table;
  t ← on_sys (f t);
  modify (λ s, Server t (global_sequence s) (enclave_conn s) (sys s)).

Definition new_header (t len : Z) : M (server C) vpn_header_t :=
  g ← gets global_sequence;
  '(h, g) ← on_sys (init_vpn_header g t len);
  _ ← modify (λ s, Server (table s) g (enclave_conn s) (sys s));
  mret h.

Definition udp_send (buffer : list Z) (dest_addr : sockaddr_in) : M (server C) Z :=
  n ← on_sys (sendto buffer dest_addr);
  mret (if decide (n < 0) then -1 else n).

(** The end of the case PKT_CONNECT_REQ: the response packet. *)
Definition send_connect_resp (ip : Z) (server_public_key : list Z) (client_addr : sockaddr_in) :
    M (server C) () :=
  header ← new_header PKT_CONNECT_RESP (sizeof_connect_response_t - sizeof_vpn_header_t);
  t ← gets table;
  '(_, client) ← lift (deref (find_client_by_addr t client_addr));
  let resp := ConnectResponse header 0 ip (htonl (session_id client)) server_public_key in
  _ ← udp_send (connect_response_bytes resp) client_addr;
  _ ← on_sys (print_client_table t);
  mret ().

(** case PKT_CONNECT_REQ *)
Definition on_connect_req (buffer : list Z) (client_addr : sockaddr_in) : M (server C) () :=
  t ← gets table;
  '(ip, t) ← on_sys (add_client t client_addr);
  _ ← modify (λ s, Server t (global_sequence s) (enclave_conn s) (sys s));
  if decide (ip = 0) then mret ()
  else
    let client_public_key := req_auth_token (connect_request_of_bytes buffer) in
    r ← on_enclave (enclave_handshake ip client_public_key);
    match r with
    | None => on_table (λ t, remove_client t ip)
    | Some (server_public_key, session_key) =>
        send_connect_resp ip server_public_key client_addr
    end.

(** case PKT_DATA *)
Definition on_data (buffer : list Z) (n : Z) (client_addr : sockaddr_in) : M (server C) () :=
  t ← gets table;
  match find_client_by_addr t client_addr with
  | None => mret ()
  | Some (i, client) =>
      _ ← on_table (λ t, update_client_activity t i);
      let ciphertext_len := n - sizeof_vpn_header_t in
      ciphertext ← lift (buf_read buffer sizeof_vpn_header_t ciphertext_len);
      r ← on_enclave (enclave_decrypt (vpn_ip client) ciphertext
                        (local "decrypted_buffer" PACKET_BUFFER));
      match r with
      | None => mret ()
      | Some (decrypted_buffer, plaintext_len) =>
          packet ← lift (buf_read decrypted_buffer 0 plaintext_len);
          _ ← on_sys (write packet);
          mret ()
      end
  end.

(** case PKT_PING *)
Definition on_ping (client_addr : sockaddr_in) : M (server C) () :=
  t ← gets table;
  _ ← match find_client_by_addr t client_addr with
      | Some (i, _) => on_table (λ t, update_client_activity t i)
      | None => mret ()
      end;
  pong ← new_header PKT_PONG 0;
  _ ← udp_send (vpn_header_bytes pong) client_addr;
  mret ().

(** case PKT_DISCONNECT *)
Definition on_disconnect (client_addr : sockaddr_in) : M (server C) () :=
  t ← gets table;
  match find_client_by_addr t client_addr with
  | None => mret ()
  | Some (_, client) =>
      _ ← on_enclave (enclave_remove_key (vpn_ip client));
      _ ← on_table (λ t, remove_client t (vpn_ip client));
      t ← gets table;
      _ ← on_sys (print_client_table t);
      mret ()
  end.

Definition handle_udp_to_tun (arrived : datagram) : M (server C) () :=
  match udp_recv (local "handle_udp_to_tun.buffer" PACKET_BUFFER) arrived with
  | None => mret ()
  | Some (n, buffer, client_addr) =>
      if decide (n < sizeof_vpn_header_t) then mret ()
      else
        let type := hdr_type (vpn_header_of_bytes buffer) in
        if decide (type = PKT_CONNECT_REQ) then on_connect_req buffer client_addr
        else if decide (type = PKT_DATA) then on_data buffer n client_addr
        else if decide (type = PKT_PING) then on_ping client_addr
        else if decide (type = PKT_DISCONNECT) then on_disconnect client_addr
        else mret ()
  end.

(** The data packet, assembled in packet_buffer. *)
Definition data_packet (header : vpn_header_t) (encrypted_buffer : list Z)
    (ciphertext_len : Z) : res (list Z) :=
  packet_buffer ← buf_write (local "packet_buffer" PACKET_BUFFER) 0 (vpn_header_bytes header);
  ciphertext ← buf_read encrypted_buffer 0 ciphertext_len;
  packet_buffer ← buf_write packet_buffer sizeof_vpn_header_t ciphertext;
  let total_len := sizeof_vpn_header_t + ciphertext_len in
  buf_read packet_buffer 0 total_len.

Definition send_data_packet (i : nat) (client : client_entry_t) (encrypted_buffer : list Z)
    (ciphertext_len : Z) : M (server C) () :=
  header ← new_header PKT_DATA ciphertext_len;
  packet ← lift (data_packet header encrypted_buffer ciphertext_len);
  sent ← udp_send packet (real_addr client);
  if decide (0 < sent) then on_table (λ t, update_client_activity t i) else mret ().

Definition handle_tun_to_udp (arrived : tun_packet) : M (server C) () :=
  match arrived with
  | None => mret ()
  | Some d =>
      let '(n, buffer) := recv_datagram (local "handle_tun_to_udp.buffer" PACKET_BUFFER) d in
      if decide (n < sizeof_iphdr) then mret ()
      else if decide (ip_version buffer = 6) then mret ()
      else
        let dst_ip := ip_daddr buffer in
        t ← gets table;
        match find_client_by_vpn_ip t dst_ip with
        | None => mret ()
        | Some (i, client) =>
            r ← on_enclave (enclave_encrypt (vpn_ip client) (slice 0 n buffer)
                              (local "encrypted_buffer" PACKET_BUFFER));
            match r with
            | None => mret ()
            | Some (encrypted_buffer, ciphertext_len) =>
                send_data_packet i client encrypted_buffer ciphertext_len
            end
        end
  end.

(** ** The event loop of [main]

    [last]: last_timeout_check; an event is what one turn of the loop finds:
    the result of select, or the end of [running]. *)
Inductive turn :=
| Stop                                   (** [running] is 0 *)
| SelectFailed
| Quiet (enclave_alive : bool)           (** select timed out *)
| Ready (udp : option datagram) (tun : option tun_packet).

(** [None]: the loop is left. *)
Definition loop_turn (last : Z) (tn : turn) : M (server C) (option Z) :=
  match tn with
  | Stop | SelectFailed => mret None
  | Quiet enclave_alive =>
      now ← on_sys time;
      last ← (if decide (30 ≤ now - last) then
                _ ← on_table check_client_timeouts; mret now
              else mret last);
      mret (if enclave_alive then Some last else None)
  | Ready udp tun =>
      _ ← match udp with Some d => handle_udp_to_tun d | None => mret () end;
      _ ← match tun with Some p => handle_tun_to_udp p | None => mret () end;
      mret (Some last)
  end.

Fixpoint event_loop (last : Z) (turns : list turn) : M (server C) (option Z) :=
  match turns with
  | [] => mret (Some last)
  | tn :: turns =>
      r ← loop_turn last tn;
      match r with
      | Some last => event_loop last turns
      | None => mret None
      end
  end.
End server.

#[global] Arguments handle_udp_to_tun : simpl never.
#[global] Arguments handle_tun_to_udp : simpl never.

(** ** Straight-line steps *)
Section steps.
Context {C : Type} `{Channel C, Garbage, Env}.
Implicit Types s : server C.

(** What a call put on the wires, beside what was there. *)
Definition emits (o o' : os) (udp : list (sockaddr_in * list Z)) (tun : list (list Z)) : Prop :=
  udp_out o' = udp_out o ++ udp ∧ tun_out o' = tun_out o ++ tun.

Lemma emits_quiet o o' : os_quiet o o' → emits o o' [] [].
Proof. intros (?&?&_). split; by rewrite app_nil_r. Qed.

Lemma os_quiet_trans o1 o2 o3 : os_quiet o1 o2 → os_quiet o2 o3 → os_quiet o1 o3.
Proof. unfold os_quiet. intuition congruence. Qed.

Lemma emits_after o1 o2 o3 udp tun :
  os_quiet o1 o2 → emits o2 o3 udp tun → emits o1 o3 udp tun.
Proof. intros (E1&E2&_) [??]. split; congruence. Qed.

Lemma emits_before o1 o2 o3 udp tun :
  emits o1 o2 udp tun → os_quiet o2 o3 → emits o1 o3 udp tun.
Proof. intros [??] (E1&E2&_). split; congruence. Qed.

Lemma on_table_run f s t' o' :
  f (table s) (sys s) = Ok (t', o') →
  on_table f s = Ok ((), Server t' (global_sequence s) (enclave_conn s) o').
Proof. intros E. unfold on_table, on_sys. run. by rewrite E. Qed.

Lemma on_sys_run {A} (m : M os A) s a o' :
  m (sys s) = Ok (a, o') →
  on_sys m s = Ok (a, Server (table s) (global_sequence s) (enclave_conn s) o').
Proof. intros E. unfold on_sys. rewrite run_zoom. by rewrite E. Qed.

Lemma on_enclave_run {A} (m : M (ipc C) A) s a i :
  m (enclave_conn s) = Ok (a, i) →
  on_enclave m s = Ok (a, Server (table s) (global_sequence s) i (sys s)).
Proof. intros E. unfold on_enclave. rewrite run_zoom. by rewrite E. Qed.

(** The header of the next packet, for some time stamp. *)
Definition next_header (s : server C) (t len ts : Z) : vpn_header_t :=
  VpnHeader (u8 t) VPN_PROTOCOL_VERSION (htons (u16 len))
            (htonl (u32 (global_sequence s + 1))) (htobe64 ts).

Lemma new_header_run t len s :
  ∃ ts o', is_uint 8 ts ∧ os_quiet (sys s) o' ∧
    new_header t len s =
    Ok (next_header s t len ts,
        Server (table s) (u32 (global_sequence s + 1)) (enclave_conn s) o').
Proof.
  destruct (init_vpn_header_run (global_sequence s) t len (sys s))
    as (ts & o' & Hts & E & _ & _ & ? & ? & ? & ?).
  exists ts, o'. split_and!; [done|by split_and!|]. unfold new_header.
  rewrite run_bind, run_gets. cbn iota beta.
  by rewrite (run_bind_ok _ _ _ _ _ (on_sys_run _ _ _ _ E)).
Qed.

(** The datagrams a send puts on the wire. *)
Definition sent (o : os) (dest : sockaddr_in) (b : list Z) : list (sockaddr_in * list Z) :=
  if env_sendto (sendto_calls o) then [(dest, b)] else [].

Lemma udp_send_run b dest s :
  ∃ o', emits (sys s) o' (sent (sys s) dest b) [] ∧
    udp_send b dest s =
    Ok (if env_sendto (sendto_calls (sys s)) then zlen b else -1,
        Server (table s) (global_sequence s) (enclave_conn s) o').
Proof.
  pose proof (zlen_nonneg b). eexists. split; cycle 1.
  { unfold udp_send. rewrite run_bind. unfold on_sys, sendto. rewrite run_zoom.
    cbn beta iota zeta. rewrite run_ret.
    assert ((if decide ((if env_sendto (sendto_calls (sys s)) then zlen b else -1) < 0) then -1
             else if env_sendto (sendto_calls (sys s)) then zlen b else -1) =
            if env_sendto (sendto_calls (sys s)) then zlen b else -1) as ->.
    { destruct (env_sendto _); [by rewrite decide_False by lia|done]. }
    reflexivity. }
  unfold sent. split; simpl; [case_match|]; by rewrite ?app_nil_r.
Qed.

Lemma write_run b s :
  ∃ o', emits (sys s) o' [] (if env_write (write_calls (sys s)) then [b] else []) ∧
    on_sys (write b) s =
    Ok (if env_write (write_calls (sys s)) then zlen b else -1,
        Server (table s) (global_sequence s) (enclave_conn s) o').
Proof.
  eexists. split; [|reflexivity]. split; simpl; [by rewrite app_nil_r|].
  case_match; by rewrite ?app_nil_r.
Qed.

Lemma print_clients_run l i o : ∃ r o', print_clients i l o = Ok (r, o') ∧ os_quiet o o'.
Proof.
  revert i o. induction l as [|c l IH]; intros i o; [by eexists _, _|]. simpl.
  destruct (active c); [|apply IH]. unfold print_client_info, time. run.
  match goal with |- context [print_clients (S i) l ?o1] => destruct (IH (S i) o1) as (r & o' & E & Hq) end.
  rewrite E. run. by eexists _, _.
Qed.

Lemma print_client_table_run t o :
  ∃ r o', print_client_table t o = Ok (r, o') ∧ os_quiet o o'.
Proof.
  unfold print_client_table. case_decide; [by eexists _, _|].
  destruct (print_clients_run (clients t) 0 o) as (r & o' & E & Hq). run. rewrite E. run.
  by eexists _, _.
Qed.

Lemma update_client_activity_quiet t i o t' o' :
  update_client_activity t i o = Ok (t', o') → os_quiet o o'.
Proof. by intros [= <- <-]. Qed.
End steps.

(** ** The handlers, case by case *)
Section handlers.
Context {C : Type} `{Sodium, Garbage, Env} `{!Channel C, !SodiumLaws _, !EnclaveService C}.
Implicit Types s : server C.

Record server_ok (s : server C) : Prop := ServerOk {
  ok_table : wf_table (table s);
  ok_ready : svc_ready (channel (enclave_conn s))
}.

Abbreviation keys_of s := (svc_key (channel (enclave_conn s))).
Abbreviation held_of s := (svc_held (channel (enclave_conn s))).

(** The table after the client at [addr], if any, was heard of. *)
Definition touch (now : Z) (t : client_table_t) (addr : sockaddr_in) : client_table_t :=
  match find_client_by_addr t addr with
  | Some (i, _) => ClientTable (alter (set_last_seen now) i (clients t)) (count t) (next_ip t)
  | None => t
  end.

Lemma touch_wf now t addr : wf_table t → wf_table (touch now t addr).
Proof. intros. unfold touch. case_match; [case_match; by apply update_wf|done]. Qed.

Lemma found_by_addr t addr i c :
  wf_table t → find_client_by_addr t addr = Some (i, c) →
  clients t !! i = Some c ∧ has_addr addr c ∧ is_uint 4 (vpn_ip c).
Proof.
  intros Hwf [Hi Hc]%list_find_lookup. split_and!; try done. destruct Hc as [Ha _].
  eapply in_pool_uint, (proj1 (Forall_forall _ _) (wf_pool _ Hwf)).
  apply list_elem_of_filter. split; [done|by eapply list_elem_of_lookup_2].
Qed.

Lemma found_by_ip t ip i c :
  wf_table t → find_client_by_vpn_ip t ip = Some (i, c) →
  clients t !! i = Some c ∧ active c = true ∧ vpn_ip c = ip ∧ is_uint 4 (vpn_ip c).
Proof.
  intros Hwf [Hi [Ha Hip]]%list_find_lookup. split_and!; try done.
  eapply in_pool_uint, (proj1 (Forall_forall _ _) (wf_pool _ Hwf)).
  apply list_elem_of_filter. split; [done|by eapply list_elem_of_lookup_2].
Qed.

Lemma sent_quiet o o' dest b : os_quiet o o' → sent o' dest b = sent o dest b.
Proof. intros (_&_&E&_). unfold sent. by rewrite E. Qed.

Lemma on_ping_run addr s :
  ∃ now ts s', on_ping addr s = Ok ((), s') ∧ is_uint 8 ts ∧
    table s' = touch now (table s) addr ∧ enclave_conn s' = enclave_conn s ∧
    global_sequence s' = u32 (global_sequence s + 1) ∧
    emits (sys s) (sys s')
      (sent (sys s) addr (vpn_header_bytes (next_header s PKT_PONG 0 ts))) [].
Proof.
  set (now := env_time (time_calls (sys s))).
  assert (∃ o1, os_quiet (sys s) o1 ∧
    match find_client_by_addr (table s) addr with
    | Some (i, _) => on_table (λ t, update_client_activity t i)
    | None => mret ()
    end s = Ok ((), Server (touch now (table s) addr) (global_sequence s) (enclave_conn s) o1))
    as (o1 & Hq1 & E1).
  { unfold touch. destruct (find_client_by_addr (table s) addr) as [[i c]|].
    - eexists. split; [|by erewrite on_table_run]. done.
    - exists (sys s). split; [done|by destruct s]. }
  destruct (new_header_run PKT_PONG 0
    (Server (touch now (table s) addr) (global_sequence s) (enclave_conn s) o1))
    as (ts & o2 & Hts & Hq2 & E2). cbn [table global_sequence enclave_conn sys] in *.
  match type of E2 with _ = Ok (?h, ?s2) =>
    destruct (udp_send_run (vpn_header_bytes h) addr s2) as (o3 & Hem & E3) end.
  eexists now, ts, _. split.
  { unfold on_ping. rewrite run_bind, run_gets. cbn iota beta.
    rewrite (run_bind_ok _ _ _ _ _ E1), (run_bind_ok _ _ _ _ _ E2), (run_bind_ok _ _ _ _ _ E3).
    reflexivity. }
  cbn [table global_sequence enclave_conn sys] in *. split_and!; try done.
  pose proof (os_quiet_trans _ _ _ Hq1 Hq2) as Hq.
  rewrite (sent_quiet _ _ _ _ Hq) in Hem. by eapply emits_after.
Qed.

(** What opening a packet puts on the TUN device. *)
Definition delivered (o : os) (m : option (list Z)) : list (list Z) :=
  match m with
  | Some p => if env_write (write_calls o) then [p] else []
  | None => []
  end.

Lemma on_data_run buffer n addr s :
  server_ok s → zlen buffer = PACKET_BUFFER → 16 ≤ n ≤ PACKET_BUFFER →
  ∃ now s', on_data buffer n addr s = Ok ((), s') ∧ server_ok s' ∧
    table s' = touch now (table s) addr ∧ global_sequence s' = global_sequence s ∧
    (∀ ip, keys_of s' ip = keys_of s ip) ∧
    emits (sys s) (sys s') []
      (match find_client_by_addr (table s) addr with
       | Some (_, c) =>
           delivered (sys s) (open_packet (keys_of s (vpn_ip c)) (slice 16 (n - 16) buffer))
       | None => []
       end).
Proof.
  intros [Hwf Hready] Hb Hn. exists (env_time (time_calls (sys s))).
  pose proof (touch_wf (env_time (time_calls (sys s))) _ addr Hwf) as Hwf'.
  unfold on_data. rewrite run_bind, run_gets. cbn iota beta. unfold touch in *.
  destruct (find_client_by_addr (table s) addr) as [[i c]|] eqn:Hf; cycle 1.
  { exists s. split_and!; try done; by apply emits_quiet. }
  destruct (found_by_addr _ _ _ _ Hwf Hf) as (_ & _ & Hip).
  rewrite (run_bind_ok _ _ _ _ _ (on_table_run _ _ _ _ eq_refl)).
  rewrite buf_read_ok by (autounfold with sizes in *; lia).
  rewrite run_bind, run_lift. cbn iota beta. change sizeof_vpn_header_t with 16.
  set (ct := slice 16 (n - 16) buffer).
  assert (zlen ct = n - 16) as Hct by (subst ct; autounfold with sizes in *; zlen).
  destruct (svc_decrypt (enclave_conn s) (vpn_ip c) ct (local "decrypted_buffer" PACKET_BUFFER))
    as (i' & Hready' & _ & Hkeys & E); [done..| | |];
    try (rewrite ?zlen_local; autounfold with sizes in *; lia).
  rewrite (run_bind_ok _ _ _ _ _ (on_enclave_run _ (Server _ _ _ _) _ _ E)).
  destruct (open_packet (keys_of s (vpn_ip c)) ct) as [p|] eqn:Hp; cycle 1.
  { eexists. split; [reflexivity|]. split_and!; try done; by apply emits_quiet. }
  pose proof (zlen_nonneg p). set (rest := drop _ _). pose proof (zlen_nonneg rest).
  rewrite buf_read_ok by zlen. rewrite slice_hit by done.
  rewrite run_bind, run_lift. cbn iota beta.
  match goal with |- context [(on_sys (write p) ≫= _) ?s1] =>
    destruct (write_run p s1) as (o2 & Hem & E2) end.
  rewrite (run_bind_ok _ _ _ _ _ E2). eexists. split; [reflexivity|]. by split_and!.
Qed.

(** The table after [remove_client]. *)
Definition without_ip (t : client_table_t) (ip : Z) : client_table_t :=
  match find_client_by_vpn_ip t ip with
  | Some (i, c) =>
      ClientTable (<[i := set_inactive c]> (clients t)) (count t - 1) (next_ip t)
  | None => t
  end.

Lemma without_ip_wf t ip : wf_table t → wf_table (without_ip t ip).
Proof.
  intros Hwf. unfold without_ip.
  destruct (find_client_by_vpn_ip t ip) as [[i c]|] eqn:Hf; [|done].
  destruct (found_by_ip _ _ _ _ Hwf Hf) as (? & ? & _). by apply drop_wf.
Qed.

Lemma remove_step s ip :
  ∃ o', os_quiet (sys s) o' ∧
    on_table (λ t, remove_client t ip) s =
    Ok ((), Server (without_ip (table s) ip) (global_sequence s) (enclave_conn s) o').
Proof.
  destruct (remove_client_run (table s) ip (sys s)) as (t' & o' & E & Hq & Ht).
  exists o'. split; [done|]. rewrite (on_table_run _ _ _ _ E). unfold without_ip. by rewrite Ht.
Qed.

Lemma on_disconnect_run addr s :
  server_ok s →
  ∃ s', on_disconnect addr s = Ok ((), s') ∧ server_ok s' ∧
    global_sequence s' = global_sequence s ∧ emits (sys s) (sys s') [] [] ∧
    match find_client_by_addr (table s) addr with
    | Some (_, c) =>
        table s' = without_ip (table s) (vpn_ip c) ∧
        enclave_remove_key (vpn_ip c) (enclave_conn s) = Ok (0, enclave_conn s') ∧
        held_of s' (vpn_ip c) = tail (held_of s (vpn_ip c)) ∧
        (∀ ip, ip ≠ vpn_ip c → keys_of s' ip = keys_of s ip)
    | None => s' = s
    end.
Proof.
  intros [Hwf Hready]. unfold on_disconnect. rewrite run_bind, run_gets. cbn iota beta.
  destruct (find_client_by_addr (table s) addr) as [[i c]|] eqn:Hf; cycle 1.
  { exists s. split_and!; try done; by apply emits_quiet. }
  destruct (found_by_addr _ _ _ _ Hwf Hf) as (_ & _ & Hip).
  destruct (svc_remove_key (enclave_conn s) (vpn_ip c)) as (i' & E & Hready' & _ & Hheld & Hkeys);
    [done..|].
  rewrite (run_bind_ok _ _ _ _ _ (on_enclave_run _ _ _ _ E)).
  set (s1 := Server (table s) (global_sequence s) i' (sys s)).
  destruct (remove_step s1 (vpn_ip c)) as (o2 & Hq & E2).
  rewrite (run_bind_ok _ _ _ _ _ E2). rewrite run_bind, run_gets. cbn [table sys] in *.
  match goal with |- context [print_client_table ?t] =>
    destruct (print_client_table_run t o2) as (r & o3 & E3 & Hq3) end.
  rewrite (run_bind_ok _ _ _ _ _ (on_sys_run _ (Server _ _ _ o2) _ _ E3)).
  eexists. split; [reflexivity|]. cbn [table global_sequence enclave_conn sys s1].
  split_and!; try done; [split; [by apply without_ip_wf|done]|..].
  all: by apply emits_quiet, (os_quiet_trans _ o2).
Qed.

(** The packet that answers a CONNECT_REQ. *)
Definition connect_response (s : server C) (ts ip sid : Z) (spk : list Z) : list Z :=
  connect_response_bytes
    (ConnectResponse (next_header s PKT_CONNECT_RESP 41 ts) 0 ip (htonl sid) spk).

Lemma send_connect_resp_run ip spk addr s i c :
  find_client_by_addr (table s) addr = Some (i, c) →
  ∃ ts o', is_uint 8 ts ∧
    emits (sys s) o' (sent (sys s) addr (connect_response s ts ip (session_id c) spk)) [] ∧
    send_connect_resp ip spk addr s =
    Ok ((), Server (table s) (u32 (global_sequence s + 1)) (enclave_conn s) o').
Proof.
  intros Hf. destruct (new_header_run PKT_CONNECT_RESP 41 s) as (ts & o1 & Hts & Hq1 & E1).
  set (b := connect_response s ts ip (session_id c) spk).
  destruct (udp_send_run b addr
    (Server (table s) (u32 (global_sequence s + 1)) (enclave_conn s) o1)) as (o2 & Hem & E2).
  destruct (print_client_table_run (table s) o2) as (r & o3 & E3 & Hq3).
  cbn [table global_sequence enclave_conn sys] in *. exists ts, o3. split_and!; [done|..].
  { rewrite (sent_quiet _ _ _ _ Hq1) in Hem. by eapply emits_before, Hq3; eapply emits_after. }
  unfold send_connect_resp. rewrite (run_bind_ok _ _ _ _ _ E1), run_bind, run_gets.
  cbn [table]. rewrite Hf. cbn [deref]. rewrite run_bind, run_lift. cbn iota beta.
  rewrite (run_bind_ok _ _ _ _ _ E2).
  by rewrite (run_bind_ok _ _ _ _ _ (on_sys_run _ (Server _ _ _ o2) _ _ E3)).
Qed.

(** The three ways a CONNECT_REQ can end: no slot is free, the handshake fails
    (and the client is dropped), or the client is told its address. *)
Inductive connected (pk : list Z) (addr : sockaddr_in) (s : server C) : server C → Prop :=
| connect_full s' :
    add_outcome (table s) addr 0 (table s) → table s' = table s →
    enclave_conn s' = enclave_conn s → global_sequence s' = global_sequence s →
    emits (sys s) (sys s') [] [] → connected pk addr s s'
| connect_refused ip t' s' :
    add_outcome (table s) addr ip t' → in_pool ip →
    enclave_handshake ip pk (enclave_conn s) = Ok (None, enclave_conn s') →
    table s' = without_ip t' ip → global_sequence s' = global_sequence s →
    emits (sys s) (sys s') [] [] → connected pk addr s s'
| connect_accepted ip t' s' spk sk i c ts :
    add_outcome (table s) addr ip t' → in_pool ip →
    enclave_handshake ip pk (enclave_conn s) = Ok (Some (spk, sk), enclave_conn s') →
    table s' = t' → find_client_by_addr t' addr = Some (i, c) → vpn_ip c = ip →
    global_sequence s' = u32 (global_sequence s + 1) → is_uint 8 ts →
    emits (sys s) (sys s')
      (sent (sys s) addr (connect_response s ts ip (session_id c) spk)) [] →
    connected pk addr s s'.

Lemma on_connect_req_run buffer addr s :
  server_ok s → zlen buffer = PACKET_BUFFER →
  ∃ s', on_connect_req buffer addr s = Ok ((), s') ∧ server_ok s' ∧
    connected (slice 48 32 buffer) addr s s'.
Proof.
  intros [Hwf Hready] Hb. unfold on_connect_req. rewrite run_bind, run_gets. cbn iota beta.
  destruct (add_client_run (table s) addr (sys s) Hwf) as (ip & t' & o1 & E1 & Ho & Hq1).
  rewrite (run_bind_ok _ _ _ _ _ (on_sys_run _ _ _ _ E1)). cbn iota beta.
  rewrite run_bind, run_modify. cbn [table global_sequence enclave_conn sys].
  pose proof (add_outcome_wf _ _ _ _ Hwf Ho) as Hwf'.
  destruct (add_outcome_ip _ _ _ _ Hwf Ho) as [(-> & Hc & ->)|[Hp Hc]].
  { rewrite decide_True by done. eexists. split; [reflexivity|]. split; [done|].
    apply connect_full; try done. by apply emits_quiet. }
  rewrite decide_False by (by apply in_pool_nonzero).
  change (req_auth_token _) with (slice 48 32 buffer). set (pk := slice 48 32 buffer).
  assert (zlen pk = 32) as Hpk by (subst pk; autounfold with sizes in *; zlen).
  destruct (svc_handshake (enclave_conn s) ip pk) as (r & i' & E2 & Hready' & _ & _ & Hr);
    [done|by apply in_pool_uint|done|].
  set (s1 := Server t' (global_sequence s) (enclave_conn s) o1).
  rewrite (run_bind_ok _ _ _ _ _ (on_enclave_run _ s1 _ _ E2)). cbn [s1 table global_sequence sys].
  destruct r as [[spk sk]|]; cycle 1.
  { destruct (remove_step (Server t' (global_sequence s) i' o1) ip) as (o2 & Hq2 & E3).
    rewrite E3. eexists. split; [reflexivity|]. cbn [table global_sequence enclave_conn sys] in *.
    split; [split; [by apply without_ip_wf|done]|].
    eapply connect_refused; try done. by apply emits_quiet, (os_quiet_trans _ o1). }
  destruct (add_outcome_find _ _ _ _ Ho (in_pool_nonzero _ Hp)) as (i & c & Hf & Hci).
  destruct (send_connect_resp_run ip spk addr (Server t' (global_sequence s) i' o1) i c Hf)
    as (ts & o2 & Hts & Hem & E3).
  rewrite E3. eexists. split; [reflexivity|]. cbn [table global_sequence enclave_conn sys] in *.
  split; [done|]. rewrite (sent_quiet _ _ _ _ Hq1) in Hem.
  by eapply connect_accepted; try done; eapply emits_after.
Qed.

(** What reading a packet that fits leaves in the buffer. *)
Lemma recv_datagram_fits (buf d : list Z) :
  zlen d ≤ zlen buf →
  recv_datagram buf d = (zlen d, d ++ drop (length d) buf).
Proof.
  intros. unfold recv_datagram. rewrite Z.min_l by done.
  rewrite take_all_zlen by done. unfold zlen. by rewrite Nat2Z.id.
Qed.

Lemma ip_version_app d rest : 20 ≤ zlen d → ip_version (d ++ rest) = ip_version d.
Proof. intros. unfold ip_version. by rewrite slice_within by lia. Qed.
Lemma ip_daddr_app d rest : 20 ≤ zlen d → ip_daddr (d ++ rest) = ip_daddr d.
Proof. intros. unfold ip_daddr. by rewrite slice_within by lia. Qed.

(** The table after the client in slot [i] was heard of. *)
Definition touch_slot (now : Z) (i : nat) (t : client_table_t) : client_table_t :=
  ClientTable (alter (set_last_seen now) i (clients t)) (count t) (next_ip t).

Lemma find_touch_slot now i t addr c :
  find_client_by_addr t addr = Some (i, c) →
  find_client_by_addr (touch_slot now i t) addr = Some (i, set_last_seen now c).
Proof.
  unfold find_client_by_addr, touch_slot; simpl.
  intros (Hi & Hc & Hbef)%list_find_Some. apply list_find_Some. split_and!; [|done|].
  - by rewrite list_lookup_alter_eq, Hi.
  - intros j y Hj Hlt. rewrite list_lookup_alter_ne in Hj by lia. eauto.
Qed.

(** The ways a packet read from the TUN device can go. *)
Inductive routed (d : list Z) (s : server C) : server C → Prop :=
| routed_ignored :
    zlen d < 20 ∨ ip_version d = 6 ∨ find_client_by_vpn_ip (table s) (ip_daddr d) = None →
    routed d s s
| routed_failed i c s' :
    20 ≤ zlen d → ip_version d ≠ 6 →
    find_client_by_vpn_ip (table s) (ip_daddr d) = Some (i, c) →
    match keys_of s (vpn_ip c) with
    | Some k => ∃ n, crypto_encrypt d k n = None
    | None => True
    end →
    table s' = table s → global_sequence s' = global_sequence s →
    emits (sys s) (sys s') [] [] → routed d s s'
| routed_sent i c k n ct ts now s' :
    20 ≤ zlen d → ip_version d ≠ 6 →
    find_client_by_vpn_ip (table s) (ip_daddr d) = Some (i, c) →
    keys_of s (vpn_ip c) = Some k → zlen n = 12 → crypto_encrypt d k n = Some ct →
    is_uint 8 ts → global_sequence s' = u32 (global_sequence s + 1) →
    emits (sys s) (sys s')
      (sent (sys s) (real_addr c)
         (vpn_header_bytes (next_header s PKT_DATA (zlen d + 28) ts) ++ n ++ ct)) [] →
    table s' =
      (if env_sendto (sendto_calls (sys s))
       then touch_slot now i (table s) else table s) →
    routed d s s'.

Lemma data_packet_run h p rest :
  data_packet h (p ++ rest) (zlen p) =
  if decide (zlen p ≤ 2032) then Ok (vpn_header_bytes h ++ p) else Fault Overrun.
Proof.
  unfold data_packet. set (buf := local _ _).
  assert (zlen buf = 2048) as Hb by (subst buf; by rewrite zlen_local).
  change sizeof_vpn_header_t with 16.
  rewrite (assemble_packet buf (vpn_header_bytes h) p rest 16) by zlen.
  rewrite Hb. repeat case_decide; done || lia.
Qed.

Lemma send_data_packet_run s i c p rest :
  zlen p ≤ 2032 →
  ∃ ts now o', is_uint 8 ts ∧
    emits (sys s) o' (sent (sys s) (real_addr c)
      (vpn_header_bytes (next_header s PKT_DATA (zlen p) ts) ++ p)) [] ∧
    send_data_packet i c (p ++ rest) (zlen p) s =
    Ok ((), Server (if env_sendto (sendto_calls (sys s)) then touch_slot now i (table s)
                    else table s) (u32 (global_sequence s + 1)) (enclave_conn s) o').
Proof.
  intros Hp. destruct (new_header_run PKT_DATA (zlen p) s) as (ts & o1 & Hts & Hq1 & E1).
  set (b := vpn_header_bytes (next_header s PKT_DATA (zlen p) ts) ++ p).
  set (s1 := Server (table s) (u32 (global_sequence s + 1)) (enclave_conn s) o1) in *.
  destruct (udp_send_run b (real_addr c) s1) as (o2 & Hem & E2).
  rewrite (sent_quiet _ _ _ _ Hq1) in Hem. cbn [s1 sys] in *.
  replace (sendto_calls o1) with (sendto_calls (sys s)) in E2 by (symmetry; apply Hq1).
  assert (0 < zlen b) as Hb by (subst b; pose proof (zlen_nonneg p); zlen).
  exists ts, (env_time (time_calls o2)).
  unfold send_data_packet. rewrite (run_bind_ok _ _ _ _ _ E1), run_bind, data_packet_run.
  rewrite decide_True by done. rewrite run_lift. cbn iota beta. fold b.
  rewrite (run_bind_ok _ _ _ _ _ E2). destruct (env_sendto _).
  - rewrite decide_True by done. eexists. split_and!; [done| |reflexivity].
    eapply emits_before; [by eapply emits_after|done].
  - eexists. split_and!; [done| |reflexivity]. by eapply emits_after.
Qed.

Lemma send_data_packet_overrun s i c p rest :
  2032 < zlen p → send_data_packet i c (p ++ rest) (zlen p) s = Fault Overrun.
Proof.
  intros Hp. destruct (new_header_run PKT_DATA (zlen p) s) as (ts & o1 & _ & _ & E1).
  unfold send_data_packet. rewrite (run_bind_ok _ _ _ _ _ E1), run_bind, data_packet_run.
  by rewrite decide_False by lia.
Qed.

Lemma handle_tun_to_udp_run d s :
  server_ok s → zlen d ≤ 2004 →
  ∃ s', handle_tun_to_udp (Some d) s = Ok ((), s') ∧ server_ok s' ∧
    (∀ ip, keys_of s' ip = keys_of s ip) ∧ routed d s s'.
Proof.
  intros [Hwf Hready] Hd. pose proof (zlen_nonneg d). unfold handle_tun_to_udp.
  rewrite recv_datagram_fits by zlen. autounfold with sizes.
  case_decide as Hs.
  { eexists. split; [reflexivity|]. split_and!; try done. apply routed_ignored. by left. }
  rewrite ip_version_app, ip_daddr_app by lia. case_decide as Hv.
  { eexists. split; [reflexivity|]. split_and!; try done. apply routed_ignored. auto. }
  rewrite run_bind, run_gets. cbn iota beta.
  destruct (find_client_by_vpn_ip (table s) (ip_daddr d)) as [[i c]|] eqn:Hf; cycle 1.
  { eexists. split; [reflexivity|]. split_and!; try done. apply routed_ignored. auto. }
  destruct (found_by_ip _ _ _ _ Hwf Hf) as (_ & _ & _ & Hip). rewrite slice_hit by done.
  destruct (svc_encrypt (enclave_conn s) (vpn_ip c) d (local "encrypted_buffer" 2048))
    as (i' & Hready' & _ & Hkeys & E); [done|done|lia|].
  destruct (keys_of s (vpn_ip c)) as [k|] eqn:Hk; cycle 1.
  { rewrite (run_bind_ok _ _ _ _ _ (on_enclave_run _ _ _ _ E)). eexists.
    split; [reflexivity|]. split_and!; try done.
    eapply routed_failed; try done; [lia|by rewrite Hk|by apply emits_quiet]. }
  destruct E as (n & Hn & E). destruct (crypto_encrypt d k n) as [ct|] eqn:Hc; cycle 1.
  { rewrite (run_bind_ok _ _ _ _ _ (on_enclave_run _ _ _ _ E)). eexists.
    split; [reflexivity|]. split_and!; try done.
    eapply routed_failed; try done; [lia|rewrite Hk; eauto|by apply emits_quiet]. }
  destruct E as [E _]. specialize (E ltac:(rewrite zlen_local; lia)).
  rewrite (run_bind_ok _ _ _ _ _ (on_enclave_run _ _ _ _ E)). cbn iota beta.
  assert (zlen (n ++ ct) = zlen d + 28) as Hl.
  { apply aead_encrypt_len in Hc. unfold CRYPTO_MAC_SIZE in Hc. zlen. }
  rewrite <-Hl. set (s1 := Server _ _ _ _).
  destruct (send_data_packet_run s1 i c (n ++ ct) (drop (length (n ++ ct))
    (local "encrypted_buffer" 2048))) as (ts & now & o' & Hts & Hem & E2); [lia|].
  rewrite E2. eexists. split; [reflexivity|]. cbn [s1 table global_sequence enclave_conn sys] in *.
  rewrite Hl in Hem. split; [split; [|done]|split; [done|by eapply routed_sent; try done; lia]].
  case_match; [by apply update_wf|done].
Qed.
End handlers.

(** ** Properties of the server *)
Section properties.
Context {C : Type} `{Sodium, Garbage, Env} `{!Channel C, !SodiumLaws _, !EnclaveService C}.
Implicit Types s : server C.

Abbreviation keys_of s := (svc_key (channel (enclave_conn s))).
Abbreviation held_of s := (svc_held (channel (enclave_conn s))).

(** The bytes of a datagram the server looks at, and the buffer after recvfrom. *)
Definition cut (d : list Z) : list Z := take 2048 d.
Definition rx_buffer (d : list Z) : list Z :=
  cut d ++ drop (length (cut d)) (local "handle_udp_to_tun.buffer" PACKET_BUFFER).

Lemma zlen_cut d : zlen (cut d) = zlen d `min` 2048.
Proof. unfold cut. change 2048%nat with (Z.to_nat 2048). rewrite zlen_take; lia. Qed.

Lemma rx_buffer_len d : zlen (rx_buffer d) = PACKET_BUFFER.
Proof.
  unfold rx_buffer. pose proof (zlen_cut d).
  rewrite zlen_app, zlen_drop_length, zlen_local by (rewrite ?zlen_local; autounfold with sizes; lia).
  lia.
Qed.

Lemma udp_recv_cut addr d :
  udp_recv (local "handle_udp_to_tun.buffer" PACKET_BUFFER) (Some (addr, d)) =
  Some (zlen (cut d), rx_buffer d, addr).
Proof.
  unfold udp_recv, recv_datagram, rx_buffer. rewrite zlen_local by done.
  change (zlen d `min` PACKET_BUFFER) with (zlen d `min` 2048). rewrite <-zlen_cut.
  unfold zlen at 2 3. rewrite Nat2Z.id.
  assert (take (length (cut d)) d = cut d) as ->; [|done].
  unfold cut. rewrite length_take. destruct (decide (length d ≤ 2048)%nat).
  - by rewrite !take_ge by lia.
  - f_equal. lia.
Qed.

(** The type of a packet with a complete header. *)
Definition packet_type (d : list Z) : Z := hdr_type (vpn_header_of_bytes d).

Lemma rx_buffer_type d : 16 ≤ zlen d → packet_type (rx_buffer d) = packet_type d.
Proof.
  intros. unfold packet_type, vpn_header_of_bytes; simpl. unfold rx_buffer.
  pose proof (zlen_cut d). rewrite slice_within by lia.
  transitivity (le_val (slice 0 1 (cut d ++ drop 2048 d))).
  - by rewrite slice_within by lia.
  - unfold cut. by rewrite take_drop.
Qed.

(** The handler, packet type by packet type. *)
Lemma handle_udp_dispatch addr d s :
  handle_udp_to_tun (Some (addr, d)) s =
  if decide (zlen d < 16) then Ok ((), s)
  else if decide (packet_type d = PKT_CONNECT_REQ) then on_connect_req (rx_buffer d) addr s
  else if decide (packet_type d = PKT_DATA) then on_data (rx_buffer d) (zlen (cut d)) addr s
  else if decide (packet_type d = PKT_PING) then on_ping addr s
  else if decide (packet_type d = PKT_DISCONNECT) then on_disconnect addr s
  else Ok ((), s).
Proof.
  unfold handle_udp_to_tun. rewrite udp_recv_cut. change sizeof_vpn_header_t with 16.
  pose proof (zlen_cut d) as Hc. destruct (decide (zlen d < 16)).
  - by rewrite decide_True by lia.
  - rewrite decide_False by lia. fold (packet_type (rx_buffer d)).
    rewrite rx_buffer_type by lia. by repeat case_decide.
Qed.

Lemma handle_udp_to_tun_ok arrived s :
  server_ok s → ∃ s', handle_udp_to_tun arrived s = Ok ((), s') ∧ server_ok s'.
Proof.
  intros Hok. destruct arrived as [[addr d]|]; [|by exists s].
  rewrite handle_udp_dispatch. pose proof (zlen_cut d). pose proof (rx_buffer_len d).
  repeat case_decide; try (by exists s).
  - destruct (on_connect_req_run (rx_buffer d) addr s) as (s' & ? & ? & _); eauto.
  - destruct (on_data_run (rx_buffer d) (zlen (cut d)) addr s) as (now & s' & ? & ? & _);
      autounfold with sizes; eauto; lia.
  - destruct (on_ping_run addr s) as (now & ts & s' & ? & _ & Ht & He & _).
    exists s'. split; [done|]. destruct Hok. split; [rewrite Ht; by apply touch_wf|by rewrite He].
  - destruct (on_disconnect_run addr s) as (s' & ? & ? & _); eauto.
Qed.

(** A turn of the event loop whose TUN packet, if any, fits the buffers. *)
Definition turn_fits (tn : turn) : Prop :=
  match tn with Ready _ (Some (Some d)) => zlen d ≤ 2004 | _ => True end.

Lemma loop_turn_ok last tn s :
  server_ok s → turn_fits tn →
  ∃ r s', loop_turn last tn s = Ok (r, s') ∧ server_ok s'.
Proof.
  intros Hok Hfit. destruct tn as [| |alive|udp tun]; simpl; [by eexists _, _..| |].
  - destruct Hok as [Hwf Hready]. rewrite (run_bind_ok _ _ _ _ _ (on_sys_run _ _ _ _ eq_refl)).
    set (s1 := Server _ _ _ _). rewrite run_bind. destruct (decide _); [|by eexists _, _].
    destruct (check_client_timeouts_run (table s1) (sys s1)) as [o' E].
    rewrite (run_bind_ok _ _ _ _ _ (on_table_run _ _ _ _ E)). eexists _, _.
    split; [reflexivity|]. split; [|done]. eapply check_client_timeouts_wf, E. done.
  - assert (∃ s1, match udp with Some d => handle_udp_to_tun d | None => mret () end s =
                  Ok ((), s1) ∧ server_ok s1) as (s1 & E1 & Hok1).
    { destruct udp; [by apply handle_udp_to_tun_ok|by exists s]. }
    rewrite (run_bind_ok _ _ _ _ _ E1).
    assert (∃ s2, match tun with Some d => handle_tun_to_udp d | None => mret () end s1 =
                  Ok ((), s2) ∧ server_ok s2) as (s2 & E2 & Hok2).
    { destruct tun as [[d|]|]; [|by exists s1..].
      destruct (handle_tun_to_udp_run d s1) as (s2 & ? & ? & _); eauto. }
    rewrite (run_bind_ok _ _ _ _ _ E2). by eexists _, _.
Qed.

(** (C1) Whatever arrives, the server keeps running: for every sequence of turns
    of the event loop (any datagrams of any length and content from any
    address, timeouts, failing system calls), as long as the packets read from
    the TUN device have at most 2004 bytes, no handler writes or reads outside
    a buffer or follows a null pointer, and the client table and the connection
    to the enclave stay consistent. *)
Theorem server_survives_all_traffic last turns s :
  server_ok s → Forall turn_fits turns →
  ∃ r s', event_loop last turns s = Ok (r, s') ∧ server_ok s'.
Proof.
  intros Hok Hfit. revert last s Hok. induction Hfit as [|tn turns Ht _ IH]; intros last s Hok.
  - by eexists _, _.
  - destruct (loop_turn_ok last tn s Hok Ht) as (r & s1 & E & Hok1).
    simpl. rewrite (run_bind_ok _ _ _ _ _ E). destruct r; [by apply IH|by eexists _, _].
Qed.

(** (C18) Only authentic packets reach the TUN device: whatever datagram
    arrives, what is written (at most one packet) is the decryption of the
    datagram's payload under the key the enclave holds for an active client
    that is registered under the sender's address. *)
Theorem tun_writes_are_authentic addr d s s' :
  server_ok s → handle_udp_to_tun (Some (addr, d)) s = Ok ((), s') →
  tun_out (sys s') = tun_out (sys s) ∨
  ∃ i c p, find_client_by_addr (table s) addr = Some (i, c) ∧
    open_packet (keys_of s (vpn_ip c)) (slice 16 (zlen (cut d) - 16) (cut d)) = Some p ∧
    tun_out (sys s') = tun_out (sys s) ++ [p].
Proof.
  intros Hok. rewrite handle_udp_dispatch. pose proof (zlen_cut d). pose proof (rx_buffer_len d).
  repeat case_decide; try (intros [= <-]; by left).
  - destruct (on_connect_req_run (rx_buffer d) addr s) as (s1 & -> & _ & Hc); [done..|].
    intros [= <-]. left. destruct Hc as [? ? ? ? ? []|? ? ? ? ? ? ? ? []|? ? ? ? ? ? ? ? ? ? ? ? ? ? ? ? []];
      by rewrite app_nil_r in *.
  - destruct (on_data_run (rx_buffer d) (zlen (cut d)) addr s)
      as (now & s1 & -> & _ & _ & _ & _ & [_ Htun]); [done|done|autounfold with sizes; lia|].
    intros [= <-]. destruct (find_client_by_addr (table s) addr) as [[i c]|];
      [|left; by rewrite app_nil_r in Htun].
    assert (slice 16 (zlen (cut d) - 16) (rx_buffer d) = slice 16 (zlen (cut d) - 16) (cut d)) as Hs.
    { unfold rx_buffer. apply slice_within; lia. }
    rewrite Hs in Htun. unfold delivered in Htun.
    destruct (open_packet _ _) as [p|] eqn:Hp; [|left; by rewrite app_nil_r in Htun].
    destruct (env_write _); [|left; by rewrite app_nil_r in Htun]. right. by exists i, c, p.
  - destruct (on_ping_run addr s) as (now & ts & s1 & -> & _ & _ & _ & _ & [_ Htun]).
    intros [= <-]. left. by rewrite app_nil_r in Htun.
  - destruct (on_disconnect_run addr s Hok) as (s1 & -> & _ & _ & [_ Htun] & _).
    intros [= <-]. left. by rewrite app_nil_r in Htun.
Qed.

Lemma packet_type_header h rest :
  wf_header h → packet_type (vpn_header_bytes h ++ rest) = hdr_type h.
Proof. intros. unfold packet_type. by rewrite vpn_header_roundtrip. Qed.

(** A complete data packet of a connected client. *)
Lemma handle_data_packet addr h p i c s :
  server_ok s → wf_header h → hdr_type h = PKT_DATA → zlen p ≤ 2032 →
  find_client_by_addr (table s) addr = Some (i, c) →
  ∃ now s', handle_udp_to_tun (Some (addr, vpn_header_bytes h ++ p)) s = Ok ((), s') ∧
    server_ok s' ∧ table s' = touch now (table s) addr ∧
    global_sequence s' = global_sequence s ∧ (∀ ip, keys_of s' ip = keys_of s ip) ∧
    emits (sys s) (sys s') [] (delivered (sys s) (open_packet (keys_of s (vpn_ip c)) p)).
Proof.
  intros Hok Hh Ht Hp Hf. set (d := vpn_header_bytes h ++ p). pose proof (zlen_nonneg p).
  assert (zlen d = 16 + zlen p) as Hd by (subst d; zlen).
  assert (cut d = d) as Hcut by (apply (take_all_zlen 2048); lia).
  assert (packet_type d = PKT_DATA) as Hty by (subst d; by rewrite packet_type_header).
  rewrite handle_udp_dispatch, decide_False, Hty by lia.
  rewrite decide_False, decide_True by done.
  destruct (on_data_run (rx_buffer d) (zlen (cut d)) addr s)
    as (now & s' & E & Hok' & Htab & Hg & Hkeys & Hem);
    [done|apply rx_buffer_len|rewrite Hcut; autounfold with sizes; lia|].
  exists now, s'. split_and!; try done. rewrite Hf in Hem. unfold rx_buffer in Hem.
  rewrite Hcut, slice_within in Hem by lia.
  assert (slice 16 (zlen d - 16) d = p) as E3; [|by rewrite E3 in Hem].
  rewrite Hd. subst d. rewrite slice_skip by zlen. apply slice_all. autorewrite with zlen.
  autounfold with sizes. lia.
Qed.

(** A data packet of a connected client reaches the TUN device: the packet
    that was encrypted with the client's session key is written as it was (when
    the write succeeds), the client's activity is recorded, and nothing is sent
    or changed otherwise. *)
Lemma data_packet_is_delivered addr h n ct m k i c s :
  server_ok s → wf_header h → hdr_type h = PKT_DATA →
  find_client_by_addr (table s) addr = Some (i, c) → keys_of s (vpn_ip c) = Some k →
  zlen n = 12 → crypto_encrypt m k n = Some ct → zlen m ≤ 2004 →
  ∃ now s', handle_udp_to_tun (Some (addr, vpn_header_bytes h ++ n ++ ct)) s = Ok ((), s') ∧
    tun_out (sys s') =
      tun_out (sys s) ++ (if env_write (write_calls (sys s)) then [m] else []) ∧
    udp_out (sys s') = udp_out (sys s) ∧ table s' = touch now (table s) addr ∧
    global_sequence s' = global_sequence s ∧ (∀ ip, keys_of s' ip = keys_of s ip).
Proof.
  intros Hok Hh Ht Hf Hk Hn Hc Hm. pose proof (aead_encrypt_len _ _ _ _ Hc) as Hl.
  unfold CRYPTO_MAC_SIZE in Hl.
  destruct (handle_data_packet addr h (n ++ ct) i c s)
    as (now & s' & E & _ & Htab & Hg & Hkeys & [Hudp Htun]); [done..|zlen|done|].
  exists now, s'. rewrite app_nil_r in Hudp. split_and!; try done.
  by rewrite Htun, Hk, (open_packet_sealed m k n ct).
Qed.

Lemma find_touched now t addr i c :
  find_client_by_addr t addr = Some (i, c) →
  find_client_by_addr (touch now t addr) addr = Some (i, set_last_seen now c).
Proof.
  intros Hf. unfold touch. rewrite Hf. by apply find_touch_slot.
Qed.

(** (C37) A data packet is accepted as often as it arrives: a captured datagram that is
    sent again from the same address is decrypted and written to the TUN device
    again. Neither sequence number nor time stamp is looked at. *)
Theorem replayed_data_packet_is_written_again addr h n ct m k i c s :
  server_ok s → wf_header h → hdr_type h = PKT_DATA →
  find_client_by_addr (table s) addr = Some (i, c) → keys_of s (vpn_ip c) = Some k →
  zlen n = 12 → crypto_encrypt m k n = Some ct → zlen m ≤ 2004 →
  let d := vpn_header_bytes h ++ n ++ ct in
  ∃ s1 s2, handle_udp_to_tun (Some (addr, d)) s = Ok ((), s1) ∧
    handle_udp_to_tun (Some (addr, d)) s1 = Ok ((), s2) ∧
    tun_out (sys s2) =
      tun_out (sys s) ++ (if env_write (write_calls (sys s)) then [m] else []) ++
                         (if env_write (write_calls (sys s1)) then [m] else []).
Proof.
  intros Hok Hh Ht Hf Hk Hn Hc Hm d. pose proof (aead_encrypt_len _ _ _ _ Hc) as Hl.
  unfold CRYPTO_MAC_SIZE in Hl.
  destruct (handle_data_packet addr h (n ++ ct) i c s)
    as (now & s1 & E1 & Hok1 & Htab & _ & Hkeys & [_ Htun1]); [done..|zlen|done|].
  apply (find_touched now) in Hf as Hf1. rewrite <-Htab in Hf1.
  destruct (handle_data_packet addr h (n ++ ct) i (set_last_seen now c) s1)
    as (now2 & s2 & E2 & _ & _ & _ & _ & [_ Htun2]); [done..|zlen|done|].
  exists s1, s2. split_and!; [done..|]. cbn [vpn_ip set_last_seen] in Htun2.
  rewrite Htun2, Htun1, Hkeys, Hk, (open_packet_sealed m k n ct) by done. by rewrite app_assoc.
Qed.

(** Every PING is answered with one PONG to its sender (connected or not)
    that carries the next sequence number in network byte order; the sender's
    activity is recorded if it is a client, and the enclave is not asked. *)
Lemma ping_is_answered addr d s :
  16 ≤ zlen d → packet_type d = PKT_PING →
  ∃ now b s', handle_udp_to_tun (Some (addr, d)) s = Ok ((), s') ∧
    udp_out (sys s') = udp_out (sys s) ++ sent (sys s) addr b ∧
    zlen b = 16 ∧ hdr_type (vpn_header_of_bytes b) = PKT_PONG ∧
    hdr_version (vpn_header_of_bytes b) = 1 ∧ hdr_length (vpn_header_of_bytes b) = 0 ∧
    hdr_sequence (vpn_header_of_bytes b) = htonl (u32 (global_sequence s + 1)) ∧
    tun_out (sys s') = tun_out (sys s) ∧ table s' = touch now (table s) addr ∧
    enclave_conn s' = enclave_conn s.
Proof.
  intros Hd Ht. rewrite handle_udp_dispatch, decide_False by lia.
  rewrite Ht. rewrite !decide_False, decide_True by done.
  destruct (on_ping_run addr s) as (now & ts & s' & E & Hts & Htab & Henc & Hg & [Hudp Htun]).
  eexists now, _, s'. split; [done|]. split; [exact Hudp|].
  rewrite <-(app_nil_r (vpn_header_bytes _)) at 2 3 4 5.
  rewrite vpn_header_roundtrip by apply wf_init_header.
  rewrite app_nil_r in Htun. by split_and!.
Qed.

Lemma without_own_ip t addr i c :
  wf_table t → NoDup (vpn_ip <$> active_clients t) →
  find_client_by_addr t addr = Some (i, c) →
  find_client_by_addr (without_ip t (vpn_ip c)) addr = None ∧
  active_clients t ≡ₚ c :: active_clients (without_ip t (vpn_ip c)) ∧
  count (without_ip t (vpn_ip c)) = count t - 1.
Proof.
  intros Hwf Hd Hf. destruct (found_by_addr _ _ _ _ Hwf Hf) as (Hi & [Ha Hends] & _).
  assert (find_client_by_vpn_ip t (vpn_ip c) = Some (i, c)) as Hip.
  { destruct (find_client_by_vpn_ip t (vpn_ip c)) as [[j c']|] eqn:E.
    - destruct (found_by_ip _ _ _ _ Hwf E) as (Hj & Ha' & Heq & _).
      assert (j = i) as -> by eauto using active_unique. by simplify_eq.
    - exfalso. apply list_find_None in E. by eapply (Forall_lookup_1 _ _ _ _ E Hi). }
  unfold without_ip. rewrite Hip. split_and!; [|symmetry; by apply active_insert_drop|done].
  apply (list_find_insert_clear _ _ _ _ _ Hf).
  - unfold has_addr. simpl. naive_solver.
  - intros j x Hj (Hax & He1 & He2). destruct Hends as [Hc1 Hc2].
    eapply (active_unique active endpoint); eauto using wf_endpoints.
    unfold endpoint. congruence.
Qed.

(** (C25) A DISCONNECT of a connected client ends its session, as long as no two active
    clients share a VPN address: the key in force for its address is removed in the
    enclave (if it was the only one held for the address, the address has no key any
    more), its slot is freed, it is not found by its address any more, and every other
    client and every key of another address stays. Nothing is sent. *)
Theorem disconnect_ends_session addr d i c s :
  server_ok s → NoDup (vpn_ip <$> active_clients (table s)) →
  16 ≤ zlen d → packet_type d = PKT_DISCONNECT →
  find_client_by_addr (table s) addr = Some (i, c) →
  ∃ s', handle_udp_to_tun (Some (addr, d)) s = Ok ((), s') ∧ server_ok s' ∧
    find_client_by_addr (table s') addr = None ∧
    active_clients (table s) ≡ₚ c :: active_clients (table s') ∧
    enclave_remove_key (vpn_ip c) (enclave_conn s) = Ok (0, enclave_conn s') ∧
    held_of s' (vpn_ip c) = tail (held_of s (vpn_ip c)) ∧
    ((length (held_of s (vpn_ip c)) ≤ 1)%nat → keys_of s' (vpn_ip c) = None) ∧
    (∀ ip, ip ≠ vpn_ip c → keys_of s' ip = keys_of s ip) ∧
    udp_out (sys s') = udp_out (sys s) ∧ tun_out (sys s') = tun_out (sys s).
Proof.
  intros Hok Hnd Hd Ht Hf. rewrite handle_udp_dispatch, decide_False by lia.
  rewrite Ht. rewrite !decide_False, decide_True by done.
  destruct (on_disconnect_run addr s Hok) as (s' & E & Hok' & _ & [Hudp Htun] & Hc).
  rewrite Hf in Hc. destruct Hc as (Htab & Hrm & Hheld & Hkeys).
  rewrite app_nil_r in Hudp, Htun.
  destruct (without_own_ip _ _ _ _ (ok_table _ Hok) Hnd Hf) as (? & ? & _).
  exists s'. rewrite Htab. split_and!; try done. intros Hone. rewrite svc_key_held, Hheld.
  by destruct (held_of s (vpn_ip c)) as [|k [|]]; [done..|cbn in Hone; lia].
Qed.

(** The public key of a complete CONNECT_REQ is the one in the datagram. *)
Lemma rx_buffer_key d : 80 ≤ zlen d → slice 48 32 (rx_buffer d) = slice 48 32 d.
Proof.
  intros. unfold rx_buffer. pose proof (zlen_cut d). rewrite slice_within by lia.
  transitivity (slice 48 32 (cut d ++ drop 2048 d)).
  - by rewrite slice_within by lia.
  - unfold cut. by rewrite take_drop.
Qed.

(** (C20) A complete CONNECT_REQ has one of three outcomes, whatever its user name: the
    server authenticates nobody. With a full table
    nothing happens and nothing is sent. Otherwise the enclave is asked for a
    handshake with the public key of the datagram: if it fails nothing is sent;
    if it succeeds the client is in the table under an address of the pool
    (10.8.0.2 to 10.8.0.255) and
    it is sent a CONNECT_RESP that decodes to status 0, that address, the
    session id of its table entry and the enclave's public key. *)
Theorem connect_request_outcomes addr d s :
  server_ok s → 80 ≤ zlen d → packet_type d = PKT_CONNECT_REQ →
  ∃ s', handle_udp_to_tun (Some (addr, d)) s = Ok ((), s') ∧ server_ok s' ∧
    tun_out (sys s') = tun_out (sys s) ∧
    ((count (table s) = 254 ∧ table s' = table s ∧ enclave_conn s' = enclave_conn s ∧
      udp_out (sys s') = udp_out (sys s)) ∨
     (count (table s) < 254 ∧
      ∃ ip, in_pool ip ∧
        ((enclave_handshake ip (slice 48 32 d) (enclave_conn s) = Ok (None, enclave_conn s') ∧
          udp_out (sys s') = udp_out (sys s)) ∨
         ∃ spk sk i c b header,
           enclave_handshake ip (slice 48 32 d) (enclave_conn s) =
             Ok (Some (spk, sk), enclave_conn s') ∧
           find_client_by_addr (table s') addr = Some (i, c) ∧ vpn_ip c = ip ∧
           udp_out (sys s') = udp_out (sys s) ++ sent (sys s) addr b ∧
           zlen b = 57 ∧ hdr_type header = PKT_CONNECT_RESP ∧
           connect_response_of_bytes b =
             ConnectResponse header 0 ip (htonl (session_id c)) spk))).
Proof.
  intros Hok Hd Ht. rewrite handle_udp_dispatch, decide_False, Ht by lia.
  rewrite decide_True by done.
  destruct (on_connect_req_run (rx_buffer d) addr s Hok (rx_buffer_len d))
    as (s' & E & Hok' & Hc). rewrite rx_buffer_key in Hc by done.
  exists s'. split; [done|]. split; [done|]. destruct Hok as [Hwf Hready].
  destruct Hc as [s' Ho Htab Hconn _ [Hudp Htun]
    |ip t' s' Ho Hp Hh Htab _ [Hudp Htun]
    |ip t' s' spk sk i c ts Ho Hp Hh Htab Hf Hci _ Hts [Hudp Htun]];
    rewrite app_nil_r in Htun; (split; [done|]); rewrite ?app_nil_r in Hudp.
  - left. destruct (add_outcome_ip _ _ _ _ Hwf Ho) as [(_ & ? & _)|[Hp _]]; [done|].
    by apply in_pool_nonzero in Hp.
  - right. destruct (add_outcome_ip _ _ _ _ Hwf Ho) as [(-> & _)|[_ ?]];
      [by apply in_pool_nonzero in Hp|]. split; [done|]. exists ip. auto.
  - right. destruct (add_outcome_ip _ _ _ _ Hwf Ho) as [(-> & _)|[_ ?]];
      [by apply in_pool_nonzero in Hp|]. split; [done|]. exists ip. split; [done|]. right.
    assert (wf_connect_response (ConnectResponse (next_header s PKT_CONNECT_RESP 41 ts) 0 ip
      (htonl (session_id c)) spk)) as Hr.
    { destruct (svc_handshake (enclave_conn s) ip (slice 48 32 d))
        as (r & i' & E2 & _ & _ & _ & Hr); [done|by apply in_pool_uint|zlen|].
      rewrite Hh in E2. injection E2 as <- <-. destruct Hr as (_ & ? & _).
      split_and!; try done; [apply wf_init_header|by apply in_pool_uint|by apply bswap_uint]. }
    eexists spk, sk, i, c, _, _. rewrite Htab. split_and!; try done; [..|by apply connect_response_fields].
    + by apply zlen_connect_response_bytes.
    + done.
Qed.

(** A CONNECT_REQ from the address of a connected client whose handshake
    fails ends that client's session: the client is not in the table any more,
    although its old session was not concerned. *)
Lemma failed_handshake_drops_client addr d i c s conn' :
  server_ok s → NoDup (vpn_ip <$> active_clients (table s)) →
  80 ≤ zlen d → packet_type d = PKT_CONNECT_REQ → count (table s) < 254 →
  find_client_by_addr (table s) addr = Some (i, c) →
  enclave_handshake (vpn_ip c) (slice 48 32 d) (enclave_conn s) = Ok (None, conn') →
  ∃ s', handle_udp_to_tun (Some (addr, d)) s = Ok ((), s') ∧
    find_client_by_addr (table s') addr = None ∧ count (table s') = count (table s) - 1.
Proof.
  intros Hok Hnd Hd Ht Hcount Hf Hh. rewrite handle_udp_dispatch, decide_False, Ht by lia.
  rewrite decide_True by done.
  destruct (on_connect_req_run (rx_buffer d) addr s Hok (rx_buffer_len d))
    as (s' & E & Hok' & Hc). rewrite rx_buffer_key in Hc by done.
  exists s'. split; [done|]. destruct Hok as [Hwf Hready].
  assert (∀ ip t', add_outcome (table s) addr ip t' → ∃ now, ip = vpn_ip c ∧ t' = touch_slot now i (table s))
    as Hout.
  { intros ip t' Ho. destruct Ho; [unfold MAX_CLIENTS in *; lia|by simplify_eq; eexists|congruence]. }
  destruct Hc as [s' Ho _ _ _ _|ip t' s' Ho Hp Hh' Htab _ _|ip t' s' spk sk j c' ts Ho Hp Hh' _ _ _ _ _ _].
  - destruct (Hout _ _ Ho) as (now & E0 & _).
    destruct (found_by_addr _ _ _ _ Hwf Hf) as (Hi & [Ha _] & _).
    pose proof (wf_pool _ Hwf) as Hpool. rewrite Forall_forall in Hpool.
    exfalso. eapply in_pool_nonzero; [|by symmetry]. apply Hpool, list_elem_of_filter.
    split; [done|by eapply list_elem_of_lookup_2].
  - destruct (Hout _ _ Ho) as (now & -> & ->). rewrite Htab.
    destruct (without_own_ip (touch_slot now i (table s)) addr i (set_last_seen now c))
      as (? & _ & ?); [by apply update_wf| | |done].
    + unfold active_clients, touch_slot; simpl. by rewrite filter_alter_proj.
    + by apply find_touch_slot.
  - destruct (Hout _ _ Ho) as (now & -> & _). congruence.
Qed.

(** The payload of a data packet. *)
Definition payload (b : list Z) : list Z := drop 16 b.

(** (C19) Packets of at most 2004 bytes from the TUN device. A packet that is too short, an IPv6 packet
    or one for an address no client has changes nothing. A packet for the address
    of a client with a session key, if it can be encrypted, is sent to that client's real address and to
    nobody else, as a DATA packet with the next sequence number and the length of
    its payload, which opens under the client's key to the packet. *)
Theorem tun_packet_is_routed d s :
  server_ok s → zlen d ≤ 2004 →
  ∃ s', handle_tun_to_udp (Some d) s = Ok ((), s') ∧ server_ok s' ∧
    tun_out (sys s') = tun_out (sys s) ∧
    (zlen d < 20 ∨ ip_version d = 6 ∨ find_client_by_vpn_ip (table s) (ip_daddr d) = None →
     s' = s) ∧
    (∀ i c k, 20 ≤ zlen d → ip_version d ≠ 6 →
       find_client_by_vpn_ip (table s) (ip_daddr d) = Some (i, c) →
       keys_of s (vpn_ip c) = Some k → (∀ n, is_Some (crypto_encrypt d k n)) →
       ∃ b ts, udp_out (sys s') = udp_out (sys s) ++ sent (sys s) (real_addr c) b ∧
         vpn_header_of_bytes b =
           VpnHeader PKT_DATA 1 (htons (zlen (payload b)))
                     (htonl (u32 (global_sequence s + 1))) (htobe64 ts) ∧
         open_packet (Some k) (payload b) = Some d).
Proof.
  intros Hok Hd. destruct (handle_tun_to_udp_run d s Hok Hd) as (s' & E & Hok' & _ & Hr).
  exists s'. split; [done|]. split; [done|].
  destruct Hr as [Hno|i c s' H20 Hv Hf Hfail Htab _ [Hudp Htun]
    |i c k n ct ts now s' H20 Hv Hf Hk Hn Hc Hts _ [Hudp Htun] Htab].
  - split_and!; [done..|]. intros i c k ? ? Hf. destruct Hno as [?|[?|?]]; [lia|done|congruence].
  - rewrite app_nil_r in Htun. split_and!; [done| |].
    + intros [?|[?|?]]; [lia|done|congruence].
    + intros i' c' k _ _ Hf' Hk Hok2. exfalso. simplify_eq. rewrite Hk in Hfail.
      destruct Hfail as [n Hn]. destruct (Hok2 n). congruence.
  - rewrite app_nil_r in Htun. split_and!; [done| |].
    + intros [?|[?|?]]; [lia|done|congruence].
    + intros i' c' k' _ _ Hf' Hk' _. simplify_eq.
      pose proof (aead_encrypt_len _ _ _ _ Hc) as Hl. unfold CRYPTO_MAC_SIZE in Hl.
      eexists _, ts. split; [exact Hudp|]. unfold payload.
      rewrite (drop_app_zlen _ _ 16) by zlen. split; [|by apply open_packet_sealed].
      rewrite vpn_header_roundtrip by apply wf_init_header.
      unfold next_header. replace (zlen (n ++ ct)) with (zlen d + 28) by zlen.
      replace (u16 (zlen d + 28)) with (zlen d + 28) by (symmetry; apply Z.mod_small; lia).
      done.
Qed.

(** (C30) Larger packets from the TUN device write behind the server's stack
    buffers: an IPv4 packet of more than 2004 bytes for a client with a session
    key overruns the packet buffer (or, from 2021 bytes on, the buffer of the
    ciphertext). *)
Theorem large_tun_packet_overruns d s i c k :
  server_ok s → 2004 < zlen d ≤ 2048 → ip_version d ≠ 6 →
  find_client_by_vpn_ip (table s) (ip_daddr d) = Some (i, c) →
  keys_of s (vpn_ip c) = Some k → (∀ n, is_Some (crypto_encrypt d k n)) →
  handle_tun_to_udp (Some d) s = Fault Overrun.
Proof.
  intros [Hwf Hready] Hd Hv Hf Hk Hok. unfold handle_tun_to_udp.
  rewrite recv_datagram_fits by zlen. autounfold with sizes.
  rewrite decide_False by lia. rewrite ip_version_app, ip_daddr_app by lia.
  rewrite decide_False by done. rewrite run_bind, run_gets. cbn iota beta. rewrite Hf.
  destruct (found_by_ip _ _ _ _ Hwf Hf) as (_ & _ & _ & Hip). rewrite slice_hit by done.
  destruct (svc_encrypt (enclave_conn s) (vpn_ip c) d (local "encrypted_buffer" 2048))
    as (i' & _ & _ & _ & E); [done|done|lia|].
  rewrite Hk in E. destruct E as (n & Hn & E). destruct (Hok n) as [ct Hc].
  rewrite Hc in E. rewrite zlen_local in E by lia. destruct E as [Efit Elong].
  destruct (decide (2048 < zlen d + 28)) as [Hbig|Hsmall].
  { rewrite run_bind. unfold on_enclave. rewrite run_zoom. by rewrite (Elong Hbig). }
  rewrite (run_bind_ok _ _ _ _ _ (on_enclave_run _ _ _ _ (Efit ltac:(lia)))). cbn iota beta.
  apply aead_encrypt_len in Hc. unfold CRYPTO_MAC_SIZE in Hc.
  replace (zlen d + 28) with (zlen (n ++ ct)) by zlen.
  apply send_data_packet_overrun. zlen.
Qed.

(** (C34) A CONNECT_REQ is accepted from its 16-byte header alone: the public key
    the server passes to the enclave is then what its stack buffer held before. *)
Theorem short_connect_request_uses_stale_bytes addr d s :
  server_ok s → zlen d = 16 → packet_type d = PKT_CONNECT_REQ → count (table s) < 254 →
  ∃ ip r s', handle_udp_to_tun (Some (addr, d)) s = Ok ((), s') ∧ in_pool ip ∧
    enclave_handshake ip (slice 48 32 (local "handle_udp_to_tun.buffer" PACKET_BUFFER))
      (enclave_conn s) = Ok (r, enclave_conn s').
Proof.
  intros Hok Hd Ht Hc. rewrite handle_udp_dispatch, decide_False, Ht by lia.
  rewrite decide_True by done.
  destruct (on_connect_req_run (rx_buffer d) addr s Hok (rx_buffer_len d)) as (s' & E & _ & Hcn).
  assert (slice 48 32 (rx_buffer d) =
          slice 48 32 (local "handle_udp_to_tun.buffer" PACKET_BUFFER)) as Hs.
  { unfold rx_buffer. assert (cut d = d) as -> by (apply (take_all_zlen 2048); lia).
    rewrite slice_skip, Hd by lia. unfold slice. rewrite drop_drop. do 2 f_equal.
    unfold zlen in Hd. lia. }
  rewrite Hs in Hcn. destruct Hcn as [s' Ho _ _ _ _|ip t' s' Ho Hp Hh _ _ _|ip t' s' spk sk j c' ts Ho Hp Hh _ _ _ _ _ _].
  - destruct (add_outcome_ip _ _ _ _ (ok_table _ Hok) Ho) as [(_ & ? & _)|[Hp _]].
    + unfold MAX_CLIENTS in *. lia.
    + by apply in_pool_nonzero in Hp.
  - by eexists _, _, _.
  - by eexists _, _, _.
Qed.
End properties.

(** ** Instances of the properties: a server with one client *)
Section instances.
#[local] Existing Instance quiet_env.
#[local] Existing Instance zero_garbage.

Definition client_ip : Z := htonl FIRST_IP.
Definition toy_key : list Z := replicate 32 3.
Definition toy_conn : ipc enclave :=
  Ipc 0 (set_km (perform_handshake toy_km client_ip (replicate 32 2)).2 toy_enclave).
Definition toy_server : server enclave := Server one_client 0 toy_conn os_boot.
(** A packet of type [t] of [n] bytes, and an IPv4 packet for the client. *)
Definition udp_packet (t : Z) (n : nat) : list Z := t :: 1 :: replicate (n - 2) 0.
Definition ip_packet (n : nat) : list Z :=
  69 :: replicate 15 0 ++ [10; 8; 0; 2] ++ replicate (n - 20) 0.

Lemma toy_server_ok : server_ok toy_server.
Proof. split; [apply (table_reachable_wf 1), one_client_reachable|by split]. Qed.

Lemma server_survives_all_traffic_witness :
  ∃ r s', event_loop 0 [Ready (Some (Some (peer 2, udp_packet PKT_CONNECT_REQ 80)))
                              (Some (Some (ip_packet 40))); Quiet true; Stop] toy_server =
          Ok (r, s') ∧ server_ok s'.
Proof.
  apply server_survives_all_traffic; [apply toy_server_ok|]. repeat constructor; by vm_compute.
Defined.

(** A data packet of the client: nonce, ciphertext and tag of [1; 2; 3]. *)
Definition toy_data : list Z :=
  vpn_header_bytes (VpnHeader PKT_DATA 1 0 0 0) ++ replicate 12 4 ++ [1; 2; 3] ++ replicate 16 150.

Lemma tun_writes_are_authentic_witness :
  ∃ s' : server enclave, tun_out (sys s') = tun_out (sys toy_server) ∨
    ∃ i c p, find_client_by_addr (table toy_server) (peer 1) = Some (i, c) ∧
      open_packet (svc_key (channel (enclave_conn toy_server)) (vpn_ip c))
        (slice 16 (zlen (cut toy_data) - 16) (cut toy_data)) = Some p ∧
      tun_out (sys s') = tun_out (sys toy_server) ++ [p].
Proof.
  eexists. apply (tun_writes_are_authentic (peer 1) toy_data toy_server);
    [apply toy_server_ok|vm_compute; reflexivity].
Defined.

Lemma replayed_data_packet_is_written_again_witness :
  let d := vpn_header_bytes (VpnHeader PKT_DATA 1 0 0 0) ++ replicate 12 4 ++
           [1; 2; 3] ++ replicate 16 150 in
  ∃ s1 s2, handle_udp_to_tun (Some (peer 1, d)) toy_server = Ok ((), s1) ∧
    handle_udp_to_tun (Some (peer 1, d)) s1 = Ok ((), s2) ∧
    tun_out (sys s2) = tun_out (sys toy_server) ++
      (if env_write (write_calls (sys toy_server)) then [[1; 2; 3]] else []) ++
      (if env_write (write_calls (sys s1)) then [[1; 2; 3]] else []).
Proof.
  apply (replayed_data_packet_is_written_again (peer 1) (VpnHeader PKT_DATA 1 0 0 0)
    (replicate 12 4) ([1; 2; 3] ++ replicate 16 150) [1; 2; 3] toy_key 0
    (ClientEntry client_ip (peer 1) 1000 (Z.lxor 1000 7) true) toy_server);
    [apply toy_server_ok|by vm_compute|done|by vm_compute|by vm_compute|done|by vm_compute|done].
Defined.

Lemma one_client_unique : NoDup (vpn_ip <$> active_clients (table toy_server)).
Proof. vm_compute. repeat constructor. by intros ?%elem_of_nil. Qed.

Definition toy_client : client_entry_t :=
  ClientEntry client_ip (peer 1) 1000 (Z.lxor 1000 7) true.

Lemma disconnect_ends_session_witness :
  ∃ s', handle_udp_to_tun (Some (peer 1, udp_packet PKT_DISCONNECT 16)) toy_server =
    Ok ((), s') ∧ server_ok s' ∧ find_client_by_addr (table s') (peer 1) = None ∧
    active_clients (table toy_server) ≡ₚ toy_client :: active_clients (table s') ∧
    enclave_remove_key (vpn_ip toy_client) (enclave_conn toy_server) =
      Ok (0, enclave_conn s') ∧
    svc_held (channel (enclave_conn s')) (vpn_ip toy_client) =
      tail (svc_held (channel (enclave_conn toy_server)) (vpn_ip toy_client)) ∧
    ((length (svc_held (channel (enclave_conn toy_server)) (vpn_ip toy_client)) ≤ 1)%nat →
     svc_key (channel (enclave_conn s')) (vpn_ip toy_client) = None) ∧
    (∀ ip, ip ≠ vpn_ip toy_client →
       svc_key (channel (enclave_conn s')) ip =
       svc_key (channel (enclave_conn toy_server)) ip) ∧
    udp_out (sys s') = udp_out (sys toy_server) ∧ tun_out (sys s') = tun_out (sys toy_server).
Proof.
  apply (disconnect_ends_session (peer 1) (udp_packet PKT_DISCONNECT 16) 0 toy_client toy_server);
    [apply toy_server_ok|apply one_client_unique|done|by vm_compute|by vm_compute].
Defined.

Lemma connect_request_outcomes_witness :
  let d := udp_packet PKT_CONNECT_REQ 80 in
  ∃ s', handle_udp_to_tun (Some (peer 2, d)) toy_server = Ok ((), s') ∧ server_ok s' ∧
    tun_out (sys s') = tun_out (sys toy_server) ∧
    ((count (table toy_server) = 254 ∧ table s' = table toy_server ∧
      enclave_conn s' = enclave_conn toy_server ∧ udp_out (sys s') = udp_out (sys toy_server)) ∨
     (count (table toy_server) < 254 ∧
      ∃ ip, in_pool ip ∧
        ((enclave_handshake ip (slice 48 32 d) (enclave_conn toy_server) =
            Ok (None, enclave_conn s') ∧ udp_out (sys s') = udp_out (sys toy_server)) ∨
         ∃ spk sk i c b header,
           enclave_handshake ip (slice 48 32 d) (enclave_conn toy_server) =
             Ok (Some (spk, sk), enclave_conn s') ∧
           find_client_by_addr (table s') (peer 2) = Some (i, c) ∧ vpn_ip c = ip ∧
           udp_out (sys s') = udp_out (sys toy_server) ++ sent (sys toy_server) (peer 2) b ∧
           zlen b = 57 ∧ hdr_type header = PKT_CONNECT_RESP ∧
           connect_response_of_bytes b =
             ConnectResponse header 0 ip (htonl (session_id c)) spk))).
Proof.
  intros d. apply connect_request_outcomes; [apply toy_server_ok|done|by vm_compute].
Defined.

Lemma tun_packet_is_routed_witness :
  let d := ip_packet 40 in
  ∃ s', handle_tun_to_udp (Some d) toy_server = Ok ((), s') ∧ server_ok s' ∧
    tun_out (sys s') = tun_out (sys toy_server) ∧
    (zlen d < 20 ∨ ip_version d = 6 ∨
       find_client_by_vpn_ip (table toy_server) (ip_daddr d) = None → s' = toy_server) ∧
    (∀ i c k, 20 ≤ zlen d → ip_version d ≠ 6 →
       find_client_by_vpn_ip (table toy_server) (ip_daddr d) = Some (i, c) →
       svc_key (channel (enclave_conn toy_server)) (vpn_ip c) = Some k →
       (∀ n, is_Some (crypto_encrypt d k n)) →
       ∃ b ts, udp_out (sys s') =
           udp_out (sys toy_server) ++ sent (sys toy_server) (real_addr c) b ∧
         vpn_header_of_bytes b =
           VpnHeader PKT_DATA 1 (htons (zlen (payload b)))
                     (htonl (u32 (global_sequence toy_server + 1))) (htobe64 ts) ∧
         open_packet (Some k) (payload b) = Some d).
Proof. intros d. apply tun_packet_is_routed; [apply toy_server_ok|done]. Defined.

Lemma large_tun_packet_overruns_witness :
  handle_tun_to_udp (Some (ip_packet 2005)) toy_server = Fault Overrun.
Proof.
  apply (large_tun_packet_overruns (ip_packet 2005) toy_server 0 toy_client toy_key);
    [apply toy_server_ok|by vm_compute|by vm_compute|by vm_compute|by vm_compute|].
  intros n. by eexists.
Defined.

Lemma short_connect_request_uses_stale_bytes_witness :
  ∃ ip r s', handle_udp_to_tun (Some (peer 2, udp_packet PKT_CONNECT_REQ 16)) toy_server =
    Ok ((), s') ∧ in_pool ip ∧
    enclave_handshake ip (slice 48 32 (local "handle_udp_to_tun.buffer" PACKET_BUFFER))
      (enclave_conn toy_server) = Ok (r, enclave_conn s').
Proof.
  apply short_connect_request_uses_stale_bytes; [apply toy_server_ok|done|by vm_compute|done].
Defined.
End instances.

