(* ===== verification/Config.v ===== *)
(** * The client's configuration (include/config.h, src/common/config.c)

    Characters are bytes. A char array is a list of its bytes; a C string is the
    list of the bytes before its terminating 0. *)

From S2P Require Import Prelude Os.

Definition CFG_ADDRESS : Z := 256.
Definition CFG_USERNAME : Z := 64.
Definition CFG_LINE : nat := 512.
#[export] Hint Unfold CFG_ADDRESS CFG_USERNAME : sizes.

Record vpn_config_t := VpnConfig {
  server_address : list Z;
  server_port : Z;
  cfg_username : list Z;
  auto_reconnect : Z;
  max_reconnect_attempts : Z;
  keepalive_interval : Z;
  pong_timeout : Z;
  log_level : Z
}.

(** ** <string.h>, <ctype.h>, <stdlib.h> *)

(** The characters of a string literal. *)
Fixpoint chars (s : string) : list Z :=
  match s with
  | EmptyString => []
  | String c s => Z.of_N (Ascii.N_of_ascii c) :: chars s
  end.

(** The bytes before the first [c], and the bytes behind it if there is one. *)
Fixpoint before (c : Z) (l : list Z) : list Z :=
  match l with
  | [] => []
  | x :: l => if decide (x = c) then [] else x :: before c l
  end.
Fixpoint strchr (l : list Z) (c : Z) : option (list Z) :=
  match l with
  | [] => None
  | x :: l => if decide (x = c) then Some l else strchr l c
  end.

(** The string in an array: reading an array without a 0 runs out of it. *)
Definition c_string (b : list Z) : res (list Z) :=
  match strchr b 0 with Some _ => Ok (before 0 b) | None => Fault Overread end.

(** strncpy: at most [n] characters, filled up to [n] with 0. *)
Definition strncpy (dst src : list Z) (n : Z) : res (list Z) :=
  let src := take (Z.to_nat n) src in
  buf_write dst 0 (src ++ replicate (Z.to_nat n - length src) 0).

Definition isspace (c : Z) : bool := bool_decide (c = 32 ∨ 9 ≤ c ≤ 13).
Definition isdigit (c : Z) : bool := bool_decide (48 ≤ c ≤ 57).

Definition i32 (x : Z) : Z := (x + 2 ^ 31) `mod` 2 ^ 32 - 2 ^ 31.
Definition clamp64 (x : Z) : Z := (- 2 ^ 63) `max` (x `min` (2 ^ 63 - 1)).

Fixpoint skip_space (l : list Z) : list Z :=
  match l with
  | x :: l' => if isspace x then skip_space l' else l
  | [] => []
  end.
Fixpoint strtol_digits (acc : Z) (l : list Z) : Z :=
  match l with
  | x :: l => if isdigit x then strtol_digits (acc * 10 + (x - 48)) l else acc
  | [] => acc
  end.
(** (int)strtol(s, NULL, 10) *)
Definition atoi (s : list Z) : Z :=
  i32 (clamp64
    match skip_space s with
    | x :: l =>
        if decide (x = 45) then - strtol_digits 0 l
        else if decide (x = 43) then strtol_digits 0 l
        else strtol_digits 0 (x :: l)
    | [] => 0
    end).

(** fgets over a whole file: each line with its newline, at most 511 bytes each;
    [cur] is the line read so far, in reverse. *)
Fixpoint fgets_all (cur : list Z) (file : list Z) : list (list Z) :=
  match file with
  | [] => match cur with [] => [] | _ => [rev cur] end
  | x :: file =>
      if decide (x = 10 ∨ S (length cur) = (CFG_LINE - 1)%nat)
      then rev (x :: cur) :: fgets_all [] file
      else fgets_all (x :: cur) file
  end.

(** ** Operations *)

(** static void trim(char *str) *)
Definition trim (s : list Z) : list Z := rev (skip_space (rev (skip_space s))).

Section create.
Context `{Garbage}.

(** [malloc_ok]: the result of malloc; the memory it returns is not cleared. *)
Definition config_create_default (malloc_ok : bool) : res (option vpn_config_t) :=
  if malloc_ok then
    address ← strncpy (local "config.server_address" CFG_ADDRESS) (chars "127.0.0.1")
                      (CFG_ADDRESS - 1);
    user ← strncpy (local "config.username" CFG_USERNAME) (chars "vpn_user") (CFG_USERNAME - 1);
    Ok (Some (VpnConfig address 51820 user 1 10 30 60 2))
  else Ok None.

Definition config_destroy (config : option Z) : M heap () :=
  match config with Some p => free p | None => mret () end.
End create.

Definition parse_log_level (value : list Z) : Z :=
  if decide (value = chars "ERROR") then 0
  else if decide (value = chars "WARN") then 1
  else if decide (value = chars "INFO") then 2
  else if decide (value = chars "DEBUG") then 3
  else atoi value.

(** The chain of comparisons with the names of the settings. *)
Definition apply_setting (config : vpn_config_t) (key value : list Z) : res vpn_config_t :=
  let '(VpnConfig addr port user auto maxr keep pong lvl) := config in
  if decide (key = chars "server_address") then
    addr ← strncpy addr value (CFG_ADDRESS - 1);
    Ok (VpnConfig addr port user auto maxr keep pong lvl)
  else if decide (key = chars "server_port") then
    Ok (VpnConfig addr (u16 (atoi value)) user auto maxr keep pong lvl)
  else if decide (key = chars "username") then
    user ← strncpy user value (CFG_USERNAME - 1);
    Ok (VpnConfig addr port user auto maxr keep pong lvl)
  else if decide (key = chars "auto_reconnect") then
    Ok (VpnConfig addr port user (atoi value) maxr keep pong lvl)
  else if decide (key = chars "max_reconnect_attempts") then
    Ok (VpnConfig addr port user auto (atoi value) keep pong lvl)
  else if decide (key = chars "keepalive_interval") then
    Ok (VpnConfig addr port user auto maxr (atoi value) pong lvl)
  else if decide (key = chars "pong_timeout") then
    Ok (VpnConfig addr port user auto maxr keep (atoi value) lvl)
  else if decide (key = chars "log_level") then
    Ok (VpnConfig addr port user auto maxr keep pong (parse_log_level value))
  else Ok config.

(** The body of the loop; [line] is what fgets stored. *)
Definition config_line (config : vpn_config_t) (line : list Z) : res vpn_config_t :=
  let line := before 0 line in
  let line := before 35 line in
  let line := trim line in
  if decide (line = []) then Ok config
  else match strchr line 61 with
  | None => Ok config
  | Some value =>
      let key := before 61 line in
      apply_setting config (trim key) (trim value)
  end.

Fixpoint config_lines (config : vpn_config_t) (lines : list (list Z)) : res vpn_config_t :=
  match lines with
  | [] => Ok config
  | line :: lines => config ← config_line config line; config_lines config lines
  end.

(** [file]: the contents of the file, [None] when fopen fails. The result and the
    configuration the pointer refers to. *)
Definition config_load_from_file (config : vpn_config_t) (file : option (list Z)) :
    res (Z * vpn_config_t) :=
  match file with
  | None => Ok (-1, config)
  | Some file => config ← config_lines config (fgets_all [] file); Ok (0, config)
  end.

(** ** Lemmas on lines *)
Lemma before_app c l r : c ∉ l → before c (l ++ r) = l ++ before c r.
Proof.
  induction l as [|x l IH]; [done|]. rewrite not_elem_of_cons. intros [? ?]; simpl.
  rewrite decide_False by done. by rewrite IH.
Qed.

Lemma before_all c l : c ∉ l → before c l = l.
Proof. intros. rewrite <-(app_nil_r l) at 1. rewrite before_app by done. by rewrite app_nil_r. Qed.

Lemma before_hit c l r : c ∉ l → before c (l ++ c :: r) = l.
Proof. intros. rewrite before_app by done. simpl. by rewrite decide_True, app_nil_r. Qed.

Lemma strchr_hit c l r : c ∉ l → strchr (l ++ c :: r) c = Some r.
Proof.
  induction l as [|x l IH]; simpl; [by rewrite decide_True|].
  rewrite not_elem_of_cons. intros [? ?]. rewrite decide_False by done. auto.
Qed.

(** A text without white space at its ends. *)
Definition tight (l : list Z) : Prop := trim l = l.

Lemma skip_space_suffix l : ∃ p, l = p ++ skip_space l.
Proof.
  induction l as [|x l [p IH]]; [by exists []|]. simpl. destruct (isspace x); [|by exists []].
  exists (x :: p). simpl. by rewrite <-IH.
Qed.

Lemma skip_space_app x l r : isspace x = false → skip_space ((x :: l) ++ r) = (x :: l) ++ r.
Proof. intros E. simpl. by rewrite E. Qed.

Lemma skip_space_idem l : skip_space (skip_space l) = skip_space l.
Proof. induction l as [|x l IH]; [done|]. simpl. destruct (isspace x) eqn:E; [done|]. simpl. by rewrite E. Qed.

Lemma tight_rev_head l : tight l → skip_space (rev l) = rev l.
Proof.
  unfold tight, trim. intros <-. rewrite !rev_involutive. apply skip_space_idem.
Qed.

(** A line without leading white space whose last character is a newline. *)
Lemma trim_line x l v :
  isspace x = false → tight v →
  trim ((x :: l) ++ 61 :: v ++ [10]) = (x :: l) ++ 61 :: v.
Proof.
  intros Hx Hv. unfold trim. rewrite skip_space_app by done.
  replace (rev ((x :: l) ++ 61 :: v ++ [10])) with (10 :: rev v ++ 61 :: rev (x :: l)).
  2:{ rewrite rev_app_distr. simpl rev at 3. rewrite rev_app_distr. simpl rev at 2.
      by rewrite <-!app_assoc. }
  cbn [skip_space]. change (isspace 10) with true. cbn iota.
  apply tight_rev_head in Hv.
  assert (skip_space (rev v ++ 61 :: rev (x :: l)) = rev v ++ 61 :: rev (x :: l)) as ->.
  { destruct (rev v) as [|y r]; [done|]. cbn [skip_space] in Hv.
    destruct (isspace y) eqn:E; [|by apply skip_space_app].
    exfalso. destruct (skip_space_suffix r) as [p Hp]. rewrite Hv in Hp.
    apply (f_equal length) in Hp. rewrite length_app in Hp. simpl in Hp. lia. }
  rewrite rev_app_distr, rev_involutive. simpl rev. by rewrite rev_app_distr, rev_involutive, <-app_assoc.
Qed.

(** A value that can be written into a line of the file. *)
Definition plain (v : list Z) : Prop := (0 ∉ v) ∧ (10 ∉ v) ∧ (35 ∉ v) ∧ tight v.
(** A name of a setting. *)
Definition word (k : list Z) : Prop :=
  (0 ∉ k) ∧ (10 ∉ k) ∧ (35 ∉ k) ∧ (61 ∉ k) ∧ tight k ∧ ∃ x l, k = x :: l ∧ isspace x = false.

Definition setting_line (key value : list Z) : list Z := key ++ 61 :: value ++ [10].

Lemma config_line_setting config k v :
  word k → plain v → config_line config (setting_line k v) = apply_setting config k v.
Proof.
  intros (Hk0 & Hk10 & Hk35 & Hk61 & Hkt & x & l & -> & Hx) (Hv0 & Hv10 & Hv35 & Hvt).
  assert (∀ c, c ∉ x :: l → c ∉ v → c ≠ 61 → c ≠ 10 →
    before c (setting_line (x :: l) v) = setting_line (x :: l) v) as Hbefore.
  { intros c H1 H2 H3 H4. apply before_all. unfold setting_line.
    rewrite not_elem_of_app. split; [done|].
    by rewrite not_elem_of_cons, not_elem_of_app, list_elem_of_singleton. }
  unfold config_line. rewrite !Hbefore by done. unfold setting_line.
  rewrite trim_line by done. rewrite decide_False by done.
  rewrite strchr_hit, before_hit by done. by rewrite Hkt, Hvt.
Qed.

Lemma fgets_line line rest :
  10 ∉ line → (length line ≤ 510)%nat →
  fgets_all [] (line ++ 10 :: rest) = (line ++ [10]) :: fgets_all [] rest.
Proof.
  intros Hn Hl.
  assert (∀ cur, (length cur + length line ≤ 510)%nat →
    fgets_all cur (line ++ 10 :: rest) = (rev cur ++ line ++ [10]) :: fgets_all [] rest) as Hgen;
    [|by apply (Hgen [])].
  clear Hl. induction line as [|x line IH]; intros cur Hl; simpl.
  - done.
  - apply not_elem_of_cons in Hn as [? ?]. simpl in Hl. unfold CFG_LINE.
    rewrite decide_False by (intros [?|?]; [done|lia]).
    rewrite IH by (done || simpl; lia). simpl. by rewrite <-app_assoc.
Qed.

(** ** Decimal numbers *)
Fixpoint digits (fuel : nat) (n : Z) : list Z :=
  match fuel with
  | O => []
  | S fuel => if decide (n < 10) then [48 + n] else digits fuel (n `div` 10) ++ [48 + n `mod` 10]
  end.
(** The decimal representation of an int that is not negative. *)
Definition decimal (n : Z) : list Z := digits 10 n.

Lemma digits_chars fuel n : 0 ≤ n → Forall (λ c, 48 ≤ c ≤ 57) (digits fuel n).
Proof.
  revert n. induction fuel as [|fuel IH]; intros n Hn; simpl; [constructor|].
  case_decide; [repeat constructor; lia|]. apply Forall_app. split.
  - apply IH. apply Z.div_pos; lia.
  - pose proof (Z.mod_pos_bound n 10). repeat constructor; lia.
Qed.

Lemma digits_length fuel n : (length (digits fuel n) ≤ fuel)%nat.
Proof.
  revert n. induction fuel as [|fuel IH]; intros n; simpl; [lia|].
  case_decide; simpl; [lia|]. rewrite length_app. specialize (IH (n `div` 10)). simpl. lia.
Qed.

Lemma strtol_digits_app l d acc :
  Forall (λ c, 48 ≤ c ≤ 57) l → 0 ≤ d < 10 →
  strtol_digits acc (l ++ [48 + d]) = strtol_digits acc l * 10 + d.
Proof.
  intros Hl Hd. revert acc. induction Hl as [|x l Hx _ IH]; intros acc; simpl; unfold isdigit.
  - rewrite bool_decide_true by lia. lia.
  - rewrite bool_decide_true by done. apply IH.
Qed.

Lemma strtol_decimal fuel n : 0 ≤ n < 10 ^ Z.of_nat fuel → strtol_digits 0 (digits fuel n) = n.
Proof.
  revert n. induction fuel as [|fuel IH]; intros n Hn; simpl; [simpl in Hn; lia|].
  case_decide.
  - simpl. unfold isdigit. rewrite bool_decide_true by lia. lia.
  - rewrite Nat2Z.inj_succ, Z.pow_succ_r in Hn by lia.
    rewrite strtol_digits_app; [|apply digits_chars, Z.div_pos; lia|apply Z.mod_pos_bound; lia].
    rewrite IH; [pose proof (Z.div_mod n 10); lia|].
    split; [apply Z.div_pos; lia|apply Z.div_lt_upper_bound; lia].
Qed.

Lemma atoi_decimal n : 0 ≤ n < 2 ^ 31 → atoi (decimal n) = n.
Proof.
  intros Hn. unfold atoi, decimal.
  pose proof (digits_chars 10 n ltac:(lia)) as Hd.
  pose proof (strtol_decimal 10 n ltac:(lia)) as Hv.
  destruct (digits 10 n) as [|x l] eqn:E; [simpl in Hv; subst n; done|].
  apply Forall_cons in Hd as [Hx _]. cbn [skip_space].
  assert (isspace x = false) as -> by (unfold isspace; apply bool_decide_eq_false; lia).
  rewrite !decide_False by lia. rewrite Hv. unfold clamp64, i32.
  rewrite Z.min_l, Z.max_r by lia. rewrite Z.mod_small; lia.
Qed.

Lemma plain_digits l : Forall (λ c, 48 ≤ c ≤ 57) l → plain l.
Proof.
  intros Hl. rewrite Forall_forall in Hl.
  split_and!; try (by intros ?%Hl; lia). unfold tight, trim.
  assert (∀ l, (∀ c, c ∈ l → 48 ≤ c ≤ 57) → skip_space l = l) as Hs.
  { intros [|x l'] H'; [done|]. simpl.
    assert (isspace x = false) as ->; [|done].
    unfold isspace. apply bool_decide_eq_false. specialize (H' x (list_elem_of_here _ _)). lia. }
  rewrite (Hs l Hl). rewrite Hs; [apply rev_involutive|].
  intros c Hc. by apply Hl, list_elem_of_In, in_rev, list_elem_of_In.
Qed.

(** ** Strings in arrays *)
Lemma strncpy_run dst src n :
  0 ≤ n ≤ zlen dst →
  ∃ dst', strncpy dst src n = Ok dst' ∧ zlen dst' = zlen dst ∧
    (zlen src ≤ n → dst' = src ++ replicate (Z.to_nat n - length src) 0 ++ drop (Z.to_nat n) dst) ∧
    (n < zlen src → dst' = take (Z.to_nat n) src ++ drop (Z.to_nat n) dst).
Proof.
  intros Hn. set (t := take (Z.to_nat n) src).
  assert (length (t ++ replicate (Z.to_nat n - length t) 0) = Z.to_nat n) as Hl.
  { subst t. rewrite length_app, length_replicate, length_take. lia. }
  eexists. unfold strncpy. fold t. rewrite buf_write_0 by (unfold zlen in *; lia).
  split; [reflexivity|]. rewrite Hl. split_and!.
  - unfold zlen in *. rewrite length_app, Hl, length_drop. lia.
  - intros Hs. assert (t = src) as -> by (apply take_ge; unfold zlen in *; lia).
    by rewrite <-app_assoc.
  - intros Hs. assert (length t = Z.to_nat n) as -> by (subst t; rewrite length_take; unfold zlen in *; lia).
    by rewrite Nat.sub_diag, app_nil_r.
Qed.

(** A text that is shorter than the copied size is read back from the array. *)
Lemma c_string_strncpy dst src n dst' :
  0 ≤ n ≤ zlen dst → 0 ∉ src → zlen src < n → strncpy dst src n = Ok dst' →
  c_string dst' = Ok src.
Proof.
  intros Hn H0 Hs E. destruct (strncpy_run dst src n Hn) as (d & E' & _ & Hd & _).
  rewrite E' in E. injection E as <-. rewrite Hd by lia.
  destruct (Z.to_nat n - length src)%nat as [|k] eqn:Hk; [unfold zlen in *; lia|].
  cbn [replicate app]. unfold c_string. by rewrite strchr_hit, before_hit.
Qed.

(** ** Properties *)

(** What a configuration file sets. *)
Record settings := Settings {
  set_address : list Z; set_port : Z; set_username : list Z; set_auto : Z; set_max : Z;
  set_keepalive : Z; set_pong : Z; set_level : Z
}.
Definition wf_settings (x : settings) : Prop :=
  plain (set_address x) ∧ zlen (set_address x) ≤ 254 ∧ 0 ≤ set_port x < 65536 ∧
  plain (set_username x) ∧ zlen (set_username x) ≤ 62 ∧
  0 ≤ set_auto x < 2 ^ 31 ∧ 0 ≤ set_max x < 2 ^ 31 ∧ 0 ≤ set_keepalive x < 2 ^ 31 ∧
  0 ≤ set_pong x < 2 ^ 31 ∧ 0 ≤ set_level x < 2 ^ 31.

(** The lines of a file, one setting each. *)
Definition setting_values (x : settings) : list (list Z * list Z) :=
  [(chars "server_address", set_address x); (chars "server_port", decimal (set_port x));
   (chars "username", set_username x); (chars "auto_reconnect", decimal (set_auto x));
   (chars "max_reconnect_attempts", decimal (set_max x));
   (chars "keepalive_interval", decimal (set_keepalive x));
   (chars "pong_timeout", decimal (set_pong x)); (chars "log_level", decimal (set_level x))].
Definition config_file (x : settings) : list Z :=
  concat ((λ kv, setting_line kv.1 kv.2) <$> setting_values x).

(** The settings of a configuration, its arrays read as strings. *)
Definition config_settings (c : vpn_config_t) : res settings :=
  addr ← c_string (server_address c); user ← c_string (cfg_username c);
  Ok (Settings addr (server_port c) user (auto_reconnect c) (max_reconnect_attempts c)
               (keepalive_interval c) (pong_timeout c) (log_level c)).

Definition wf_config (c : vpn_config_t) : Prop :=
  zlen (server_address c) = CFG_ADDRESS ∧ zlen (cfg_username c) = CFG_USERNAME.

Lemma fgets_lines (l : list (list Z * list Z)) :
  Forall (λ kv, word kv.1 ∧ plain kv.2 ∧ (length kv.1 + length kv.2 ≤ 509)%nat) l →
  fgets_all [] (concat ((λ kv, setting_line kv.1 kv.2) <$> l)) =
  (λ kv, setting_line kv.1 kv.2) <$> l.
Proof.
  induction 1 as [|[k v] l ((_ & Hk & _) & (_ & Hv & _) & Hl) _ IH]; [done|].
  rewrite fmap_cons, concat_cons. simpl fst in *; simpl snd in *.
  unfold setting_line at 1 2.
  replace ((k ++ 61 :: v ++ [10]) ++ concat ((λ kv, setting_line kv.1 kv.2) <$> l))
    with ((k ++ 61 :: v) ++ 10 :: concat ((λ kv, setting_line kv.1 kv.2) <$> l))
    by (by rewrite <-!app_assoc; simpl; rewrite <-app_assoc).
  rewrite fgets_line, IH.
  - f_equal. by rewrite <-app_assoc.
  - rewrite not_elem_of_app, not_elem_of_cons. done.
  - rewrite length_app. simpl. lia.
Qed.

Lemma config_lines_settings config (l : list (list Z * list Z)) :
  Forall (λ kv, word kv.1 ∧ plain kv.2) l →
  config_lines config ((λ kv, setting_line kv.1 kv.2) <$> l) =
  foldl (λ c kv, c ← c; apply_setting c kv.1 kv.2) (Ok config) l.
Proof.
  revert config.
  assert (∀ l f, foldl (λ c (kv : list Z * list Z), c ← c; apply_setting c kv.1 kv.2) (Fault f) l = Fault f)
    as Hfault by (intros l' f; induction l'; done).
  intros config Hl. revert config. induction Hl as [|[k v] l [Hk Hv] _ IH]; intros config; [done|].
  rewrite fmap_cons. simpl. rewrite config_line_setting by done.
  destruct (apply_setting config k v) as [c|f]; simpl; [apply IH|by rewrite Hfault].
Qed.

Lemma setting_words :
  Forall word (chars <$> ["server_address"; "server_port"; "username"; "auto_reconnect";
    "max_reconnect_attempts"; "keepalive_interval"; "pong_timeout"; "log_level"]%string).
Proof.
  rewrite Forall_fmap. repeat (apply Forall_cons; split); try by apply Forall_nil.
  all: unfold compose, word; split_and!; [by apply (bool_decide_unpack _); vm_compute..|by vm_compute|].
  all: eexists _, _; split; vm_compute; reflexivity.
Qed.

Lemma setting_lines_ok x :
  wf_settings x →
  Forall (λ kv, word kv.1 ∧ plain kv.2 ∧ (length kv.1 + length kv.2 ≤ 509)%nat)
         (setting_values x).
Proof.
  intros (Hap & Hal & Hport & Hup & Hul & Hauto & Hmax & Hkeep & Hpong & Hlvl).
  pose proof setting_words as Hw. rewrite !Forall_fmap in Hw.
  repeat (apply Forall_cons in Hw as [? Hw]).
  assert (∀ k n, word k → (length k ≤ 400)%nat → 0 ≤ n →
    word k ∧ plain (decimal n) ∧ (length k + length (decimal n) ≤ 509)%nat) as Hd.
  { intros k n ? ? Hn. split_and!; [done|by apply plain_digits, digits_chars|].
    pose proof (digits_length 10 n). unfold decimal. lia. }
  unfold zlen in *. unfold setting_values.
  repeat (apply Forall_cons; split); try by apply Forall_nil; simpl fst; simpl snd.
  all: try (apply Hd; [done|by apply Nat.leb_le|lia]).
  all: split_and!; [done|done|]; simpl length; lia.
Qed.

(** One setting at a time. *)
Section settings.
Context (addr : list Z) (port : Z) (user : list Z) (auto maxr keep pong lvl : Z) (v : list Z).
Let config := VpnConfig addr port user auto maxr keep pong lvl.

Lemma apply_address :
  apply_setting config (chars "server_address") v =
  (addr ← strncpy addr v 255; Ok (VpnConfig addr port user auto maxr keep pong lvl)).
Proof. reflexivity. Qed.
Lemma apply_port :
  apply_setting config (chars "server_port") v =
  Ok (VpnConfig addr (u16 (atoi v)) user auto maxr keep pong lvl).
Proof. reflexivity. Qed.
Lemma apply_username :
  apply_setting config (chars "username") v =
  (user ← strncpy user v 63; Ok (VpnConfig addr port user auto maxr keep pong lvl)).
Proof. reflexivity. Qed.
Lemma apply_auto :
  apply_setting config (chars "auto_reconnect") v =
  Ok (VpnConfig addr port user (atoi v) maxr keep pong lvl).
Proof. reflexivity. Qed.
Lemma apply_max :
  apply_setting config (chars "max_reconnect_attempts") v =
  Ok (VpnConfig addr port user auto (atoi v) keep pong lvl).
Proof. reflexivity. Qed.
Lemma apply_keepalive :
  apply_setting config (chars "keepalive_interval") v =
  Ok (VpnConfig addr port user auto maxr (atoi v) pong lvl).
Proof. reflexivity. Qed.
Lemma apply_pong :
  apply_setting config (chars "pong_timeout") v =
  Ok (VpnConfig addr port user auto maxr keep (atoi v) lvl).
Proof. reflexivity. Qed.
Lemma apply_level :
  apply_setting config (chars "log_level") v =
  Ok (VpnConfig addr port user auto maxr keep pong (parse_log_level v)).
Proof. reflexivity. Qed.
End settings.

Lemma parse_level_decimal n : 0 ≤ n < 2 ^ 31 → parse_log_level (decimal n) = n.
Proof.
  intros Hn. unfold parse_log_level.
  assert (∀ s x l, chars s = x :: l → ¬ 48 ≤ x ≤ 57 → decimal n ≠ chars s) as Hne.
  { intros s x l -> Hx E. pose proof (digits_chars 10 n ltac:(lia)) as Hd. fold (decimal n) in Hd.
    rewrite E in Hd. by apply Forall_cons in Hd as [? _]. }
  rewrite !decide_False by (eapply Hne; [reflexivity|simpl; lia]). by apply atoi_decimal.
Qed.

(** (C26) Settings survive the configuration file: loading a file that sets every
    option into any configuration succeeds and yields exactly these settings
    (texts of at most 254 and 62 characters, without comment and newline characters
    and without white space at the ends; numbers that fit an int, and the port 16
    bits). *)
Theorem config_file_roundtrip config x :
  wf_config config → wf_settings x →
  ∃ c, config_load_from_file config (Some (config_file x)) = Ok (0, c) ∧ wf_config c ∧
    config_settings c = Ok x.
Proof.
  intros [Hca Hcu] Hx. pose proof (setting_lines_ok x Hx) as Hlines.
  destruct Hx as ((Ha0 & _) & Hal & Hport & (Hu0 & _) & Hul & Hauto & Hmax & Hkeep & Hpong & Hlvl).
  unfold config_load_from_file, config_file. rewrite fgets_lines by done.
  rewrite config_lines_settings by (eapply Forall_impl; [exact Hlines|naive_solver]).
  destruct config as [addr port user auto maxr keep pong lvl]. simpl in Hca, Hcu.
  autounfold with sizes in *.
  destruct (strncpy_run addr (set_address x) 255) as (addr' & Ea & Hal' & _); [lia|].
  destruct (strncpy_run user (set_username x) 63) as (user' & Eu & Hul' & _); [lia|].
  eexists (VpnConfig addr' (set_port x) user' (set_auto x) (set_max x) (set_keepalive x)
    (set_pong x) (set_level x)).
  split; [|split; [split; simpl; autounfold with sizes; lia|]].
  - unfold setting_values. cbn [foldl fst snd mbind res_bind].
    rewrite apply_address, Ea. cbn [mbind res_bind].
    rewrite apply_port, atoi_decimal by lia. cbn [mbind res_bind].
    rewrite apply_username, Eu. cbn [mbind res_bind].
    rewrite apply_auto, atoi_decimal by lia. cbn [mbind res_bind].
    rewrite apply_max, atoi_decimal by lia. cbn [mbind res_bind].
    rewrite apply_keepalive, atoi_decimal by lia. cbn [mbind res_bind].
    rewrite apply_pong, atoi_decimal by lia. cbn [mbind res_bind].
    rewrite apply_level, parse_level_decimal by lia. cbn [mbind res_bind].
    unfold u16. by rewrite Z.mod_small by lia.
  - unfold config_settings; simpl.
    rewrite (c_string_strncpy addr (set_address x) 255 addr' ltac:(lia) Ha0 ltac:(lia) Ea). simpl.
    rewrite (c_string_strncpy user (set_username x) 63 user' ltac:(lia) Hu0 ltac:(lia) Eu). simpl.
    by destruct x.
Qed.

Lemma strchr_none l c : c ∉ l → strchr l c = None.
Proof.
  induction l as [|x l IH]; [done|]. rewrite not_elem_of_cons. intros [? ?]. simpl.
  rewrite decide_False by done. auto.
Qed.

Section default.
Context `{Garbage}.

(** The configuration [config_create_default] returns, whatever malloc returned. *)
Lemma config_create_default_run :
  ∃ addr user, zlen addr = 255 ∧ zlen user = 63 ∧
    c_string addr = Ok (chars "127.0.0.1") ∧ c_string user = Ok (chars "vpn_user") ∧
    config_create_default true =
    Ok (Some (VpnConfig (addr ++ [garbage "config.server_address" 255]) 51820
                        (user ++ [garbage "config.username" 63]) 1 10 30 60 2)).
Proof.
  exists (chars "127.0.0.1" ++ replicate 246 0), (chars "vpn_user" ++ replicate 55 0).
  split_and!; [by vm_compute..|]. reflexivity.
Qed.

Lemma c_string_app b r s : c_string b = Ok s → c_string (b ++ r) = Ok s.
Proof.
  revert s. unfold c_string. induction b as [|x b IH]; intros s; simpl; [done|].
  case_decide; [done|]. destruct (strchr b 0) eqn:E; [|done]. intros [= <-].
  specialize (IH _ eq_refl). destruct (strchr (b ++ r) 0); [|done]. by injection IH as ->.
Qed.

(** The defaults do not depend on what the memory from malloc held: the
    new configuration has the documented default settings and arrays of the
    declared sizes, and a file that cannot be opened is reported and leaves it as
    it is. *)
Lemma default_settings :
  ∃ c, config_create_default true = Ok (Some c) ∧ wf_config c ∧
    config_settings c =
      Ok (Settings (chars "127.0.0.1") 51820 (chars "vpn_user") 1 10 30 60 2) ∧
    config_load_from_file c None = Ok (-1, c).
Proof.
  destruct config_create_default_run as (addr & user & Ha & Hu & Hsa & Hsu & E).
  eexists. split_and!; [exact E|split; simpl; zlen| |done].
  unfold config_settings; simpl. rewrite (c_string_app _ _ _ Hsa). simpl.
  by rewrite (c_string_app _ _ _ Hsu).
Qed.

(** A server address of 255 or more characters fills the copied part of the
    array and its last byte stays as malloc left it: unless that byte happens to be
    0 the address is not terminated, and reading it runs out of the array. *)
Lemma long_address_is_not_terminated v :
  plain v → 255 ≤ zlen v ≤ 490 → garbage "config.server_address" 255 ≠ 0 →
  ∃ c c', config_create_default true = Ok (Some c) ∧
    config_load_from_file c (Some (setting_line (chars "server_address") v)) = Ok (0, c') ∧
    config_settings c' = Fault Overread.
Proof.
  intros Hv Hlen Hg.
  destruct config_create_default_run as (addr & user & Ha & Hu & _ & _ & E).
  set (a := addr ++ [garbage "config.server_address" 255]).
  destruct (strncpy_run a v 255) as (a' & Ea & _ & Hle & Hgt); [subst a; zlen|].
  assert (a' = take 255 v ++ [garbage "config.server_address" 255]) as Ha'.
  { assert (drop (Z.to_nat 255) a = [garbage "config.server_address" 255]) as Hd
      by (apply drop_app_zlen; done).
    rewrite Hd in Hle, Hgt. destruct (decide (zlen v = 255)) as [Heq|]; [|apply Hgt; lia].
    rewrite Hle by lia. unfold zlen in Heq. replace (length v) with 255%nat by lia.
    rewrite take_ge by lia. done. }
  pose proof setting_words as Hw. rewrite Forall_fmap in Hw. apply Forall_cons in Hw as [Hw _].
  eexists _, _. split_and!; [exact E| |].
  - unfold config_load_from_file.
    pose proof (fgets_lines [(chars "server_address", v)]) as Hl.
    rewrite fmap_cons, fmap_nil, concat_cons, concat_nil, app_nil_r in Hl.
    cbn [fst snd] in Hl. rewrite Hl.
    + cbn [config_lines]. rewrite config_line_setting by done. rewrite apply_address.
      fold a. rewrite Ea. reflexivity.
    + apply Forall_cons. split; [|by apply Forall_nil]. split_and!; [done..|].
      unfold zlen in Hlen. simpl length. lia.
  - unfold config_settings; simpl. unfold c_string.
    rewrite Ha', (strchr_none (take 255 v ++ _)); [done|].
    rewrite not_elem_of_app, list_elem_of_singleton. split; [|done].
    destruct Hv as [Hv0 _]. intros Hin. apply Hv0.
    rewrite <-(take_drop 255 v). apply elem_of_app. by left.
Qed.
End default.

(** ** Instances of the properties *)
Definition demo_settings : settings :=
  Settings (chars "10.0.0.1") 4500 (chars "alice bob") 0 5 20 90 3.

Lemma demo_settings_ok : wf_settings demo_settings.
Proof.
  unfold wf_settings, plain. split_and!;
    solve [by apply (bool_decide_unpack _); vm_compute | by vm_compute].
Qed.

Lemma config_file_roundtrip_witness :
  let config := VpnConfig (replicate 256 7) 0 (replicate 64 7) 0 0 0 0 0 in
  ∃ c, config_load_from_file config (Some (config_file demo_settings)) = Ok (0, c) ∧
    wf_config c ∧ config_settings c = Ok demo_settings.
Proof. intros config. apply config_file_roundtrip; [done|apply demo_settings_ok]. Defined.

Example address_of_300_characters :
  ∃ c c', @config_create_default (λ _ _, 7) true = Ok (Some c) ∧
    config_load_from_file c (Some (setting_line (chars "server_address") (replicate 300 65))) =
      Ok (0, c') ∧ config_settings c' = Fault Overread.
Proof.
  apply (@long_address_is_not_terminated (λ _ _, 7)); [|by vm_compute|done].
  unfold plain. split_and!; solve [by apply (bool_decide_unpack _); vm_compute | by vm_compute].
Qed.
