(* ===== verification/Tun.v ===== *)
(** * File descriptors and the TUN device
    (include/tun_manager.h, src/server/tun_manager.c)

    Descriptors are numbered as they are opened, so a leak or a double close is
    visible in the set of open ones. Shell commands passed to system are recorded. *)

From S2P Require Import Prelude Os Config.

(** Whether the [k]-th call succeeds, and the exit status of the [k]-th command. *)
Class HostEnv := {
  env_open : nat → bool;       (** open, socket *)
  env_ioctl : nat → bool;
  env_attach : nat → bool;     (** bind, connect *)
  env_system : nat → Z
}.

Definition kind_host : HostEnv := {|
  env_open := λ _, true; env_ioctl := λ _, true; env_attach := λ _, true;
  env_system := λ _, 0
|}.

Record host := Host {
  next_fd : Z;
  open_fds : list Z;
  host_calls : nat;
  commands : list (list Z);
  devices : list (list Z);     (** TUN interfaces that were created *)
  bound : list sockaddr_in     (** addresses sockets were bound to *)
}.

Definition host_boot : host := Host 3 [] 0 [] [] [].

Definition TUN_CMD : nat := 256.
Definition IFNAMSIZ : Z := 16.

Section tun.
Context `{HostEnv}.

(** open or socket: a new descriptor, or -1. *)
Definition open_fd : M host Z := λ h,
  if env_open (host_calls h)
  then Ok (next_fd h, Host (next_fd h + 1) (next_fd h :: open_fds h) (S (host_calls h)) (commands h)
                            (devices h) (bound h))
  else Ok (-1, Host (next_fd h) (open_fds h) (S (host_calls h)) (commands h) (devices h) (bound h)).

Definition close (fd : Z) : M host () :=
  modify (λ h, Host (next_fd h) (filter (λ x, x ≠ fd) (open_fds h)) (host_calls h) (commands h)
                  (devices h) (bound h)).

(** ioctl(tun_fd, TUNSETIFF, &ifr) with the name in ifr. *)
Definition ioctl (ifr_name : list Z) : M host Z := λ h,
  let ok := env_ioctl (host_calls h) in
  Ok (if ok then 0 else -1,
      Host (next_fd h) (open_fds h) (S (host_calls h)) (commands h)
           (if ok then devices h ++ [before 0 ifr_name] else devices h) (bound h)).

Definition bind (addr : sockaddr_in) : M host Z := λ h,
  let ok := env_attach (host_calls h) in
  Ok (if ok then 0 else -1,
      Host (next_fd h) (open_fds h) (S (host_calls h)) (commands h) (devices h)
           (if ok then bound h ++ [addr] else bound h)).

Definition connect : M host Z := λ h,
  Ok (if env_attach (host_calls h) then 0 else -1,
      Host (next_fd h) (open_fds h) (S (host_calls h)) (commands h) (devices h) (bound h)).

Definition system (cmd : list Z) : M host Z := λ h,
  Ok (env_system (host_calls h),
      Host (next_fd h) (open_fds h) (S (host_calls h)) (commands h ++ [cmd]) (devices h) (bound h)).

(** snprintf(cmd, sizeof(cmd), ...) *)
Definition snprintf (text : list Z) : list Z := take (TUN_CMD - 1) text.

Definition create_tun_interface (dev_name : option (list Z)) : M host Z :=
  tun_fd ← open_fd;
  if decide (tun_fd < 0) then mret (-1) else
  let ifr_name := replicate 16 0 in
  ifr_name ← lift (match dev_name with
                   | Some name => strncpy ifr_name name (IFNAMSIZ - 1)
                   | None => Ok ifr_name
                   end);
  err ← ioctl ifr_name;
  if decide (err < 0) then _ ← close tun_fd; mret (-1)
  else mret tun_fd.

Definition configure_tun_ip (dev ip : list Z) (netmask : Z) : M host Z :=
  let cmd := snprintf (chars "ip addr add " ++ ip ++ chars "/" ++ decimal netmask ++
                       chars " dev " ++ dev) in
  ret ← system cmd;
  mret (if decide (ret ≠ 0) then -1 else 0).

Definition bring_tun_up (dev : list Z) : M host Z :=
  let cmd := snprintf (chars "ip link set " ++ dev ++ chars " up") in
  ret ← system cmd;
  mret (if decide (ret ≠ 0) then -1 else 0).
End tun.

(** ** Descriptors in use *)

(** Descriptors that were handed out and are open. *)
Definition wf_host (h : host) : Prop :=
  0 ≤ next_fd h ∧ Forall (λ fd, 0 ≤ fd < next_fd h) (open_fds h).

Section lemmas.
Context `{HostEnv}.

Lemma open_fd_run h :
  wf_host h →
  ∃ fd h', open_fd h = Ok (fd, h') ∧ wf_host h' ∧ commands h' = commands h ∧
    next_fd h ≤ next_fd h' ∧
    ((fd = -1 ∧ open_fds h' = open_fds h) ∨
     (0 ≤ fd ∧ (fd ∉ open_fds h) ∧ open_fds h' = fd :: open_fds h)).
Proof.
  intros [Hn Hf]. unfold open_fd. destruct (env_open _).
  - eexists _, _. split; [reflexivity|]. split_and!; simpl; try done; [|lia|].
    + split; simpl; [lia|]. apply Forall_cons. split; [lia|].
      eapply Forall_impl; [exact Hf|]. simpl. lia.
    + right. split_and!; [done| |done]. intros Hin. rewrite Forall_forall in Hf.
      specialize (Hf _ Hin). lia.
  - eexists _, _. split; [reflexivity|]. split_and!; try done. by left.
Qed.

Lemma close_wf fd h : wf_host h → ∃ h', close fd h = Ok ((), h') ∧ wf_host h' ∧
  commands h' = commands h ∧ open_fds h' = filter (λ x, x ≠ fd) (open_fds h).
Proof.
  intros [Hn Hf]. eexists. split; [reflexivity|]. split_and!; simpl; try done.
  split; simpl; [done|]. apply Forall_forall. intros x [_ Hx]%list_elem_of_filter.
  by apply (proj1 (Forall_forall _ _) Hf).
Qed.

Lemma close_perm fd l h :
  wf_host h → NoDup (open_fds h) → open_fds h ≡ₚ fd :: l →
  ∃ h', close fd h = Ok ((), h') ∧ wf_host h' ∧ NoDup (open_fds h') ∧ open_fds h' ≡ₚ l.
Proof.
  intros Hh Hnd Hp. destruct (close_wf fd h Hh) as (h' & E & Hh' & _ & Ho).
  exists h'. split_and!; [done|done|rewrite Ho; by apply NoDup_filter|].
  rewrite Ho, Hp. rewrite Hp in Hnd. apply NoDup_cons in Hnd as [? _].
  rewrite filter_cons_False by auto. by rewrite filter_fresh.
Qed.

Lemma tun_name_ok (dev : option (list Z)) :
  ∃ name, match dev with
          | Some name => strncpy (replicate 16 0) name (IFNAMSIZ - 1)
          | None => Ok (replicate 16 0)
          end = Ok name.
Proof.
  destruct dev as [d|]; [|by eexists].
  destruct (strncpy_run (replicate 16 0) d 15) as (name & E & _); [done|]. by exists name.
Qed.

(** Code that opens a descriptor, or fails and leaves none open. *)
Definition opens (m : M host Z) : Prop :=
  ∀ h, wf_host h → ∃ fd h', m h = Ok (fd, h') ∧ wf_host h' ∧
    ((fd = -1 ∧ open_fds h' = open_fds h) ∨
     (0 ≤ fd ∧ (fd ∉ open_fds h) ∧ open_fds h' = fd :: open_fds h)).

(** The pattern of the code: open, then a call that must succeed. *)
Lemma open_then (call : M host Z) :
  (∀ h, ∃ r h', call h = Ok (r, h') ∧ open_fds h' = open_fds h ∧ next_fd h' = next_fd h) →
  opens (fd ← open_fd;
         if decide (fd < 0) then mret (-1)
         else r ← call; if decide (r < 0) then _ ← close fd; mret (-1) else mret fd).
Proof.
  intros Hcall h Hh. destruct (open_fd_run h Hh) as (fd & h1 & E & Hh1 & _ & _ & Ho).
  rewrite (run_bind_ok _ _ _ _ _ E).
  destruct Ho as [[-> Ho]|(Hfd & Hnew & Ho)].
  { rewrite decide_True by lia. exists (-1), h1. split_and!; auto. }
  rewrite decide_False by lia. destruct (Hcall h1) as (r & h2 & E2 & Eo & En).
  rewrite (run_bind_ok _ _ _ _ _ E2).
  assert (wf_host h2) as Hh2 by (destruct Hh1; split; by rewrite ?Eo, ?En).
  destruct (decide (r < 0)).
  - destruct (close_wf fd h2 Hh2) as (h3 & E3 & Hh3 & _ & Ho3).
    rewrite (run_bind_ok _ _ _ _ _ E3). exists (-1), h3. split_and!; [done..|].
    left. split; [done|]. rewrite Ho3, Eo, Ho, filter_cons_False by auto. by apply filter_fresh.
  - exists fd, h2. rewrite Eo. split_and!; [done..|by right].
Qed.

(** A failing [create_tun_interface] leaves no descriptor open. *)
Lemma create_tun_interface_run dev h :
  wf_host h →
  ∃ fd h', create_tun_interface dev h = Ok (fd, h') ∧ wf_host h' ∧ commands h' = commands h ∧
    ((fd = -1 ∧ open_fds h' = open_fds h) ∨
     (0 ≤ fd ∧ (fd ∉ open_fds h) ∧ open_fds h' = fd :: open_fds h)).
Proof.
  intros Hh. destruct (open_fd_run h Hh) as (fd & h1 & E & Hh1 & Hc & _ & Ho).
  unfold create_tun_interface. rewrite (run_bind_ok _ _ _ _ _ E).
  destruct Ho as [[-> Ho]|(Hfd & Hnew & Ho)].
  { rewrite decide_True by lia. exists (-1), h1. split_and!; auto. }
  rewrite decide_False by lia. destruct (tun_name_ok dev) as [name ->].
  rewrite run_bind, run_lift. cbn iota beta. rewrite run_bind. unfold ioctl.
  destruct (env_ioctl _).
  - rewrite decide_False by lia. eexists fd, _. split; [reflexivity|]. split_and!; auto.
  - rewrite decide_True by lia. eexists (-1), _. split; [reflexivity|].
    destruct (close_wf fd _ Hh1) as (h2 & E2 & Hh2 & Hc2 & Ho2). injection E2 as <-.
    split_and!; simpl; auto.
    left. split; [done|]. rewrite Ho, filter_cons_False by auto. by apply filter_fresh.
Qed.
End lemmas.

(** ** The descriptors a program holds *)

(** The open descriptors are [fds], each open once. *)
Record holds (fds : list Z) (h : host) : Prop := Holds {
  hd_wf : wf_host h;
  hd_nodup : NoDup (open_fds h);
  hd_fds : open_fds h ≡ₚ fds
}.
#[global] Instance holds_proper : Proper ((≡ₚ) ==> eq ==> iff) holds.
Proof. intros l l' Hl h h' <-. split; intros [? ? Hp]; (split; [done..|]); by rewrite Hp, ?Hl. Qed.

Lemma holds_nothing h : holds [] h → open_fds h = [].
Proof. intros [_ _ Hp]. by apply Permutation_nil_r in Hp. Qed.

Lemma holds_boot : holds [] host_boot.
Proof. split; [by repeat constructor|by apply NoDup_nil|done]. Qed.

Lemma holds_close fd fds h :
  holds (fd :: fds) h → ∃ h', close fd h = Ok ((), h') ∧ holds fds h'.
Proof.
  intros [Hh Hnd Hp]. destruct (close_perm fd fds _ Hh Hnd Hp) as (h' & E & ? & ? & ?).
  by exists h'.
Qed.

Lemma holds_open m fds h :
  opens m → holds fds h →
  ∃ fd h', m h = Ok (fd, h') ∧ ((fd < 0 ∧ holds fds h') ∨ (0 ≤ fd ∧ holds (fd :: fds) h')).
Proof.
  intros Hm [Hh Hnd Hp]. destruct (Hm _ Hh) as (fd & h' & E & Hh' & Ho).
  exists fd, h'. split; [done|].
  destruct Ho as [[-> Ho]|(Hfd & Hnew & Ho)]; [left|right]; (split; [done|]);
    (split; [done|..]); rewrite Ho; [done|done|by apply NoDup_cons|by rewrite Hp].
Qed.

Lemma holds_same fds h h' :
  open_fds h' = open_fds h → next_fd h' = next_fd h → holds fds h → holds fds h'.
Proof.
  intros Eo En [[Hn Hf] Hnd Hp]. split; rewrite ?Eo; try done. split; by rewrite ?Eo, ?En.
Qed.

Lemma open_fd_opens `{HostEnv} : opens open_fd.
Proof.
  intros h Hh. destruct (open_fd_run h Hh) as (fd & h' & ? & ? & _ & _ & ?). by exists fd, h'.
Qed.
