(* ===== verification/EnclaveMain.v ===== *)
(** * The enclave program: main of src/enclave/enclave_main.c

    Start-up (security settings, key manager, listening socket), the two nested loops and
    cleanup. The loops run over what happens at the sockets: [conn_event]s while a client
    is connected, [listen_event]s otherwise. A program whose list of events is used up
    waits in select; its result is then [None]. *)

From S2P Require Import Prelude Os Crypto ToySodium IpcProtocol KeyManager Enclave Config Tun.

Definition IPC_SOCKET_PATH : list Z := chars "/tmp/vpn-enclave.sock".
Definition SUN_PATH : nat := 108.

(** Whether the calls succeed, and the key pair that is drawn. *)
Class EnclaveEnv := {
  env_setrlimit : bool;
  env_mlockall : bool;
  env_madvise : bool;
  env_unix_bind : bool;
  env_listen : bool;
  env_km_malloc : bool;
  env_keypair : nat
}.

(** [x_files]: the socket files in the file system; [x_core_limit]: RLIMIT_CORE, if it was
    set; [x_undumpable]: the ranges of memory that were taken out of core dumps;
    [x_enclave]: the key manager and the connection, once the key manager exists;
    [x_heap]: the allocated memory. *)
Record emain := EMain {
  x_host : host;
  x_files : list (list Z);
  x_core_limit : option Z;
  x_locked : bool;
  x_undumpable : list (Z * Z);
  x_enclave : option enclave;
  x_heap : heap
}.

Definition set_x_host (h : host) (s : emain) : emain :=
  EMain h (x_files s) (x_core_limit s) (x_locked s) (x_undumpable s) (x_enclave s)
    (x_heap s).
Definition set_x_files (f : list (list Z)) (s : emain) : emain :=
  EMain (x_host s) f (x_core_limit s) (x_locked s) (x_undumpable s) (x_enclave s)
    (x_heap s).
Definition set_x_enclave (e : enclave) (s : emain) : emain :=
  EMain (x_host s) (x_files s) (x_core_limit s) (x_locked s) (x_undumpable s) (Some e)
    (x_heap s).
Definition set_x_heap (h : heap) (s : emain) : emain :=
  EMain (x_host s) (x_files s) (x_core_limit s) (x_locked s) (x_undumpable s) (x_enclave s) h.

(** What happens while a client is connected. A signal comes between two turns: one that
    comes in the middle of a turn only sets the flag, which the turn does not read
    ([turn_signalled]), and is taken for one right after it. *)
Inductive conn_event :=
| ClientSilent              (** select on the client socket times out or fails *)
| ClientReadable            (** it reports the client socket *)
| ClientSends (d : list Z)
| ClientCloses
| ClientSignal.             (** SIGINT or SIGTERM arrives *)

(** What happens while the program waits for clients. *)
Inductive listen_event :=
| NobodyThere
| ListenFails               (** select on the listening socket fails *)
| ConnectionThere (conn : list conn_event)
| ListenSignal.

Section program.
Context `{Sodium, Garbage, HostEnv, EnclaveEnv}.

Definition on_x_host {A} (m : M host A) : M emain A := zoom x_host set_x_host m.
Definition on_x_heap {A} (m : M heap A) : M emain A := zoom x_heap set_x_heap m.

(** Code that works on the key manager or the connection. *)
Definition on_x_enclave {A} (m : M enclave A) : M emain A :=
  p ← gets x_enclave;
  e ← lift (deref p);
  '(a, e) ← lift (m e);
  _ ← modify (set_x_enclave e);
  mret a.

Definition unlink (path : list Z) : M emain () :=
  modify (λ s, set_x_files (filter (λ f, f ≠ path) (x_files s)) s).

Definition enclave_signal_handler : M emain () := on_x_enclave (modify (set_running false)).

Definition setup_memory_security : M emain Z :=
  _ ← modify (λ s, EMain (x_host s) (x_files s) (x_core_limit s)
                         (x_locked s || env_mlockall) (x_undumpable s) (x_enclave s) (x_heap s));
  _ ← modify (λ s, EMain (x_host s) (x_files s) (x_core_limit s) (x_locked s)
                         (if env_madvise then x_undumpable s ++ [(0, 0)] else x_undumpable s)
                         (x_enclave s) (x_heap s));
  mret 0.

Definition disable_core_dumps : M emain Z :=
  if env_setrlimit then
    _ ← modify (λ s, EMain (x_host s) (x_files s) (Some 0) (x_locked s) (x_undumpable s)
                           (x_enclave s) (x_heap s));
    mret 0
  else mret (-1).

Definition setup_seccomp_filter : M emain Z := mret 0.

(** bind to a path: the socket appears in the file system. *)
Definition bind_unix (sun_path : list Z) : M emain Z := λ s,
  if env_unix_bind then Ok (0, set_x_files (before 0 sun_path :: x_files s) s) else Ok (-1, s).

Definition create_unix_socket_server (socket_path : list Z) : M emain Z :=
  _ ← unlink socket_path;
  sock_fd ← on_x_host open_fd;
  if decide (sock_fd < 0) then mret (-1)
  else
    sun_path ← lift (strncpy (replicate SUN_PATH 0) socket_path (Z.of_nat SUN_PATH - 1));
    r ← bind_unix sun_path;
    if decide (r < 0) then _ ← on_x_host (close sock_fd); mret (-1)
    else if env_listen then mret sock_fd
    else _ ← on_x_host (close sock_fd); mret (-1).

(** The buffers of [handle_ipc_request], as every call finds them. *)
Definition serve_request : M enclave () :=
  handle_ipc_request (local "request_buffer" REQUEST_BUFFER) (local "response_data" RESPONSE_DATA).

Definition connection_turn (ev : conn_event) : M emain () :=
  match ev with
  | ClientSilent => mret ()
  | ClientReadable =>
      on_x_enclave (e ← gets (λ e, e);
                    if decide (e_in e = [] ∧ e_eof e = false) then mret () else serve_request)
  | ClientSends d =>
      on_x_enclave (modify (λ e, if e_eof e then e else set_in (e_in e ++ d) e))
  | ClientCloses =>
      on_x_enclave (modify (λ e, Enclave (e_km e) (Enclave.enclave_running e) (e_rng e) (e_in e)
                                         (e_out e) true))
  | ClientSignal => enclave_signal_handler
  end.

(** close(client_fd): what the socket still held is gone with it. *)
Definition close_client (client_fd : Z) : M emain () :=
  _ ← on_x_host (close client_fd); on_x_enclave (modify fresh_connection).

Definition is_running : M emain bool := on_x_enclave (gets Enclave.enclave_running).

(** The inner loop; [false]: it waits for more to happen. *)
Fixpoint serve_client (evs : list conn_event) : M emain bool :=
  running ← is_running;
  if negb running then mret true
  else match evs with
  | [] => mret false
  | ev :: evs => _ ← connection_turn ev; serve_client evs
  end.

(** The outer loop; [false]: it waits for more to happen. *)
Fixpoint accept_loop (evs : list listen_event) : M emain bool :=
  running ← is_running;
  if negb running then mret true
  else match evs with
  | [] => mret false
  | NobodyThere :: evs => accept_loop evs
  | ListenFails :: _ => mret true
  | ListenSignal :: evs => _ ← enclave_signal_handler; accept_loop evs
  | ConnectionThere conn :: evs =>
      client_fd ← on_x_host open_fd;
      if decide (client_fd < 0) then accept_loop evs
      else
        _ ← on_x_enclave (modify fresh_connection);
        left ← serve_client conn;
        if (left : bool) then _ ← close_client client_fd; accept_loop evs
        else mret false
  end.

(** destroy_key_manager(km) *)
Definition wipe_and_free (km : Z) : M emain () :=
  _ ← on_x_enclave (modify shut_down); on_x_heap (free km).

(** [running]: the flag when the loop is reached (a signal may come before). The result is
    the exit code, or [None] while the program waits. *)
Definition enclave_main (running : bool) (evs : list listen_event) : M emain (option Z) :=
  _ ← disable_core_dumps;
  _ ← setup_memory_security;
  _ ← setup_seccomp_filter;
  if decide (crypto_init ≠ 0) then mret (Some 1)
  else
  r ← on_x_heap (new_key_manager env_km_malloc env_keypair);
  match r with
  | None => mret (Some 1)
  | Some (p, km) =>
      _ ← modify (set_x_enclave (Enclave km running 0 [] [] false));
      sock_fd ← create_unix_socket_server IPC_SOCKET_PATH;
      if decide (sock_fd < 0) then _ ← wipe_and_free p; mret (Some 1)
      else
        left ← accept_loop evs;
        if (left : bool) then
          _ ← on_x_host (close sock_fd);
          _ ← unlink IPC_SOCKET_PATH;
          _ ← wipe_and_free p;
          mret (Some 0)
        else mret None
  end.
End program.

(** The program as it starts: nothing is open, the file system is [files]. *)
Definition emain_boot (files : list (list Z)) : emain := EMain host_boot files None false [] None heap_boot.

(** ** The loops follow the step relation of Enclave.v *)
Section loops.
Context `{Sodium, Garbage, HostEnv, EnclaveEnv}.
Implicit Types s : emain.

Lemma run_on_x_enclave {A} (m : M enclave A) e s :
  on_x_enclave m (set_x_enclave e s) =
  match m e with Ok (a, e') => Ok (a, set_x_enclave e' s) | Fault f => Fault f end.
Proof.
  unfold on_x_enclave. rewrite run_bind, run_gets. cbn [x_enclave set_x_enclave deref].
  rewrite run_bind, run_lift, run_bind. by destruct (m e) as [[a e']|].
Qed.

(** The state after a stretch of the program, which is one of the process. *)
Definition follows (p : proc) s (a : bool) s' : Prop :=
  ∃ tr e', s' = set_x_enclave e' s ∧ enclave_steps tr p (Proc (p_phase p) e') ∧
    enclave_running e' = negb a.

(** A turn ends with the same state, whether a signal comes before it or after it. *)
Lemma turn_signalled ev e s :
  (_ ← enclave_signal_handler; connection_turn ev) (set_x_enclave e s) =
  (_ ← connection_turn ev; enclave_signal_handler) (set_x_enclave e s).
Proof.
  unfold enclave_signal_handler. rewrite !run_bind, run_on_x_enclave, run_modify.
  destruct ev; cbn [connection_turn]; try (rewrite !run_on_x_enclave, !run_modify).
  - by rewrite !run_ret, run_on_x_enclave.
  - rewrite !run_on_x_enclave, !run_bind, !run_gets. cbn [e_in e_eof set_running].
    case_decide; [by rewrite !run_ret, run_on_x_enclave|].
    unfold serve_request. rewrite handle_ipc_request_signalled.
    destruct (handle_ipc_request _ _ e) as [[[] e']|f]; [|done].
    by rewrite run_on_x_enclave, run_modify.
  - cbn [e_eof set_running]. by destruct (e_eof e); rewrite ?run_on_x_enclave.
  - by rewrite ?run_on_x_enclave.
  - by rewrite ?run_on_x_enclave.
Qed.

(** How the program may be killed: a buffer is overrun, or a client that satisfies [closed]
    is answered. *)
Definition killed (closed : Prop) (f : fault) : Prop := f = Overrun ∨ (f = SigPipe ∧ closed).

Lemma killed_mono (P Q : Prop) {S A} (r : res (A * S)) R :
  (P → Q) → except (killed P) r R → except (killed Q) r R.
Proof. intros HPQ. apply except_mono. unfold killed. naive_solver. Qed.

Lemma connection_turn_steps ev e s :
  enclave_running e = true →
  except (killed (e_eof e = true)) (connection_turn ev (set_x_enclave e s))
    (λ _ s', ∃ tr e', s' = set_x_enclave e' s ∧ enclave_steps tr (Proc Serving e) (Proc Serving e') ∧
       (e_eof e' = true → e_eof e = true ∨ ev = ClientCloses)).
Proof.
  intros Hr. destruct ev; cbn [connection_turn].
  - exists [EvTimeout], e. split; [done|]. split; [by apply steps_one, step_client_idle|by left].
  - rewrite run_on_x_enclave, run_bind, run_gets. case_decide as Hd.
    { exists [EvTimeout], e. split; [done|]. split; [by apply steps_one, step_client_idle|by left]. }
    pose proof (handle_ipc_request_faults (local "request_buffer" REQUEST_BUFFER)
      (local "response_data" RESPONSE_DATA) e) as Hx. fold serve_request in Hx.
    unfold except in Hx. destruct (serve_request e) as [[u e']|f] eqn:E; [|exact Hx].
    exists [EvRequest], e'. split; [done|]. destruct u.
    split; [|left; unfold same_eof in Hx; congruence].
    eapply steps_one, step_request; [done| | | |exact E]; try by apply zlen_local.
    destruct (e_in e); [right|by left]. destruct (e_eof e); [done|]. by destruct Hd.
  - rewrite run_on_x_enclave, run_modify. destruct (e_eof e) eqn:He.
    + exists [], e. split; [done|]. split; [apply steps_nil|by left].
    + eexists [EvDeliver d], _. split; [done|].
      split; [by apply steps_one, step_deliver|cbn; congruence].
  - rewrite run_on_x_enclave, run_modify. eexists [EvClose], _. split; [done|].
    split; [apply steps_one, step_close|by right].
  - unfold enclave_signal_handler. rewrite run_on_x_enclave, run_modify.
    eexists [EvSignal], _. split; [done|]. split; [by apply steps_one, step_signal|by left].
Qed.

Lemma run_is_running e s :
  is_running (set_x_enclave e s) = Ok (enclave_running e, set_x_enclave e s).
Proof. unfold is_running. by rewrite run_on_x_enclave, run_gets. Qed.

Lemma serve_client_steps evs e s :
  except (killed (e_eof e = true ∨ ClientCloses ∈ evs)) (serve_client evs (set_x_enclave e s))
    (follows (Proc Serving e) s).
Proof.
  revert e. induction evs as [|ev evs IH]; intros e; cbn [serve_client];
    rewrite (run_bind_ok _ _ _ _ _ (run_is_running e s));
    (destruct (enclave_running e) eqn:Hr; cbn [negb];
     [|exists [], e; split; [done|split; [apply steps_nil|done]]]).
  - exists [], e. split; [done|split; [apply steps_nil|done]].
  - eapply except_bind; [eapply killed_mono; [|by apply connection_turn_steps]; by left|].
    intros _ s' (tr & e' & -> & Htr & He').
    eapply except_weaken; [eapply killed_mono; [|apply IH]|].
    { intros [[?| ->]%He'|?]; [by left|right; by left|right; by right]. }
    intros a s' (tr' & e2 & -> & Htr' & Ha).
    exists (tr ++ tr'), e2. split; [done|]. split; [by eapply steps_app|done].
Qed.

Lemma run_on_x_host {A} (m : M host A) e s a h :
  m (x_host s) = Ok (a, h) →
  on_x_host m (set_x_enclave e s) = Ok (a, set_x_enclave e (set_x_host h s)).
Proof. intros E. unfold on_x_host. rewrite run_zoom. cbn [x_host set_x_enclave]. by rewrite E. Qed.

(** Where the outer loop stands: it was left and the process ends, or the program waits for
    a connection or in one. *)
Definition accepted (fds : list Z) e s (left : bool) s' : Prop :=
  ∃ tr e' h, s' = set_x_enclave e' (set_x_host h s) ∧
    if left then holds fds h ∧ enclave_steps tr (Proc Accepting e) (Proc Stopped (shut_down e'))
    else enclave_running e' = true ∧
         ((holds fds h ∧ enclave_steps tr (Proc Accepting e) (Proc Accepting e')) ∨
          ∃ fd, holds (fd :: fds) h ∧ enclave_steps tr (Proc Accepting e) (Proc Serving e')).

Lemma accepted_later fds tr e e1 s h left s' :
  enclave_steps tr (Proc Accepting e) (Proc Accepting e1) →
  accepted fds e1 (set_x_host h s) left s' → accepted fds e s left s'.
Proof.
  intros Htr (tr' & e' & h' & -> & Hl). exists (tr ++ tr'), e', h'. split; [done|].
  destruct left; [|destruct Hl as [Hr [[Hh Hs]|(fd & Hh & Hs)]]; (split; [done|])].
  - destruct Hl as [Hh Hs]. split; [done|by eapply steps_app].
  - left. split; [done|by eapply steps_app].
  - right. exists fd. split; [done|by eapply steps_app].
Qed.

(** Some client closes its connection. *)
Definition hangs_up (evs : list listen_event) : Prop :=
  ∃ conn, ConnectionThere conn ∈ evs ∧ ClientCloses ∈ conn.

Lemma hangs_up_later ev evs : hangs_up evs → hangs_up (ev :: evs).
Proof. intros (conn & ? & ?). exists conn. split; [by right|done]. Qed.

Lemma accept_loop_steps fds evs e s :
  holds fds (x_host s) →
  except (killed (hangs_up evs)) (accept_loop evs (set_x_enclave e s)) (accepted fds e s).
Proof.
  revert e s. induction evs as [|ev evs IH]; intros e s Hh; cbn [accept_loop];
    rewrite (run_bind_ok _ _ _ _ _ (run_is_running e s));
    (destruct (enclave_running e) eqn:Hr; cbn [negb];
     [|exists [EvLeave], e, (x_host s); split; [done|split; [done|by apply steps_one, step_leave]]]).
  { exists [], e, (x_host s). split; [done|]. split; [done|]. left. split; [done|apply steps_nil]. }
  assert (∀ tr e1 h, enclave_steps tr (Proc Accepting e) (Proc Accepting e1) → holds fds h →
    except (killed (hangs_up (ev :: evs))) (accept_loop evs (set_x_enclave e1 (set_x_host h s)))
      (accepted fds e s)) as Hgo.
  { intros tr e1 h Htr Hh1. eapply except_weaken;
      [eapply killed_mono; [apply hangs_up_later|by apply IH]|]. intros left s'.
    by apply accepted_later with (tr := tr). }
  destruct ev as [| |conn|].
  - apply (Hgo [EvTimeout] e (x_host s)); [by apply steps_one, step_timeout|done].
  - exists [EvSelectError], e, (x_host s). split; [done|]. split; [done|].
    by apply steps_one, step_select_error.
  - destruct (holds_open _ fds (x_host s) open_fd_opens Hh) as (fd & h1 & E1 & Hh1).
    rewrite (run_bind_ok _ _ _ _ _ (run_on_x_host _ e s _ _ E1)).
    destruct Hh1 as [[Hfd Hh1]|[Hfd Hh1]].
    { rewrite decide_True by done. apply (Hgo [EvAcceptError]); [by apply steps_one, step_accept_error|done]. }
    rewrite decide_False by lia. rewrite run_bind, run_on_x_enclave, run_modify.
    eapply except_bind; [eapply killed_mono; [|apply serve_client_steps]|].
    { intros [?|?]; [done|]. exists conn. split; [by left|done]. }
    intros left s' (tr & e' & -> & Htr & Hrun). cbn [p_phase] in Htr.
    assert (enclave_steps (EvAccept :: tr) (Proc Accepting e) (Proc Serving e')) as Htr'.
    { eapply steps_cons; [by apply step_accept|done]. }
    destruct left; cbn [negb] in Hrun; cycle 1.
    { exists (EvAccept :: tr), e', h1. split; [done|]. split; [done|]. right. by exists fd. }
    destruct (holds_close fd fds h1 Hh1) as (h2 & E2 & Hh2). unfold close_client.
    rewrite run_bind, (run_bind_ok _ _ _ _ _ (run_on_x_host (close fd) e' (set_x_host h1 s) _ _ E2)).
    rewrite run_on_x_enclave, run_modify.
    apply (Hgo ((EvAccept :: tr) ++ [EvLeave]) (fresh_connection e') h2); [|done].
    eapply steps_app; [exact Htr'|]. by apply steps_one, step_client_leave.
  - unfold enclave_signal_handler. rewrite run_bind, run_on_x_enclave, run_modify.
    apply (Hgo [EvSignal] (set_running false e) (x_host s)); [by apply steps_one, step_signal|done].
Qed.
End loops.

(** ** The program *)
Section claims.
Context `{Sodium, Garbage, HostEnv, EnclaveEnv}.
Implicit Types s : emain.

(** [create_unix_socket_server] opens one descriptor and leaves the socket file, or fails
    with everything closed. *)
Lemma create_unix_socket_server_run e s :
  holds [] (x_host s) →
  ∃ fd h files, create_unix_socket_server IPC_SOCKET_PATH (set_x_enclave e s) =
      Ok (fd, set_x_enclave e (set_x_files files (set_x_host h s))) ∧
    ((fd < 0 ∧ holds [] h ∧
      ¬ (env_open (host_calls (x_host s)) = true ∧ env_unix_bind = true ∧ env_listen = true)) ∨
     (0 ≤ fd ∧ holds [fd] h)).
Proof.
  intros Hh. unfold create_unix_socket_server, unlink. rewrite run_bind, run_modify.
  set (s1 := set_x_files _ _).
  destruct (holds_open _ [] (x_host s) open_fd_opens Hh) as (fd & h1 & E1 & Hh1).
  assert (on_x_host open_fd s1 = Ok (fd, set_x_host h1 s1)) as E2.
  { unfold on_x_host. rewrite run_zoom. cbn [x_host s1 set_x_files set_x_enclave]. by rewrite E1. }
  rewrite (run_bind_ok _ _ _ _ _ E2). destruct Hh1 as [[Hfd Hh1]|[Hfd Hh1]].
  { rewrite decide_True by done. exists (-1), h1. eexists. split; [reflexivity|]. left.
    split; [done|]. split; [done|]. intros [Ho _]. unfold open_fd in E1. rewrite Ho in E1.
    injection E1 as <- _. assert (0 ≤ next_fd (x_host s)) by apply Hh. lia. }
  rewrite decide_False by lia.
  destruct (strncpy_run (replicate SUN_PATH 0) IPC_SOCKET_PATH (Z.of_nat SUN_PATH - 1))
    as (path & -> & _); [done|].
  rewrite run_bind, run_lift. cbn iota beta.
  destruct (holds_close fd [] h1 Hh1) as (h2 & E3 & Hh2).
  assert (∀ files, on_x_host (close fd) (set_x_files files (set_x_host h1 s1)) =
                   Ok ((), set_x_files files (set_x_host h2 s1))) as E4.
  { intros files. unfold on_x_host. rewrite run_zoom. cbn [x_host set_x_files set_x_host]. by rewrite E3. }
  rewrite run_bind. unfold bind_unix. destruct env_unix_bind.
  - rewrite decide_False by lia. destruct env_listen.
    + eexists fd, h1, _. split; [reflexivity|]. right. by split.
    + rewrite (run_bind_ok _ _ _ _ _ (E4 _)). eexists (-1), h2, _. split; [reflexivity|]. left.
      split; [done|]. split; [done|]. by intros (_ & _ & ?).
  - rewrite decide_True by lia.
    change (set_x_host h1 s1) with (set_x_files (x_files s1) (set_x_host h1 s1)) at 1.
    rewrite (run_bind_ok _ _ _ _ _ (E4 _)). eexists (-1), h2, _. split; [reflexivity|]. left.
    split; [done|]. split; [done|]. by intros (_ & ? & _).
Qed.

(** The memory of the key manager is wiped and freed. *)
Lemma wipe_and_free_run e p s :
  blocks (x_heap s) = [p] →
  ∃ h, wipe_and_free p (set_x_enclave e s) = Ok ((), set_x_heap h (set_x_enclave (shut_down e) s)) ∧
    blocks h = [].
Proof.
  intros Hb. unfold wipe_and_free. rewrite run_bind, run_on_x_enclave, run_modify.
  unfold on_x_heap, free. rewrite run_zoom. cbn [x_heap set_x_enclave].
  rewrite Hb, decide_True by left. eexists. split; [reflexivity|]. cbn [blocks].
  rewrite filter_cons_False; [done|by auto].
Qed.

(** How the program ends: with exit code 1 before the loops, with 0 behind them, or it
    waits in one of them. *)
Inductive main_ends (running : bool) : option Z → emain → Prop :=
| ends_early s :
    open_fds (x_host s) = [] → blocks (x_heap s) = [] → x_enclave s = None →
    main_ends running (Some 1) s
| ends_deaf s e :
    open_fds (x_host s) = [] → blocks (x_heap s) = [] → x_enclave s = Some (shut_down e) → main_ends running (Some 1) s
| ends_served s km e tr :
    open_fds (x_host s) = [] → blocks (x_heap s) = [] → IPC_SOCKET_PATH ∉ x_files s → x_enclave s = Some (shut_down e) →
    init_key_manager env_km_malloc env_keypair = Some km →
    enclave_steps tr (Proc Accepting (Enclave km running 0 [] [] false)) (Proc Stopped (shut_down e)) →
    main_ends running (Some 0) s
| ends_waiting s km e tr ph :
    x_enclave s = Some e → enclave_running e = true → ph ≠ Stopped →
    init_key_manager env_km_malloc env_keypair = Some km →
    enclave_steps tr (Proc Accepting (Enclave km running 0 [] [] false)) (Proc ph e) →
    main_ends running None s.

Lemma enclave_main_ends running evs files :
  except (killed (hangs_up evs)) (enclave_main running evs (emain_boot files)) (main_ends running).
Proof.
  unfold enclave_main.
  assert (∃ r s0, disable_core_dumps (emain_boot files) = Ok (r, s0) ∧ x_host s0 = host_boot ∧
    x_enclave s0 = None ∧ x_heap s0 = heap_boot) as (r0 & s0 & E0 & Eh0 & Ee0 & Ep0).
  { unfold disable_core_dumps. destruct env_setrlimit; by eexists _, _. }
  rewrite (run_bind_ok _ _ _ _ _ E0). unfold setup_memory_security, setup_seccomp_filter.
  repeat (rewrite run_bind || rewrite run_modify || rewrite run_ret).
  cbn [x_host x_files x_core_limit x_locked x_undumpable x_enclave x_heap].
  set (s1 := EMain _ _ _ _ _ _ _).
  assert (x_host s1 = host_boot) as Eh1 by done. assert (x_enclave s1 = None) as Ee1 by done.
  assert (x_heap s1 = heap_boot) as Ep1 by done. clearbody s1. clear s0 E0 Eh0 Ee0 Ep0.
  case_decide; [apply ends_early; by rewrite ?Eh1, ?Ep1|]. rewrite run_bind.
  unfold on_x_heap at 1, new_key_manager. rewrite run_zoom, run_bind, Ep1.
  destruct env_km_malloc eqn:Hm; [|apply ends_early; cbn; by rewrite ?Eh1]. cbn [malloc].
  destruct (init_key_manager true env_keypair) as [km|] eqn:Hkm;
    [|by unfold init_key_manager in Hkm; destruct (crypto_generate_keypair _)].
  rewrite <-Hm in Hkm.
  rewrite run_ret, run_bind, run_modify. set (s1' := set_x_heap _ s1).
  set (e0 := Enclave km running 0 [] [] false).
  destruct (create_unix_socket_server_run e0 s1') as (fd & h & fs & E1 & Hh);
    [cbn; rewrite Eh1; apply holds_boot|].
  rewrite (run_bind_ok _ _ _ _ _ E1). destruct Hh as [(Hfd & Hh & _)|[Hfd Hh]].
  { rewrite decide_True by done.
    destruct (wipe_and_free_run e0 1 (set_x_files fs (set_x_host h s1'))) as (hp & E2 & Hb); [done|].
    rewrite (run_bind_ok _ _ _ _ _ E2). eapply ends_deaf; [by apply holds_nothing|done|done]. }
  rewrite decide_False by lia. set (s2 := set_x_files fs (set_x_host h s1')).
  eapply except_bind; [by apply (accept_loop_steps [fd])|].
  intros left s' (tr & e' & h' & -> & Hl). destruct left.
  - destruct Hl as [Hh' Htr]. destruct (holds_close fd [] h' Hh') as (h2 & E2 & Hh2).
    rewrite (run_bind_ok _ _ _ _ _ (run_on_x_host (close fd) e' (set_x_host h' s2) _ _ E2)).
    unfold unlink. rewrite run_bind, run_modify.
    match goal with |- context [(wipe_and_free _ ≫= _) ?s3] => change s3 with
      (set_x_enclave e' (set_x_files (x_files s3) (set_x_host h2 s2))) end.
    edestruct (wipe_and_free_run e' 1) as (hp & E3 & Hb); [|rewrite (run_bind_ok _ _ _ _ _ E3)]; [done|].
    eapply ends_served; [by apply holds_nothing|done| |done|done|exact Htr].
    cbn. by intros [? _]%list_elem_of_filter.
  - destruct Hl as [Hr [[_ Htr]|(fd' & _ & Htr)]]; by eapply ends_waiting; [done|done| |done|exact Htr].
Qed.

(** (C14) The enclave program cleans up: whatever fails at the start, whatever clients send
    and whenever a signal arrives, it has returned with every descriptor closed, the memory of
    the key manager freed, the keys and the private key zero (if they were ever there) and, with exit code 0, the socket file
    gone; or it still waits with [enclave_running] up, holding a key table in order. Or it was
    killed on the way and cleans up nothing: by the overrun of a buffer, or by SIGPIPE, which
    takes a client that closes its connection. *)
Theorem enclave_main_cleans_up running evs files :
  match enclave_main running evs (emain_boot files) with
  | Ok (Some code, s) =>
      open_fds (x_host s) = [] ∧ blocks (x_heap s) = [] ∧ (code = 0 ∨ code = 1) ∧
      (code = 0 → IPC_SOCKET_PATH ∉ x_files s) ∧
      match x_enclave s with
      | Some e => keys (e_km e) = zero_keys ∧ server_private_key (e_km e) = replicate 32 0
      | None => True
      end
  | Ok (None, s) =>
      ∃ e, x_enclave s = Some e ∧ enclave_running e = true ∧ wf_key_manager (e_km e)
  | Fault f => f = Overrun ∨
      (f = SigPipe ∧ ∃ conn, ConnectionThere conn ∈ evs ∧ ClientCloses ∈ conn)
  end.
Proof.
  pose proof (enclave_main_ends running evs files) as Hx. unfold except in Hx.
  destruct (enclave_main running evs (emain_boot files)) as [[r s]|f]; [|done].
  destruct Hx as [s Ho Hb He|s e Ho Hb He|s km e tr Ho Hb Hf He _ _|s km e tr ph He Hr Hph Hkm Htr].
  - rewrite He. split_and!; auto; done.
  - rewrite He. split_and!; auto; done.
  - rewrite He. split_and!; auto; done.
  - exists e. split; [done|]. split; [done|]. apply enclave_steps_inv in Htr.
    + destruct ph; [..|done]; by apply km_reachable_inv.
    + apply (reach_init env_keypair). by destruct env_km_malloc.
Qed.

(** The program implements the process of Enclave.v: once its socket listens, a run of
    [main] over any events is a run of the step relation, from the accepting process
    with a new key manager, and it returns exactly when the process has stopped. *)
Lemma enclave_main_refines_process running evs files r s :
  enclave_main running evs (emain_boot files) = Ok (r, s) → r ≠ Some 1 →
  ∃ km tr ph e, init_key_manager env_km_malloc env_keypair = Some km ∧ x_enclave s = Some e ∧
    enclave_steps tr (Proc Accepting (Enclave km running 0 [] [] false)) (Proc ph e) ∧
    (r = Some 0 ↔ ph = Stopped).
Proof.
  intros E Hr. pose proof (enclave_main_ends running evs files) as Hx. rewrite E in Hx.
  destruct Hx as [| |s km e tr _ _ _ He Hkm Htr|s km e tr ph He Hrun Hph Hkm Htr]; [done..| |].
  - by exists km, tr, Stopped, (shut_down e).
  - by exists km, tr, ph, e.
Qed.

(** *** A client that posts requests *)

(** The client sends a request; or the program finds its socket readable, or not. *)
Inductive client_act := Post (r : request) | Poll | Pause.
Definition conn_of (a : client_act) : conn_event :=
  match a with Post r => ClientSends (request_wire r) | Poll => ClientReadable | Pause => ClientSilent end.
Definition act_ok (a : client_act) : Prop :=
  match a with Post r => wf_request r ∧ rq_command r ≠ IPC_SHUTDOWN | _ => True end.

(** A queue of requests: those that are served, and those that still wait. *)
Fixpoint queue_run (acts : list client_act) (queue : list request) : list request * list request :=
  match acts with
  | [] => ([], queue)
  | Post r :: acts => queue_run acts (queue ++ [r])
  | Pause :: acts => queue_run acts queue
  | Poll :: acts =>
      match queue with
      | [] => queue_run acts []
      | r :: queue => let '(served, pending) := queue_run acts queue in (r :: served, pending)
      end
  end.

Definition wires (rs : list request) : list Z := concat (request_wire <$> rs).

Lemma wires_snoc rs r : wires (rs ++ [r]) = wires rs ++ request_wire r.
Proof. unfold wires. rewrite fmap_app, concat_app. cbn. by rewrite app_nil_r. Qed.

Lemma wires_nonempty r rs : wires (r :: rs) ≠ [].
Proof.
  intros E%(f_equal zlen). unfold wires in E. rewrite fmap_cons, concat_cons in E.
  rewrite zlen_app, zlen_nil in E. unfold request_wire at 1 in E. rewrite zlen_wire_request in E.
  pose proof (zlen_nonneg (rq_data r)). pose proof (zlen_nonneg (concat (request_wire <$> rs))). lia.
Qed.

Section serving.
Context `{!SodiumLaws _}.

(** The connection after some requests: [queue] waits, [out] was sent. *)
Definition talking (queue : list request) (out : list Z) (e : enclave) : enclave :=
  set_in (wires queue) (set_out out e).

Lemma poll_run r queue out e s :
  wf_request r → e_eof e = false → zlen (server_public_key (e_km e)) = 32 →
  connection_turn ClientReadable (set_x_enclave (talking (r :: queue) out e) s) =
  Ok ((), set_x_enclave (talking queue (out ++ (serve_all [r] e).1) (serve_all [r] e).2) s).
Proof.
  intros Hr Heof Hpk. cbn [connection_turn]. rewrite run_on_x_enclave, run_bind, run_gets.
  rewrite decide_False; [|intros [E _]; by apply wires_nonempty in E].
  pose proof (handle_all_open [r] (local "request_buffer" REQUEST_BUFFER)
    (local "response_data" RESPONSE_DATA) (set_out out e) (wires queue)
    ltac:(by rewrite zlen_local) ltac:(by rewrite zlen_local) Hpk
    (proj2 (Forall_singleton _ _) Hr) Heof) as Hs.
  cbn [length handle_all] in Hs. rewrite serve_all_set_out in Hs.
  rewrite run_bind in Hs. unfold serve_request, talking.
  replace (wires (r :: queue)) with (concat (request_wire <$> [r]) ++ wires queue)
    by (unfold wires; cbn; by rewrite app_nil_r).
  destruct (handle_ipc_request _ _ _) as [[[] e']|f].
  - rewrite run_ret in Hs. by injection Hs as ->.
  - discriminate Hs.
Qed.

Lemma serve_client_queue acts queue out e s :
  Forall act_ok acts → Forall (act_ok ∘ Post) queue →
  enclave_running e = true → e_eof e = false → zlen (server_public_key (e_km e)) = 32 →
  let '(served, pending) := queue_run acts queue in
  serve_client (conn_of <$> acts) (set_x_enclave (talking queue out e) s) =
  Ok (false, set_x_enclave (talking pending (out ++ (serve_all served e).1) (serve_all served e).2) s).
Proof.
  intros Ha. revert queue out e. induction Ha as [|a acts Hok _ IH]; intros queue out e Hq Hr Heof Hpk;
    cbn [queue_run fmap list_fmap serve_client];
    [rewrite (run_bind_ok _ _ _ _ _ (run_is_running _ s))..]; cbn [talking enclave_running set_in set_out].
  { rewrite Hr. cbn [negb serve_all fst snd]. by rewrite app_nil_r. }
  rewrite Hr. cbn [negb]. destruct a as [r| |]; cbn [conn_of].
  - cbn [connection_turn]. rewrite run_bind, run_on_x_enclave, run_modify.
    change (e_eof (talking queue out e)) with (e_eof e). rewrite Heof.
    specialize (IH (queue ++ [r]) out e). destruct (queue_run acts (queue ++ [r])).
    rewrite <-IH; [|by apply Forall_app; split; [|apply Forall_singleton]|done..].
    unfold talking. by rewrite wires_snoc.
  - destruct queue as [|r queue].
    + cbn [connection_turn]. rewrite run_bind, run_on_x_enclave, run_bind, run_gets.
      rewrite decide_True by done. rewrite run_ret. by apply (IH [] out e).
    + apply Forall_cons in Hq as [[Hwf Hsd] Hq].
      rewrite (run_bind_ok _ _ _ _ _ (poll_run r queue out e s Hwf Heof Hpk)).
      pose proof (serve_running (rq_command r) (rq_ip r) (rq_data r) e Hsd) as Hr'.
      pose proof (serve_public (rq_command r) (rq_ip r) (rq_data r) e) as Hp'.
      pose proof (serve_frame (rq_command r) (rq_ip r) (rq_data r) e) as (_ & _ & He').
      cbn [serve_all]. destruct (serve (rq_command r) (rq_ip r) (rq_data r) e) as [[st p] e1] eqn:Es.
      cbn [fst snd] in *.
      rewrite app_nil_r. specialize (IH queue (out ++ wire_response (rq_id r) st p) e1 Hq).
      destruct (queue_run acts queue) as [served pending]. rewrite IH by congruence.
      cbn [serve_all]. rewrite Es. destruct (serve_all served e1). cbn [fst snd]. by rewrite <-app_assoc.
  - cbn [connection_turn]. rewrite run_bind, run_ret. by apply (IH queue out e).
Qed.

(** (C15) The enclave program serves its client: when its system calls succeed and a client
    connects and posts requests (each within the buffers, none of them SHUTDOWN), in
    whatever order posting and the turns of the program alternate, [main] answers them
    first come first served: each turn that finds a request answers exactly one, the bytes
    sent are the responses of the service in the order of the requests, the key table is
    the one the service leaves, and the requests that were not read yet wait unchanged. *)
Theorem enclave_main_serves_requests acts files km :
  crypto_init = 0 → env_km_malloc = true → env_unix_bind = true → env_listen = true →
  (∀ k, env_open k = true) → init_key_manager true env_keypair = Some km → Forall act_ok acts →
  let e0 := Enclave km true 0 [] [] false in
  let '(served, pending) := queue_run acts [] in
  ∃ s e, enclave_main true [ConnectionThere (conn_of <$> acts)] (emain_boot files) = Ok (None, s) ∧
    x_enclave s = Some e ∧ e_out e = (serve_all served e0).1 ∧
    e_km e = e_km (serve_all served e0).2 ∧ e_in e = concat (request_wire <$> pending).
Proof.
  intros Hc Hm Hb Hl Ho Hkm Hacts e0.
  assert (zlen (server_public_key km) = 32) as Hpk.
  { unfold init_key_manager in Hkm. destruct (box_keypair_len env_keypair) as [Hk _].
    unfold crypto_generate_keypair in Hkm. destruct (box_keypair env_keypair). by injection Hkm as <-. }
  pose proof (serve_client_queue acts [] [] e0) as Hq.
  destruct (queue_run acts []) as [served pending].
  unfold enclave_main.
  assert (∃ r s0, disable_core_dumps (emain_boot files) = Ok (r, s0) ∧ x_host s0 = host_boot ∧
    x_heap s0 = heap_boot) as (r0 & s0 & E0 & Eh0 & Ep0).
  { unfold disable_core_dumps. destruct env_setrlimit; by eexists _, _. }
  rewrite (run_bind_ok _ _ _ _ _ E0). unfold setup_memory_security, setup_seccomp_filter.
  repeat (rewrite run_bind || rewrite run_modify || rewrite run_ret).
  cbn [x_host x_files x_core_limit x_locked x_undumpable x_enclave x_heap].
  set (s1 := EMain _ _ _ _ _ _ _). rewrite decide_False by (intros Hx; by apply Hx). rewrite run_bind.
  unfold on_x_heap at 1, new_key_manager. rewrite run_zoom, run_bind. cbn [x_heap s1].
  rewrite Ep0, Hm. cbn [malloc]. rewrite Hkm, run_ret, run_bind, run_modify. fold e0.
  set (s2 := set_x_heap _ _). change (set_x_enclave e0 _) with (set_x_enclave e0 s2).
  destruct (create_unix_socket_server_run e0 s2) as (fd & h & fs & E1 & Hh);
    [cbn; rewrite Eh0; apply holds_boot|].
  destruct Hh as [(_ & _ & Hno)|[Hfd Hh]]; [by destruct Hno|].
  rewrite (run_bind_ok _ _ _ _ _ E1), decide_False by lia. cbn [accept_loop].
  rewrite run_bind, (run_bind_ok _ _ _ _ _ (run_is_running e0 _)). cbn [negb e0 enclave_running].
  set (s3 := set_x_files fs (set_x_host h s2)).
  destruct (holds_open _ [fd] h open_fd_opens Hh) as (cfd & h1 & E2 & _).
  rewrite (run_bind_ok _ _ _ _ _ (run_on_x_host open_fd e0 s3 _ _ E2)).
  assert (0 ≤ next_fd h) as Hn by apply Hh.
  unfold open_fd in E2. rewrite Ho in E2. injection E2 as <- <-.
  rewrite decide_False by lia. rewrite run_bind, run_on_x_enclave, run_modify, run_bind.
  rewrite Hq by done. eexists _, _. split; [reflexivity|]. by split_and!.
Qed.
End serving.

(** The events in which the process itself takes part, not its peer or its user. *)
Definition own_event (ev : event) : Prop :=
  match ev with EvDeliver _ | EvClose | EvSignal => False | _ => True end.
#[export] Instance own_event_dec ev : Decision (own_event ev).
Proof. destruct ev; apply _. Defined.

(** The turns that are left after the flag went down. *)
Definition turns_left (ph : phase) : nat := match ph with Serving => 2 | Accepting => 1 | Stopped => 0 end.

Lemma stopping_step ev p p' :
  enclave_running (p_encl p) = false → enclave_step ev p p' →
  enclave_running (p_encl p') = false ∧
  turns_left (p_phase p) = ((if decide (own_event ev) then 1 else 0) + turns_left (p_phase p'))%nat.
Proof. intros Hr Hs. destruct Hs; cbn in *; try done; congruence. Qed.


(** The memory the program takes out of core dumps holds no byte: madvise is given an
    empty range. *)
Lemma no_memory_is_undumpable s r s' a :
  setup_memory_security s = Ok (r, s') → x_undumpable s = [] →
  ¬ Exists (λ '(start, len), start ≤ a < start + len) (x_undumpable s').
Proof.
  intros [= <- <-] E. cbn. rewrite E. destruct env_madvise; cbn; rewrite ?Exists_cons, Exists_nil; lia.
Qed.
End claims.

(** ** Instances *)
Section instances.
#[local] Existing Instance zero_garbage.
#[local] Existing Instance kind_host.
#[local] Instance kind_enclave : EnclaveEnv := {|
  env_setrlimit := true; env_mlockall := true; env_madvise := true; env_unix_bind := true;
  env_listen := true; env_km_malloc := true; env_keypair := 0
|}.

(** A client connects, asks for a handshake and an encryption and disconnects; then the
    process is told to stop. *)
Definition toy_day : list listen_event :=
  [NobodyThere;
   ConnectionThere [ClientSilent; ClientSends (concat (request_wire <$> toy_requests)); ClientReadable;
     ClientReadable; ClientCloses; ClientReadable; ClientSignal];
   NobodyThere].

Example toy_day_refines :
  ∃ r s km tr ph e, init_key_manager env_km_malloc env_keypair = Some km ∧
    x_enclave s = Some e ∧
    enclave_steps tr (Proc Accepting (Enclave km true 0 [] [] false)) (Proc ph e) ∧
    (r = Some 0 ↔ ph = Stopped).
Proof.
  eexists _, _. eapply (enclave_main_refines_process true toy_day [IPC_SOCKET_PATH]);
    [vm_compute; reflexivity|done].
Qed.

(** The handshake is answered before the encryption is posted; a ping waits. *)
Definition toy_acts : list client_act :=
  match toy_requests with
  | [a; b] => [Pause; Poll; Post a; Poll; Post b; Post (Request IPC_PING 3 0 []); Pause; Poll]
  | _ => []
  end.

Lemma enclave_main_serves_requests_witness :
  ∃ s e, enclave_main true [ConnectionThere (conn_of <$> toy_acts)] (emain_boot []) = Ok (None, s) ∧
    x_enclave s = Some e ∧ e_out e = (serve_all toy_requests toy_enclave).1 ∧
    e_km e = e_km (serve_all toy_requests toy_enclave).2 ∧
    e_in e = request_wire (Request IPC_PING 3 0 []) ++ [].
Proof.
  apply (enclave_main_serves_requests toy_acts [] toy_km); try done.
  repeat (apply Forall_cons_2; [by repeat split|]). apply Forall_nil_2.
Defined.


(** Nothing is left of the day. *)
Example toy_day_ends :
  match enclave_main true toy_day (emain_boot [IPC_SOCKET_PATH]) with
  | Ok (r, s) => r = Some 0 ∧ open_fds (x_host s) = [] ∧ x_files s = []
  | Fault _ => False
  end.
Proof. by vm_compute. Qed.
End instances.
