(* ===== verification/EnclaveDeath.v ===== *)
(** * The server when the enclave dies

    The connection of EnclaveClient.v to an enclave process that may end at any
    moment: [life] counts the socket operations of the server it still lives to see.
    What it had sent before can still be read; after that recv finds the end of the
    stream (or -1 when requests were left unread), and send raises SIGPIPE, which the
    server neither handles nor ignores. *)

From S2P Require Import Prelude Os Crypto ToySodium IpcProtocol KeyManager Enclave.
From S2P Require Import EnclaveClient ClientManager Protocol VpnServer.

Record mortal := Mortal { inner : enclave; life : nat }.

Section channel.
Context `{Sodium, Garbage}.

Definition mortal_send (d : list Z) : M mortal Z := λ m,
  match life m with
  | O => Fault SigPipe
  | S l =>
      match ch_send d (inner m) with
      | Ok (n, e) => Ok (n, Mortal e l)
      | Fault f => Fault f
      end
  end.

Definition mortal_recv (peek : bool) (n : Z) : M mortal (option (list Z)) := λ m,
  match life m with
  | O =>
      let e := inner m in
      if decide (e_out e = [] ∧ e_in e ≠ []) then Ok (None, m)
      else Ok (Some (take (Z.to_nat n) (e_out e)),
               if peek then m else Mortal (set_out (drop (Z.to_nat n) (e_out e)) e) 0)
  | S l =>
      match ch_recv peek n (inner m) with
      | Ok (r, e) => Ok (r, Mortal e l)
      | Fault f => Fault f
      end
  end.

#[export] Instance mortal_channel : Channel mortal := {|
  ch_send := mortal_send;
  ch_recv := mortal_recv
|}.
End channel.

(** ** One exchange *)
Section exchange.
Context `{Sodium, Garbage} `{!SodiumLaws _}.

(** The end of an exchange over a connection whose enclave has answered does not
    depend on whether it still lives. *)
Definition embed {A} (l : nat) (r : res (A * enclave)) : res (A * mortal) :=
  match r with Ok (a, e) => Ok (a, Mortal e l) | Fault f => Fault f end.

Lemma mortal_recv_waiting peek n e l :
  e_out e ≠ [] →
  mortal_recv peek n (Mortal e l) = embed (pred l) (ch_recv peek n e).
Proof.
  intros Hout. unfold mortal_recv. cbn [life inner]. destruct l as [|l].
  - rewrite decide_False by (by intros [? _]). cbn [ch_recv enclave_channel].
    rewrite enclave_turn_waiting by done. by destruct peek.
  - cbn [pred]. by destruct (ch_recv peek n e) as [[??]|].
Qed.

(** The request is lost with the enclave. *)
Lemma send_ipc_request_lost req resp e :
  idle e → req ≠ [] →
  ∃ e', send_ipc_request req resp (Mortal e 1) = Ok (None, Mortal e' 0).
Proof.
  intros [Hin Hout _ _] Hreq. eexists. unfold send_ipc_request. rewrite run_bind.
  cbn [ch_send mortal_channel]. unfold mortal_send. cbn [life inner ch_send enclave_channel].
  rewrite decide_False by lia. rewrite run_bind. cbn [ch_recv mortal_channel].
  unfold mortal_recv. cbn [life inner set_in e_out e_in]. rewrite Hin, Hout.
  rewrite decide_True by done. done.
Qed.

Lemma send_ipc_request_lives command id ip data resp e st p e' l :
  idle e → is_uint 1 command → is_uint 4 id → is_uint 4 ip → request_fits command data →
  serve command ip data e = ((st, p), e') →
  ∃ l', send_ipc_request (wire_request command id ip data) resp (Mortal e (S (S l))) =
    embed l' (send_ipc_request (wire_request command id ip data) resp e).
Proof.
  intros Hidle Hc Hid Hip Hfit Hserve.
  pose proof (enclave_turn_serve _ _ _ _ _ _ _ _ Hidle Hc Hid Hip Hfit Hserve) as Ht.
  unfold send_ipc_request. rewrite !run_bind. cbn [ch_send mortal_channel enclave_channel].
  unfold mortal_send. cbn [life inner ch_send enclave_channel].
  rewrite !decide_False by lia. rewrite !run_bind. cbn [ch_recv mortal_channel enclave_channel].
  unfold mortal_recv at 1. cbn [life inner ch_recv enclave_channel]. rewrite Ht.
  set (e1 := set_out _ e'). assert (e_out e1 ≠ []) as Hout by apply wire_response_nonempty.
  case_decide; [by exists l|]. case_decide; [by exists l|].
  exists (pred l). rewrite !run_bind. cbn [ch_recv mortal_channel].
  rewrite mortal_recv_waiting by done. cbn [ch_recv enclave_channel].
  rewrite !enclave_turn_waiting by done. cbn [embed]. rewrite !run_bind.
  destruct (buf_write resp 0 _); [|done]. rewrite !run_lift. by repeat case_decide.
Qed.
End exchange.

(** ** The stubs

    Every stub builds a request, exchanges it and evaluates the response. *)
Section stubs.
Context `{Sodium, Garbage} `{!SodiumLaws _}.

Definition stub {C A} `{Channel C} (w : Z → res (list Z * Z)) (resp : list Z)
    (f : option (list Z) → res A) : M (ipc C) A := λ s,
  match w (global_request_id s) with
  | Ok (req, g) =>
      match send_ipc_request req resp (channel s) with
      | Ok (r, c) => match f r with Ok a => Ok (a, Ipc g c) | Fault x => Fault x end
      | Fault x => Fault x
      end
  | Fault x => Fault x
  end.

Definition keep_life {A} (l : nat) (r : res (A * ipc enclave)) : res (A * ipc mortal) :=
  match r with
  | Ok (a, s) => Ok (a, Ipc (global_request_id s) (Mortal (channel s) l))
  | Fault x => Fault x
  end.

(** What a stub does over a mortal connection, given what it does over a connection
    whose enclave lives, and its result [err] for a lost request. *)
Definition mortal_outcome {A} (err : A) (m : M (ipc mortal) A) (m0 : M (ipc enclave) A)
    (s : ipc mortal) : Prop :=
  let e := inner (channel s) in
  match life (channel s) with
  | O => m s = Fault SigPipe
  | S O => ∃ g e', m s = Ok (err, Ipc g (Mortal e' 0))
  | _ => ∃ l, m s = keep_life l (m0 (Ipc (global_request_id s) e))
  end.

Lemma stub_outcome {A} w resp (f : option (list Z) → res A) (err : A) s req g command id ip data :
  w (global_request_id s) = Ok (req, g) → req = wire_request command id ip data →
  life (channel s) = 0%nat ∨ idle (inner (channel s)) →
  is_uint 1 command → is_uint 4 id → is_uint 4 ip → request_fits command data →
  f None = Ok err →
  mortal_outcome err (stub w resp f) (stub w resp f) s.
Proof.
  intros Hw -> Hs Hc Hid Hip Hfit Herr. destruct s as [g0 [e l]]. cbn in Hw, Hs.
  unfold mortal_outcome, stub. cbn [channel life inner global_request_id]. rewrite Hw.
  destruct l as [|[|l]]; [done|..]; (destruct Hs as [?|Hidle]; [done|]).
  - destruct (send_ipc_request_lost (wire_request command id ip data) resp e Hidle)
      as [e' ->]; [|rewrite Herr; eauto].
    intros E%(f_equal zlen). rewrite zlen_wire_request, zlen_nil in E.
    pose proof (zlen_nonneg data). lia.
  - destruct (serve command ip data e) as [[st p] e'] eqn:Hserve.
    destruct (send_ipc_request_lives command id ip data resp e st p e' l) as [l' ->]; [done..|].
    exists l'. destruct (send_ipc_request _ _ e) as [[r e2]|]; [|done]. cbn [embed].
    by destruct (f r).
Qed.

Lemma mortal_outcome_ext {A} (err : A) m m' m0 m0' s :
  (∀ s, m s = m' s) → (∀ s, m0 s = m0' s) →
  mortal_outcome err m' m0' s → mortal_outcome err m m0 s.
Proof.
  intros Em Em0. unfold mortal_outcome. rewrite Em.
  destruct (life (channel s)) as [|[|l]]; by rewrite ?Em0.
Qed.

(** The stubs the server uses while it serves, in this form. *)

(** A stub that passes no data ([enclave_ping], [enclave_remove_key], [enclave_shutdown]). *)
Definition bare_call {C} `{Channel C} (rq rs : string) (command ip : Z) : M (ipc C) Z :=
  req ← new_request (local rq sizeof_ipc_request_t) command ip None 0;
  r ← on_channel (send_ipc_request req (local rs sizeof_ipc_response_t));
  mret (match r with Some _ => 0 | None => -1 end).

Lemma bare_call_stub {C} `{Channel C} rq rs command ip (s : ipc C) :
  bare_call rq rs command ip s =
  stub (λ g, init_ipc_request (local rq sizeof_ipc_request_t) g command ip None 0)
       (local rs sizeof_ipc_response_t)
       (λ r, Ok (match r with Some _ => 0 | None => -1 end)) s.
Proof.
  unfold bare_call, stub, new_request, on_channel. rewrite run_bind.
  destruct (init_ipc_request _ _ _ _ _ _) as [[req g]|]; [|done].
  rewrite run_bind, run_zoom. cbn [channel]. by destruct (send_ipc_request _ _ _) as [[??]|].
Qed.

Definition handshake_result (r : option (list Z)) : res (option (list Z * list Z)) :=
  match r with
  | None => Ok None
  | Some resp =>
      match buf_read resp sizeof_ipc_response_t 32, buf_read resp (sizeof_ipc_response_t + 32) 32 with
      | Ok spk, Ok sk => Ok (Some (spk, sk))
      | Fault x, _ | _, Fault x => Fault x
      end
  end.

Lemma enclave_handshake_stub {C} `{Channel C} ip pk (s : ipc C) :
  zlen pk = 32 →
  enclave_handshake ip pk s =
  stub (λ g, init_ipc_request
               (local "enclave_handshake.req" (sizeof_ipc_request_t + sizeof_ipc_handshake_data_t))
               g IPC_HANDSHAKE ip (Some pk) (zlen pk))
       (local "enclave_handshake.resp" (sizeof_ipc_response_t + sizeof_ipc_handshake_response_t))
       handshake_result s.
Proof.
  intros Hpk. unfold enclave_handshake, stub. rewrite buf_read_ok, slice_all by lia.
  rewrite run_bind, run_lift. cbn iota beta. change sizeof_ipc_handshake_data_t with 32 at 2.
  rewrite Hpk. unfold new_request, on_channel. rewrite run_bind.
  destruct (init_ipc_request _ _ _ _ _ _) as [[req g]|]; [|done].
  rewrite run_bind, run_zoom. cbn [channel].
  destruct (send_ipc_request _ _ _) as [[[resp|] c]|]; [|done..]. unfold handshake_result.
  rewrite run_bind. destruct (buf_read resp sizeof_ipc_response_t 32); [|done].
  rewrite run_lift, run_bind. by destruct (buf_read resp (sizeof_ipc_response_t + 32) 32).
Qed.

Definition crypt_result (out : list Z) (r : option (list Z)) : res (option (list Z * Z)) :=
  match r with
  | None => Ok None
  | Some resp =>
      let len := ntohs (resp_data_len (ipc_response_of_bytes resp)) in
      match buf_read resp sizeof_ipc_response_t len with
      | Ok data => match buf_write out 0 data with Ok out => Ok (Some (out, len)) | Fault x => Fault x end
      | Fault x => Fault x
      end
  end.

Lemma crypt_request_stub {C} `{Channel C} command ip input out (s : ipc C) :
  zlen input ≤ 4096 →
  crypt_request command ip input out s =
  stub (λ g, match init_ipc_request (local "crypt.req" (sizeof_ipc_request_t + IPC_MAX_DATA_SIZE))
                     g command ip (Some input) (zlen input) with
             | Ok (req, g) => Ok (take (Z.to_nat (sizeof_ipc_request_t + zlen input)) req, g)
             | Fault x => Fault x
             end)
       (local "crypt.resp" (sizeof_ipc_response_t + IPC_MAX_DATA_SIZE)) (crypt_result out) s.
Proof.
  intros Hl. unfold crypt_request, stub. rewrite decide_False by zlen.
  unfold new_request, on_channel. rewrite run_bind.
  destruct (init_ipc_request _ _ _ _ _ _) as [[req g]|]; [|done].
  rewrite run_bind, run_zoom. cbn [channel].
  destruct (send_ipc_request _ _ _) as [[[resp|] c]|]; [|done..]. unfold crypt_result.
  rewrite run_bind. destruct (buf_read _ _ _); [|done]. rewrite run_lift, run_bind.
  by destruct (buf_write out 0 _).
Qed.
End stubs.

(** ** What the server can rely on when the enclave may die *)

(** The code returns with [P], or the process is killed by SIGPIPE. *)
Abbreviation survives := (except (.= SigPipe)).

Class FallibleService (C : Type) `{Channel C, Garbage} := {
  fs_ready : C → Prop;

  fs_ping (s : ipc C) :
    fs_ready (channel s) → survives (enclave_ping s) (λ _ s', fs_ready (channel s'));

  fs_shutdown (s : ipc C) :
    fs_ready (channel s) → survives (enclave_shutdown s) (λ _ _, True);

  fs_handshake (s : ipc C) ip pk :
    fs_ready (channel s) → is_uint 4 ip → zlen pk = 32 →
    survives (enclave_handshake ip pk s) (λ _ s', fs_ready (channel s'));

  fs_remove_key (s : ipc C) ip :
    fs_ready (channel s) → is_uint 4 ip →
    survives (enclave_remove_key ip s) (λ _ s', fs_ready (channel s'));

  fs_encrypt (s : ipc C) ip p out :
    fs_ready (channel s) → is_uint 4 ip → zlen p ≤ 4068 → zlen p + 28 ≤ zlen out →
    survives (enclave_encrypt ip p out s) (λ r s', fs_ready (channel s') ∧
      ∀ out' n, r = Some (out', n) →
        ∃ c rest, out' = c ++ rest ∧ n = zlen c ∧ zlen c = zlen p + 28);

  fs_decrypt (s : ipc C) ip c out :
    fs_ready (channel s) → is_uint 4 ip → zlen c ≤ 4096 → zlen c ≤ zlen out + 28 →
    survives (enclave_decrypt ip c out s) (λ r s', fs_ready (channel s') ∧
      ∀ out' n, r = Some (out', n) → 0 ≤ n ≤ zlen out')
}.

Section mortal_service.
Context `{Sodium, Garbage} `{!SodiumLaws _}.

(** The enclave is dead or waits for a request. *)
Definition mortal_ready (m : mortal) : Prop := life m = 0%nat ∨ idle (inner m).

(** From the outcome of a stub and what it does over a living connection. *)
Lemma mortal_survives {A} (err : A) m m0 (s : ipc mortal) (P : A → Prop) :
  mortal_outcome err m m0 s → P err →
  (life (channel s) ≠ 0%nat → ∃ a s0,
     m0 (Ipc (global_request_id s) (inner (channel s))) = Ok (a, s0) ∧ idle (channel s0) ∧ P a) →
  survives (m s) (λ a s', mortal_ready (channel s') ∧ P a).
Proof.
  unfold mortal_outcome, except. intros Hm He Hl. destruct (life (channel s)) as [|[|l]].
  - by rewrite Hm.
  - destruct Hm as (g & e' & ->). split; [by left|done].
  - destruct Hm as [l' ->]. destruct Hl as (a & s0 & -> & Hi & HP); [done|]. cbn [keep_life channel].
    split; [by right|done].
Qed.

Lemma bare_call_outcome (s : ipc mortal) rq rs command ip :
  mortal_ready (channel s) → is_uint 1 command → is_uint 4 ip →
  mortal_outcome (-1) (bare_call rq rs command ip) (bare_call rq rs command ip) s.
Proof.
  intros Hr Hc Hip. eapply mortal_outcome_ext; [intros; apply bare_call_stub..|].
  eapply (stub_outcome _ _ _ _ _ _ _ command (htonl (u32 (global_request_id s + 1))) ip []);
    [apply init_ipc_request_empty; [done|zlen]| |done|done|by apply bswap_uint|done
    |apply request_fits_nil|done].
  rewrite drop_ge; [apply app_nil_r|].
  pose proof (zlen_local rq sizeof_ipc_request_t ltac:(done)) as Hl.
  unfold zlen in Hl. change sizeof_ipc_request_t with 11 in *. lia.
Qed.

Lemma ping_outcome (s : ipc mortal) :
  mortal_ready (channel s) → mortal_outcome (-1) enclave_ping enclave_ping s.
Proof. intros Hr. by apply (bare_call_outcome s _ _ IPC_PING 0). Qed.
Lemma shutdown_outcome (s : ipc mortal) :
  mortal_ready (channel s) → mortal_outcome (-1) enclave_shutdown enclave_shutdown s.
Proof. intros Hr. by apply (bare_call_outcome s _ _ IPC_SHUTDOWN 0). Qed.
Lemma remove_key_outcome (s : ipc mortal) ip :
  mortal_ready (channel s) → is_uint 4 ip →
  mortal_outcome (-1) (enclave_remove_key ip) (enclave_remove_key ip) s.
Proof. intros Hr Hip. by apply (bare_call_outcome s _ _ IPC_REMOVE_KEY ip). Qed.

Lemma handshake_outcome (s : ipc mortal) ip pk :
  mortal_ready (channel s) → is_uint 4 ip → zlen pk = 32 →
  mortal_outcome None (enclave_handshake ip pk) (enclave_handshake ip pk) s.
Proof.
  intros Hr Hip Hpk. eapply mortal_outcome_ext; [intros; by apply enclave_handshake_stub..|].
  eapply (stub_outcome _ _ _ _ _ _ _ IPC_HANDSHAKE (htonl (u32 (global_request_id s + 1))) ip pk);
    [apply init_ipc_request_wire; [done|lia|zlen]| |done|done|by apply bswap_uint|done
    |split; [zlen|done]|done].
  rewrite request_exact; [apply app_nil_r|zlen].
Qed.

Lemma crypt_outcome (s : ipc mortal) command ip input out :
  mortal_ready (channel s) → is_uint 1 command → is_uint 4 ip → request_fits command input →
  mortal_outcome None (crypt_request command ip input out) (crypt_request command ip input out) s.
Proof.
  intros Hr Hc Hip Hfit. pose proof Hfit as [Hl _]. pose proof (zlen_nonneg input).
  eapply mortal_outcome_ext; [intros; apply crypt_request_stub; zlen..|].
  eapply (stub_outcome _ _ _ _ _ _ _ command (htonl (u32 (global_request_id s + 1))) ip input);
    [|reflexivity|done|done|by apply bswap_uint|done..].
  cbn beta. rewrite init_ipc_request_wire by (done || zlen). by rewrite take_app_zlen by zlen.
Qed.

Lemma alive_idle (s : ipc mortal) :
  mortal_ready (channel s) → life (channel s) ≠ 0%nat → idle (inner (channel s)).
Proof. by intros [?|?]. Qed.

#[export] Instance mortal_service : FallibleService mortal.
Proof.
  refine {| fs_ready := mortal_ready |}.
  - intros s Hr. eapply except_weaken;
      [apply (mortal_survives (-1) _ _ _ (λ _, True) (ping_outcome s Hr)); [done|]
      |by intros ?? [? _]].
    intros Ha. pose proof (alive_idle s Hr Ha) as Hi. eexists 0, _. by split; [apply enclave_ping_run|].
  - intros s Hr. pose proof (shutdown_outcome s Hr) as Hm. pose proof (alive_idle s Hr) as Hi.
    unfold mortal_outcome, except in *. destruct (life (channel s)) as [|[|l]].
    + by rewrite Hm.
    + by destruct Hm as (g & e' & ->).
    + destruct Hm as [l' ->]. by rewrite enclave_shutdown_run by (by apply Hi).
  - intros s ip pk Hr Hip Hpk.
    eapply except_weaken;
      [apply (mortal_survives None _ _ _ (λ _, True) (handshake_outcome s ip pk Hr Hip Hpk)); [done|]
      |by intros ?? [? _]].
    intros Ha. destruct (enclave_handshake_law (Ipc (global_request_id s) (inner (channel s))) ip pk)
      as (r & s' & E & Hi & _); [by apply alive_idle|done|done|]. by exists r, s'.
  - intros s ip Hr Hip. eapply except_weaken;
      [apply (mortal_survives (-1) _ _ _ (λ _, True) (remove_key_outcome s ip Hr Hip)); [done|]
      |by intros ?? [? _]].
    intros Ha. destruct (enclave_remove_key_law (Ipc (global_request_id s) (inner (channel s))) ip)
      as (s' & E & Hi & _); [by apply alive_idle|done|]. by exists 0, s'.
  - intros s ip p out Hr Hip Hp Hout.
    assert (request_fits IPC_ENCRYPT p) as Hfit by (split; autounfold with sizes; lia).
    apply (mortal_survives None _ _ _ _ (crypt_outcome s IPC_ENCRYPT ip p out Hr ltac:(done) Hip Hfit));
      [done|]. intros Ha.
    destruct (enclave_encrypt_law (Ipc (global_request_id s) (inner (channel s))) ip p out)
      as (s' & Hi & _ & _ & E); [by apply alive_idle|done|done|]. cbn [channel] in E.
    destruct (get_key _ ip) as [k|]; [|by exists None, s'].
    destruct E as (n & Hn & E). destruct (crypto_encrypt p k n) as [c|] eqn:Hc; [|by exists None, s'].
    destruct E as [E _]. specialize (E Hout). eexists _, s'. split; [exact E|]. split; [done|].
    intros ? ? [= <- <-]. exists (n ++ c), (drop (length (n ++ c)) out).
    apply aead_encrypt_len in Hc. unfold CRYPTO_MAC_SIZE in Hc. split; [done|]. split; zlen.
  - intros s ip c out Hr Hip Hc Hout.
    assert (request_fits IPC_DECRYPT c) as Hfit by (split; [done|by intros]).
    apply (mortal_survives None _ _ _ _ (crypt_outcome s IPC_DECRYPT ip c out Hr ltac:(done) Hip Hfit));
      [done|]. intros Ha.
    destruct (enclave_decrypt_law (Ipc (global_request_id s) (inner (channel s))) ip c out)
      as (s' & Hi & _ & _ & E); [by apply alive_idle|done..|]. eexists _, s'. split; [exact E|].
    split; [done|]. intros out' n' Hp. destruct (open_packet _ c) as [p|] eqn:Ho; [|done].
    injection Hp as <- <-. pose proof (zlen_nonneg p). pose proof (zlen_nonneg (drop (length p) out)).
    rewrite zlen_app. lia.
Defined.
End mortal_service.

(** ** The handlers over a fallible service *)
Section handlers.
Context {C : Type} `{Garbage, Env} `{!Channel C, !FallibleService C}.
Implicit Types s : server C.

Definition weak_ok s : Prop := wf_table (table s) ∧ fs_ready (channel (enclave_conn s)).

(** Code that keeps the server in order, or is killed. *)
Definition calm {A} (m : M (server C) A) : Prop :=
  ∀ s, weak_ok s → survives (m s) (λ _ s', weak_ok s').

Lemma calm_ret {A} (a : A) : calm (mret a).
Proof. by intros s Hs. Qed.
Lemma calm_gets {A} (f : server C → A) : calm (gets f).
Proof. by intros s Hs. Qed.
Lemma calm_bind {A B} (m : M (server C) A) (k : A → M (server C) B) :
  calm m → (∀ a, calm (k a)) → calm (m ≫= k).
Proof.
  intros Hm Hk s Hs. specialize (Hm s Hs). rewrite run_bind.
  destruct (m s) as [[a s1]|]; [|done]. by apply Hk.
Qed.

(** A call of the enclave, and what follows it. *)
Lemma survive_enclave {A B} (m : M (ipc C) A) (k : A → M (server C) B) s
    (P : A → Prop) (Q : B → server C → Prop) :
  survives (m (enclave_conn s)) (λ a i, fs_ready (channel i) ∧ P a) →
  (∀ a i, fs_ready (channel i) → P a →
     survives (k a (Server (table s) (global_sequence s) i (sys s))) Q) →
  survives ((on_enclave m ≫= k) s) Q.
Proof.
  intros Hm Hk. rewrite run_bind. unfold on_enclave. rewrite run_zoom.
  destruct (m (enclave_conn s)) as [[a i]|]; [|done]. destruct Hm. by apply Hk.
Qed.

Lemma on_connect_req_calm buffer addr : zlen buffer = 2048 → calm (on_connect_req buffer addr).
Proof.
  intros Hb s [Hwf Hready]. unfold on_connect_req. rewrite run_bind, run_gets. cbn iota beta.
  destruct (add_client_run (table s) addr (sys s) Hwf) as (ip & t' & o1 & E1 & Ho & _).
  rewrite (run_bind_ok _ _ _ _ _ (on_sys_run _ _ _ _ E1)). cbn iota beta.
  rewrite run_bind, run_modify. cbn [table global_sequence enclave_conn sys].
  pose proof (add_outcome_wf _ _ _ _ Hwf Ho) as Hwf'.
  destruct (add_outcome_ip _ _ _ _ Hwf Ho) as [(-> & _)|[Hp _]]; [done|].
  rewrite decide_False by (by apply in_pool_nonzero).
  change (req_auth_token _) with (slice 48 32 buffer).
  apply survive_enclave with (P := λ _, True).
  { eapply except_weaken; [apply fs_handshake|auto];
      [done|by apply in_pool_uint|by rewrite zlen_slice by lia]. }
  intros [[spk sk]|] i Hi _; cbn [table global_sequence sys].
  - destruct (add_outcome_find _ _ _ _ Ho (in_pool_nonzero _ Hp)) as (j & c & Hf & _).
    destruct (send_connect_resp_run ip spk addr (Server t' (global_sequence s) i o1) j c Hf)
      as (ts & o2 & _ & _ & E). by eapply except_ok; [exact E|].
  - destruct (remove_step (Server t' (global_sequence s) i o1) ip) as (o2 & _ & E).
    eapply except_ok; [exact E|]. split; [by apply without_ip_wf|done].
Qed.

Lemma on_data_calm buffer n addr :
  zlen buffer = 2048 → 16 ≤ n ≤ 2048 → calm (on_data buffer n addr).
Proof.
  intros Hb Hn s [Hwf Hready]. unfold on_data. rewrite run_bind, run_gets. cbn iota beta.
  destruct (find_client_by_addr (table s) addr) as [[i c]|] eqn:Hf; [|done].
  destruct (found_by_addr _ _ _ _ Hwf Hf) as (_ & _ & Hip).
  rewrite (run_bind_ok _ _ _ _ _ (on_table_run _ _ _ _ eq_refl)).
  rewrite run_bind, buf_read_ok by (autounfold with sizes; lia). rewrite run_lift. cbn iota beta.
  change sizeof_vpn_header_t with 16. set (ct := slice 16 (n - 16) buffer).
  assert (zlen ct = n - 16) as Hct by (subst ct; rewrite zlen_slice; lia).
  eapply survive_enclave.
  { apply fs_decrypt; [done|done|lia|rewrite zlen_local by done; autounfold with sizes; lia]. }
  intros [[out len]|] j Hj Hr; [|split; [by apply update_wf|done]].
  destruct (Hr out len eq_refl). rewrite run_bind, buf_read_ok by lia. rewrite run_lift.
  cbn iota beta. split; [by apply update_wf|done].
Qed.

Lemma on_disconnect_calm addr : calm (on_disconnect addr).
Proof.
  intros s [Hwf Hready]. unfold on_disconnect. rewrite run_bind, run_gets. cbn iota beta.
  destruct (find_client_by_addr (table s) addr) as [[i c]|] eqn:Hf; [|done].
  destruct (found_by_addr _ _ _ _ Hwf Hf) as (_ & _ & Hip).
  apply survive_enclave with (P := λ _, True).
  { by eapply except_weaken; [apply fs_remove_key|auto]. }
  intros _ j Hj _. set (s1 := Server _ _ _ _).
  destruct (remove_step s1 (vpn_ip c)) as (o2 & _ & E2).
  rewrite (run_bind_ok _ _ _ _ _ E2). rewrite run_bind, run_gets. cbn [table sys] in *.
  match goal with |- context [print_client_table ?t] =>
    destruct (print_client_table_run t o2) as (r & o3 & E3 & _) end.
  rewrite (run_bind_ok _ _ _ _ _ (on_sys_run _ (Server _ _ _ o2) _ _ E3)).
  split; [by apply without_ip_wf|done].
Qed.

Lemma handle_udp_to_tun_calm arrived : calm (handle_udp_to_tun arrived).
Proof.
  intros s Hs. destruct arrived as [[addr d]|]; [|done]. rewrite handle_udp_dispatch.
  pose proof (zlen_cut d). pose proof (rx_buffer_len d). repeat case_decide; try done.
  - by apply on_connect_req_calm.
  - apply on_data_calm; [done|lia|done].
  - destruct (on_ping_run addr s) as (now & ts & s' & E & _ & Ht & He & _).
    eapply except_ok; [exact E|]. destruct Hs. split; [rewrite Ht; by apply touch_wf|by rewrite He].
  - by apply on_disconnect_calm.
Qed.

Lemma handle_tun_to_udp_calm d : zlen d ≤ 2004 → calm (handle_tun_to_udp (Some d)).
Proof.
  intros Hd s [Hwf Hready]. pose proof (zlen_nonneg d). unfold handle_tun_to_udp.
  rewrite recv_datagram_fits by zlen. autounfold with sizes. case_decide; [done|].
  rewrite ip_version_app, ip_daddr_app by lia. case_decide; [done|].
  rewrite run_bind, run_gets. cbn iota beta.
  destruct (find_client_by_vpn_ip (table s) (ip_daddr d)) as [[i c]|] eqn:Hf; [|done].
  destruct (found_by_ip _ _ _ _ Hwf Hf) as (_ & _ & _ & Hip). rewrite slice_hit by done.
  eapply survive_enclave.
  { apply fs_encrypt; [done|done|lia|rewrite zlen_local by done; lia]. }
  intros [[out n]|] j Hj Hr; [|done]. destruct (Hr out n eq_refl) as (p & rest & -> & -> & Hp).
  set (s1 := Server _ _ _ _).
  destruct (send_data_packet_run s1 i c p rest) as (ts & now & o' & _ & _ & E); [lia|].
  eapply except_ok; [exact E|]. split; [|done]. cbn [table s1]. case_match; [by apply update_wf|done].
Qed.

Lemma loop_turn_calm last tn : turn_fits tn → calm (loop_turn last tn).
Proof.
  intros Hfit. destruct tn as [| |alive|udp tun]; cbn [loop_turn]; [apply calm_ret..| |].
  - intros s [Hwf Hready]. rewrite (run_bind_ok _ _ _ _ _ (on_sys_run _ _ _ _ eq_refl)).
    set (s1 := Server _ _ _ _). rewrite run_bind. destruct (decide _); [|done].
    destruct (check_client_timeouts_run (table s1) (sys s1)) as [o' E].
    rewrite (run_bind_ok _ _ _ _ _ (on_table_run _ _ _ _ E)). split; [|done].
    eapply check_client_timeouts_wf, E. done.
  - apply calm_bind; [destruct udp; [apply handle_udp_to_tun_calm|apply calm_ret]|]. intros _.
    apply calm_bind; [|intros _; apply calm_ret].
    destruct tun as [[d|]|]; [by apply handle_tun_to_udp_calm|apply calm_ret..].
Qed.

Lemma event_loop_calm last turns : Forall turn_fits turns → calm (event_loop last turns).
Proof.
  intros Hfit. revert last. induction Hfit as [|tn turns Ht _ IH]; intros last; [apply calm_ret|].
  cbn [event_loop]. apply calm_bind; [by apply loop_turn_calm|]. intros [l|]; [apply IH|apply calm_ret].
Qed.
End handlers.

(** ** The claims *)
Section claims.
Context `{Sodium, Garbage, Env} `{!SodiumLaws _}.
Implicit Types s : server mortal.

(** The death of the enclave does not corrupt the server: let the enclave process end
    at any moment of any sequence of turns, in the middle of a request as well. The
    event loop then still returns with the client table in order, a lost request
    being an error of the stub that was sent it, or the server is killed by SIGPIPE.
    It never reads or writes outside a buffer and never follows a null pointer. *)
Lemma server_survives_enclave_death last turns s :
  wf_table (table s) → mortal_ready (channel (enclave_conn s)) → Forall turn_fits turns →
  match event_loop last turns s with
  | Ok (_, s') => wf_table (table s') ∧ mortal_ready (channel (enclave_conn s'))
  | Fault f => f = SigPipe
  end.
Proof.
  intros Hwf Hr Hfit. pose proof (event_loop_calm last turns Hfit s (conj Hwf Hr)) as Hs.
  unfold except in Hs. by destruct (event_loop last turns s) as [[??]|].
Qed.

(** The enclave behind the connection is gone. *)
Definition orphaned s : Prop := life (channel (enclave_conn s)) = 0%nat.

Lemma orphan_ready s : orphaned s → mortal_ready (channel (enclave_conn s)).
Proof. by left. Qed.

Lemma on_enclave_killed {A B} (m : M (ipc mortal) A) (m0 : M (ipc enclave) A) err
    (k : A → M (server mortal) B) s :
  orphaned s → mortal_outcome err m m0 (enclave_conn s) → (on_enclave m ≫= k) s = Fault SigPipe.
Proof.
  unfold orphaned, mortal_outcome. intros -> E. rewrite run_bind. unfold on_enclave.
  by rewrite run_zoom, E.
Qed.

(** The datagrams for which the server asks the enclave. *)
Definition needs_enclave (t : client_table_t) (addr : sockaddr_in) (d : list Z) : Prop :=
  16 ≤ zlen d ∧
  (packet_type d = PKT_CONNECT_REQ ∧ count t < 254 ∨
   (packet_type d = PKT_DATA ∨ packet_type d = PKT_DISCONNECT) ∧
   is_Some (find_client_by_addr t addr)).

Lemma on_connect_req_killed buffer addr s :
  wf_table (table s) → orphaned s → zlen buffer = 2048 →
  if decide (count (table s) < 254) then on_connect_req buffer addr s = Fault SigPipe
  else ∃ s', on_connect_req buffer addr s = Ok ((), s').
Proof.
  intros Hwf Ho Hb. unfold on_connect_req. rewrite run_bind, run_gets. cbn iota beta.
  destruct (add_client_run (table s) addr (sys s) Hwf) as (ip & t' & o1 & E1 & Hout & _).
  rewrite (run_bind_ok _ _ _ _ _ (on_sys_run _ _ _ _ E1)). cbn iota beta.
  rewrite run_bind, run_modify. cbn [table global_sequence enclave_conn sys].
  destruct (add_outcome_ip _ _ _ _ Hwf Hout) as [(-> & Hc & ->)|[Hp Hc]].
  - unfold MAX_CLIENTS in Hc. rewrite decide_False by lia. rewrite decide_True by done. by eexists.
  - unfold MAX_CLIENTS in Hc. rewrite decide_True by lia.
    rewrite decide_False by (by apply in_pool_nonzero).
    change (req_auth_token _) with (slice 48 32 buffer).
    eapply on_enclave_killed; [done|]. apply handshake_outcome; [by apply orphan_ready
      |by apply in_pool_uint|by rewrite zlen_slice by lia].
Qed.

Lemma on_data_killed buffer n addr s :
  wf_table (table s) → orphaned s → zlen buffer = 2048 → 16 ≤ n ≤ 2048 →
  on_data buffer n addr s =
  match find_client_by_addr (table s) addr with Some _ => Fault SigPipe | None => Ok ((), s) end.
Proof.
  intros Hwf Ho Hb Hn. unfold on_data. rewrite run_bind, run_gets. cbn iota beta.
  destruct (find_client_by_addr (table s) addr) as [[i c]|] eqn:Hf; [|done].
  destruct (found_by_addr _ _ _ _ Hwf Hf) as (_ & _ & Hip).
  rewrite (run_bind_ok _ _ _ _ _ (on_table_run _ _ _ _ eq_refl)).
  rewrite run_bind, buf_read_ok by (autounfold with sizes; lia). rewrite run_lift. cbn iota beta.
  eapply on_enclave_killed; [done|]. apply crypt_outcome; [by apply orphan_ready|done|done|].
  split; [|by intros]. change sizeof_vpn_header_t with 16. rewrite zlen_slice by lia.
  autounfold with sizes. lia.
Qed.

Lemma on_disconnect_killed addr s :
  wf_table (table s) → orphaned s →
  on_disconnect addr s =
  match find_client_by_addr (table s) addr with Some _ => Fault SigPipe | None => Ok ((), s) end.
Proof.
  intros Hwf Ho. unfold on_disconnect. rewrite run_bind, run_gets. cbn iota beta.
  destruct (find_client_by_addr (table s) addr) as [[i c]|] eqn:Hf; [|done].
  destruct (found_by_addr _ _ _ _ Hwf Hf) as (_ & _ & Hip).
  eapply on_enclave_killed; [done|]. apply remove_key_outcome; [by apply orphan_ready|done].
Qed.

(** (C16) With a dead enclave one packet kills the server: a datagram for which the
    enclave is needed (a CONNECT_REQ when the table has room, a DATA or DISCONNECT packet
    of a connected client) ends the server process with SIGPIPE, because the failing
    send is never seen by [send_ipc_request]; every other datagram is handled. *)
Theorem packet_after_enclave_death_kills_server addr d s :
  wf_table (table s) → orphaned s →
  handle_udp_to_tun (Some (addr, d)) s = Fault SigPipe ↔ needs_enclave (table s) addr d.
Proof.
  intros Hwf Ho. rewrite handle_udp_dispatch. unfold needs_enclave.
  pose proof (zlen_cut d). pose proof (rx_buffer_len d) as Hb. case_decide as Hs.
  { split; [done|]. intros [? _]. lia. }
  assert (16 ≤ zlen d) as H16 by lia.
  destruct (decide (packet_type d = PKT_CONNECT_REQ)) as [->|Hc].
  { pose proof (on_connect_req_killed (rx_buffer d) addr s Hwf Ho Hb) as E.
    case_decide; [|destruct E as [s' E]]; rewrite E; naive_solver. }
  destruct (decide (packet_type d = PKT_DATA)) as [->|Hd].
  { rewrite on_data_killed by (done || lia).
    destruct (find_client_by_addr (table s) addr); naive_solver. }
  destruct (decide (packet_type d = PKT_PING)) as [->|Hp].
  { destruct (on_ping_run addr s) as (now & ts & s' & -> & _). naive_solver. }
  destruct (decide (packet_type d = PKT_DISCONNECT)) as [->|Hx]; [|naive_solver].
  rewrite on_disconnect_killed by done.
  destruct (find_client_by_addr (table s) addr); naive_solver.
Qed.
End claims.

(** ** Instances: the server of VpnServer.v, whose enclave dies *)
Section instances.
#[local] Existing Instance quiet_env.
#[local] Existing Instance zero_garbage.

Definition toy_mortal (l : nat) : server mortal :=
  Server (table toy_server) 0 (Ipc 0 (Mortal (channel toy_conn) l)) os_boot.

(** The enclave answers the CONNECT_REQ and dies before it sees the packet for it. *)
Example toy_server_survives :
  match event_loop 0 [Ready (Some (Some (peer 2, udp_packet PKT_CONNECT_REQ 80))) None;
                      Ready None (Some (Some (ip_packet 40))); Quiet true] (toy_mortal 4) with
  | Ok (_, s') => wf_table (table s') ∧ mortal_ready (channel (enclave_conn s'))
  | Fault f => f = SigPipe
  end.
Proof.
  apply server_survives_enclave_death; [apply toy_server_ok|by right|].
  repeat constructor; by vm_compute.
Qed.

Lemma packet_after_enclave_death_kills_server_witness :
  handle_udp_to_tun (Some (peer 1, toy_data)) (toy_mortal 0) = Fault SigPipe ↔
  needs_enclave (table (toy_mortal 0)) (peer 1) toy_data.
Proof.
  apply packet_after_enclave_death_kills_server; [apply toy_server_ok|done].
Defined.

Example toy_data_kills : handle_udp_to_tun (Some (peer 1, toy_data)) (toy_mortal 0) = Fault SigPipe.
Proof. by vm_compute. Qed.
End instances.
