(* ===== verification/ServerMain.v ===== *)
(** * The server program: process control, start-up and cleanup
    (src/server/enclave.c, enclave_connect/enclave_disconnect of enclave_client.c,
    create_udp_server of udp_server.c, main of vpn_server.c)

    The enclave process is seen from its parent: it runs, it has ended and waits to be
    reaped, or it was reaped. *)

From S2P Require Import Prelude Os Crypto ToySodium KeyManager Enclave EnclaveClient ClientManager.
From S2P Require Import Protocol VpnServer Config Tun EnclaveDeath.

Inductive child := NoChild | Alive | Zombie | Reaped.

(** The result of fork ([None]: -1), and whether the enclave process has ended, for
    whatever reason, by the time its parent looks at it for the [k]-th time. *)
Class ChildEnv := {
  env_fork : option positive;
  env_exits : nat → bool
}.

Inductive signal := SIGNULL | SIGTERM | SIGKILL.

Record main_state (C : Type) := MainState {
  m_server : server C;
  m_host : host;
  m_child : child;
  m_looks : nat;
  m_sleeps : list Z;
  m_heap : heap
}.
Arguments MainState {C} _ _ _ _ _ _.
Arguments m_server {C} _.
Arguments m_host {C} _.
Arguments m_child {C} _.
Arguments m_looks {C} _.
Arguments m_sleeps {C} _.
Arguments m_heap {C} _.

Definition TUN_DEVICE : list Z := chars "tun0".
Definition TUN_IP : list Z := chars "10.8.0.1".
Definition TUN_NETMASK : Z := 24.
Definition UDP_PORT : Z := 51820.

Section program.
Context {C : Type} `{Channel C, Garbage, Env, HostEnv, ChildEnv}.

Definition on_server {A} (m : M (server C) A) : M (main_state C) A :=
  zoom m_server (λ v s, MainState v (m_host s) (m_child s) (m_looks s) (m_sleeps s) (m_heap s)) m.
Definition on_main_host {A} (m : M host A) : M (main_state C) A :=
  zoom m_host (λ h s, MainState (m_server s) h (m_child s) (m_looks s) (m_sleeps s) (m_heap s)) m.
Definition on_main_heap {A} (m : M heap A) : M (main_state C) A :=
  zoom m_heap (λ h s, MainState (m_server s) (m_host s) (m_child s) (m_looks s) (m_sleeps s) h) m.
Definition set_child (c : child) : M (main_state C) () :=
  modify (λ s, MainState (m_server s) (m_host s) c (m_looks s) (m_sleeps s) (m_heap s)).
Definition main_sleep (n : Z) : M (main_state C) () :=
  modify (λ s, MainState (m_server s) (m_host s) (m_child s) (m_looks s) (m_sleeps s ++ [n]) (m_heap s)).

(** ** System calls on the enclave process *)

(** A running child may have ended meanwhile. *)
Definition look : M (main_state C) child := λ s,
  let c := match m_child s with
           | Alive => if env_exits (m_looks s) then Zombie else Alive
           | c => c
           end in
  Ok (c, MainState (m_server s) (m_host s) c (S (m_looks s)) (m_sleeps s) (m_heap s)).

Definition fork : M (main_state C) Z :=
  match env_fork with
  | Some pid => _ ← set_child Alive; mret (Zpos pid)
  | None => mret (-1)
  end.

(** kill(pid, sig) for the child; it succeeds until the child was reaped. *)
Definition kill (sig : signal) : M (main_state C) Z :=
  c ← look;
  match c with
  | Alive => match sig with SIGKILL => _ ← set_child Zombie; mret 0 | _ => mret 0 end
  | Zombie => mret 0
  | NoChild | Reaped => mret (-1)
  end.

(** waitpid(pid, &status, WNOHANG) *)
Definition waitpid_nohang (pid : Z) : M (main_state C) Z :=
  c ← look;
  match c with
  | Alive => mret 0
  | Zombie => _ ← set_child Reaped; mret pid
  | NoChild | Reaped => mret (-1)
  end.

(** waitpid(pid, &status, 0) returns when the child has ended. *)
Definition waitpid (pid : Z) : M (main_state C) Z :=
  c ← gets m_child;
  match c with
  | Alive | Zombie => _ ← set_child Reaped; mret pid
  | NoChild | Reaped => mret (-1)
  end.

(** ** src/server/enclave.c *)
Definition start_enclave_process : M (main_state C) Z :=
  pid ← fork;
  if decide (pid < 0) then mret (-1)
  else _ ← main_sleep 2; mret pid.

Definition stop_enclave_process (pid : Z) : M (main_state C) () :=
  if decide (pid ≤ 0) then mret ()
  else
    r ← kill SIGTERM;
    if decide (r = 0) then
      result ← waitpid_nohang pid;
      result ← (if decide (result = 0) then _ ← main_sleep 5; waitpid_nohang pid
                else mret result);
      if decide (result = 0) then _ ← kill SIGKILL; _ ← waitpid pid; mret ()
      else mret ()
    else mret ().

Definition is_enclave_running (pid : Z) : M (main_state C) bool :=
  if decide (pid ≤ 0) then mret false
  else r ← kill SIGNULL; mret (bool_decide (r = 0)).

(** ** Sockets *)
Definition enclave_connect : M host Z :=
  sock_fd ← open_fd;
  if decide (sock_fd < 0) then mret (-1)
  else
    r ← connect;
    if decide (r < 0) then _ ← close sock_fd; mret (-1) else mret sock_fd.

Definition enclave_disconnect (enclave_fd : Z) : M host () :=
  if decide (0 ≤ enclave_fd) then close enclave_fd else mret ().

Definition create_udp_server (port : Z) : M host Z :=
  udp_fd ← open_fd;
  if decide (udp_fd < 0) then mret (-1)
  else
    r ← bind (SockAddrIn AF_INET (htons port) 0);
    if decide (r < 0) then _ ← close udp_fd; mret (-1) else mret udp_fd.

(** ** main *)

(** What one turn of the loop finds. *)
Inductive happening :=
| Stopped
| SelectFails
| NothingReady
| PacketsReady (udp : option datagram) (tun : option tun_packet).

Definition main_turn (pid last : Z) (x : happening) : M (main_state C) (option Z) :=
  match x with
  | Stopped => on_server (loop_turn last Stop)
  | SelectFails => on_server (loop_turn last SelectFailed)
  | NothingReady =>
      alive ← is_enclave_running pid; on_server (loop_turn last (Quiet alive))
  | PacketsReady udp tun => on_server (loop_turn last (Ready udp tun))
  end.

(** [None]: the loop was left. *)
Fixpoint main_loop (pid last : Z) (xs : list happening) : M (main_state C) (option Z) :=
  match xs with
  | [] => mret (Some last)
  | x :: xs =>
      r ← main_turn pid last x;
      match r with
      | Some last => main_loop pid last xs
      | None => mret None
      end
  end.

(** How a failed step of the start-up ends: the descriptors [fds] are closed, then the
    enclave is left and its process stopped. *)
Definition abandon (fds : list Z) (enclave_fd pid : Z) : M (main_state C) Z :=
  _ ← foldr (λ fd m, _ ← on_main_host (close fd); m) (mret ()) fds;
  _ ← on_main_host (enclave_disconnect enclave_fd);
  _ ← stop_enclave_process pid;
  mret 1.

(** The loop of [main] and the cleanup behind it. *)
Definition serve_and_clean_up (pid enclave_fd tun_fd udp_fd client_table : Z)
    (xs : list happening) : M (main_state C) Z :=
  last ← on_server (on_sys time);
  _ ← main_loop pid last xs;
  _ ← on_server (on_enclave enclave_shutdown);
  _ ← on_main_host (enclave_disconnect enclave_fd);
  _ ← stop_enclave_process pid;
  _ ← on_main_heap (destroy_client_table (Some client_table));
  _ ← on_main_host (close udp_fd);
  _ ← on_main_host (close tun_fd);
  mret 0.

(** [main] from the TUN device on. *)
Definition set_up (malloc_ok : bool) (pid enclave_fd : Z) (xs : list happening) :
    M (main_state C) Z :=
  tun_fd ← on_main_host (create_tun_interface (Some TUN_DEVICE));
  if decide (tun_fd < 0) then abandon [] enclave_fd pid else
  r ← on_main_host (configure_tun_ip TUN_DEVICE TUN_IP TUN_NETMASK);
  if decide (r < 0) then abandon [tun_fd] enclave_fd pid else
  r ← on_main_host (bring_tun_up TUN_DEVICE);
  if decide (r < 0) then abandon [tun_fd] enclave_fd pid else
  udp_fd ← on_main_host (create_udp_server UDP_PORT);
  if decide (udp_fd < 0) then abandon [tun_fd] enclave_fd pid else
  r ← on_main_heap (new_client_table malloc_ok);
  match r with
  | None => abandon [udp_fd; tun_fd] enclave_fd pid
  | Some (client_table, t) =>
      _ ← on_server (modify (λ v, Server t (global_sequence v) (enclave_conn v) (sys v)));
      serve_and_clean_up pid enclave_fd tun_fd udp_fd client_table xs
  end.

Definition server_main (malloc_ok : bool) (xs : list happening) : M (main_state C) Z :=
  _ ← on_server (on_sys time);
  pid ← start_enclave_process;
  if decide (pid < 0) then mret 1
  else
    enclave_fd ← on_main_host enclave_connect;
    if decide (enclave_fd < 0) then _ ← stop_enclave_process pid; mret 1
    else
      r ← on_server (on_enclave enclave_ping);
      if decide (r ≠ 0) then abandon [] enclave_fd pid
      else set_up malloc_ok pid enclave_fd xs.
End program.

(** ** The enclave process *)
Section children.
Context {C : Type} `{Channel C, Garbage, Env, HostEnv, ChildEnv}.
Implicit Types s : main_state C.

(** A child that was forked and not reaped yet. *)
Definition unreaped (c : child) : Prop := c = Alive ∨ c = Zombie.
(** Nothing but the child and the sleeps changed. *)
Definition same_resources s s' : Prop :=
  m_server s' = m_server s ∧ m_host s' = m_host s ∧ m_heap s' = m_heap s.

Lemma same_resources_trans s1 s2 s3 :
  same_resources s1 s2 → same_resources s2 s3 → same_resources s1 s3.
Proof. unfold same_resources. intuition congruence. Qed.

Lemma look_run s :
  unreaped (m_child s) →
  ∃ c s', look s = Ok (c, s') ∧ m_child s' = c ∧ unreaped c ∧ same_resources s s'.
Proof.
  intros Hc. eexists _, _. split; [reflexivity|]. split; [done|]. split; [|done].
  unfold unreaped. destruct Hc as [-> | ->]; [case_match|]; auto.
Qed.

Lemma kill_run sig s :
  unreaped (m_child s) →
  ∃ s', kill sig s = Ok (0, s') ∧ unreaped (m_child s') ∧ same_resources s s'.
Proof.
  intros (c & s1 & E & Hc1 & Hc & Hr)%look_run. unfold kill.
  rewrite (run_bind_ok _ _ _ _ _ E). destruct Hc as [-> | ->].
  - destruct sig; (eexists; split; [reflexivity|]); unfold unreaped; simpl; auto.
  - exists s1. split; [done|]. split; [by right|done].
Qed.

Lemma waitpid_nohang_run pid s :
  unreaped (m_child s) →
  ∃ r s', waitpid_nohang pid s = Ok (r, s') ∧ same_resources s s' ∧
    ((r = 0 ∧ unreaped (m_child s')) ∨ (r = pid ∧ m_child s' = Reaped)).
Proof.
  intros (c & s1 & E & Hc1 & Hc & Hr)%look_run. unfold waitpid_nohang.
  rewrite (run_bind_ok _ _ _ _ _ E). destruct Hc as [-> | ->].
  - exists 0, s1. split; [done|]. split; [done|]. left. split; [done|by left].
  - eexists pid, _. split; [reflexivity|]. split; [done|]. by right.
Qed.

Lemma waitpid_run pid s :
  unreaped (m_child s) →
  ∃ s', waitpid pid s = Ok (pid, s') ∧ same_resources s s' ∧ m_child s' = Reaped.
Proof.
  intros Hc. unfold waitpid. rewrite run_bind, run_gets. eexists.
  destruct Hc as [-> | ->]; (split; [reflexivity|done]).
Qed.

(** The process is gone and waited for afterwards, whether it obeys or not. *)
Lemma stop_enclave_process_run pid s :
  0 < pid → unreaped (m_child s) →
  ∃ s', stop_enclave_process pid s = Ok ((), s') ∧ m_child s' = Reaped ∧ same_resources s s'.
Proof.
  intros Hpid Hc. unfold stop_enclave_process. rewrite decide_False by lia.
  destruct (kill_run SIGTERM s Hc) as (s1 & E1 & Hc1 & Hr1).
  rewrite (run_bind_ok _ _ _ _ _ E1), decide_True by done.
  destruct (waitpid_nohang_run pid s1 Hc1) as (r2 & s2 & E2 & Hr2 & Hc2).
  rewrite (run_bind_ok _ _ _ _ _ E2).
  pose proof (same_resources_trans _ _ _ Hr1 Hr2) as Hr12. clear E1 E2.
  destruct Hc2 as [[-> Hc2]|[-> Hc2]]; cycle 1.
  { rewrite decide_False by lia. rewrite run_bind, run_ret, decide_False by lia. by exists s2. }
  rewrite decide_True by done. rewrite run_bind. rewrite run_bind. unfold main_sleep at 1.
  rewrite run_modify. set (s3 := MainState _ _ _ _ _ _).
  destruct (waitpid_nohang_run pid s3 Hc2) as (r4 & s4 & E4 & Hr4 & Hc4). rewrite E4.
  assert (same_resources s s4) as Hr by (by eapply same_resources_trans).
  destruct Hc4 as [[-> Hc4]|[-> Hc4]]; cycle 1.
  { rewrite decide_False by lia. by exists s4. }
  rewrite decide_True by done. destruct (kill_run SIGKILL s4 Hc4) as (s5 & E5 & Hc5 & Hr5).
  rewrite (run_bind_ok _ _ _ _ _ E5).
  destruct (waitpid_run pid s5 Hc5) as (s6 & E6 & Hr6 & Hc6).
  rewrite (run_bind_ok _ _ _ _ _ E6). exists s6. split; [done|]. split; [done|].
  eauto using same_resources_trans.
Qed.

(** A child that was not reaped is taken for running. *)
Lemma is_enclave_running_run pid s :
  0 < pid → unreaped (m_child s) →
  ∃ s', is_enclave_running pid s = Ok (true, s') ∧ unreaped (m_child s') ∧ same_resources s s'.
Proof.
  intros Hpid (s' & E & Hc & Hr)%(kill_run SIGNULL). exists s'. unfold is_enclave_running.
  rewrite decide_False by lia. by rewrite (run_bind_ok _ _ _ _ _ E).
Qed.

Lemma start_enclave_process_run s :
  ∃ pid s', start_enclave_process s = Ok (pid, s') ∧ same_resources s s' ∧
    match env_fork with
    | Some _ => 0 < pid ∧ m_child s' = Alive
    | None => pid = -1 ∧ m_child s' = m_child s
    end.
Proof.
  unfold start_enclave_process, fork. destruct env_fork as [p|].
  - eexists (Zpos p), _. split; [cbn; reflexivity|]. by split.
  - exists (-1), s. split; [reflexivity|]. by split.
Qed.
End children.

(** ** The resources of the server program *)
Section resources.
Context {C : Type} `{Channel C, Garbage, Env, HostEnv, ChildEnv}.
Implicit Types s : main_state C.

(** Everything was given back. *)
Definition released s : Prop :=
  open_fds (m_host s) = [] ∧ m_child s = Reaped ∧ blocks (m_heap s) = [].

Definition with_host (h : host) s : main_state C :=
  MainState (m_server s) h (m_child s) (m_looks s) (m_sleeps s) (m_heap s).

Lemma on_main_host_run {A} (m : M host A) s a h :
  m (m_host s) = Ok (a, h) → on_main_host m s = Ok (a, with_host h s).
Proof. intros E. unfold on_main_host. by rewrite run_zoom, E. Qed.
Lemma on_server_run {A} (m : M (server C) A) s a v :
  m (m_server s) = Ok (a, v) →
  on_server m s = Ok (a, MainState v (m_host s) (m_child s) (m_looks s) (m_sleeps s) (m_heap s)).
Proof. intros E. unfold on_server. by rewrite run_zoom, E. Qed.
Lemma on_main_heap_run {A} (m : M heap A) s a h :
  m (m_heap s) = Ok (a, h) →
  on_main_heap m s = Ok (a, MainState (m_server s) (m_host s) (m_child s) (m_looks s) (m_sleeps s) h).
Proof. intros E. unfold on_main_heap. by rewrite run_zoom, E. Qed.

Lemma close_holds fd fds s :
  holds (fd :: fds) (m_host s) →
  ∃ h, on_main_host (close fd) s = Ok ((), with_host h s) ∧ holds fds h.
Proof.
  intros Hs. destruct (holds_close fd fds _ Hs) as (h & E & ?).
  exists h. split; [by apply on_main_host_run|done].
Qed.

Lemma open_holds m fds s :
  opens m → holds fds (m_host s) →
  ∃ fd h, on_main_host m s = Ok (fd, with_host h s) ∧
    ((fd < 0 ∧ holds fds h) ∨ (0 ≤ fd ∧ holds (fd :: fds) h)).
Proof.
  intros Hm Hs. destruct (holds_open m fds _ Hm Hs) as (fd & h & E & ?).
  exists fd, h. split; [by apply on_main_host_run|done].
Qed.

(** A call of the host that opens and closes nothing. *)
Lemma quiet_holds {A} (m : M host A) fds s :
  (∀ h, ∃ r h', m h = Ok (r, h') ∧ open_fds h' = open_fds h ∧ next_fd h' = next_fd h) →
  holds fds (m_host s) → ∃ r h, on_main_host m s = Ok (r, with_host h s) ∧ holds fds h.
Proof.
  intros Hm Hs. destruct (Hm (m_host s)) as (r & h & E & Eo & En).
  exists r, h. split; [by apply on_main_host_run|]. by eapply holds_same.
Qed.

Lemma enclave_connect_opens : opens enclave_connect.
Proof. apply open_then. intros h. by eexists _, _. Qed.
Lemma create_udp_server_opens port : opens (create_udp_server port).
Proof. apply open_then. intros h. by eexists _, _. Qed.
Lemma create_tun_interface_opens dev : opens (create_tun_interface dev).
Proof.
  intros h Hh. destruct (create_tun_interface_run dev h Hh) as (fd & h' & ? & ? & _ & ?).
  by exists fd, h'.
Qed.

Lemma disconnect_holds fd fds s :
  0 ≤ fd → holds (fd :: fds) (m_host s) →
  ∃ h, on_main_host (enclave_disconnect fd) s = Ok ((), with_host h s) ∧ holds fds h.
Proof.
  intros Hfd Hs. unfold enclave_disconnect. rewrite decide_True by done. by apply close_holds.
Qed.

Lemma stop_releases pid s :
  0 < pid → unreaped (m_child s) → holds [] (m_host s) → blocks (m_heap s) = [] →
  ∃ s', stop_enclave_process pid s = Ok ((), s') ∧ released s'.
Proof.
  intros Hpid Hc Hh%holds_nothing Hb.
  destruct (stop_enclave_process_run pid s Hpid Hc) as (s' & E & Hc' & _ & Hh' & Hb').
  exists s'. split; [done|]. split; [by rewrite Hh'|]. by rewrite Hb'.
Qed.

Lemma abandon_run fds enclave_fd pid s :
  0 < pid → 0 ≤ enclave_fd → unreaped (m_child s) → holds (fds ++ [enclave_fd]) (m_host s) →
  blocks (m_heap s) = [] → ∃ s', abandon fds enclave_fd pid s = Ok (1, s') ∧ released s'.
Proof.
  intros Hpid Hfd. unfold abandon. revert s. induction fds as [|fd fds IH]; intros s Hc Hs Hb.
  - cbn [foldr]. rewrite run_bind, run_ret.
    destruct (disconnect_holds enclave_fd [] s Hfd Hs) as (h & E1 & Hh).
    rewrite (run_bind_ok _ _ _ _ _ E1).
    destruct (stop_releases pid (with_host h s) Hpid Hc Hh Hb) as (s2 & E2 & Hrel).
    rewrite (run_bind_ok _ _ _ _ _ E2). by exists s2.
  - destruct (close_holds fd (fds ++ [enclave_fd]) s Hs) as (h & E1 & Hh).
    destruct (IH (with_host h s) Hc Hh Hb) as (s' & E & Hrel). exists s'. split; [|done].
    rewrite <-E. cbn [foldr]. rewrite !run_bind. by rewrite E1.
Qed.
End resources.

(** ** The loop *)

(** A turn whose TUN packet, if any, fits the buffers. *)
Definition happening_fits (x : happening) : Prop :=
  match x with PacketsReady _ (Some (Some d)) => zlen d ≤ 2004 | _ => True end.

Section loop.
Context {C : Type} `{Garbage, Env, HostEnv, ChildEnv} `{!Channel C}.
Implicit Types s : main_state C.
(** [ready]: the state of a connection between two requests; [F]: how the process may be
    ended by talking to the enclave. *)
Context (F : fault → Prop) (ready : C → Prop).
Definition server_works (v : server C) : Prop :=
  wf_table (table v) ∧ ready (channel (enclave_conn v)).
Hypothesis turn_works : ∀ last tn v,
  server_works v → turn_fits tn → except F (loop_turn last tn v) (λ _ v', server_works v').
Hypothesis ping_works : ∀ i : ipc C,
  ready (channel i) → except F (enclave_ping i) (λ _ i', ready (channel i')).
Hypothesis shutdown_works : ∀ i : ipc C,
  ready (channel i) → except F (enclave_shutdown i) (λ _ _, True).

(** What the loop keeps: the server is in order, its process resources are untouched. *)
Definition serving s s' : Prop :=
  server_works (m_server s') ∧ unreaped (m_child s') ∧ m_host s' = m_host s ∧
  m_heap s' = m_heap s.

Lemma serving_trans s1 s2 s3 : serving s1 s2 → serving s2 s3 → serving s1 s3.
Proof. unfold serving. intuition congruence. Qed.

Lemma server_turn_run last tn s :
  server_works (m_server s) → unreaped (m_child s) → turn_fits tn →
  except F (on_server (loop_turn last tn) s) (λ _ s', serving s s').
Proof.
  intros Hok Hc Hfit. eapply except_weaken; [by apply except_zoom, turn_works|].
  by intros r s' (v & Hv & ->).
Qed.

Lemma main_turn_run pid last x s :
  0 < pid → server_works (m_server s) → unreaped (m_child s) → happening_fits x →
  except F (main_turn pid last x s) (λ _ s', serving s s').
Proof.
  intros Hpid Hok Hc Hfit. destruct x as [| | |udp tun]; cbn [main_turn];
    [by apply server_turn_run..| |by apply server_turn_run].
  destruct (is_enclave_running_run pid s Hpid Hc) as (s1 & E1 & Hc1 & Hv1 & Hh1 & Hb1).
  rewrite (run_bind_ok _ _ _ _ _ E1). rewrite <-Hv1 in Hok.
  eapply except_weaken; [by apply server_turn_run|]. intros r s' (? & ? & ? & ?).
  split_and!; [done..|congruence|congruence].
Qed.

Lemma main_loop_run pid xs last s :
  0 < pid → server_works (m_server s) → unreaped (m_child s) → Forall happening_fits xs →
  except F (main_loop pid last xs s) (λ _ s', serving s s').
Proof.
  intros Hpid. revert last s. induction xs as [|x xs IH]; intros last s Hok Hc Hfit; [done|].
  apply Forall_cons in Hfit as [Hx Hxs]. cbn [main_loop].
  eapply except_bind; [by apply main_turn_run|]. intros [last1|] s1 Hs1; [|done].
  eapply except_weaken; [apply IH; by try apply Hs1|]. intros r s'. by apply serving_trans.
Qed.

Lemma serve_and_clean_up_run pid enclave_fd tun_fd udp_fd block xs s :
  0 < pid → 0 ≤ enclave_fd → server_works (m_server s) → unreaped (m_child s) →
  holds [enclave_fd; udp_fd; tun_fd] (m_host s) → wf_heap (m_heap s) →
  blocks (m_heap s) = [block] → Forall happening_fits xs →
  except F (serve_and_clean_up pid enclave_fd tun_fd udp_fd block xs s)
    (λ code s', code = 0 ∧ released s').
Proof.
  intros Hpid Hfd Hok Hc Hh Hwfh Hb Hfit. unfold serve_and_clean_up.
  rewrite (run_bind_ok _ _ _ _ _ (on_server_run _ _ _ _ (on_sys_run _ _ _ _ eq_refl))).
  eapply except_bind; [by apply main_loop_run; try done; destruct Hok|].
  intros r s2 (Hok2 & Hc2 & Hh2 & Hb2). cbn [m_host m_heap] in Hh2, Hb2.
  eapply except_bind; [apply except_zoom, except_zoom, shutdown_works, Hok2|].
  intros r3 s3 (v3 & _ & ->). cbn [m_server].
  set (s3 := MainState _ _ _ _ _ _).
  destruct (disconnect_holds enclave_fd [udp_fd; tun_fd] s3) as (h4 & E4 & Hh4);
    [done|cbn; by rewrite Hh2|].
  rewrite (run_bind_ok _ _ _ _ _ E4).
  destruct (stop_enclave_process_run pid (with_host h4 s3) Hpid Hc2) as (s5 & E5 & Hc5 & _ & Hh5 & Hb5).
  rewrite (run_bind_ok _ _ _ _ _ E5). cbn [with_host m_host m_heap s3] in Hh5, Hb5.
  destruct (free_run block [] (m_heap s5)) as (hp & E6 & _ & Hb6); [by rewrite Hb5, Hb2|by rewrite Hb5, Hb2|].
  rewrite (run_bind_ok _ _ _ _ _ (on_main_heap_run (destroy_client_table (Some block)) _ _ _ E6)).
  set (s6 := MainState _ _ _ _ _ _).
  destruct (close_holds udp_fd [tun_fd] s6) as (h7 & E7 & Hh7); [cbn; by rewrite Hh5|].
  rewrite (run_bind_ok _ _ _ _ _ E7).
  destruct (close_holds tun_fd [] (with_host h7 s6) Hh7) as (h8 & E8 & Hh8).
  rewrite (run_bind_ok _ _ _ _ _ E8). split; [done|]. split; [by apply holds_nothing|done].
Qed.

(** A call of the shell changes no descriptor. *)
Lemma configure_quiet dev ip n h :
  ∃ r h', configure_tun_ip dev ip n h = Ok (r, h') ∧ open_fds h' = open_fds h ∧
    next_fd h' = next_fd h.
Proof. by eexists _, _. Qed.
Lemma bring_up_quiet dev h :
  ∃ r h', bring_tun_up dev h = Ok (r, h') ∧ open_fds h' = open_fds h ∧ next_fd h' = next_fd h.
Proof. by eexists _, _. Qed.

Lemma set_up_run malloc_ok pid enclave_fd xs s :
  0 < pid → 0 ≤ enclave_fd → ready (channel (enclave_conn (m_server s))) →
  unreaped (m_child s) → holds [enclave_fd] (m_host s) → m_heap s = heap_boot →
  Forall happening_fits xs →
  except F (set_up malloc_ok pid enclave_fd xs s) (λ code s', (code = 0 ∨ code = 1) ∧ released s').
Proof.
  intros Hpid Hfd Hr Hc Hs Hheap Hfit. unfold set_up.
  assert (∀ fds h, holds (fds ++ [enclave_fd]) h →
    except F (abandon fds enclave_fd pid (with_host h s)) (λ code s', (code = 0 ∨ code = 1) ∧ released s'))
    as Hgive.
  { intros fds h Hh. destruct (abandon_run fds enclave_fd pid (with_host h s) Hpid Hfd Hc Hh)
      as (s' & E & ?); [cbn; by rewrite Hheap|]. rewrite E. split; [by right|done]. }
  destruct (open_holds _ [enclave_fd] s (create_tun_interface_opens (Some TUN_DEVICE)) Hs)
    as (tun & h1 & E1 & Hh1). rewrite (run_bind_ok _ _ _ _ _ E1).
  destruct Hh1 as [[Htun Hh1]|[Htun Hh1]]; [rewrite decide_True by lia; by apply (Hgive [])|].
  rewrite decide_False by lia.
  destruct (quiet_holds _ _ (with_host h1 s) (configure_quiet TUN_DEVICE TUN_IP TUN_NETMASK) Hh1)
    as (r2 & h2 & E2 & Hh2). rewrite (run_bind_ok _ _ _ _ _ E2).
  case_decide; [by apply (Hgive [tun])|].
  destruct (quiet_holds _ _ (with_host h2 s) (bring_up_quiet TUN_DEVICE) Hh2)
    as (r3 & h3 & E3 & Hh3). rewrite (run_bind_ok _ _ _ _ _ E3).
  case_decide; [by apply (Hgive [tun])|].
  destruct (open_holds _ _ (with_host h3 s) (create_udp_server_opens UDP_PORT) Hh3)
    as (udp & h4 & E4 & Hh4). rewrite (run_bind_ok _ _ _ _ _ E4).
  destruct Hh4 as [[Hudp Hh4]|[Hudp Hh4]]; [rewrite decide_True by lia; by apply (Hgive [tun])|].
  rewrite decide_False by lia. destruct malloc_ok; cycle 1.
  { rewrite (run_bind_ok _ _ _ _ _ (on_main_heap_run (new_client_table false) _ _ _ eq_refl)).
    by apply (Hgive [udp; tun] h4). }
  rewrite (run_bind_ok _ _ _ _ _ (on_main_heap_run (new_client_table true) _ _ _ eq_refl)).
  cbn [with_host m_heap]. rewrite Hheap.
  rewrite (run_bind_ok _ _ _ _ _ (on_server_run _ _ _ _ eq_refl)).
  eapply except_weaken; [apply serve_and_clean_up_run; try done|].
  - split; [by apply init_client_table_wf|done].
  - cbn. replace [enclave_fd; udp; tun] with ([enclave_fd] ++ [udp; tun]) by done.
    by rewrite Permutation_app_comm.
  - split; cbn; [apply NoDup_singleton|by apply Forall_singleton].
  - intros code s' [-> ?]. by split; [left|].
Qed.

(** What is left of the process resources when [main] returns. *)
Definition given_back s : Prop :=
  open_fds (m_host s) = [] ∧ blocks (m_heap s) = [] ∧
  m_child s = match env_fork with Some _ => Reaped | None => NoChild end.

Lemma server_main_run malloc_ok xs s :
  ready (channel (enclave_conn (m_server s))) → m_host s = host_boot → m_heap s = heap_boot →
  m_child s = NoChild → Forall happening_fits xs →
  except F (server_main malloc_ok xs s) (λ code s', (code = 0 ∨ code = 1) ∧ given_back s').
Proof.
  intros Hr Hh Hheap Hc Hfit. unfold server_main, given_back.
  rewrite (run_bind_ok _ _ _ _ _ (on_server_run _ _ _ _ (on_sys_run _ _ _ _ eq_refl))).
  set (s1 := MainState _ _ _ _ _ _).
  destruct (start_enclave_process_run s1) as (pid & s2 & E2 & (Hv2 & Hm2 & Hb2) & Hpid).
  rewrite (run_bind_ok _ _ _ _ _ E2). destruct env_fork as [p|]; cycle 1.
  { destruct Hpid as [-> Hc2]. rewrite decide_True by lia. split; [by right|].
    rewrite Hm2, Hb2, Hc2. cbn. by rewrite Hh, Hheap, Hc. }
  destruct Hpid as [Hpid Hc2]. rewrite decide_False by lia.
  assert (m_heap s2 = heap_boot) as Hheap2 by (rewrite Hb2; apply Hheap).
  assert (holds [] (m_host s2)) as Hh2.
  { rewrite Hm2. cbn. rewrite Hh. apply holds_boot. }
  destruct (open_holds _ [] s2 enclave_connect_opens Hh2) as (fd & h3 & E3 & Hh3).
  rewrite (run_bind_ok _ _ _ _ _ E3).
  destruct Hh3 as [[Hfd Hh3]|[Hfd Hh3]].
  { rewrite decide_True by lia.
    destruct (stop_releases pid (with_host h3 s2)) as (s' & E & ? & ? & ?);
      [done|by left|done|cbn; by rewrite Hheap2|].
    rewrite (run_bind_ok _ _ _ _ _ E). split; [by right|auto]. }
  rewrite decide_False by lia.
  assert (ready (channel (enclave_conn (m_server s2)))) as Hr2 by (rewrite Hv2; apply Hr).
  eapply except_bind; [apply except_zoom, except_zoom, ping_works, Hr2|].
  intros r s4 (v & (i & Hi & ->) & ->). set (s5 := MainState _ _ _ _ _ _).
  case_decide.
  - destruct (abandon_run [] fd pid s5) as (s' & E & ? & ? & ?);
      [done|done|by left|done|cbn; by rewrite Hheap2|]. rewrite E. split; [by right|auto].
  - eapply except_weaken; [apply set_up_run; try done; by left|].
    intros code s' (? & ? & ? & ?). auto.
Qed.
End loop.

Section claims.
Context {C : Type} `{Sodium, Garbage, Env, HostEnv, ChildEnv} `{!Channel C}.
Implicit Types s : main_state C.

(** (C12) The server program gives everything back: with an enclave that answers its
    requests and TUN packets of at most 2004 bytes, whatever fork, the sockets, the setup of
    the TUN device, malloc and the clients do and
    whether the enclave process obeys SIGTERM or not, [main] returns, every
    descriptor it opened is closed, the client table is freed (once), and the enclave
    process, if it was started, has ended and was waited for - after a failure of any
    step of the start-up as well as after the loop. *)
Theorem server_main_releases_everything `{!SodiumLaws _, !EnclaveService C} malloc_ok xs s :
  svc_ready (channel (enclave_conn (m_server s))) → m_host s = host_boot →
  m_heap s = heap_boot → m_child s = NoChild → Forall happening_fits xs →
  ∃ code s', server_main malloc_ok xs s = Ok (code, s') ∧ (code = 0 ∨ code = 1) ∧ given_back s'.
Proof.
  intros Hr Hh Hheap Hc Hfit. apply except_returns.
  apply (server_main_run (λ _, False) svc_ready); try done.
  - intros last tn v [Hwf Hrv] Htn.
    destruct (loop_turn_ok last tn v) as (r & v' & E & [??]); [by split|done|].
    by eapply except_ok; [exact E|split].
  - intros i Hi. destruct (svc_ping i Hi) as (i' & E & Hi' & _). by eapply except_ok.
  - intros i Hi. destruct (svc_shutdown i Hi) as (i' & E). by eapply except_ok.
Qed.

(** (C13) The server program over an enclave process that may end at any moment, also before
    the first request and in the middle of one. With TUN packets of at most 2004 bytes
    [main] is killed by SIGPIPE (and the kernel takes everything back), or it returns as if the enclave had lived, with every
    descriptor closed, the client table freed and the enclave process waited for. *)
Theorem server_main_survives_enclave_death `{!FallibleService C} malloc_ok xs s :
  fs_ready (channel (enclave_conn (m_server s))) → m_host s = host_boot →
  m_heap s = heap_boot → m_child s = NoChild → Forall happening_fits xs →
  server_main malloc_ok xs s = Fault SigPipe ∨
  ∃ code s', server_main malloc_ok xs s = Ok (code, s') ∧ (code = 0 ∨ code = 1) ∧ given_back s'.
Proof.
  intros Hr Hh Hheap Hc Hfit.
  assert (except (.= SigPipe) (server_main malloc_ok xs s)
    (λ code s', (code = 0 ∨ code = 1) ∧ given_back s')) as Hx.
  { apply (server_main_run (.= SigPipe) fs_ready); try done.
    - intros last tn v Hv Htn. by apply loop_turn_calm.
    - apply fs_ping.
    - apply fs_shutdown. }
  unfold except in Hx. destruct (server_main malloc_ok xs s) as [[code s']|f]; [right; eauto|].
  left. by rewrite Hx.
Qed.

Lemma quiet_turn_run last (v : server C) :
  ∃ last' v', loop_turn last (Quiet true) v = Ok (Some last', v').
Proof.
  cbn [loop_turn]. rewrite (run_bind_ok _ _ _ _ _ (on_sys_run _ _ _ _ eq_refl)).
  set (v1 := Server _ _ _ _). rewrite run_bind. destruct (decide _); [|by eexists _, _].
  destruct (check_client_timeouts_run (table v1) (sys v1)) as [o' E].
  rewrite (run_bind_ok _ _ _ _ _ (on_table_run _ _ _ _ E)). by eexists _, _.
Qed.

(** (C40) The death of the enclave is not noticed: as long as no packet arrives the loop
    goes on turn after turn, also if the enclave process has ended long ago, because
    kill(pid, 0) succeeds for a process that was not waited for. *)
Theorem enclave_death_is_not_noticed n pid last s :
  0 < pid → unreaped (m_child s) →
  ∃ last' s', main_loop pid last (replicate n NothingReady) s = Ok (Some last', s') ∧
    unreaped (m_child s').
Proof.
  intros Hpid. revert last s. induction n as [|n IH]; intros last s Hc; [by exists last, s|].
  cbn [replicate main_loop main_turn].
  destruct (is_enclave_running_run pid s Hpid Hc) as (s1 & E1 & Hc1 & _).
  destruct (quiet_turn_run last (m_server s1)) as (last2 & v2 & E2).
  rewrite run_bind, (run_bind_ok _ _ _ _ _ E1), (on_server_run _ _ _ _ E2).
  by apply IH.
Qed.
End claims.

(** ** Instances *)
Section instances.
#[local] Existing Instance quiet_env.
#[local] Existing Instance zero_garbage.
#[local] Existing Instance kind_host.
(** An enclave process that ends before its parent looks at it for the third time. *)
#[local] Instance short_lived : ChildEnv := {| env_fork := Some 4711%positive; env_exits := λ k, (2 <=? k)%nat |}.

Definition booting : main_state enclave := MainState toy_server host_boot NoChild 0 [] heap_boot.

Lemma server_main_releases_everything_witness :
  ∃ code s', server_main true [NothingReady; PacketsReady (Some (Some (peer 5, udp_packet PKT_PING 16)))
      (Some (Some (ip_packet 40))); NothingReady; Stopped] booting = Ok (code, s') ∧
    (code = 0 ∨ code = 1) ∧ given_back s'.
Proof.
  apply server_main_releases_everything; [by split|done|done|done|].
  repeat apply Forall_cons_2; by try apply Forall_nil.
Defined.

(** The enclave process answers the first message of the ping and dies. *)
Lemma server_main_survives_enclave_death_witness :
  let run := server_main true [NothingReady; PacketsReady (Some (Some (peer 1, toy_data)))
      (Some (Some (ip_packet 40))); Stopped] (MainState (toy_mortal 1) host_boot NoChild 0 [] heap_boot) in
  run = Fault SigPipe ∨
  ∃ code s', run = Ok (code, s') ∧ (code = 0 ∨ code = 1) ∧ given_back s'.
Proof.
  apply server_main_survives_enclave_death; [by right|done|done|done|].
  repeat apply Forall_cons_2; by try apply Forall_nil.
Defined.

Lemma enclave_death_is_not_noticed_witness :
  ∃ last' s', main_loop 4711 0 (replicate 3 NothingReady)
      (MainState toy_server host_boot Zombie 0 [] heap_boot) = Ok (Some last', s') ∧ unreaped (m_child s').
Proof. apply enclave_death_is_not_noticed; [done|by right]. Defined.
End instances.
