(* ===== verification/VpnClient.v ===== *)
(** * The VPN client (src/client/vpn_client.c)

    The client record, its operations and the loop of [main]. The state has, beside
    the client, the sequence counter of protocol.c, the number of random draws, the
    operating system, the descriptors and the times slept. *)

From S2P Require Import Prelude Os Crypto ToySodium Protocol Config Tun.

Definition INITIAL_BACKOFF : Z := 1.
Definition MAX_BACKOFF : Z := 60.
Definition CLIENT_BUFFER : Z := 2048.
Definition CLIENT_USERNAME : Z := 64.
#[export] Hint Unfold CLIENT_BUFFER CLIENT_USERNAME : sizes.

Record vpn_client_t := VpnClient {
  sock_fd : Z;
  tun_fd : Z;
  server_addr : sockaddr_in;
  client_private_key : list Z;
  client_public_key : list Z;
  peer_public_key : list Z;      (** server_public_key *)
  client_session_key : list Z;   (** session_key *)
  client_vpn_ip : Z;             (** vpn_ip *)
  client_session_id : Z;         (** session_id *)
  connected : bool;
  last_ping_sent : Z;
  last_pong_received : Z;
  reconnect_attempts : Z;
  backoff_seconds : Z;
  username : list Z;
  config : vpn_config_t
}.

Definition set_sock_fd (x : Z) (c : vpn_client_t) : vpn_client_t :=
  VpnClient x (tun_fd c) (server_addr c) (client_private_key c) (client_public_key c)
    (peer_public_key c) (client_session_key c) (client_vpn_ip c) (client_session_id c) (connected c)
    (last_ping_sent c) (last_pong_received c) (reconnect_attempts c) (backoff_seconds c)
    (username c) (config c).
Definition set_tun_fd (x : Z) (c : vpn_client_t) : vpn_client_t :=
  VpnClient (sock_fd c) x (server_addr c) (client_private_key c) (client_public_key c)
    (peer_public_key c) (client_session_key c) (client_vpn_ip c) (client_session_id c) (connected c)
    (last_ping_sent c) (last_pong_received c) (reconnect_attempts c) (backoff_seconds c)
    (username c) (config c).
Definition set_server_addr (x : sockaddr_in) (c : vpn_client_t) : vpn_client_t :=
  VpnClient (sock_fd c) (tun_fd c) x (client_private_key c) (client_public_key c)
    (peer_public_key c) (client_session_key c) (client_vpn_ip c) (client_session_id c) (connected c)
    (last_ping_sent c) (last_pong_received c) (reconnect_attempts c) (backoff_seconds c)
    (username c) (config c).
(** The fields taken from a CONNECT_RESP. *)
Definition set_session (ip sid : Z) (pk : list Z) (c : vpn_client_t) : vpn_client_t :=
  VpnClient (sock_fd c) (tun_fd c) (server_addr c) (client_private_key c) (client_public_key c)
    pk (client_session_key c) ip sid (connected c)
    (last_ping_sent c) (last_pong_received c) (reconnect_attempts c) (backoff_seconds c)
    (username c) (config c).
Definition set_session_key (k : list Z) (c : vpn_client_t) : vpn_client_t :=
  VpnClient (sock_fd c) (tun_fd c) (server_addr c) (client_private_key c) (client_public_key c)
    (peer_public_key c) k (client_vpn_ip c) (client_session_id c) (connected c)
    (last_ping_sent c) (last_pong_received c) (reconnect_attempts c) (backoff_seconds c)
    (username c) (config c).
Definition set_connected (x : bool) (c : vpn_client_t) : vpn_client_t :=
  VpnClient (sock_fd c) (tun_fd c) (server_addr c) (client_private_key c) (client_public_key c)
    (peer_public_key c) (client_session_key c) (client_vpn_ip c) (client_session_id c) x
    (last_ping_sent c) (last_pong_received c) (reconnect_attempts c) (backoff_seconds c)
    (username c) (config c).
Definition set_ping_pong (ping pong : Z) (c : vpn_client_t) : vpn_client_t :=
  VpnClient (sock_fd c) (tun_fd c) (server_addr c) (client_private_key c) (client_public_key c)
    (peer_public_key c) (client_session_key c) (client_vpn_ip c) (client_session_id c) (connected c)
    ping pong (reconnect_attempts c) (backoff_seconds c) (username c) (config c).
Definition set_username (x : list Z) (c : vpn_client_t) : vpn_client_t :=
  VpnClient (sock_fd c) (tun_fd c) (server_addr c) (client_private_key c) (client_public_key c)
    (peer_public_key c) (client_session_key c) (client_vpn_ip c) (client_session_id c) (connected c)
    (last_ping_sent c) (last_pong_received c) (reconnect_attempts c) (backoff_seconds c)
    x (config c).
Definition set_backoff (attempts backoff : Z) (c : vpn_client_t) : vpn_client_t :=
  VpnClient (sock_fd c) (tun_fd c) (server_addr c) (client_private_key c) (client_public_key c)
    (peer_public_key c) (client_session_key c) (client_vpn_ip c) (client_session_id c) (connected c)
    (last_ping_sent c) (last_pong_received c) attempts backoff (username c) (config c).

(** What the network answers to the [k]-th CONNECT_REQ: the datagram the blocking
    recvfrom returns, [None] when it times out. *)
Class Network := env_answer : nat → option (list Z).

Record client_state := ClientState {
  client : vpn_client_t;
  client_sequence : Z;         (** global_sequence of protocol.c *)
  client_rng : nat;
  answers : nat;
  sleeps : list Z;
  client_host : host;
  client_os : os
}.

Definition on_client {A} (f : vpn_client_t → A * vpn_client_t) : M client_state A := λ s,
  let '(a, c) := f (client s) in
  Ok (a, ClientState c (client_sequence s) (client_rng s) (answers s) (sleeps s)
                     (client_host s) (client_os s)).
Definition get {A} (f : vpn_client_t → A) : M client_state A := gets (λ s, f (client s)).
Definition set (f : vpn_client_t → vpn_client_t) : M client_state () :=
  on_client (λ c, ((), f c)).
Definition on_host {A} (m : M host A) : M client_state A :=
  zoom client_host (λ h s, ClientState (client s) (client_sequence s) (client_rng s) (answers s)
                                       (sleeps s) h (client_os s)) m.
Definition on_client_os {A} (m : M os A) : M client_state A :=
  zoom client_os (λ o s, ClientState (client s) (client_sequence s) (client_rng s) (answers s)
                                     (sleeps s) (client_host s) o) m.
Definition sleep (n : Z) : M client_state () :=
  modify (λ s, ClientState (client s) (client_sequence s) (client_rng s) (answers s)
                           (sleeps s ++ [n]) (client_host s) (client_os s)).

(** ** <arpa/inet.h> *)

(** inet_pton for AF_INET: octets read so far, the current octet, whether it has a
    digit, the rest of the text. *)
Fixpoint pton (octets : list Z) (cur : Z) (saw_digit : bool) (src : list Z) : option (list Z) :=
  match src with
  | [] => if saw_digit && bool_decide (length octets = 3%nat) then Some (octets ++ [cur]) else None
  | ch :: src =>
      if isdigit ch then
        let new := cur * 10 + (ch - 48) in
        if saw_digit && bool_decide (cur = 0) then None
        else if decide (255 < new) then None
        else pton octets new true src
      else if bool_decide (ch = 46) && saw_digit then
        if decide (length octets = 3%nat) then None
        else pton (octets ++ [cur]) 0 false src
      else None
  end.
(** The address as an object in memory (network byte order). *)
Definition inet_pton (text : list Z) : option Z :=
  match pton [] 0 false text with Some octets => Some (le_val octets) | None => None end.
Definition inet_ntop (ip : Z) : list Z :=
  match le 4 ip with
  | [a; b; c; d] => decimal a ++ 46 :: decimal b ++ 46 :: decimal c ++ 46 :: decimal d
  | _ => []
  end.

Section client.
Context `{Sodium, Garbage, Env, HostEnv, Network}.

Definition client_header (t len : Z) : M client_state vpn_header_t := λ s,
  match init_vpn_header (client_sequence s) t len (client_os s) with
  | Ok ((h, g), o) => Ok (h, ClientState (client s) g (client_rng s) (answers s) (sleeps s)
                                         (client_host s) o)
  | Fault f => Fault f
  end.
Definition client_nonce : M client_state (list Z) := λ s,
  Ok (crypto_random_nonce (client_rng s),
      ClientState (client s) (client_sequence s) (S (client_rng s)) (answers s) (sleeps s)
                  (client_host s) (client_os s)).
Definition await_answer : M client_state (option (list Z)) := λ s,
  Ok (env_answer (answers s),
      ClientState (client s) (client_sequence s) (client_rng s) (S (answers s)) (sleeps s)
                  (client_host s) (client_os s)).
(** sendto(client->sock_fd, ..., &client->server_addr, ...) *)
Definition send_to_server (b : list Z) : M client_state Z :=
  addr ← get server_addr; on_client_os (sendto b addr).

(** [malloc_ok]: the result of malloc; [k]: index of the key pair drawn. The
    configuration, which [main] stores in the new client, is an argument. *)
Definition init_vpn_client (malloc_ok : bool) (k : nat) (cfg : vpn_config_t) : option vpn_client_t :=
  if malloc_ok then
    if decide (crypto_init ≠ 0) then None
    else
      let '(pk, sk) := crypto_generate_keypair k in
      Some (VpnClient (-1) (-1) (SockAddrIn 0 0 0) sk pk (replicate 32 0) (replicate 32 0) 0 0 false
                      0 0 0 INITIAL_BACKOFF (replicate 64 0) cfg)
  else None.

(** The same with the block of memory of the client, which is freed again when libsodium
    cannot be initialised. *)
Definition new_vpn_client (malloc_ok : bool) (k : nat) (cfg : vpn_config_t) :
    M heap (option (Z * vpn_client_t)) :=
  p ← malloc malloc_ok;
  match p, init_vpn_client malloc_ok k cfg with
  | Some p, Some c => mret (Some (p, c))
  | Some p, None => _ ← free p; mret None
  | None, _ => mret None
  end.

(** sodium_memzero(client, sizeof(vpn_client_t)) before free; the configuration is an
    object of its own, only the pointer to it is cleared. *)
Definition memzero_client (c : vpn_client_t) : vpn_client_t :=
  VpnClient 0 0 (SockAddrIn 0 0 0) (replicate 32 0) (replicate 32 0) (replicate 32 0)
    (replicate 32 0) 0 0 false 0 0 0 0 (replicate 64 0) (config c).

Definition destroy_vpn_client : M client_state () :=
  c ← get (λ c, c);
  _ ← (if decide (connected c = true ∧ 0 ≤ sock_fd c) then
         disconnect ← client_header PKT_DISCONNECT 0;
         _ ← send_to_server (vpn_header_bytes disconnect); mret ()
       else mret ());
  _ ← (if decide (0 ≤ sock_fd c) then on_host (close (sock_fd c)) else mret ());
  _ ← (if decide (0 ≤ tun_fd c) then on_host (close (tun_fd c)) else mret ());
  set memzero_client.

Definition recreate_socket : M client_state Z :=
  fd ← get sock_fd;
  _ ← (if decide (0 ≤ fd) then on_host (close fd) else mret ());
  fd ← on_host open_fd;
  _ ← set (set_sock_fd fd);
  if decide (fd < 0) then mret (-1)
  else
    cfg ← get config;
    _ ← set (λ c, set_server_addr
               (SockAddrIn AF_INET (htons (server_port cfg)) (sin_addr (server_addr c))) c);
    text ← lift (c_string (server_address cfg));
    match inet_pton text with
    | None =>
        _ ← on_host (close fd);
        _ ← set (set_sock_fd (-1));
        mret (-1)
    | Some a =>
        _ ← set (λ c, set_server_addr
                   (SockAddrIn (sin_family (server_addr c)) (sin_port (server_addr c)) a) c);
        mret 0
    end.

(** The bytes of the buffer after the CONNECT_REQ was built in it. *)
Definition build_connect_req (buffer : list Z) (header : vpn_header_t) (name pk : list Z) :
    res (list Z) :=
  buffer ← buf_write buffer 0 (vpn_header_bytes header);
  field ← buf_read buffer 16 32;
  field ← strncpy field name 31;
  buffer ← buf_write buffer 16 field;
  token ← buf_read pk 0 32;
  buf_write buffer 48 token.

(** The part of [vpn_connect] behind the checks of the response. *)
Definition establish (resp : connect_response_t) : M client_state Z :=
  _ ← set (set_session (resp_vpn_ip resp) (ntohl (resp_session_id resp))
                       (resp_server_public_key resp));
  c ← get (λ c, c);
  match crypto_ecdh (client_private_key c) (peer_public_key c) with
  | None => mret (-1)
  | Some shared_secret =>
      _ ← set (set_session_key (kdf_derive_from_key 32 1 "VPN_SESS" shared_secret));
      _ ← set (λ c, set_backoff 0 INITIAL_BACKOFF (set_connected true c));
      t ← on_client_os time;
      _ ← set (λ c, set_ping_pong (last_ping_sent c) t c);
      t ← on_client_os time;
      _ ← set (λ c, set_ping_pong t (last_pong_received c) c);
      mret 0
  end.

(** The part behind the request: the answer of the server. *)
Definition await_response (buffer : list Z) : M client_state Z :=
  answer ← await_answer;
  match answer with
  | None => mret (-1)
  | Some d =>
      let '(_, buffer) := recv_datagram buffer d in
      let resp := connect_response_of_bytes buffer in
      if decide (hdr_type (resp_header resp) ≠ PKT_CONNECT_RESP) then mret (-1)
      else if decide (resp_status resp ≠ 0) then mret (-1)
      else establish resp
  end.

Definition vpn_connect (name : list Z) : M client_state Z :=
  let buffer := local "vpn_connect.buffer" CLIENT_BUFFER in
  r ← recreate_socket;
  if decide (r ≠ 0) then mret (-1)
  else
    header ← client_header PKT_CONNECT_REQ (sizeof_connect_request_t - sizeof_vpn_header_t);
    pk ← get client_public_key;
    buffer ← lift (build_connect_req buffer header name pk);
    request ← lift (buf_read buffer 0 sizeof_connect_request_t);
    sent ← send_to_server request;
    if decide (sent < 0) then mret (-1) else await_response buffer.

Definition setup_client_tun : M client_state Z :=
  fd ← get tun_fd;
  if decide (0 ≤ fd) then mret 0
  else
    fd ← on_host (create_tun_interface (Some (chars "tun1")));
    _ ← set (set_tun_fd fd);
    if decide (fd < 0) then mret (-1)
    else
      ip ← get client_vpn_ip;
      r ← on_host (configure_tun_ip (chars "tun1") (inet_ntop ip) 24);
      if decide (r < 0) then
        _ ← on_host (close fd); _ ← set (set_tun_fd (-1)); mret (-1)
      else
        r ← on_host (bring_tun_up (chars "tun1"));
        if decide (r < 0) then
          _ ← on_host (close fd); _ ← set (set_tun_fd (-1)); mret (-1)
        else mret 0.

Definition send_ping : M client_state () :=
  ping ← client_header PKT_PING 0;
  sent ← send_to_server (vpn_header_bytes ping);
  if decide (0 < sent) then
    t ← on_client_os time; set (λ c, set_ping_pong t (last_pong_received c) c)
  else mret ().

Definition check_keepalive : M client_state Z :=
  now ← on_client_os time;
  c ← get (λ c, c);
  if decide (pong_timeout (config c) < now - last_pong_received c) then mret (-1)
  else
    _ ← (if decide (keepalive_interval (config c) ≤ now - last_ping_sent c) then send_ping
         else mret ());
    mret 0.

Definition attempt_reconnect : M client_state Z :=
  c ← get (λ c, c);
  if decide (max_reconnect_attempts (config c) ≤ reconnect_attempts c) then mret (-1)
  else
    _ ← sleep (backoff_seconds c);
    let backoff := i32 (backoff_seconds c * 2) in
    let backoff := if decide (MAX_BACKOFF < backoff) then MAX_BACKOFF else backoff in
    _ ← set (λ c, set_connected false (set_backoff (i32 (reconnect_attempts c + 1)) backoff c));
    r ← vpn_connect (before 0 (username c));
    if decide (r ≠ 0) then mret (-1)
    else
      r ← setup_client_tun;
      mret (if decide (r ≠ 0) then -1 else 0).

(** [arrived]: the datagram, [None] when recvfrom fails. *)
Definition client_udp_to_tun (arrived : option (list Z)) : M client_state () :=
  match arrived with
  | None => mret ()
  | Some d =>
      let '(n, buffer) := recv_datagram (local "client.buffer" CLIENT_BUFFER) d in
      if decide (n < sizeof_vpn_header_t) then mret ()
      else
        let type := hdr_type (vpn_header_of_bytes buffer) in
        if decide (type = PKT_PONG) then
          t ← on_client_os time; set (λ c, set_ping_pong (last_ping_sent c) t c)
        else if decide (type = PKT_DATA) then
          let ciphertext_len := n - sizeof_vpn_header_t in
          let encrypted_len := u64 (ciphertext_len - CRYPTO_NONCE_SIZE) in
          nonce ← lift (buf_read buffer sizeof_vpn_header_t CRYPTO_NONCE_SIZE);
          encrypted ← lift (buf_read buffer (sizeof_vpn_header_t + CRYPTO_NONCE_SIZE) encrypted_len);
          key ← get client_session_key;
          match crypto_decrypt encrypted key nonce with
          | None => mret ()
          | Some p =>
              plaintext ← lift (buf_write (local "client.plaintext" CLIENT_BUFFER) 0 p);
              let plaintext_len := u64 (encrypted_len - CRYPTO_MAC_SIZE) in
              packet ← lift (buf_read plaintext 0 plaintext_len);
              _ ← on_client_os (write packet); mret ()
          end
        else mret ()
  end.

(** The data packet, assembled in packet_buffer. *)
Definition client_packet (header : vpn_header_t) (ciphertext : list Z) (ciphertext_len : Z) :
    res (list Z) :=
  packet_buffer ← buf_write (local "client.packet_buffer" CLIENT_BUFFER) 0 (vpn_header_bytes header);
  data ← buf_read ciphertext 0 ciphertext_len;
  packet_buffer ← buf_write packet_buffer sizeof_vpn_header_t data;
  let total_len := sizeof_vpn_header_t + ciphertext_len in
  buf_read packet_buffer 0 total_len.

Definition client_tun_to_udp (arrived : option (list Z)) : M client_state () :=
  match arrived with
  | None => mret ()
  | Some d =>
      let '(n, buffer) := recv_datagram (local "client.tun_buffer" CLIENT_BUFFER) d in
      nonce ← client_nonce;
      key ← get client_session_key;
      match crypto_encrypt (slice 0 n buffer) key nonce with
      | None => mret ()
      | Some c =>
          ciphertext ← lift (buf_write (local "client.ciphertext" CLIENT_BUFFER) CRYPTO_NONCE_SIZE c);
          ciphertext ← lift (buf_write ciphertext 0 nonce);
          let ciphertext_len := CRYPTO_NONCE_SIZE + n + CRYPTO_MAC_SIZE in
          header ← client_header PKT_DATA ciphertext_len;
          packet ← lift (client_packet header ciphertext ciphertext_len);
          _ ← send_to_server packet; mret ()
      end
  end.

(** ** The loop of [main] *)
Inductive activity :=
| SelectError
| SelectTimeout
| SelectReady (udp : option (option (list Z))) (tun : option (option (list Z))).

(** One turn of the loop; [false]: the loop is left. *)
Definition client_turn (a : activity) : M client_state bool :=
  c ← get (λ c, c);
  alive ← (if connected c then mret true
           else if decide (auto_reconnect (config c) ≠ 0) then
             r ← attempt_reconnect; mret (bool_decide (r = 0))
           else mret false);
  if negb alive then mret false
  else match a with
  | SelectError => mret false
  | _ =>
      r ← check_keepalive;
      if decide (r ≠ 0) then _ ← set (set_connected false); mret true
      else match a with
      | SelectReady udp tun =>
          _ ← match udp with Some d => client_udp_to_tun d | None => mret () end;
          _ ← match tun with Some d => client_tun_to_udp d | None => mret () end;
          mret true
      | _ => mret true
      end
  end.

(** The turns until the list is used up or the loop is left. *)
Fixpoint client_loop (turns : list activity) : M client_state bool :=
  match turns with
  | [] => mret true
  | a :: turns =>
      alive ← client_turn a;
      if (alive : bool) then client_loop turns else mret false
  end.

(** [main] from the initialised client on: its exit code. *)
Definition client_main (turns : list activity) : M client_state Z :=
  c ← get (λ c, c);
  name ← lift (strncpy (username c) (before 0 (cfg_username (config c))) (CLIENT_USERNAME - 1));
  _ ← set (set_username name);
  _ ← sleep 1;
  r ← vpn_connect (before 0 name);
  if decide (r ≠ 0) then _ ← destroy_vpn_client; mret 1
  else
    _ ← sleep 1;
    r ← setup_client_tun;
    if decide (r ≠ 0) then _ ← destroy_vpn_client; mret 1
    else
      _ ← client_loop turns;
      _ ← destroy_vpn_client;
      mret 0.

(** ** [main] *)
Inductive client_args :=
| ServerIp (server_ip_arg : list Z)
| ConfigFile (config_file : list Z).

(** [argv] without the terminating null pointer. *)
Definition parse_args (argv : list (list Z)) : option client_args :=
  match argv with
  | [_; a1] => Some (ServerIp a1)
  | [_; a1; a2] => if decide (a1 = chars "--config") then Some (ConfigFile a2) else None
  | _ => None
  end.

(** [files]: the contents of the files that can be opened. *)
Definition load_config (malloc_ok : bool) (files : list Z → option (list Z)) (a : client_args) :
    res (option vpn_config_t) :=
  r ← config_create_default malloc_ok;
  match r with
  | None => Ok None
  | Some cfg =>
      match a with
      | ConfigFile f =>
          '(code, cfg) ← config_load_from_file cfg (files f);
          Ok (if decide (code ≠ 0) then None else Some cfg)
      | ServerIp ip =>
          address ← strncpy (server_address cfg) ip (CFG_ADDRESS - 1);
          Ok (Some (VpnConfig address (server_port cfg) (cfg_username cfg) (auto_reconnect cfg)
                      (max_reconnect_attempts cfg) (keepalive_interval cfg) (pong_timeout cfg)
                      (log_level cfg)))
      end
  end.

Definition client_boot (c : vpn_client_t) : client_state :=
  ClientState c 0 0 0 [] host_boot os_boot.

(** The same with the block of memory of the configuration, which is freed again when the
    file cannot be read. *)
Definition open_config (malloc_ok : bool) (files : list Z → option (list Z)) (a : client_args) :
    M heap (option (Z * vpn_config_t)) :=
  p ← malloc malloc_ok;
  r ← lift (load_config malloc_ok files a);
  match p, r with
  | Some p, Some cfg => mret (Some (p, cfg))
  | Some p, None => _ ← config_destroy (Some p); mret None
  | None, _ => mret None
  end.

(** The exit code and, when a client was created, the state it left. Each way out of
    [client_main] leads through [destroy_vpn_client], whose last act, free(client), is
    here, where the block is known. *)
Definition client_program (config_malloc client_malloc : bool) (files : list Z → option (list Z))
    (argv : list (list Z)) (k : nat) (turns : list activity) : M heap (Z * option client_state) :=
  match parse_args argv with
  | None => mret (1, None)
  | Some a =>
      r ← open_config config_malloc files a;
      match r with
      | None => mret (1, None)
      | Some (config, cfg) =>
          r ← new_vpn_client client_malloc k cfg;
          match r with
          | None => _ ← config_destroy (Some config); mret (1, None)
          | Some (client, c) =>
              '(code, s) ← lift (client_main turns (client_boot c));
              _ ← free client;
              _ ← config_destroy (Some config);
              mret (code, Some s)
          end
      end
  end.
End client.

(** The state with another client record and other descriptors. *)
Definition with_client (c : vpn_client_t) (h : host) (s : client_state) : client_state :=
  ClientState c (client_sequence s) (client_rng s) (answers s) (sleeps s) h (client_os s).

Lemma run_get {A} (f : vpn_client_t → A) s : get f s = Ok (f (client s), s).
Proof. reflexivity. Qed.
Lemma run_set f s : set f s = Ok ((), with_client (f (client s)) (client_host s) s).
Proof. reflexivity. Qed.
Lemma run_on_host {A} (m : M host A) s a h :
  m (client_host s) = Ok (a, h) → on_host m s = Ok (a, with_client (client s) h s).
Proof. intros E. unfold on_host. by rewrite run_zoom, E. Qed.
#[export] Hint Rewrite @run_get run_set : run.

(** ** What the client keeps in order *)

(** The descriptors the client owns. *)
Definition fds_of (c : vpn_client_t) : list Z :=
  (if decide (0 ≤ sock_fd c) then [sock_fd c] else []) ++
  (if decide (0 ≤ tun_fd c) then [tun_fd c] else []).

Record client_inv (s : client_state) : Prop := ClientInv {
  ci_host : wf_host (client_host s);
  ci_fds : open_fds (client_host s) ≡ₚ fds_of (client s);
  ci_nodup : NoDup (open_fds (client_host s));
  ci_key : zlen (client_public_key (client s)) = 32;
  ci_addr : is_Some (match c_string (server_address (config (client s))) with
                     | Ok text => Some text | Fault _ => None end)
}.

(** Code that returns from every orderly state in an orderly state. *)
Definition safe {A} (m : M client_state A) : Prop :=
  ∀ s, client_inv s → ∃ a s', m s = Ok (a, s') ∧ client_inv s'.

Section safety.
Context `{Sodium, Garbage, Env, HostEnv, Network} `{!SodiumLaws _}.

Lemma safe_ret {A} (a : A) : safe (mret a).
Proof. intros s Hs. by eexists _, _. Qed.

Lemma safe_bind {A B} (m : M client_state A) (k : A → M client_state B) :
  safe m → (∀ a, safe (k a)) → safe (m ≫= k).
Proof.
  intros Hm Hk s Hs. destruct (Hm s Hs) as (a & s1 & E & Hs1).
  destruct (Hk a s1 Hs1) as (b & s2 & E2 & Hs2). exists b, s2.
  by rewrite (run_bind_ok _ _ _ _ _ E).
Qed.

Lemma safe_get {A} (f : vpn_client_t → A) : safe (get f).
Proof. intros s Hs. by eexists _, _. Qed.

(** An update that leaves the descriptors, the key and the configuration. *)
Lemma safe_set (f : vpn_client_t → vpn_client_t) :
  (∀ c, sock_fd (f c) = sock_fd c ∧ tun_fd (f c) = tun_fd c ∧
        client_public_key (f c) = client_public_key c ∧ config (f c) = config c) →
  safe (set f).
Proof.
  intros Hf s [Hh Hfds Hnd Hk Ha]. eexists _, _. split; [reflexivity|].
  destruct (Hf (client s)) as (E1 & E2 & E3 & E4).
  split; simpl; unfold fds_of in *; rewrite ?E1, ?E2, ?E3, ?E4; done.
Qed.

(** Code that touches only the rest of the state. *)
Lemma safe_frame {A} (m : M client_state A) :
  (∀ s, ∃ a s', m s = Ok (a, s') ∧ client s' = client s ∧ client_host s' = client_host s) →
  safe m.
Proof.
  intros Hm s [Hh Hfds Hnd Hk Ha]. destruct (Hm s) as (a & s' & E & E1 & E2).
  exists a, s'. split; [done|]. split; rewrite ?E1, ?E2; done.
Qed.

Lemma safe_os {A} (m : M os A) : (∀ o, ∃ a o', m o = Ok (a, o')) → safe (on_client_os m).
Proof.
  intros Hm. apply safe_frame. intros s. destruct (Hm (client_os s)) as (a & o' & E).
  unfold on_client_os. rewrite run_zoom, E. by eexists _, _.
Qed.

Lemma safe_time : safe (on_client_os time).
Proof. apply safe_os. intros. by eexists _, _. Qed.
Lemma safe_write b : safe (on_client_os (write b)).
Proof. apply safe_os. intros. by eexists _, _. Qed.
Lemma safe_send b : safe (send_to_server b).
Proof. apply safe_bind; [apply safe_get|]. intros. apply safe_os. intros. by eexists _, _. Qed.
Lemma safe_sleep n : safe (sleep n).
Proof. apply safe_frame. intros s. by eexists _, _. Qed.
Lemma safe_nonce : safe client_nonce.
Proof. apply safe_frame. intros s. by eexists _, _. Qed.
Lemma safe_answer : safe await_answer.
Proof. apply safe_frame. intros s. by eexists _, _. Qed.

Lemma safe_header t len : safe (client_header t len).
Proof.
  apply safe_frame. intros s. unfold client_header.
  destruct (init_vpn_header_run (client_sequence s) t len (client_os s)) as (ts & o' & _ & E & _).
  rewrite E. by eexists _, _.
Qed.

Lemma safe_if {A} (P : Prop) `{Decision P} (m1 m2 : M client_state A) :
  (P → safe m1) → (¬ P → safe m2) → safe (if decide P then m1 else m2).
Proof. intros. case_decide; auto. Qed.

Lemma safe_lift_ok {A B} (r : res A) (a : A) (k : A → M client_state B) :
  r = Ok a → safe (k a) → safe (lift r ≫= k).
Proof. intros -> Hk s Hs. exact (Hk s Hs). Qed.
End safety.

Create HintDb safe.
#[export] Hint Resolve safe_ret safe_get safe_time safe_write safe_send safe_sleep safe_nonce
  safe_answer safe_header : safe.
(** Follows the code: binds, conditionals, and calls that are known to be safe. *)
Ltac safe :=
  repeat first
    [ progress auto with safe
    | apply safe_bind; [|intros ?] | apply safe_if; intros ?
    | apply safe_set; intros ?; by split_and! ].

(** ** Descriptors *)
Section descriptors.
Context `{Sodium, Garbage, Env, HostEnv, Network} `{!SodiumLaws _}.

(** The part of the descriptors that belongs to the socket or the TUN device. *)
Definition fd_list (fd : Z) : list Z := if decide (0 ≤ fd) then [fd] else [].

Lemma close_if_open fd l s :
  wf_host (client_host s) → NoDup (open_fds (client_host s)) →
  open_fds (client_host s) ≡ₚ fd_list fd ++ l →
  ∃ h', (if decide (0 ≤ fd) then on_host (close fd) else mret ()) s =
        Ok ((), with_client (client s) h' s) ∧
    wf_host h' ∧ NoDup (open_fds h') ∧ open_fds h' ≡ₚ l.
Proof.
  intros Hh Hnd Hp. unfold fd_list in Hp. case_decide.
  - destruct (close_perm fd l _ Hh Hnd Hp) as (h' & E & ? & ? & ?). exists h'.
    unfold on_host. rewrite run_zoom, E. done.
  - exists (client_host s). split_and!; try done. by destruct s.
Qed.

Lemma recreate_socket_safe : safe recreate_socket.
Proof.
  intros s [Hh Hfds Hnd Hk Ha].
  destruct (close_if_open (sock_fd (client s)) (fd_list (tun_fd (client s))) s Hh Hnd)
    as (h1 & E1 & Hh1 & Hnd1 & Hp1); [exact Hfds|].
  destruct (open_fd_run h1 Hh1) as (fd & h2 & E2 & Hh2 & _ & _ & Ho).
  unfold recreate_socket. rewrite run_bind, run_get. rewrite (run_bind_ok _ _ _ _ _ E1).
  rewrite (run_bind_ok _ _ _ _ _ (run_on_host _ (with_client _ _ _) _ _ E2)).
  rewrite run_bind, run_set. cbn [with_client client client_host].
  destruct Ho as [[-> Ho]|(Hfd & Hnew & Ho)].
  { rewrite decide_True by lia. eexists _, _. split; [reflexivity|].
    split; simpl; try done; [by rewrite Ho, Hp1|by rewrite Ho]. }
  rewrite decide_False by lia. run. cbn [with_client client client_host config set_sock_fd].
  destruct (c_string _) as [t|] eqn:Ht; [|by destruct Ha]. run.
  destruct (inet_pton t).
  - run. eexists _, _. split; [reflexivity|]. split; simpl; try done.
    + rewrite Ho, Hp1. unfold fds_of. simpl. by rewrite decide_True by done.
    + rewrite Ho. by apply NoDup_cons.
    + by rewrite Ht.
  - destruct (close_perm fd (fd_list (tun_fd (client s))) h2) as (h3 & E3 & Hh3 & Hnd3 & Hp3);
      [done|rewrite Ho; by apply NoDup_cons|by rewrite Ho, Hp1|].
    rewrite (run_bind_ok _ _ _ _ _ (run_on_host _ (with_client _ _ _) _ _ E3)). run.
    eexists _, _. split; [reflexivity|]. split; simpl; try done. by rewrite Ht.
Qed.

Lemma system_host cmd h :
  ∃ r h', system cmd h = Ok (r, h') ∧ open_fds h' = open_fds h ∧ next_fd h' = next_fd h.
Proof. by eexists _, _. Qed.

Lemma inv_host s h :
  client_inv s → open_fds h = open_fds (client_host s) → next_fd h = next_fd (client_host s) →
  client_inv (with_client (client s) h s).
Proof.
  intros [[Hn Hf] Hfds Hnd Hk Ha] Eo En. split; simpl; rewrite ?Eo; try done.
  split; by rewrite ?Eo, ?En.
Qed.

Lemma configure_tun_ip_safe dev ip n : safe (on_host (configure_tun_ip dev ip n)).
Proof.
  intros s Hs. eexists _, _. split; [reflexivity|]. by apply inv_host.
Qed.
Lemma bring_tun_up_safe dev : safe (on_host (bring_tun_up dev)).
Proof. intros s Hs. eexists _, _. split; [reflexivity|]. by apply inv_host. Qed.

(** A TUN device that cannot be configured is closed. *)
Lemma drop_tun s fd :
  client_inv s → tun_fd (client s) = fd → 0 ≤ fd →
  ∃ s', (_ ← on_host (close fd); _ ← set (set_tun_fd (-1)); mret (-1)) s = Ok (-1, s') ∧
    client_inv s'.
Proof.
  intros [Hh Hfds Hnd Hk Ha] Ht Hfd.
  destruct (close_perm fd (fd_list (sock_fd (client s))) (client_host s))
    as (h' & E & Hh' & Hnd' & Hp'); [done|done| |].
  { rewrite Hfds. unfold fds_of. rewrite Ht, (decide_True (P := 0 ≤ fd)) by done.
    by rewrite Permutation_app_comm. }
  rewrite (run_bind_ok _ _ _ _ _ (run_on_host _ _ _ _ E)). run. eexists. split; [reflexivity|].
  split; simpl; try done. rewrite Hp'. unfold fds_of. simpl. by rewrite app_nil_r.
Qed.

Lemma setup_client_tun_safe : safe setup_client_tun.
Proof.
  intros s Hs. pose proof Hs as [Hh Hfds Hnd Hk Ha]. unfold setup_client_tun.
  rewrite run_bind, run_get. case_decide as Hfd; [by eexists _, _|].
  assert (open_fds (client_host s) ≡ₚ fd_list (sock_fd (client s))) as Hsock.
  { rewrite Hfds. unfold fds_of. rewrite (decide_False (P := 0 ≤ tun_fd _)) by done.
    by rewrite app_nil_r. }
  destruct (create_tun_interface_run (Some (chars "tun1")) (client_host s) Hh) as (fd & h1 & E1 & Hh1 & _ & Ho).
  rewrite (run_bind_ok _ _ _ _ _ (run_on_host _ _ _ _ E1)). rewrite run_bind, run_set.
  cbn [with_client client client_host].
  destruct Ho as [[-> Ho]|(Hpos & Hnew & Ho)].
  { rewrite decide_True by lia. eexists _, _. split; [reflexivity|].
    split; simpl; try done; [|by rewrite Ho]. rewrite Ho, Hsock. unfold fds_of. simpl.
    by rewrite app_nil_r. }
  rewrite decide_False by lia. set (s1 := with_client _ h1 _).
  assert (client_inv s1) as Hs1.
  { split; simpl; try done; [|rewrite Ho; by apply NoDup_cons].
    rewrite Ho, Hsock. unfold fds_of, fd_list. simpl. rewrite (decide_True (P := 0 ≤ fd)) by done.
    by rewrite Permutation_app_comm. }
  rewrite run_bind, run_get.
  match goal with |- context [configure_tun_ip ?d ?i ?n] =>
    destruct (configure_tun_ip_safe d i n s1 Hs1) as (r & s2 & E2 & Hs2) end.
  rewrite (run_bind_ok _ _ _ _ _ E2).
  assert (tun_fd (client s2) = fd) as Ht2 by (injection E2 as <- <-; done).
  case_decide; [destruct (drop_tun s2 fd Hs2 Ht2 Hpos) as (s3 & E3 & ?); by eexists _, s3|].
  destruct (bring_tun_up_safe (chars "tun1") s2 Hs2) as (r2 & s3 & E3 & Hs3).
  rewrite (run_bind_ok _ _ _ _ _ E3).
  assert (tun_fd (client s3) = fd) as Ht3 by (rewrite <-Ht2; by injection E3 as <- <-).
  case_decide; [destruct (drop_tun s3 fd Hs3 Ht3 Hpos) as (s4 & E4 & ?); by eexists _, s4|].
  by eexists _, _.
Qed.

(** What is left when the client was destroyed: no descriptor and no key. *)
Definition destroyed (s : client_state) : Prop :=
  open_fds (client_host s) = [] ∧ client s = memzero_client (client s).

Lemma destroy_vpn_client_run s :
  client_inv s → ∃ s', destroy_vpn_client s = Ok ((), s') ∧ destroyed s'.
Proof.
  intros Hs. unfold destroy_vpn_client. rewrite run_bind, run_get.
  assert (∃ s1, (if decide (connected (client s) = true ∧ 0 ≤ sock_fd (client s)) then
         disconnect ← client_header PKT_DISCONNECT 0;
         _ ← send_to_server (vpn_header_bytes disconnect); mret ()
       else mret ()) s = Ok ((), s1) ∧ client_inv s1 ∧ client s1 = client s) as (s1 & E1 & Hs1 & Hc).
  { case_decide; [|by eexists].
    destruct (init_vpn_header_run (client_sequence s) PKT_DISCONNECT 0 (client_os s))
      as (ts & o' & _ & E & _).
    unfold client_header, send_to_server. rewrite run_bind. rewrite E. eexists.
    split; [reflexivity|]. by destruct Hs. }
  rewrite (run_bind_ok _ _ _ _ _ E1). destruct Hs1 as [Hh Hfds Hnd _ _]. rewrite Hc in Hfds.
  destruct (close_if_open (sock_fd (client s)) (fd_list (tun_fd (client s))) s1 Hh Hnd Hfds)
    as (h2 & E2 & Hh2 & Hnd2 & Hp2).
  rewrite (run_bind_ok _ _ _ _ _ E2).
  destruct (close_if_open (tun_fd (client s)) [] (with_client (client s1) h2 s1) Hh2 Hnd2)
    as (h3 & E3 & _ & _ & Hp3); [by rewrite app_nil_r|].
  rewrite (run_bind_ok _ _ _ _ _ E3), run_set. eexists. split; [reflexivity|].
  apply Permutation_nil_r in Hp3. done.
Qed.
End descriptors.

(** ** The operations are safe *)
Section operations.
Context `{Sodium, Garbage, Env, HostEnv, Network} `{!SodiumLaws _}.

(** The CONNECT_REQ in the buffer: header, 32 bytes of user name, public key. *)
Lemma build_connect_req_run buffer h name pk :
  zlen buffer = 2048 → zlen pk = 32 →
  ∃ field, zlen field = 32 ∧
    build_connect_req buffer h name pk =
    Ok ((vpn_header_bytes h ++ field ++ pk) ++ drop 80 buffer).
Proof.
  intros Hb Hpk. unfold build_connect_req. set (hb := vpn_header_bytes h).
  assert (zlen hb = 16) as Hh by apply zlen_vpn_header_bytes.
  rewrite buf_write_0 by lia. cbn [mbind res_bind]. set (r := drop (length hb) buffer).
  assert (zlen r = 2032) as Hr by (subst r; rewrite zlen_drop_length; lia).
  rewrite (buf_read_ok (hb ++ r)) by zlen. cbn [mbind res_bind].
  rewrite slice_skip, Hh, Z.sub_diag by lia.
  destruct (strncpy_run (slice 0 32 r) name 31) as (field & E & Hf & _); [zlen|].
  rewrite zlen_slice in Hf by lia. rewrite E. cbn [mbind res_bind]. exists field.
  split; [done|]. rewrite buf_write_app by (done || lia). cbn [mbind res_bind].
  rewrite buf_read_ok, slice_all by lia. cbn [mbind res_bind]. rewrite app_assoc.
  assert (zlen (drop (length field) r) = 2000) as Hd by (rewrite zlen_drop_length; lia).
  rewrite buf_write_app by zlen. rewrite <-!app_assoc. do 4 f_equal.
  subst r. rewrite !drop_drop. f_equal. unfold zlen in *. lia.
Qed.

Lemma establish_safe resp : safe (establish resp).
Proof. unfold establish. safe. destruct (crypto_ecdh _ _); safe. Qed.

#[local] Hint Resolve establish_safe : safe.

Lemma vpn_connect_safe name : safe (vpn_connect name).
Proof.
  unfold vpn_connect. apply safe_bind; [apply recreate_socket_safe|intros r].
  apply safe_if; intros _; [apply safe_ret|]. apply safe_bind; [apply safe_header|intros h].
  intros s Hs. rewrite run_bind, run_get.
  destruct (build_connect_req_run (local "vpn_connect.buffer" CLIENT_BUFFER) h name
    (client_public_key (client s))) as (field & Hf & E); [by rewrite zlen_local|apply Hs|].
  pose proof (ci_key _ Hs) as Hk.
  rewrite E. rewrite run_bind, run_lift. cbn iota beta.
  set (b := vpn_header_bytes h ++ field ++ client_public_key (client s)).
  assert (zlen b = 80) as Hb by (subst b; zlen). set (rest := drop 80 _).
  pose proof (zlen_nonneg rest).
  rewrite run_bind, buf_read_ok by zlen. rewrite run_lift. cbn iota beta.
  match goal with |- ∃ a s', ?m s = _ ∧ _ => enough (safe m) as Hm by exact (Hm s Hs) end.
  apply safe_bind; [apply safe_send|intros sent]. apply safe_if; intros _; [apply safe_ret|].
  unfold await_response. apply safe_bind; [apply safe_answer|intros [d|]]; [|apply safe_ret].
  destruct (recv_datagram _ d) as [n buf]. safe.
Qed.
#[local] Hint Resolve vpn_connect_safe setup_client_tun_safe : safe.

Lemma send_ping_safe : safe send_ping.
Proof. unfold send_ping. safe. Qed.
#[local] Hint Resolve send_ping_safe : safe.

Lemma check_keepalive_safe : safe check_keepalive.
Proof. unfold check_keepalive. safe. Qed.

Lemma attempt_reconnect_safe : safe attempt_reconnect.
Proof. unfold attempt_reconnect. safe. Qed.

(** Datagrams the client can take: a DATA packet has room for the nonce. *)
Definition udp_fits (d : list Z) : Prop :=
  zlen d < 16 ∨ hdr_type (vpn_header_of_bytes (take 2048 d)) ≠ PKT_DATA ∨ 28 ≤ zlen d.


Lemma zlen_take_2048 (d : list Z) : zlen (take 2048 d) = zlen d `min` 2048.
Proof. change 2048%nat with (Z.to_nat 2048). rewrite zlen_take; lia. Qed.

(** The buffer after a datagram arrived. *)
Lemma client_recv name d :
  recv_datagram (local name CLIENT_BUFFER) d =
  (zlen (take 2048 d), take 2048 d ++ drop (length (take 2048 d)) (local name CLIENT_BUFFER)) ∧
  zlen (take 2048 d ++ drop (length (take 2048 d)) (local name CLIENT_BUFFER)) = 2048.
Proof.
  assert (length (local name CLIENT_BUFFER) = 2048%nat) as Hl.
  { pose proof (zlen_local name CLIENT_BUFFER ltac:(done)) as Hz. unfold zlen in Hz.
    change CLIENT_BUFFER with 2048 in *. lia. }
  rewrite recv_datagram_cut, Hl. split; [done|].
  unfold zlen. rewrite length_app, length_drop, Hl. pose proof (zlen_take_2048 d).
  unfold zlen in *. lia.
Qed.

Lemma client_udp_to_tun_safe d : udp_fits d → safe (client_udp_to_tun (Some d)).
Proof.
  intros Hfit. unfold client_udp_to_tun.
  destruct (client_recv "client.buffer" d) as [-> Hbuf]. pose proof (zlen_take_2048 d) as Hc.
  set (c := take 2048 d) in *. set (buf := c ++ drop (length c) _) in *.
  autounfold with sizes. apply safe_if; intros Hn; [safe|].
  assert (hdr_type (vpn_header_of_bytes buf) = hdr_type (vpn_header_of_bytes c)) as ->.
  { unfold vpn_header_of_bytes. cbn [hdr_type]. subst buf. by rewrite slice_within by lia. }
  apply safe_if; intros Hp; [safe|]. apply safe_if; intros Hd; [|safe].
  assert (28 ≤ zlen c) as H28 by (destruct Hfit as [?|[?|?]]; [lia|done|lia]).
  assert (u64 (zlen c - 16 - 12) = zlen c - 28) as -> by (unfold u64; rewrite Z.mod_small; lia).
  eapply safe_lift_ok; [apply buf_read_ok; lia|]. eapply safe_lift_ok; [apply buf_read_ok; lia|].
  apply safe_bind; [apply safe_get|intros key].
  destruct (crypto_decrypt _ key _) as [p|] eqn:Hdec; [|safe].
  apply aead_decrypt_len in Hdec. rewrite zlen_slice in Hdec by lia. unfold CRYPTO_MAC_SIZE in Hdec.
  pose proof (zlen_nonneg p).
  assert (u64 (zlen c - 28 - 16) = zlen p) as -> by (unfold u64; rewrite Z.mod_small; lia).
  eapply safe_lift_ok; [apply buf_write_0; rewrite zlen_local; lia|].
  eapply safe_lift_ok; [apply buf_read_ok; try lia|].
  { rewrite zlen_app, zlen_drop_length; rewrite zlen_local; lia. }
  safe.
Qed.

(** (C39) A DATA packet that is too short for a nonce makes the client read out of
    its buffer: the length of the ciphertext wraps around to almost 2^64. *)
Theorem short_data_packet_overreads_client d s :
  16 ≤ zlen d < 28 → hdr_type (vpn_header_of_bytes d) = PKT_DATA →
  client_udp_to_tun (Some d) s = Fault Overread.
Proof.
  intros Hd Ht. unfold client_udp_to_tun.
  destruct (client_recv "client.buffer" d) as [-> Hbuf].
  assert (take 2048 d = d) as E by (apply take_ge; unfold zlen in *; lia). rewrite E in *.
  set (buf := d ++ drop (length d) _) in *.
  autounfold with sizes. rewrite decide_False by lia.
  assert (hdr_type (vpn_header_of_bytes buf) = PKT_DATA) as ->.
  { rewrite <-Ht. unfold vpn_header_of_bytes. cbn [hdr_type]. subst buf.
    by rewrite slice_within by lia. }
  rewrite decide_False, decide_True by done.
  assert (u64 (zlen d - 16 - 12) = 2 ^ 64 + (zlen d - 28)) as ->.
  { unfold u64. rewrite <-(Z_mod_plus_full _ 1). rewrite Z.mod_small; lia. }
  rewrite run_bind, (buf_read_ok buf 16 12) by lia. rewrite run_lift. cbn iota beta.
  rewrite run_bind. unfold buf_read. rewrite decide_False by lia. done.
Qed.

Lemma client_header_run t len s :
  ∃ ts o', is_uint 8 ts ∧
    udp_out o' = udp_out (client_os s) ∧ tun_out o' = tun_out (client_os s) ∧
    sendto_calls o' = sendto_calls (client_os s) ∧
    client_header t len s =
    Ok (VpnHeader (u8 t) VPN_PROTOCOL_VERSION (htons (u16 len))
          (htonl (u32 (client_sequence s + 1))) (htobe64 ts),
        ClientState (client s) (u32 (client_sequence s + 1)) (client_rng s) (answers s) (sleeps s)
          (client_host s) o').
Proof.
  destruct (init_vpn_header_run (client_sequence s) t len (client_os s))
    as (ts & o' & Hts & E & _ & _ & ? & ? & ? & _).
  exists ts, o'. split_and!; try done. unfold client_header. by rewrite E.
Qed.

(** crypto_encrypt writes behind the place of the nonce, which is copied in front. *)
Lemma seal_in_buffer buf nonce c :
  zlen nonce = 12 → 12 + zlen c ≤ zlen buf →
  ∃ b rest, buf_write buf CRYPTO_NONCE_SIZE c = Ok b ∧ buf_write b 0 nonce = Ok (nonce ++ c ++ rest).
Proof.
  intros Hn Hc. pose proof (zlen_nonneg c). eexists _, _. split; [apply buf_write_ok; split; [zlen|reflexivity]|].
  assert (zlen (take (Z.to_nat CRYPTO_NONCE_SIZE) buf) = 12) as Ht by zlen.
  rewrite buf_write_0 by zlen. do 2 f_equal.
  apply drop_app_length'. unfold zlen in *. lia.
Qed.

Lemma client_packet_run h p rest :
  zlen p ≤ 2032 → client_packet h (p ++ rest) (zlen p) = Ok (vpn_header_bytes h ++ p).
Proof.
  intros Hp. unfold client_packet. change sizeof_vpn_header_t with 16.
  rewrite (assemble_packet _ (vpn_header_bytes h) p rest 16) by zlen.
  rewrite decide_True by zlen. done.
Qed.

(** What the client sends for a packet read from its TUN device. *)
Lemma client_tun_to_udp_run d s :
  zlen d ≤ 2004 →
  let nonce := crypto_random_nonce (client_rng s) in
  ∃ s', client_tun_to_udp (Some d) s = Ok ((), s') ∧ client s' = client s ∧
    client_host s' = client_host s ∧ tun_out (client_os s') = tun_out (client_os s) ∧
    match crypto_encrypt d (client_session_key (client s)) nonce with
    | None => udp_out (client_os s') = udp_out (client_os s)
    | Some c =>
        ∃ ts, is_uint 8 ts ∧
        udp_out (client_os s') = udp_out (client_os s) ++
          (if env_sendto (sendto_calls (client_os s)) then
             [(server_addr (client s),
               vpn_header_bytes (VpnHeader PKT_DATA 1 (htons (zlen d + 28))
                 (htonl (u32 (client_sequence s + 1))) (htobe64 ts)) ++ nonce ++ c)]
           else [])
    end.
Proof.
  intros Hd nonce. pose proof (zlen_nonneg d).
  assert (zlen nonce = 12) as Hn by (by apply randombytes_len).
  unfold client_tun_to_udp. destruct (client_recv "client.tun_buffer" d) as [-> _].
  assert (take 2048 d = d) as -> by (apply take_ge; unfold zlen in *; lia).
  rewrite slice_hit by done. unfold client_nonce. rewrite run_bind. fold nonce.
  rewrite run_bind, run_get. cbn [client].
  destruct (crypto_encrypt d (client_session_key (client s)) nonce) as [c|] eqn:Hc; cycle 1.
  { eexists. split; [reflexivity|]. done. }
  apply aead_encrypt_len in Hc. change CRYPTO_MAC_SIZE with 16 in *.
  destruct (seal_in_buffer (local "client.ciphertext" CLIENT_BUFFER) nonce c)
    as (b1 & rest & E1 & E2); [done|zlen|].
  rewrite E1, run_bind, run_lift. cbn iota beta. rewrite E2, run_bind, run_lift. cbn iota beta.
  change (CRYPTO_NONCE_SIZE + zlen d + 16) with (12 + zlen d + 16).
  match goal with |- context [client_header PKT_DATA ?l] =>
    match goal with |- context [(client_header PKT_DATA l ≫= _) ?s1] =>
      destruct (client_header_run PKT_DATA l s1) as (ts & o' & Hts & Hu & Ht & Hs & E3) end end.
  rewrite (run_bind_ok _ _ _ _ _ E3). rewrite run_bind.
  rewrite app_assoc. replace (12 + zlen d + 16) with (zlen (nonce ++ c)) by zlen.
  rewrite client_packet_run by zlen. rewrite run_lift. cbn iota beta.
  eexists. split; [reflexivity|]. cbn. split_and!; try done. exists ts. split; [done|].
  rewrite Hu, Hs. cbn. replace (u16 (zlen (nonce ++ c))) with (zlen d + 28); [|].
  - by destruct (env_sendto _); rewrite ?app_nil_r.
  - unfold u16. rewrite Z.mod_small; zlen.
Qed.

Lemma client_tun_to_udp_safe d : zlen d ≤ 2004 → safe (client_tun_to_udp (Some d)).
Proof.
  intros Hd. apply safe_frame. intros s.
  destruct (client_tun_to_udp_run d s Hd) as (s' & E & ? & ? & _). by eexists _, s'.
Qed.

(** The input of a turn that fits into the buffers of the handlers. *)
Definition turn_fits (a : activity) : Prop :=
  match a with
  | SelectReady udp tun =>
      (∀ d, udp = Some (Some d) → udp_fits d) ∧ (∀ d, tun = Some (Some d) → zlen d ≤ 2004)
  | _ => True
  end.

#[local] Hint Resolve check_keepalive_safe attempt_reconnect_safe : safe.

Lemma client_turn_safe a : turn_fits a → safe (client_turn a).
Proof.
  intros Ha. unfold client_turn. apply safe_bind; [apply safe_get|intros c].
  apply safe_bind; [destruct (connected c); safe|intros [|]; [|apply safe_ret]]. cbn [negb].
  destruct a as [| |udp tun]; [apply safe_ret|safe|]. destruct Ha as [Hu Ht].
  apply safe_bind; [apply check_keepalive_safe|intros r].
  apply safe_if; intros _; [safe|].
  apply safe_bind; [destruct udp as [[d|]|]; [by apply client_udp_to_tun_safe, Hu|apply safe_ret..]|intros _].
  apply safe_bind; [destruct tun as [[d|]|]; [by apply client_tun_to_udp_safe, Ht|apply safe_ret..]|intros _].
  apply safe_ret.
Qed.

Lemma client_loop_safe turns : Forall turn_fits turns → safe (client_loop turns).
Proof.
  induction 1 as [|a turns Ha _ IH]; simpl; [apply safe_ret|].
  apply safe_bind; [by apply client_turn_safe|intros [|]; [done|apply safe_ret]].
Qed.

(** A client that was started ends with all descriptors closed. *)
Lemma destroy_then_exit s (code : Z) :
  client_inv s →
  ∃ s', (_ ← destroy_vpn_client; mret code) s = Ok (code, s') ∧ destroyed s'.
Proof.
  intros (s' & E & Ho)%destroy_vpn_client_run. exists s'.
  by rewrite (run_bind_ok _ _ _ _ _ E).
Qed.

Lemma client_main_run turns s :
  client_inv s → zlen (username (client s)) = 64 → Forall turn_fits turns →
  ∃ code s', client_main turns s = Ok (code, s') ∧ (code = 0 ∨ code = 1) ∧
    destroyed s'.
Proof.
  intros Hs Hu Hf. unfold client_main. rewrite run_bind, run_get.
  destruct (strncpy_run (username (client s)) (before 0 (cfg_username (config (client s)))) 63)
    as (name & E & _); [lia|].
  change (CLIENT_USERNAME - 1) with 63. rewrite E, run_bind, run_lift. cbn iota beta.
  destruct (safe_set (set_username name) ltac:(intros ?; by split_and!) s Hs) as ([] & s1 & E1 & Hs1).
  rewrite (run_bind_ok _ _ _ _ _ E1). destruct (safe_sleep 1 s1 Hs1) as ([] & s2 & E2 & Hs2).
  rewrite (run_bind_ok _ _ _ _ _ E2).
  destruct (vpn_connect_safe (before 0 name) s2 Hs2) as (r & s3 & E3 & Hs3).
  rewrite (run_bind_ok _ _ _ _ _ E3). case_decide.
  { destruct (destroy_then_exit s3 1 Hs3) as (s' & -> & ?). exists 1, s'. auto. }
  destruct (safe_sleep 1 s3 Hs3) as ([] & s4 & E4 & Hs4). rewrite (run_bind_ok _ _ _ _ _ E4).
  destruct (setup_client_tun_safe s4 Hs4) as (r5 & s5 & E5 & Hs5).
  rewrite (run_bind_ok _ _ _ _ _ E5). case_decide.
  { destruct (destroy_then_exit s5 1 Hs5) as (s' & -> & ?). exists 1, s'. auto. }
  destruct (client_loop_safe turns Hf s5 Hs5) as (b & s6 & E6 & Hs6).
  rewrite (run_bind_ok _ _ _ _ _ E6).
  destruct (destroy_then_exit s6 0 Hs6) as (s' & -> & ?). exists 0, s'. auto.
Qed.

(** The client [main] builds. *)
Lemma init_vpn_client_inv k cfg c text :
  init_vpn_client true k cfg = Some c → c_string (server_address cfg) = Ok text →
  client_inv (client_boot c) ∧ zlen (username c) = 64.
Proof.
  unfold init_vpn_client. case_decide; [done|]. unfold crypto_generate_keypair.
  destruct (box_keypair_len k) as [Hk _]. destruct (box_keypair k) as [pk sk].
  intros [= <-] Ht. split; [|done].
  split; simpl; [by repeat constructor|done|by apply NoDup_nil|done|by rewrite Ht].
Qed.
End operations.

(** ** Reconnecting *)

(** What [attempt_reconnect] paces itself with, and the times slept so far. *)
Definition pace (s : client_state) : Z * Z * list Z :=
  (reconnect_attempts (client s), backoff_seconds (client s), sleeps s).

(** Code that does not change what [obs] sees of the state. *)
Definition preserves {A B} (obs : client_state → B) (m : M client_state A) : Prop :=
  ∀ s a s', m s = Ok (a, s') → obs s' = obs s.
(** Code that resets the pace when it returns 0 and leaves it otherwise. *)
Definition resets (m : M client_state Z) : Prop :=
  ∀ s r s', m s = Ok (r, s') →
    pace s' = if decide (r = 0) then (0, INITIAL_BACKOFF, sleeps s) else pace s.

Section preserves.
Context `{Sodium, Garbage, Env, HostEnv, Network} {B : Type} (obs : client_state → B).

Lemma keeps_ret {A} (a : A) : preserves obs (mret a).
Proof. by intros s ? ? [= <- <-]. Qed.
Lemma keeps_get {A} (f : vpn_client_t → A) : preserves obs (get f).
Proof. by intros s ? ? [= <- <-]. Qed.
Lemma keeps_bind {A D} (m : M client_state A) (k : A → M client_state D) :
  preserves obs m → (∀ a, preserves obs (k a)) → preserves obs (m ≫= k).
Proof.
  intros Hm Hk s b s' Hrun. run_inv Hrun. rewrite (Hk _ _ _ _ Hrun). by eapply Hm.
Qed.
Lemma keeps_if {A} (P : Prop) `{Decision P} (m1 m2 : M client_state A) :
  preserves obs m1 → preserves obs m2 → preserves obs (if decide P then m1 else m2).
Proof. intros. by case_decide. Qed.
Lemma keeps_set f :
  (∀ s, obs (with_client (f (client s)) (client_host s) s) = obs s) → preserves obs (set f).
Proof. intros Hf s a s' [= <- <-]. apply Hf. Qed.
Lemma keeps_lift {A} (r : res A) : preserves obs (lift r).
Proof. intros s a s'. destruct r; [|done]. by intros [= <- <-]. Qed.
Lemma keeps_host {A} (m : M host A) :
  (∀ s h, obs (with_client (client s) h s) = obs s) → preserves obs (on_host m).
Proof.
  intros Hh s a s'. unfold on_host. rewrite run_zoom. destruct (m _) as [[? h]|]; [|done].
  intros [= <- <-]. apply Hh.
Qed.
End preserves.

Section pace.
Context `{Sodium, Garbage, Env, HostEnv, Network}.

Lemma keeps_os {A} (m : M os A) : preserves pace (on_client_os m).
Proof.
  intros s a s'. unfold on_client_os. rewrite run_zoom. destruct (m _) as [[? ?]|]; [|done].
  by intros [= <- <-].
Qed.
Lemma keeps_header t len : preserves pace (client_header t len).
Proof.
  intros s a s'. unfold client_header. destruct (init_vpn_header _ _ _ _) as [[[? ?] ?]|]; [|done].
  by intros [= <- <-].
Qed.
Lemma keeps_nonce : preserves pace client_nonce.
Proof. by intros s ? ? [= <- <-]. Qed.
Lemma keeps_answer : preserves pace await_answer.
Proof. by intros s ? ? [= <- <-]. Qed.
Lemma keeps_send b : preserves pace (send_to_server b).
Proof. apply keeps_bind; [apply keeps_get|intros]. apply keeps_os. Qed.

Lemma resets_bind {A} (m : M client_state A) (k : A → M client_state Z) :
  preserves pace m → (∀ a, resets (k a)) → resets (m ≫= k).
Proof.
  intros Hm Hk s r s' Hrun. run_inv Hrun. rewrite (Hk _ _ _ _ Hrun).
  apply Hm in Hrun0 as E. rewrite E. unfold pace in E. by injection E as _ _ ->.
Qed.
Lemma resets_fail r : r ≠ 0 → resets (mret r).
Proof. intros Hr s ? ? [= <- <-]. by rewrite decide_False. Qed.
Lemma resets_if (P : Prop) `{Decision P} (m1 m2 : M client_state Z) :
  resets m1 → resets m2 → resets (if decide P then m1 else m2).
Proof. intros. by case_decide. Qed.
End pace.

Create HintDb pace.
#[export] Hint Resolve keeps_ret keeps_get keeps_lift keeps_os keeps_header keeps_nonce
  keeps_answer keeps_send resets_fail : pace.
(** Follows the code; updates and calls of the host must not be seen by the observer. *)
Ltac pace :=
  repeat first
    [ progress auto with pace
    | apply keeps_bind; [|intros ?] | apply resets_bind; [|intros ?]
    | apply keeps_if | apply resets_if
    | apply keeps_set; intros ?; reflexivity | apply keeps_host; intros; reflexivity ].

Section reconnecting.
Context `{Sodium, Garbage, Env, HostEnv, Network}.

Lemma recreate_socket_keeps : preserves pace recreate_socket.
Proof. unfold recreate_socket. pace. destruct (inet_pton _); pace. Qed.

Lemma setup_client_tun_keeps : preserves pace setup_client_tun.
Proof. unfold setup_client_tun. pace. Qed.
#[local] Hint Resolve recreate_socket_keeps setup_client_tun_keeps : pace.

Lemma establish_resets resp : resets (establish resp).
Proof.
  unfold establish. pace. destruct (crypto_ecdh _ _); [|pace].
  by intros s r s' [= <- <-].
Qed.
#[local] Hint Resolve establish_resets : pace.

Lemma vpn_connect_resets name : resets (vpn_connect name).
Proof.
  unfold vpn_connect, await_response. pace. destruct _; [|pace]. destruct (recv_datagram _ _). pace.
Qed.

Lemma check_keepalive_keeps : preserves pace check_keepalive.
Proof. unfold check_keepalive, send_ping. pace. Qed.

Lemma client_udp_to_tun_keeps d : preserves pace (client_udp_to_tun d).
Proof.
  unfold client_udp_to_tun. destruct d as [d|]; [|pace].
  destruct (recv_datagram _ _). pace. destruct (crypto_decrypt _ _ _); pace.
Qed.

Lemma client_tun_to_udp_keeps d : preserves pace (client_tun_to_udp d).
Proof.
  unfold client_tun_to_udp. destruct d as [d|]; [|pace].
  destruct (recv_datagram _ _). pace. destruct (crypto_encrypt _ _ _); pace.
Qed.
#[local] Hint Resolve check_keepalive_keeps client_udp_to_tun_keeps client_tun_to_udp_keeps : pace.

(** The pace after a reconnection that was attempted at the initial pace. *)
Definition paced (ok : bool) (s s' : client_state) : Prop :=
  (∃ n, sleeps s' = sleeps s ++ replicate n INITIAL_BACKOFF) ∧
  0 ≤ reconnect_attempts (client s') ≤ 1 ∧
  (ok = true → reconnect_attempts (client s') = 0 ∧
               backoff_seconds (client s') = INITIAL_BACKOFF).

Lemma attempt_reconnect_paced s r s' :
  reconnect_attempts (client s) = 0 → backoff_seconds (client s) = INITIAL_BACKOFF →
  attempt_reconnect s = Ok (r, s') → paced (bool_decide (r = 0)) s s'.
Proof.
  intros Ha Hb. unfold attempt_reconnect. rewrite run_bind, run_get, Ha, Hb. case_decide.
  { intros [= <- <-]. split_and!; [exists 0%nat; by rewrite app_nil_r|lia..|done]. }
  intros Hrun. run_inv Hrun. run_inv Hrun. run_inv Hrun.
  injection Hrun0 as <- <-. injection Hrun1 as <- <-.
  apply vpn_connect_resets in Hrun2 as Hp. unfold pace in Hp. cbn in Hp. rewrite Ha in Hp.
  change (i32 (0 + 1)) with 1 in Hp.
  assert (paced (bool_decide (a1 = 0)) s s2) as (Hs2 & Hr2 & Hok).
  { case_decide; injection Hp as E1 E2 E3; unfold paced; rewrite E1, E2, E3;
      split_and!; try (by exists 1%nat); try lia; by rewrite ?bool_decide_eq_true. }
  clear Hp. case_decide.
  { rewrite run_ret in Hrun. injection Hrun as <- <-.
    split; [done|split; [done|intros ?%bool_decide_eq_true; lia]]. }
  rewrite bool_decide_true in Hok by lia.
  run_inv Hrun. apply setup_client_tun_keeps in Hrun0. unfold pace in Hrun0.
  rewrite run_ret in Hrun. injection Hrun as <- <-. injection Hrun0 as E1 E2 E3.
  unfold paced. rewrite E1, E2, E3. split_and!; auto; lia.
Qed.

(** The part of a turn behind the check of the connection. *)
Lemma rest_of_turn_keeps a :
  preserves pace (match a with
  | SelectError => mret false
  | _ =>
      r ← check_keepalive;
      if decide (r ≠ 0) then _ ← set (set_connected false); mret true
      else match a with
      | SelectReady udp tun =>
          _ ← match udp with Some d => client_udp_to_tun d | None => mret () end;
          _ ← match tun with Some d => client_tun_to_udp d | None => mret () end;
          mret true
      | _ => mret true
      end
  end).
Proof. destruct a as [| |udp tun]; pace; [destruct udp|destruct tun]; pace. Qed.

Lemma client_turn_paced a s b s' :
  reconnect_attempts (client s) = 0 → backoff_seconds (client s) = INITIAL_BACKOFF →
  client_turn a s = Ok (b, s') → paced b s s'.
Proof.
  intros Ha Hb. unfold client_turn. rewrite run_bind, run_get. intros Hrun. run_inv Hrun.
  assert (paced a0 s s0) as (Hn & Hr & Hok).
  { destruct (connected (client s)).
    { injection Hrun0 as <- <-. split_and!; auto; [exists 0%nat; by rewrite app_nil_r|lia..]. }
    case_decide; [|injection Hrun0 as <- <-;
      split_and!; [exists 0%nat; by rewrite app_nil_r|lia..|done]].
    run_inv Hrun0. injection Hrun0 as <- <-. by apply attempt_reconnect_paced. }
  destruct a0; cbn [negb] in Hrun; [|by injection Hrun as <- <-].
  apply rest_of_turn_keeps in Hrun. unfold pace in Hrun. injection Hrun as E1 E2 E3.
  unfold paced. rewrite E1, E2, E3. by destruct (Hok eq_refl).
Qed.

Lemma client_loop_paced turns s b s' :
  reconnect_attempts (client s) = 0 → backoff_seconds (client s) = INITIAL_BACKOFF →
  client_loop turns s = Ok (b, s') → paced b s s'.
Proof.
  revert s. induction turns as [|a turns IH]; intros s Ha Hb Hrun; simpl in Hrun.
  { injection Hrun as <- <-. split_and!; auto; [exists 0%nat; by rewrite app_nil_r|lia..]. }
  run_inv Hrun. destruct (client_turn_paced _ _ _ _ Ha Hb Hrun0) as ((n & Hn) & Hr & Hok).
  destruct a0; [|injection Hrun as <- <-; split_and!; [by exists n|lia..|done]].
  destruct Hok as [Ha1 Hb1]; [done|].
  destruct (IH _ Ha1 Hb1 Hrun) as ((n' & Hn') & Hr' & Hok'). split_and!; auto; [|lia..].
  exists (n + n')%nat. by rewrite Hn', Hn, replicate_add, app_assoc.
Qed.
End reconnecting.

(** ** Connecting *)
Section connecting.
Context `{Sodium, Garbage, Env, HostEnv, Network} `{!SodiumLaws _}.

(** The rest of the world, the pending answers and the key pair. *)
Definition world (s : client_state) : os * nat * list Z * list Z :=
  (client_os s, answers s, client_public_key (client s), client_private_key (client s)).

Lemma recreate_socket_world : preserves world recreate_socket.
Proof. unfold recreate_socket. pace. destruct (inet_pton _); pace. Qed.

(** A CONNECT_REQ that carries a public key. *)
Definition is_connect_req (pk d : list Z) : Prop :=
  zlen d = 80 ∧ hdr_type (vpn_header_of_bytes d) = PKT_CONNECT_REQ ∧ slice 48 32 d = pk.

(** The session a client takes over from an accepting response. *)
Definition in_session (resp : connect_response_t) (shared : list Z) (c : vpn_client_t) : Prop :=
  connected c = true ∧ client_vpn_ip c = resp_vpn_ip resp ∧
  client_session_id c = ntohl (resp_session_id resp) ∧
  client_session_key c = crypto_derive_session_key shared None.

Lemma establish_run resp s shared :
  crypto_ecdh (client_private_key (client s)) (resp_server_public_key resp) = Some shared →
  ∃ s', establish resp s = Ok (0, s') ∧ udp_out (client_os s') = udp_out (client_os s) ∧
    in_session resp shared (client s').
Proof.
  destruct s as [[] ? ? ? ? ? o]. cbn. intros E. unfold establish.
  rewrite run_bind, run_set. rewrite run_bind, run_get. cbn. rewrite E.
  do 2 (rewrite run_bind, run_set; cbn). rewrite run_bind.
  unfold on_client_os at 1, time at 1. rewrite run_zoom. cbn.
  rewrite run_bind, run_set. cbn. rewrite run_bind. unfold on_client_os, time. rewrite run_zoom. cbn.
  rewrite run_bind, run_set. cbn. eexists. split; [reflexivity|]. done.
Qed.

(** The request is well formed, and the buffer holds it. *)
Lemma connect_req_shape h field pk :
  wf_header h → hdr_type h = PKT_CONNECT_REQ → zlen field = 32 → zlen pk = 32 →
  is_connect_req pk (vpn_header_bytes h ++ field ++ pk).
Proof.
  intros Hh Ht Hf Hpk. split_and!; [zlen|by rewrite vpn_header_roundtrip|].
  rewrite !slice_skip by zlen. autorewrite with zlen. autounfold with sizes. rewrite Hf.
  by apply slice_all.
Qed.

Lemma await_response_run buffer s b shared :
  zlen buffer = 2048 → env_answer (answers s) = Some b → 57 ≤ zlen b ≤ 2048 →
  let resp := connect_response_of_bytes b in
  hdr_type (resp_header resp) = PKT_CONNECT_RESP → resp_status resp = 0 →
  crypto_ecdh (client_private_key (client s)) (resp_server_public_key resp) = Some shared →
  ∃ s', await_response buffer s = Ok (0, s') ∧ in_session resp shared (client s').
Proof.
  intros Hb Ha Hl resp Ht Hst Hk. unfold await_response, await_answer. rewrite run_bind, Ha.
  rewrite recv_datagram_cut. rewrite take_ge by (unfold zlen in *; lia).
  rewrite connect_response_prefix by lia. fold resp.
  rewrite decide_False, decide_False by (rewrite ?Ht, ?Hst; auto).
  match goal with |- context [establish resp ?s1] =>
    destruct (establish_run resp s1 shared Hk) as (s' & E & _ & Hin) end.
  by exists s'.
Qed.

(** Nothing is sent any more. *)
Lemma await_response_quiet buffer : preserves (λ s, udp_out (client_os s)) (await_response buffer).
Proof.
  assert (preserves (λ s, udp_out (client_os s)) (on_client_os time)) as Ht
    by (by intros s ? ? [= <- <-]).
  unfold await_response, establish.
  apply keeps_bind; [by intros s ? ? [= <- <-]|intros [d|]; [|apply keeps_ret]].
  destruct (recv_datagram _ _). pace. destruct (crypto_ecdh _ _); pace.
Qed.

(** Connecting writes nothing to the TUN device. *)
Lemma vpn_connect_tun name : preserves (λ s, tun_out (client_os s)) (vpn_connect name).
Proof.
  assert (preserves (λ s, tun_out (client_os s)) (on_client_os time)) as Ht
    by (by intros s ? ? [= <- <-]).
  assert (∀ b, preserves (λ s, tun_out (client_os s)) (send_to_server b)) as Hsend.
  { intros b. apply keeps_bind; [apply keeps_get|]. by intros addr s ? ? [= <- <-]. }
  assert (∀ t len, preserves (λ s, tun_out (client_os s)) (client_header t len)) as Hh.
  { intros t len s h s' E. destruct (client_header_run t len s) as (ts & o' & _ & _ & Et & _ & E').
    rewrite E' in E. by injection E as <- <-. }
  assert (preserves (λ s, tun_out (client_os s)) recreate_socket) as Hr.
  { unfold recreate_socket. pace. destruct (inet_pton _); pace. }
  assert (preserves (λ s, tun_out (client_os s)) await_answer) as Ha by (by intros s ? ? [= <- <-]).
  assert (∀ resp, preserves (λ s, tun_out (client_os s)) (establish resp)) as He.
  { intros resp. unfold establish. pace. destruct (crypto_ecdh _ _); pace. }
  assert (∀ b, preserves (λ s, tun_out (client_os s)) (await_response b)) as Hw.
  { intros b. unfold await_response. apply keeps_bind; [done|intros [d|]; [|apply keeps_ret]].
    destruct (recv_datagram _ _). pace. }
  unfold vpn_connect. pace.
Qed.

(** [vpn_connect] when its socket is there and the request was sent. *)
Lemma vpn_connect_run name s r s' addr d :
  client_inv s → vpn_connect name s = Ok (r, s') →
  udp_out (client_os s') = udp_out (client_os s) ++ [(addr, d)] →
  is_connect_req (client_public_key (client s)) d ∧
  ∀ b shared, env_answer (answers s) = Some b → 57 ≤ zlen b ≤ 2048 →
    let resp := connect_response_of_bytes b in
    hdr_type (resp_header resp) = PKT_CONNECT_RESP → resp_status resp = 0 →
    crypto_ecdh (client_private_key (client s)) (resp_server_public_key resp) = Some shared →
    r = 0 ∧ in_session resp shared (client s').
Proof.
  intros Hs Hrun Hout. unfold vpn_connect in Hrun. run_inv Hrun.
  destruct (recreate_socket_safe s Hs) as (r0 & s1 & E0 & Hs1). rewrite E0 in Hrun0.
  injection Hrun0 as <- <-. apply recreate_socket_world in E0 as Hw.
  injection Hw as Hos Hans Hpub Hpriv. case_decide.
  { rewrite run_ret in Hrun. injection Hrun as <- <-. rewrite Hos in Hout.
    apply (f_equal length) in Hout. rewrite length_app in Hout. simpl in Hout. lia. }
  destruct (client_header_run PKT_CONNECT_REQ (sizeof_connect_request_t - sizeof_vpn_header_t) s1)
    as (ts & o' & Hts & Hu & _ & Hsc & E1).
  rewrite (run_bind_ok _ _ _ _ _ E1) in Hrun. set (h := VpnHeader _ _ _ _ _) in *.
  rewrite run_bind, run_get in Hrun. cbn [client] in Hrun. rewrite Hpub in Hrun.
  set (buf := local "vpn_connect.buffer" CLIENT_BUFFER) in *.
  assert (zlen buf = 2048) as Hbl by (subst buf; by rewrite zlen_local).
  pose proof (ci_key _ Hs) as Hk.
  destruct (build_connect_req_run buf h name (client_public_key (client s)) Hbl Hk)
    as (field & Hf & E2).
  rewrite E2, run_bind, run_lift in Hrun. cbn iota beta in Hrun.
  set (req := vpn_header_bytes h ++ field ++ client_public_key (client s)) in *.
  assert (is_connect_req (client_public_key (client s)) req) as Hreq
    by (apply connect_req_shape; [apply wf_init_header|done..]).
  assert (zlen req = 80) as Hrl by apply Hreq.
  assert (zlen (drop 80 buf) = 1968) as Hd by (change 80%nat with (Z.to_nat 80); zlen).
  rewrite run_bind, buf_read_ok, slice_hit in Hrun by zlen.
  rewrite run_lift in Hrun. cbn iota beta in Hrun.
  unfold send_to_server in Hrun. rewrite run_bind in Hrun.
  rewrite run_bind, run_get in Hrun. unfold on_client_os, sendto in Hrun. rewrite run_zoom in Hrun.
  cbn [client_os client] in Hrun. destruct (env_sendto _); cycle 1.
  { rewrite decide_True in Hrun by lia. rewrite run_ret in Hrun. injection Hrun as <- <-.
    cbn [client_os udp_out] in Hout. rewrite Hu, Hos in Hout.
    apply (f_equal length) in Hout. rewrite length_app in Hout. simpl in Hout. lia. }
  rewrite decide_False in Hrun by lia. apply await_response_quiet in Hrun as Hq.
  cbn [client_os udp_out] in Hq. rewrite Hq, Hu, Hos in Hout.
  apply app_inv_head in Hout. injection Hout as _ <-. split; [done|].
  intros b shared Ha Hl resp Ht Hst Hecdh.
  match type of Hrun with await_response ?buf0 ?s2 = _ =>
    destruct (await_response_run buf0 s2 b shared) as (s3 & E3 & Hin) end;
    [zlen|cbn; by rewrite Hans|done|done|done|cbn; by rewrite Hpriv|].
  rewrite E3 in Hrun. by injection Hrun as <- <-.
Qed.

(** A data packet under the session key reaches the TUN device. *)
Lemma client_udp_to_tun_data h n ct m s :
  wf_header h → hdr_type h = PKT_DATA → zlen n = 12 →
  crypto_encrypt m (client_session_key (client s)) n = Some ct → zlen m ≤ 2004 →
  ∃ s', client_udp_to_tun (Some (vpn_header_bytes h ++ n ++ ct)) s = Ok ((), s') ∧
    client s' = client s ∧ udp_out (client_os s') = udp_out (client_os s) ∧
    tun_out (client_os s') =
      tun_out (client_os s) ++ (if env_write (write_calls (client_os s)) then [m] else []).
Proof.
  intros Hh Ht Hn Hc Hm. pose proof (zlen_nonneg m).
  pose proof (aead_encrypt_len _ _ _ _ Hc) as Hl. change CRYPTO_MAC_SIZE with 16 in Hl.
  unfold client_udp_to_tun. set (d := vpn_header_bytes h ++ n ++ ct).
  assert (zlen d = 44 + zlen m) as Hd by (subst d; zlen).
  destruct (client_recv "client.buffer" d) as [-> Hbuf].
  assert (take 2048 d = d) as E by (apply take_ge; unfold zlen in *; lia). rewrite E in *.
  set (rest := drop (length d) _) in *. autounfold with sizes. rewrite decide_False by lia.
  assert (d ++ rest = vpn_header_bytes h ++ n ++ ct ++ rest) as Ed
    by (subst d; by rewrite <-!app_assoc).
  rewrite Ed in *. rewrite vpn_header_roundtrip, Ht by done.
  rewrite decide_False, decide_True by done.
  assert (u64 (zlen d - 16 - 12) = zlen ct) as -> by (unfold u64; rewrite Z.mod_small; lia).
  rewrite run_bind, (buf_read_ok _ 16 12) by lia. rewrite run_lift. cbn iota beta.
  rewrite run_bind, (buf_read_ok _ (16 + 12)) by lia. rewrite run_lift. cbn iota beta.
  rewrite run_bind, run_get.
  replace (slice 16 12 _) with n by (by field).
  replace (slice (16 + 12) _ _) with ct.
  2:{ rewrite !slice_skip by zlen. autorewrite with zlen. rewrite Hn. by rewrite slice_hit. }
  unfold crypto_decrypt. rewrite (aead_decrypt_encrypt _ _ _ _ Hc).
  assert (u64 (zlen ct - 16) = zlen m) as -> by (unfold u64; rewrite Z.mod_small; lia).
  rewrite run_bind, buf_write_0 by zlen. rewrite run_lift. cbn iota beta.
  rewrite run_bind, buf_read_ok, slice_hit by
    (rewrite ?zlen_app, ?zlen_drop_length; rewrite ?zlen_local; zlen).
  rewrite run_lift. cbn iota beta. eexists. split; [reflexivity|]. cbn.
  by destruct (env_write _); rewrite ?app_nil_r.
Qed.
End connecting.

(** A configuration [main] can work with: loading it does not fault, and the server
    address is terminated. *)
Definition config_usable (r : res (option vpn_config_t)) : Prop :=
  match r with
  | Ok (Some cfg) => ∃ text, c_string (server_address cfg) = Ok text
  | Ok None => True
  | Fault _ => False
  end.

Section claims.
Context `{Sodium, Garbage, Env, HostEnv, Network} `{!SodiumLaws _}.

(** An address on the command line gives a usable configuration. *)
Lemma server_ip_is_usable files ip :
  zlen ip < 255 → 0 ∉ ip → config_usable (load_config true files (ServerIp ip)).
Proof.
  intros Hl Hz. unfold load_config.
  destruct config_create_default_run as (addr & user & Ha & _ & _ & _ & ->).
  cbn [mbind res_bind server_address].
  destruct (strncpy_run (addr ++ [garbage "config.server_address" 255]) ip 255)
    as (dst & E & _); [zlen|].
  change (CFG_ADDRESS - 1) with 255. rewrite E. cbn [mbind res_bind config_usable server_address].
  exists ip. eapply (c_string_strncpy _ ip 255); [|done|done|exact E]. zlen.
Qed.


(** (C38) The client waits one second before each reconnection and never retries one: in
    the main loop of a connected client every reconnection is the first attempt, made
    after [INITIAL_BACKOFF]; a failed attempt ends the loop. The exponential backoff and
    a maximum of more than one attempt have no effect. *)
Theorem reconnects_are_never_retried turns s alive s' :
  reconnect_attempts (client s) = 0 → backoff_seconds (client s) = INITIAL_BACKOFF →
  client_loop turns s = Ok (alive, s') →
  (∃ n, sleeps s' = sleeps s ++ replicate n 1) ∧
  0 ≤ reconnect_attempts (client s') ≤ 1 ∧
  (alive = true → reconnect_attempts (client s') = 0).
Proof.
  intros Ha Hb (Hn & Hr & Hok)%client_loop_paced; [|done..]. split_and!; try done; try lia.
  by intros [? _]%Hok.
Qed.
End claims.

(** ** Witnesses *)
Section witnesses.
#[local] Existing Instance quiet_env.
#[local] Existing Instance zero_garbage.
#[local] Existing Instance kind_host.

(** The server accepts each request, with the address 10.8.0.2. *)
#[local] Instance accepting : Network := λ _,
  Some (connect_response_bytes
    (ConnectResponse (VpnHeader PKT_CONNECT_RESP 1 0 0 0) 0 (le_val [10; 8; 0; 2]) (htonl 1)
       (toy_keypair 5).1)).

Definition pong : list Z := vpn_header_bytes (VpnHeader PKT_PONG 1 0 0 0).


Lemma short_data_packet_overreads_client_witness :
  client_udp_to_tun (Some (vpn_header_bytes (VpnHeader PKT_DATA 1 0 0 0)))
    (client_boot (VpnClient 3 4 (SockAddrIn 0 0 0) [] [] [] [] 0 0 true 0 0 0 1 []
                    (VpnConfig [] 51820 [] 1 10 30 60 2))) = Fault Overread.
Proof. apply short_data_packet_overreads_client; [vm_compute; split; congruence|reflexivity]. Defined.

(** A client that has lost its connection. *)
Definition lost_client : client_state :=
  ClientState (VpnClient (-1) (-1) (SockAddrIn 0 0 0) (toy_keypair 3).2 (toy_keypair 3).1
                 (replicate 32 0) (replicate 32 0) 0 0 false 0 0 0 1 (replicate 64 0)
                 (VpnConfig (chars "127.0.0.1" ++ [0]) 51820 [0] 1 10 30 60 2))
              0 0 0 [] host_boot os_boot.

Lemma reconnects_are_never_retried_witness :
  ∃ alive s', client_loop [SelectTimeout; SelectTimeout] lost_client = Ok (alive, s') ∧
    (∃ n, sleeps s' = sleeps lost_client ++ replicate n 1) ∧
    0 ≤ reconnect_attempts (client s') ≤ 1 ∧
    (alive = true → reconnect_attempts (client s') = 0).
Proof.
  eexists _, _. split; [vm_compute; reflexivity|].
  eapply (reconnects_are_never_retried [SelectTimeout; SelectTimeout] lost_client);
    [reflexivity|reflexivity|vm_compute; reflexivity].
Defined.
End witnesses.
