(* ===== verification/System.v ===== *)
(** * Client, server and enclave together

    Theorems about both ends of the tunnel: what [vpn_connect] of the client and the
    server's handling of the request agree on, and what a packet that enters the
    tunnel on one side becomes on the other. Each end has its own environment and
    its own uninitialised memory; the server talks to the enclave of Enclave.v. *)

From S2P Require Import Prelude Os Crypto ToySodium Protocol KeyManager Enclave EnclaveClient.
From S2P Require Import ClientManager VpnServer Config Tun VpnClient.

(** What a program finds on the machine it runs on. *)
Record machine := Machine { m_garbage : Garbage; m_env : Env }.

Section ends.
Context `{Sodium} (m : machine).

Definition server_udp : datagram → M (server enclave) () :=
  @handle_udp_to_tun enclave (@enclave_channel _ (m_garbage m)) (m_garbage m) (m_env m).
Definition server_tun : tun_packet → M (server enclave) () :=
  @handle_tun_to_udp enclave (@enclave_channel _ (m_garbage m)) (m_garbage m) (m_env m).
Definition peer_udp : option (list Z) → M client_state () :=
  @client_udp_to_tun _ (m_garbage m) (m_env m).
Definition peer_tun : option (list Z) → M client_state () :=
  @client_tun_to_udp _ (m_garbage m) (m_env m).
Definition peer_connect `{HostEnv, Network} : list Z → M client_state Z :=
  @vpn_connect _ (m_garbage m) (m_env m) _ _.
End ends.

(** The key table of the enclave behind a server. *)
Definition km_of (s : server enclave) : key_manager_t := e_km (channel (enclave_conn s)).
(** The client table is in order and the connection to the enclave is idle. *)
Definition server_ready (s : server enclave) : Prop :=
  wf_table (table s) ∧ idle (channel (enclave_conn s)).

Section handshake.
Context `{Sodium} `{!SodiumLaws _}.

(** A fresh address with a free slot gets the key of the handshake. *)
Lemma perform_handshake_fresh km ip pk k km' :
  wf_key_manager km → key_count km < 256 → get_key km ip = None →
  perform_handshake km ip pk = (Some k, km') → get_key km' ip = Some k.
Proof.
  intros Hwf Hroom Hn ->%perform_handshake_add. by apply store_new_key.
Qed.

(** A CONNECT_REQ that was answered. *)
Lemma server_accepts m addr pk d b srv srv' :
  server_ready srv → is_connect_req pk d → zlen pk = 32 →
  server_udp m (Some (addr, d)) srv = Ok ((), srv') →
  udp_out (sys srv') = udp_out (sys srv) ++ [(addr, b)] →
  ∃ i c k ts, find_client_by_addr (table srv') addr = Some (i, c) ∧ in_pool (vpn_ip c) ∧
    perform_handshake (km_of srv) (vpn_ip c) pk = (Some k, km_of srv') ∧
    b = connect_response srv ts (vpn_ip c) (session_id c) (server_public_key (km_of srv)) ∧
    add_outcome (table srv) addr (vpn_ip c) (table srv') ∧ server_ready srv' ∧
    tun_out (sys srv') = tun_out (sys srv).
Proof.
  intros [Hwf Hidle] (Hd & Ht & Hpk) Hl Hrun Hout. destruct m as [G E].
  unfold server_udp in Hrun. cbn [m_garbage m_env] in Hrun.
  assert (server_ok srv) as Hok by (by split).
  rewrite handle_udp_dispatch, decide_False, decide_True in Hrun by (done || lia).
  destruct (on_connect_req_run (rx_buffer d) addr srv Hok (rx_buffer_len d))
    as (s1 & E1 & [Hwf1 Hidle1] & Hc). rewrite E1 in Hrun. injection Hrun as <-.
  rewrite rx_buffer_key, Hpk in Hc by lia.
  destruct Hc as [s1 _ _ _ _ [Hudp _]|ip t' s1 _ _ _ _ _ [Hudp _]
    |ip t' s1 spk sk i c ts Ho Hp Hh Htab Hf Hip _ Hts [Hudp Htun]]; rewrite Hudp in Hout;
    apply app_inv_head in Hout; [done..|]. unfold sent in Hout.
  destruct (env_sendto _); [|done]. injection Hout as <-. subst ip.
  rewrite enclave_handshake_run in Hh by (done || by apply in_pool_uint).
  fold (km_of srv) in Hh.
  destruct (perform_handshake (km_of srv) (vpn_ip c) pk) as [[k|] km'] eqn:Hph; [|done].
  injection Hh as <- <- Hconn. rewrite app_nil_r in Htun.
  exists i, c, k, ts. rewrite Htab. split_and!; try done. unfold km_of. by rewrite <-Hconn.
Qed.

(** The key comes from the exchanged public key. *)
Lemma perform_handshake_key km ip pk k km' :
  perform_handshake km ip pk = (Some k, km') →
  ∃ shared, crypto_ecdh (server_private_key km) pk = Some shared ∧
    k = crypto_derive_session_key shared None.
Proof.
  unfold perform_handshake. destruct (crypto_ecdh _ _) as [shared|]; [|done].
  destruct (add_key _ _ _). intros [= <- _]. by exists shared.
Qed.

Lemma connect_response_decodes (s : server enclave) ts ip sid spk :
  is_uint 4 ip → zlen spk = 32 →
  let b := connect_response s ts ip sid spk in
  zlen b = 57 ∧
  ∃ h, hdr_type h = PKT_CONNECT_RESP ∧
    connect_response_of_bytes b = ConnectResponse h 0 ip (htonl sid) spk.
Proof.
  intros Hip Hs b.
  assert (wf_connect_response (ConnectResponse (next_header s PKT_CONNECT_RESP 41 ts) 0 ip
    (htonl sid) spk)) as Hr.
  { split_and!; try done; [apply wf_init_header|by apply bswap_uint]. }
  split; [by apply zlen_connect_response_bytes|]. eexists. split; [|by apply connect_response_fields].
  done.
Qed.

(** What both sides hold after the exchange. *)
Lemma handshake_agreement (sm cm : machine) `{HostEnv, Network}
    name cs r cs' saddr addr d b srv srv' (i j : nat) :
  client_inv cs → server_ready srv →
  (client_public_key (client cs), client_private_key (client cs)) = box_keypair i →
  (server_public_key (km_of srv), server_private_key (km_of srv)) = box_keypair j →
  peer_connect cm name cs = Ok (r, cs') →
  udp_out (client_os cs') = udp_out (client_os cs) ++ [(saddr, d)] →
  server_udp sm (Some (addr, d)) srv = Ok ((), srv') →
  udp_out (sys srv') = udp_out (sys srv) ++ [(addr, b)] →
  env_answer (answers cs) = Some b →
  r = 0 ∧ VpnClient.connected (client cs') = true ∧
  ∃ slot c, find_client_by_addr (table srv') addr = Some (slot, c) ∧
    client_vpn_ip (client cs') = vpn_ip c ∧
    client_session_id (client cs') = ntohl (htonl (session_id c)) ∧
    perform_handshake (km_of srv) (vpn_ip c) (client_public_key (client cs)) =
      (Some (client_session_key (client cs')), km_of srv') ∧
    add_outcome (table srv) addr (vpn_ip c) (table srv') ∧ in_pool (vpn_ip c) ∧
    server_ready srv' ∧ tun_out (sys srv') = tun_out (sys srv).
Proof.
  intros Hci Hready Hck Hsk Hconn Hsent Hserve Hback Hans.
  destruct (@vpn_connect_run _ (m_garbage cm) (m_env cm) _ _ _ _ _ _ _ _ Hci Hconn Hsent)
    as [Hreq Hresp].
  destruct (server_accepts sm addr _ d b srv srv' Hready Hreq (ci_key _ Hci) Hserve Hback)
    as (slot & c & k & ts & Hf & Hp & Hph & -> & Ho & Hr' & Ht').
  pose proof (idle_key _ (proj2 Hready)) as Hspk.
  destruct (connect_response_decodes srv ts (vpn_ip c) (session_id c)
    (server_public_key (km_of srv))) as (Hbl & h & Hty & Hdec); [by apply in_pool_uint|done|].
  destruct (perform_handshake_key _ _ _ _ _ Hph) as (shared & Hecdh & Hkey).
  assert (crypto_ecdh (client_private_key (client cs)) (server_public_key (km_of srv)) = Some shared)
    as Hcecdh.
  { unfold crypto_ecdh in *.
    pose proof (box_beforenm_comm i j) as Hcomm. rewrite <-Hck, <-Hsk in Hcomm. simpl in Hcomm.
    by rewrite <-Hcomm. }
  specialize (Hresp _ shared Hans ltac:(lia)). rewrite Hdec in Hresp. cbn in Hresp.
  destruct Hresp as (-> & Hc & Hip & Hsid & Hkc); [done..|].
  split; [done|]. split; [done|]. exists slot, c. split_and!; try done.
  by rewrite Hkc, <-Hkey.
Qed.
(** (C5) Client and server agree on the session. When the request [d] that a client sends
    in [vpn_connect] reaches the server, the server answers it with [b], and the client
    receives [b], then the client is connected, it uses the VPN address and the session
    id of the server's entry for it, and, if the enclave had no key for that address and
    a free slot, the key the enclave now uses for the address is the session key of the
    client. *)
Theorem handshake_agrees_on_session (sm cm : machine) `{HostEnv, Network}
    name cs r cs' saddr addr d b srv srv' (i j : nat) :
  client_inv cs → server_ready srv →
  (client_public_key (client cs), client_private_key (client cs)) = box_keypair i →
  (server_public_key (km_of srv), server_private_key (km_of srv)) = box_keypair j →
  peer_connect cm name cs = Ok (r, cs') →
  udp_out (client_os cs') = udp_out (client_os cs) ++ [(saddr, d)] →
  server_udp sm (Some (addr, d)) srv = Ok ((), srv') →
  udp_out (sys srv') = udp_out (sys srv) ++ [(addr, b)] →
  env_answer (answers cs) = Some b →
  r = 0 ∧ VpnClient.connected (client cs') = true ∧
  ∃ slot c, find_client_by_addr (table srv') addr = Some (slot, c) ∧
    client_vpn_ip (client cs') = vpn_ip c ∧
    client_session_id (client cs') = ntohl (htonl (session_id c)) ∧
    (wf_key_manager (km_of srv) → key_count (km_of srv) < 256 →
     get_key (km_of srv) (vpn_ip c) = None →
     get_key (km_of srv') (vpn_ip c) = Some (client_session_key (client cs'))).
Proof.
  intros Hci Hready Hck Hsk Hconn Hsent Hserve Hback Hans.
  destruct (handshake_agreement sm cm name cs r cs' saddr addr d b srv srv' i j)
    as (-> & Hc & slot & c & Hf & Hip & Hsid & Hph & _); [done..|].
  split; [done|]. split; [done|]. exists slot, c. split_and!; try done.
  intros Hwf Hroom Hn. by eapply perform_handshake_fresh.
Qed.
End handshake.

Section tunnel.
Context `{Sodium} `{!SodiumLaws _} (sm cm : machine).

(** The packets of one write to a TUN device. *)
Definition written (m : machine) (o : os) (p : list Z) : list (list Z) :=
  if @env_write (m_env m) (write_calls o) then [p] else [].

(** (C6) A packet the client reads from its TUN device comes out of the TUN device of the
    server: the client sends one datagram, and if it reaches the server from the address
    the client is known under, the server writes the packet, unchanged, to its device
    and changes nothing but the time the client was last seen. *)
Theorem tunnel_carries_packets_to_server p cs srv addr slot c :
  server_ready srv → zlen p ≤ 2004 →
  find_client_by_addr (table srv) addr = Some (slot, c) →
  get_key (km_of srv) (vpn_ip c) = Some (client_session_key (client cs)) →
  (∀ n, is_Some (crypto_encrypt p (client_session_key (client cs)) n)) →
  @env_sendto (m_env cm) (sendto_calls (client_os cs)) = true →
  ∃ cs' d now srv',
    peer_tun cm (Some p) cs = Ok ((), cs') ∧ client cs' = client cs ∧
    udp_out (client_os cs') = udp_out (client_os cs) ++ [(server_addr (client cs), d)] ∧
    server_udp sm (Some (addr, d)) srv = Ok ((), srv') ∧
    tun_out (sys srv') = tun_out (sys srv) ++ written sm (sys srv) p ∧
    udp_out (sys srv') = udp_out (sys srv) ∧ table srv' = touch now (table srv) addr.
Proof.
  intros [Hwf Hidle] Hp Hf Hk Henc Hsend. destruct sm as [Gs Es], cm as [Gc Ec].
  unfold peer_tun, server_udp, written. cbn [m_garbage m_env] in *.
  destruct (@client_tun_to_udp_run _ Gc Ec _ p cs Hp) as (cs' & E1 & Hc & _ & _ & Hout).
  destruct (Henc (crypto_random_nonce (client_rng cs))) as [ct Hct]. rewrite Hct in Hout.
  destruct Hout as (ts & Hts & Hout). rewrite Hsend in Hout.
  pose proof (aead_encrypt_len _ _ _ _ Hct) as Hl. change CRYPTO_MAC_SIZE with 16 in Hl.
  set (n := crypto_random_nonce _) in *.
  assert (zlen n = 12) as Hn by (by apply randombytes_len).
  match type of Hout with context [vpn_header_bytes ?h] =>
    destruct (handle_data_packet addr h (n ++ ct) slot c srv)
      as (now & srv' & E2 & _ & Htab & _ & _ & [Hudp Htun]) end;
    [by split|apply (wf_init_header PKT_DATA)|done|zlen|done|].
  eexists cs', _, now, srv'. split_and!; try done; [|by rewrite app_nil_r in Hudp].
  rewrite Htun. f_equal. cbn [svc_key enclave_service]. fold (km_of srv). rewrite Hk.
  by rewrite (open_packet_sealed p _ n ct).
Qed.

(** (C7) A packet for a client comes out of that client's TUN device: an IPv4 packet of 20 to
    2004 bytes that the server reads from its device for the VPN address of a client goes to
    that client alone, if it can be encrypted and sent, and the client that uses the session
    key writes it, unchanged, to its device. *)
Theorem tunnel_carries_packets_to_client p cs srv slot c :
  server_ready srv → 20 ≤ zlen p ≤ 2004 → ip_version p ≠ 6 →
  find_client_by_vpn_ip (table srv) (ip_daddr p) = Some (slot, c) →
  get_key (km_of srv) (vpn_ip c) = Some (client_session_key (client cs)) →
  (∀ n, is_Some (crypto_encrypt p (client_session_key (client cs)) n)) →
  @env_sendto (m_env sm) (sendto_calls (sys srv)) = true →
  ∃ srv' d cs',
    server_tun sm (Some p) srv = Ok ((), srv') ∧
    udp_out (sys srv') = udp_out (sys srv) ++ [(real_addr c, d)] ∧
    tun_out (sys srv') = tun_out (sys srv) ∧
    peer_udp cm (Some d) cs = Ok ((), cs') ∧ client cs' = client cs ∧
    tun_out (client_os cs') = tun_out (client_os cs) ++ written cm (client_os cs) p.
Proof.
  intros [Hwf Hidle] Hp Hv Hf Hk Henc Hsend. destruct sm as [Gs Es], cm as [Gc Ec].
  unfold peer_udp, server_tun, written. cbn [m_garbage m_env] in *.
  destruct (@handle_tun_to_udp_run enclave _ Gs Es _ _ _ p srv) as (srv' & E1 & _ & _ & Hr); [by split|lia|].
  destruct Hr as [[?|[?|E]]|i' c' srv' _ _ Hf' Hk' _ _ _
    |i' c' k n ct ts now srv' _ _ Hf' Hk' Hn Hct Hts _ [Hudp Htun] _];
    [lia|done|by rewrite E in Hf|..]; rewrite Hf in Hf'; injection Hf' as <- <-;
    change (svc_key (channel (enclave_conn srv)) (vpn_ip c)) with
      (get_key (km_of srv) (vpn_ip c)) in Hk'; rewrite Hk in Hk'.
  { destruct Hk' as [n Hn]. destruct (Henc n) as [? ?]. congruence. }
  injection Hk' as <-. unfold sent in Hudp. rewrite Hsend in Hudp.
  match type of Hudp with context [vpn_header_bytes ?h] =>
    destruct (@client_udp_to_tun_data _ Gc Ec _ h n ct p cs)
      as (cs' & E2 & Hc & _ & Htun') end; [apply wf_init_header|done..|lia|].
  eexists srv', _, cs'. split_and!; try done. by rewrite app_nil_r in Htun.
Qed.
End tunnel.

(** ** Instances: a client that connects to [toy_server] and uses the tunnel *)
Section instances.
#[local] Existing Instance kind_host.
#[local] Existing Instance quiet_env.

Definition pc : machine := Machine zero_garbage quiet_env.

Definition new_client : client_state :=
  client_boot (VpnClient (-1) (-1) (SockAddrIn 0 0 0) (toy_keypair 4).2 (toy_keypair 4).1
                 (replicate 32 0) (replicate 32 0) 0 0 false 0 0 0 1 (replicate 64 0)
                 (VpnConfig (chars "10.0.0.1" ++ [0]) 51820 [0] 1 10 30 60 2)).

Definition last_sent (l : list (sockaddr_in * list Z)) : list Z :=
  match last l with Some (_, d) => d | None => [] end.
(** The request does not depend on the answer. *)
Definition toy_request : list Z :=
  match @peer_connect _ pc _ (λ _, None) (chars "bob") new_client with
  | Ok (_, s) => last_sent (udp_out (client_os s))
  | Fault _ => []
  end.
Definition welcoming_server : server enclave :=
  match server_udp pc (Some (peer 2, toy_request)) toy_server with
  | Ok (_, s) => s
  | Fault _ => toy_server
  end.
#[local] Instance toy_network : Network := λ _, Some (last_sent (udp_out (sys welcoming_server))).
Definition connected_client : client_state :=
  match peer_connect pc (chars "bob") new_client with Ok (_, s) => s | Fault _ => new_client end.

Lemma new_client_inv : client_inv new_client.
Proof.
  split; simpl; [by repeat constructor|done|by apply NoDup_nil|done|by eexists].
Qed.
Lemma toy_server_ready : server_ready toy_server.
Proof. split; [apply (table_reachable_wf 1), one_client_reachable|by split]. Qed.

Lemma handshake_agrees_on_session_witness :
  0 = 0 ∧ VpnClient.connected (client connected_client) = true ∧
  ∃ slot c, find_client_by_addr (table welcoming_server) (peer 2) = Some (slot, c) ∧
    client_vpn_ip (client connected_client) = vpn_ip c ∧
    client_session_id (client connected_client) = ntohl (htonl (session_id c)) ∧
    (wf_key_manager (km_of toy_server) → key_count (km_of toy_server) < 256 →
     get_key (km_of toy_server) (vpn_ip c) = None →
     get_key (km_of welcoming_server) (vpn_ip c) =
       Some (client_session_key (client connected_client))).
Proof.
  apply (handshake_agrees_on_session pc pc (chars "bob") new_client 0 connected_client
    (server_addr (client connected_client)) (peer 2) toy_request
    (last_sent (udp_out (sys welcoming_server))) toy_server welcoming_server 4 0);
    [apply new_client_inv|apply toy_server_ready|by vm_compute..].
Defined.

(** The client of [toy_server] on its own machine. *)
Definition tunnel_client : client_state :=
  ClientState (set_session_key toy_key (client new_client)) 0 0 0 [] host_boot os_boot.

Lemma tunnel_carries_packets_to_server_witness :
  ∃ cs' d now srv',
    peer_tun pc (Some (ip_packet 40)) tunnel_client = Ok ((), cs') ∧
    client cs' = client tunnel_client ∧
    udp_out (client_os cs') =
      udp_out (client_os tunnel_client) ++ [(server_addr (client tunnel_client), d)] ∧
    server_udp pc (Some (peer 1, d)) toy_server = Ok ((), srv') ∧
    tun_out (sys srv') = tun_out (sys toy_server) ++ written pc (sys toy_server) (ip_packet 40) ∧
    udp_out (sys srv') = udp_out (sys toy_server) ∧
    table srv' = touch now (table toy_server) (peer 1).
Proof.
  apply (tunnel_carries_packets_to_server pc pc (ip_packet 40) tunnel_client toy_server (peer 1)
    0 toy_client); [apply toy_server_ready|done|by vm_compute|by vm_compute| |done].
  intros n. by eexists.
Defined.

Lemma tunnel_carries_packets_to_client_witness :
  ∃ srv' d cs',
    server_tun pc (Some (ip_packet 40)) toy_server = Ok ((), srv') ∧
    udp_out (sys srv') = udp_out (sys toy_server) ++ [(real_addr toy_client, d)] ∧
    tun_out (sys srv') = tun_out (sys toy_server) ∧
    peer_udp pc (Some d) tunnel_client = Ok ((), cs') ∧ client cs' = client tunnel_client ∧
    tun_out (client_os cs') =
      tun_out (client_os tunnel_client) ++ written pc (client_os tunnel_client) (ip_packet 40).
Proof.
  apply (tunnel_carries_packets_to_client pc pc (ip_packet 40) tunnel_client toy_server 0
    toy_client); [apply toy_server_ready|by split|by vm_compute|by vm_compute|by vm_compute| |done].
  intros n. by eexists.
Defined.
End instances.
