(* ===== verification/Tunnel.v ===== *)
(** * The tunnel as a distributed system

    One server with its enclave and several connected clients, each taking turns of its
    own loop ([loop_turn] of the server, [client_turn] of a client), over a network that
    may lose, delay, repeat and reorder datagrams. A schedule is a list of [action]s;
    [run_tunnel] executes it. Every client keeps the session it has; datagrams
    of strangers may arrive at any time, as long as they do not open a new session. *)

From S2P Require Import Prelude Os Crypto ToySodium Protocol KeyManager Enclave EnclaveClient.
From S2P Require Import ClientManager VpnServer Config Tun VpnClient System.

(** The session of a client: the address its datagrams come from, its VPN address and
    its session key. *)
Record session := Session { p_addr : sockaddr_in; p_ip : Z; p_key : list Z }.

Definition ends (a : sockaddr_in) : Z * Z := (sin_addr a, sin_port a).

(** ** What is on the wires *)
Section datagrams.
Context `{Sodium}.

(** A DATA packet that carries [p] under the key [k], for some [p] with [P]. *)
Definition sealed (k : list Z) (P : list Z → Prop) (d : list Z) : Prop :=
  ∃ h n ct p, d = vpn_header_bytes h ++ n ++ ct ∧ wf_header h ∧ hdr_type h = PKT_DATA ∧
    zlen n = 12 ∧ crypto_encrypt p k n = Some ct ∧ zlen p ≤ 2004 ∧ P p.

(** What a client sends during its session, and what it may be sent. *)
Definition upward (k : list Z) (U : list Z → Prop) (d : list Z) : Prop :=
  (16 ≤ zlen d ∧ packet_type d = PKT_PING) ∨ sealed k U d.
Definition downward (k : list Z) (D : list Z → Prop) (d : list Z) : Prop :=
  packet_type d ≠ PKT_DATA ∨ sealed k D d.
End datagrams.

(** ** The client's turns *)
Section client.
Context `{Sodium, Garbage, Env, HostEnv, Network} `{!SodiumLaws _}.
Context (k : list Z) (U D : list Z → Prop).

(** The session and the key pair of a client. *)
Definition card (c : vpn_client_t) : list Z * Z * (list Z * list Z) :=
  (client_session_key c, client_vpn_ip c, (client_public_key c, client_private_key c)).

(** From [s] to [s'] the client kept its session, sent nothing but [upward] datagrams and
    gave nothing but packets with [D] to its TUN device. *)
Definition client_moves (s s' : client_state) : Prop :=
  card (client s') = card (client s) ∧
  (∃ new, udp_out (client_os s') = udp_out (client_os s) ++ new ∧
    Forall (λ x, upward k U x.2) new) ∧
  (∃ new, tun_out (client_os s') = tun_out (client_os s) ++ new ∧ Forall D new).

Definition client_keeps {A} (m : M client_state A) : Prop :=
  ∀ s, client_session_key (client s) = k → ∃ a s', m s = Ok (a, s') ∧ client_moves s s'.

Lemma card_key c c' : card c' = card c → client_session_key c' = client_session_key c.
Proof. by intros [= ? _ _]. Qed.

Lemma client_moves_silent s s' :
  card (client s') = card (client s) → udp_out (client_os s') = udp_out (client_os s) →
  tun_out (client_os s') = tun_out (client_os s) → client_moves s s'.
Proof.
  intros Hc Hu Ht. split; [done|]. split; exists []; by rewrite app_nil_r.
Qed.

Lemma client_moves_refl s : client_moves s s.
Proof. by apply client_moves_silent. Qed.

Lemma client_moves_trans s1 s2 s3 :
  client_moves s1 s2 → client_moves s2 s3 → client_moves s1 s3.
Proof.
  intros (C1 & (n1 & E1 & Hn1) & (t1 & F1 & Ht1)) (C2 & (n2 & E2 & Hn2) & (t2 & F2 & Ht2)).
  split; [congruence|]. split; [exists (n1 ++ n2)|exists (t1 ++ t2)];
    rewrite ?E2, ?E1, ?F2, ?F1, app_assoc; (split; [done|]); by apply Forall_app.
Qed.

Lemma client_keeps_ret {A} (a : A) : client_keeps (mret a).
Proof. intros s _. exists a, s. split; [done|]. apply client_moves_refl. Qed.
Lemma client_keeps_get {A} (f : vpn_client_t → A) : client_keeps (get f).
Proof. intros s _. eexists _, s. split; [done|]. apply client_moves_refl. Qed.
Lemma client_keeps_set f : (∀ c, card (f c) = card c) → client_keeps (set f).
Proof.
  intros Hf s _. eexists _, _. split; [reflexivity|]. apply client_moves_silent; [|done..]. apply Hf.
Qed.
Lemma client_keeps_time : client_keeps (on_client_os time).
Proof. intros s _. eexists _, _. split; [reflexivity|]. by apply client_moves_silent. Qed.
Lemma client_keeps_bind {A B} (m : M client_state A) (f : A → M client_state B) :
  client_keeps m → (∀ a, client_keeps (f a)) → client_keeps (m ≫= f).
Proof.
  intros Hm Hf s Hs. destruct (Hm s Hs) as (a & s1 & E1 & Hm1).
  destruct (Hf a s1) as (b & s2 & E2 & Hm2); [by rewrite (card_key _ _ (proj1 Hm1))|].
  exists b, s2. rewrite (run_bind_ok _ _ _ _ _ E1). split; [done|]. by eapply client_moves_trans.
Qed.

Lemma send_ping_keeps : client_keeps send_ping.
Proof.
  intros s Hk. destruct (client_header_run PKT_PING 0 s) as (ts & o' & Hts & Eu & Et & _ & E).
  unfold send_ping. rewrite (run_bind_ok _ _ _ _ _ E). set (s1 := ClientState _ _ _ _ _ _ _).
  set (b := vpn_header_bytes _).
  assert (upward k U b) as Hup.
  { left. subst b. rewrite <-(app_nil_r (vpn_header_bytes _)).
    rewrite packet_type_header by apply (wf_init_header PKT_PING). split; [|done]. zlen. }
  assert (∀ o, tun_out o = tun_out (client_os s) → udp_out o = udp_out (client_os s) ++
    (if env_sendto (sendto_calls o') then [(server_addr (client s), b)] else []) →
    ∀ g r a sl h c, card c = card (client s) →
    client_moves s (ClientState c g r a sl h o)) as Hmove.
  { intros o Eto Euo g r a sl h c Hc. split; [done|]. split; [|exists []; by rewrite app_nil_r].
    eexists. split; [exact Euo|]. case_match; by repeat constructor. }
  rewrite run_bind. unfold send_to_server. rewrite run_bind, run_get.
  unfold on_client_os at 1. rewrite run_zoom. unfold sendto. cbn [client_os s1 client] in *.
  destruct (env_sendto (sendto_calls o')).
  - rewrite decide_True by (subst b; zlen). eexists _, _. split; [reflexivity|].
    apply Hmove; cbn; by rewrite ?Eu.
  - rewrite decide_False by lia. eexists _, _. split; [reflexivity|].
    apply Hmove; cbn; by rewrite ?Eu, ?app_nil_r.
Qed.

Lemma check_keepalive_session : client_keeps check_keepalive.
Proof.
  unfold check_keepalive. apply client_keeps_bind; [apply client_keeps_time|intros now].
  apply client_keeps_bind; [apply client_keeps_get|intros c].
  case_decide; [apply client_keeps_ret|].
  apply client_keeps_bind; [case_decide; [apply send_ping_keeps|apply client_keeps_ret]|].
  intros _. apply client_keeps_ret.
Qed.

Lemma receive_keeps d : downward k D d → client_keeps (client_udp_to_tun (Some d)).
Proof.
  intros [Hty|(h & n & ct & p & -> & Hh & Ht & Hn & Hc & Hp & HD)].
  - unfold client_udp_to_tun. destruct (client_recv "client.buffer" d) as [-> _].
    pose proof (zlen_take_2048 d). autounfold with sizes. case_decide; [apply client_keeps_ret|].
    assert (packet_type (take 2048 d ++ drop (length (take 2048 d)) (local "client.buffer" 2048)) =
            packet_type d) as Htype.
    { unfold packet_type, vpn_header_of_bytes. cbn [hdr_type]. rewrite slice_within by lia.
      rewrite <-(take_drop 2048 d) at 2. by rewrite slice_within by lia. }
    unfold packet_type in Htype, Hty. rewrite Htype. case_decide.
    + apply client_keeps_bind; [apply client_keeps_time|intros t]. by apply client_keeps_set.
    + rewrite decide_False by done. apply client_keeps_ret.
  - intros s Hk. rewrite <-Hk in Hc.
    destruct (client_udp_to_tun_data h n ct p s Hh Ht Hn Hc Hp) as (s' & E & Ec & Eu & Et).
    exists (), s'. split; [done|]. split; [by rewrite Ec|].
    split; [exists []; by rewrite app_nil_r|]. eexists. split; [exact Et|].
    case_match; by repeat constructor.
Qed.

Lemma transmit_keeps p : zlen p ≤ 2004 → U p → client_keeps (client_tun_to_udp (Some p)).
Proof.
  intros Hp HU s Hk. destruct (client_tun_to_udp_run p s Hp) as (s' & E & Ec & _ & Et & Hu).
  exists (), s'. split; [done|]. split; [by rewrite Ec|].
  split; [|exists []; by rewrite app_nil_r].
  destruct (crypto_encrypt _ _ _) as [ct|] eqn:Hct; [|exists []; by rewrite app_nil_r].
  destruct Hu as (ts & Hts & Hu). eexists. split; [exact Hu|]. case_match; [|done].
  apply Forall_singleton. right. cbn [snd]. eexists _, _, ct, p. split; [reflexivity|].
  split; [apply (wf_init_header PKT_DATA)|]. rewrite <-Hk.
  split_and!; try done. by apply randombytes_len.
Qed.

(** A turn of a connected client that is given [udp] by the network and [tun] by its host. *)
Lemma client_turn_keeps a s :
  connected (client s) = true → client_session_key (client s) = k →
  match a with
  | SelectError | SelectTimeout => True
  | SelectReady udp tun =>
      (∀ d, udp = Some (Some d) → downward k D d) ∧
      (∀ p, tun = Some (Some p) → zlen p ≤ 2004 ∧ U p)
  end → ∃ b s', client_turn a s = Ok (b, s') ∧ client_moves s s'.
Proof.
  intros Hc Hs Ha. unfold client_turn. rewrite run_bind, run_get, Hc, run_bind, run_ret.
  cbn [negb]. revert s Hs Hc.
  enough (∀ (x : bool), client_keeps (match a with
    | SelectError => mret x
    | _ => r ← check_keepalive;
        if decide (r ≠ 0) then _ ← set (set_connected false); mret true
        else match a with
        | SelectReady udp tun =>
            _ ← match udp with Some d => client_udp_to_tun d | None => mret () end;
            _ ← match tun with Some d => client_tun_to_udp d | None => mret () end;
            mret true
        | _ => mret true
        end
    end)) as Hk by (intros s Hs _; by apply (Hk false)).
  intros x. destruct a as [| |udp tun]; [apply client_keeps_ret|..];
    (apply client_keeps_bind; [apply check_keepalive_session|intros r]);
    (case_decide; [apply client_keeps_bind; [by apply client_keeps_set|intros; apply client_keeps_ret]|]);
    [apply client_keeps_ret|].
  destruct Ha as [Hudp Htun].
  apply client_keeps_bind; [destruct udp as [[d|]|]; [by apply receive_keeps, Hudp|apply client_keeps_ret..]|].
  intros _. apply client_keeps_bind; [|intros _; apply client_keeps_ret].
  destruct tun as [[p|]|]; [|apply client_keeps_ret..]. destruct (Htun p eq_refl).
  by apply transmit_keeps.
Qed.
End client.

(** The client uses the key, and its TUN device was only given packets with [D]. *)
Definition client_good (k : list Z) (D : list Z → Prop) (s : client_state) : Prop :=
  client_session_key (client s) = k ∧ Forall D (tun_out (client_os s)).

Lemma client_moves_good `{Sodium} k U D s s' :
  client_good k D s → client_moves k U D s s' → client_good k D s'.
Proof.
  intros [Hk Ht] (Hc & _ & new & E & Hnew). split; [by rewrite (card_key _ _ Hc)|].
  rewrite E. by apply Forall_app.
Qed.

(** ** The server's turns *)
Section server.
Context `{Sodium, Garbage, Env} `{!SodiumLaws _}.
Context (peers : list session) (U D : list Z → Prop).
Implicit Types s : server enclave.

(** The session of the client at an address is unique. *)
Definition one_session_each : Prop :=
  ∀ pr pr', pr ∈ peers → pr' ∈ peers → ends (p_addr pr) = ends (p_addr pr') → pr = pr'.

(** The entry of the client table belongs to the session [pr]. *)
Definition entry_of (pr : session) (c : client_entry_t) : Prop :=
  endpoint c = ends (p_addr pr) ∧ vpn_ip c = p_ip pr.

Record server_good s : Prop := ServerGood {
  sg_ready : server_ready s;
  sg_entries : ∀ c, c ∈ active_clients (table s) → ∃ pr, pr ∈ peers ∧ entry_of pr c;
  sg_keys : ∀ pr, pr ∈ peers → get_key (km_of s) (p_ip pr) = Some (p_key pr);
  sg_tun : Forall U (tun_out (sys s))
}.

(** A datagram the server may send: what a client is sent was read for that client. *)
Definition addressed (x : sockaddr_in * list Z) : Prop :=
  ∀ pr, pr ∈ peers → ends x.1 = ends (p_addr pr) →
    downward (p_key pr) (λ p, D p ∧ ip_daddr p = p_ip pr) x.2.

Definition server_moves s s' : Prop :=
  server_good s' ∧ ∃ new, udp_out (sys s') = udp_out (sys s) ++ new ∧ Forall addressed new.

Lemma server_moves_refl s : server_good s → server_moves s s.
Proof. intros Hs. split; [done|]. exists []. by rewrite app_nil_r. Qed.

Lemma server_moves_trans s1 s2 s3 :
  server_moves s1 s2 → server_moves s2 s3 → server_moves s1 s3.
Proof.
  intros [_ (n1 & E1 & Hn1)] [Hg (n2 & E2 & Hn2)]. split; [done|]. exists (n1 ++ n2).
  split; [by rewrite E2, E1, app_assoc|]. by apply Forall_app.
Qed.

(** The entries are the same but for the times the clients were seen. *)
Lemma active_touch_slot now i t c :
  c ∈ active_clients (touch_slot now i t) →
  ∃ c0, c0 ∈ active_clients t ∧ endpoint c = endpoint c0 ∧ vpn_ip c = vpn_ip c0.
Proof.
  intros Hc. assert ((endpoint c, vpn_ip c) ∈ ((λ c, (endpoint c, vpn_ip c)) <$> active_clients t)) as Hin.
  { unfold active_clients. rewrite <-(filter_alter_proj active (λ c, (endpoint c, vpn_ip c)) (set_last_seen now) _ i) by done.
    by apply (list_elem_of_fmap_2 (λ c, (endpoint c, vpn_ip c))). }
  apply list_elem_of_fmap in Hin as (c0 & E & Hin). exists c0. split; [done|].
  split; [exact (f_equal fst E)|exact (f_equal snd E)].
Qed.

Lemma entries_touch_slot now i s t' :
  server_good s → t' = table s ∨ t' = touch_slot now i (table s) →
  ∀ c, c ∈ active_clients t' → ∃ pr, pr ∈ peers ∧ entry_of pr c.
Proof.
  intros Hs [->| ->] c Hc; [by apply (sg_entries _ Hs)|].
  destruct (active_touch_slot _ _ _ _ Hc) as (c0 & Hc0 & E1 & E2).
  destruct (sg_entries _ Hs _ Hc0) as (pr & Hpr & ? & ?). exists pr. unfold entry_of.
  by rewrite E1, E2.
Qed.

Lemma touch_cases now t addr :
  ∃ i, touch now t addr = t ∨ touch now t addr = touch_slot now i t.
Proof. unfold touch. destruct (find_client_by_addr t addr) as [[i c]|]; [exists i|exists 0%nat]; auto. Qed.

Lemma entries_touch now addr s :
  server_good s →
  ∀ c, c ∈ active_clients (touch now (table s) addr) → ∃ pr, pr ∈ peers ∧ entry_of pr c.
Proof.
  intros Hs. destruct (touch_cases now (table s) addr) as [i Hi].
  by apply (entries_touch_slot now i s).
Qed.

Lemma found_entry s i c :
  server_good s → clients (table s) !! i = Some c → active c = true →
  ∃ pr, pr ∈ peers ∧ entry_of pr c.
Proof.
  intros Hs Hi Ha. apply (sg_entries _ Hs), list_elem_of_filter. split; [done|].
  by eapply list_elem_of_lookup_2.
Qed.

Lemma find_peer s i c pr :
  one_session_each → server_good s → pr ∈ peers →
  find_client_by_addr (table s) (p_addr pr) = Some (i, c) → vpn_ip c = p_ip pr.
Proof.
  intros Hone Hs Hpr Hf. destruct (sg_ready _ Hs) as [Hwf _].
  destruct (found_by_addr _ _ _ _ Hwf Hf) as (Hi & (Ha & E1 & E2) & _).
  destruct (found_entry s i c Hs Hi Ha) as (pr' & Hpr' & Hends & Hip).
  rewrite (Hone pr pr'); try done. rewrite <-Hends. unfold ends, endpoint. congruence.
Qed.

Lemma find_stranger s from :
  server_good s → (∀ pr, pr ∈ peers → ends (p_addr pr) ≠ ends from) →
  find_client_by_addr (table s) from = None.
Proof.
  intros Hs Hfrom. destruct (find_client_by_addr (table s) from) as [[i c]|] eqn:Hf; [|done].
  destruct (sg_ready _ Hs) as [Hwf _]. destruct (found_by_addr _ _ _ _ Hwf Hf) as (Hi & (Ha & E1 & E2) & _).
  destruct (found_entry s i c Hs Hi Ha) as (pr & Hpr & Hends & _). exfalso. apply (Hfrom pr Hpr).
  rewrite <-Hends. unfold ends, endpoint. congruence.
Qed.

(** A PONG may go anywhere. *)
Lemma pong_addressed s ts dest o :
  Forall addressed (sent o dest (vpn_header_bytes (next_header s PKT_PONG 0 ts))).
Proof.
  unfold sent. case_match; [|done]. apply Forall_singleton. intros pr _ _. left. cbn [snd].
  rewrite <-(app_nil_r (vpn_header_bytes _)), packet_type_header by apply wf_init_header. done.
Qed.

Lemma server_ok_ready s : server_ready s → server_ok s.
Proof. intros [??]. by split. Qed.

Lemma ping_moves from s :
  server_good s → ∃ s', on_ping from s = Ok ((), s') ∧ server_moves s s'.
Proof.
  intros Hs. destruct (on_ping_run from s) as (now & ts & s' & E & _ & Ht & He & _ & [Hudp Htun]).
  exists s'. split; [done|]. split; [|eexists; split; [exact Hudp|apply pong_addressed]].
  pose proof (sg_ready _ Hs) as [Hwf Hidle]. split.
  - split; [rewrite Ht; by apply touch_wf|by rewrite He].
  - rewrite Ht. by apply entries_touch.
  - intros pr Hpr. unfold km_of. rewrite He. by apply (sg_keys _ Hs).
  - rewrite Htun, app_nil_r. by apply Hs.
Qed.

(** A datagram that changes no more than the times and writes [new] to the TUN device. *)
Lemma touched_good s s' now from new :
  server_good s → server_ok s' → table s' = touch now (table s) from →
  (∀ ip, get_key (km_of s') ip = get_key (km_of s) ip) → emits (sys s) (sys s') [] new →
  Forall U new → server_moves s s'.
Proof.
  intros Hs [Hwf Hidle] Ht Hk [Hudp Htun] Hnew. split; [|exists []; by rewrite Hudp].
  split; [done| | |].
  - rewrite Ht. by apply entries_touch.
  - intros pr Hpr. rewrite Hk. by apply (sg_keys _ Hs).
  - rewrite Htun. apply Forall_app. split; [by apply Hs|done].
Qed.

(** What a connected client sends. *)
Lemma peer_datagram_moves pr d s :
  one_session_each → server_good s → pr ∈ peers → upward (p_key pr) U d →
  ∃ s', handle_udp_to_tun (Some (p_addr pr, d)) s = Ok ((), s') ∧ server_moves s s'.
Proof.
  intros Hone Hs Hpr Hup. pose proof (server_ok_ready _ (sg_ready _ Hs)) as Hok.
  rewrite handle_udp_dispatch.
  destruct Hup as [[Hd Hty]|(h & n & ct & p & -> & Hh & Hty & Hn & Hc & Hp & HU)].
  { rewrite Hty. rewrite decide_False by lia. rewrite !decide_False by done.
    rewrite decide_True by done. by apply ping_moves. }
  pose proof (aead_encrypt_len _ _ _ _ Hc) as Hl. change CRYPTO_MAC_SIZE with 16 in Hl.
  rewrite <-handle_udp_dispatch.
  destruct (find_client_by_addr (table s) (p_addr pr)) as [[i c]|] eqn:Hf.
  - destruct (handle_data_packet (p_addr pr) h (n ++ ct) i c s)
      as (now & s' & E & Hok' & Ht & _ & Hk & Hem); [done..|zlen|done|].
    exists s'. split; [done|]. eapply touched_good; try done. rewrite (find_peer _ _ _ _ Hone Hs Hpr Hf).
    cbn [svc_key enclave_service]. fold (km_of s). rewrite (sg_keys _ Hs _ Hpr).
    rewrite (open_packet_sealed p _ n ct) by done. unfold delivered. case_match; by repeat constructor.
  - set (d := vpn_header_bytes h ++ n ++ ct). pose proof (zlen_nonneg p).
    assert (zlen d = zlen p + 44) as Hd by (subst d; zlen). pose proof (zlen_cut d).
    rewrite handle_udp_dispatch, decide_False by lia.
    assert (packet_type d = PKT_DATA) as -> by (subst d; by rewrite packet_type_header).
    rewrite decide_False, decide_True by done.
    destruct (on_data_run (rx_buffer d) (zlen (cut d)) (p_addr pr) s)
      as (now & s' & E & Hok' & Ht & _ & Hk & Hem);
      [done|apply rx_buffer_len|autounfold with sizes; lia|].
    rewrite Hf in Hem. exists s'. split; [done|]. by eapply touched_good.
Qed.

(** What anybody else sends, as long as it does not open a session. *)
Lemma stranger_datagram_moves from d s :
  server_good s → (∀ pr, pr ∈ peers → ends (p_addr pr) ≠ ends from) →
  packet_type d ≠ PKT_CONNECT_REQ →
  ∃ s', handle_udp_to_tun (Some (from, d)) s = Ok ((), s') ∧ server_moves s s'.
Proof.
  intros Hs Hfrom Hty. pose proof (server_ok_ready _ (sg_ready _ Hs)) as Hok.
  pose proof (find_stranger s from Hs Hfrom) as Hf. pose proof (zlen_cut d).
  pose proof (server_moves_refl s Hs) as Hrefl.
  rewrite handle_udp_dispatch. case_decide; [by exists s|]. rewrite decide_False by done.
  case_decide.
  { destruct (on_data_run (rx_buffer d) (zlen (cut d)) from s)
      as (now & s' & E & Hok' & Ht & _ & Hk & Hem);
      [done|apply rx_buffer_len|autounfold with sizes; lia|].
    rewrite Hf in Hem. exists s'. split; [done|]. by eapply touched_good. }
  case_decide; [by apply ping_moves|]. case_decide; [|by exists s].
  destruct (on_disconnect_run from s Hok) as (s' & E & _ & _ & _ & Hsame). rewrite Hf in Hsame.
  exists s'. by subst s'.
Qed.

(** A packet of the server's TUN device. *)
Lemma tun_packet_moves p s :
  one_session_each → server_good s → zlen p ≤ 2004 → D p →
  ∃ s', handle_tun_to_udp (Some p) s = Ok ((), s') ∧ server_moves s s'.
Proof.
  intros Hone Hs Hp HD. pose proof (server_ok_ready _ (sg_ready _ Hs)) as Hok.
  destruct (handle_tun_to_udp_run p s Hok Hp) as (s' & E & Hok' & Hk & Hr).
  exists s'. split; [done|]. destruct Hok' as [Hwf' Hidle'].
  assert (∀ now i new, (table s' = table s ∨ table s' = touch_slot now i (table s)) →
    emits (sys s) (sys s') new [] → Forall addressed new → server_moves s s') as Hmove.
  { intros now i new Ht [Hudp Htun] Hnew. split; [|by exists new]. split; [done| | |].
    - by eapply entries_touch_slot.
    - intros pr Hpr. unfold km_of. rewrite <-(sg_keys _ Hs pr Hpr). apply Hk.
    - rewrite Htun, app_nil_r. by apply Hs. }
  destruct Hr as [_|i c s' _ _ _ _ Ht _ Hem|i c key n ct ts now s' _ _ Hf Hkey Hn Hc Hts _ Hem Ht].
  - by apply server_moves_refl.
  - apply (Hmove 0 0%nat []); [by left|done|done].
  - eapply (Hmove now i); [case_match; auto|exact Hem|].
    unfold sent. case_match; [|done]. apply Forall_singleton. intros pr Hpr Hends. cbn [fst snd] in *.
    destruct (sg_ready _ Hs) as [Hwf _]. destruct (found_by_ip _ _ _ _ Hwf Hf) as (Hi & Ha & Hip & _).
    destruct (found_entry s i c Hs Hi Ha) as (pr' & Hpr' & He & Hip').
    rewrite <-(Hone pr pr') in Hip'; [|done..|by rewrite <-Hends, <-He].
    change (svc_key (channel (enclave_conn s)) (vpn_ip c)) with (get_key (km_of s) (vpn_ip c)) in Hkey.
    rewrite Hip', (sg_keys _ Hs _ Hpr) in Hkey. injection Hkey as <-. right.
    eexists _, n, ct, p. split; [reflexivity|]. split; [apply wf_init_header|].
    split_and!; try done. congruence.
Qed.

Lemma active_keep now t n ip c :
  c ∈ active_clients (ClientTable (keep now <$> clients t) n ip) → c ∈ active_clients t.
Proof.
  unfold active_clients. cbn [clients]. rewrite filter_keep.
  by intros [_ ?]%list_elem_of_filter.
Qed.

(** A turn of the server: [udp] comes from the network, [tun] from its host. *)
Lemma server_turn_moves last tn s :
  one_session_each → server_good s →
  match tn with
  | Stop | SelectFailed => True
  | Quiet _ => True
  | Ready udp tun =>
      (∀ from d, udp = Some (Some (from, d)) →
         (∃ pr, pr ∈ peers ∧ from = p_addr pr ∧ upward (p_key pr) U d) ∨
         ((∀ pr, pr ∈ peers → ends (p_addr pr) ≠ ends from) ∧ packet_type d ≠ PKT_CONNECT_REQ)) ∧
      (∀ p, tun = Some (Some p) → zlen p ≤ 2004 ∧ D p)
  end → ∃ r s', loop_turn last tn s = Ok (r, s') ∧ server_moves s s'.
Proof.
  intros Hone Hs Hin. pose proof (server_moves_refl s Hs) as Hrefl.
  destruct tn as [| |alive|udp tun]; cbn [loop_turn]; [by eexists _, s..| |].
  - rewrite (run_bind_ok _ _ _ _ _ (on_sys_run _ _ _ _ eq_refl)). set (s1 := Server _ _ _ _).
    assert (server_moves s s1) as Hm1.
    { split; [|exists []; by rewrite app_nil_r]. by destruct Hs as [[??] ? ? ?]. }
    rewrite run_bind. destruct (decide _); [|by eexists _, _].
    destruct (check_client_timeouts_run (table s1) (sys s1)) as [o' E].
    rewrite (run_bind_ok _ _ _ _ _ (on_table_run _ _ _ _ E)). eexists _, _. split; [reflexivity|].
    destruct Hs as [[Hwf Hidle] Hent Hkeys Htun].
    destruct (check_client_timeouts_quiet _ _ _ _ E) as (Eu & Et & _). cbn [s1 sys] in Eu, Et.
    split; [|exists []; cbn [sys]; by rewrite Eu, app_nil_r].
    split; [split; [by eapply check_client_timeouts_wf, E|done]| |done|cbn [sys]; by rewrite Et].
    intros c Hc%active_keep. by apply Hent.
  - destruct Hin as [Hudp Htun].
    assert (∃ s1, match udp with Some d => handle_udp_to_tun d | None => mret () end s =
                  Ok ((), s1) ∧ server_moves s s1) as (s1 & E1 & Hm1).
    { destruct udp as [[[from d]|]|]; [|by exists s..].
      destruct (Hudp from d eq_refl) as [(pr & Hpr & -> & Hup)|[Hfrom Hty]];
        [by apply peer_datagram_moves|by apply stranger_datagram_moves]. }
    rewrite (run_bind_ok _ _ _ _ _ E1).
    assert (∃ s2, match tun with Some d => handle_tun_to_udp d | None => mret () end s1 =
                  Ok ((), s2) ∧ server_moves s1 s2) as (s2 & E2 & Hm2).
    { pose proof (server_moves_refl s1 (proj1 Hm1)). destruct tun as [[p|]|]; [|by exists s1..].
      destruct (Htun p eq_refl). by apply tun_packet_moves; try apply Hm1. }
    rewrite (run_bind_ok _ _ _ _ _ E2). eexists _, s2. split; [done|]. by eapply server_moves_trans.
Qed.
End server.

(** ** The system *)

(** The clients, what each has sent during its session, the server with the time of its
    last timeout check, and what the server has sent. *)
Record tunnel := Tunnel {
  t_clients : list client_state;
  t_up : list (list (list Z));
  t_server : server enclave;
  t_last : Z;
  t_down : list (sockaddr_in * list Z)
}.

(** The datagram that reaches the server: the [i]-th one that client [j] has sent, or
    one of a stranger. *)
Inductive delivery := FromClient (j i : nat) | FromStranger (from : sockaddr_in) (d : list Z).

(** One turn of one of the loops, with what the network delivers (any datagram sent so
    far, any number of times, or none) and the packet the host puts into the TUN device. *)
Inductive action :=
| ClientTurn (j : nat) (udp : option nat) (tun : option (list Z))
| ServerTurn (udp : option delivery) (tun : option (list Z))
| ServerQuiet.

Section system.
Context `{Sodium, HostEnv, Network} (sm : machine) (cm : nat → machine) (peers : list session).

(** The datagrams sent between two states of a log. *)
Definition since {A} (old new : list A) : list A := drop (length old) new.

(** The [i]-th datagram of the server reaches the client at [addr] if it was sent there. *)
Definition reaches_client (w : tunnel) (addr : sockaddr_in) (i : nat) : option (list Z) :=
  match t_down w !! i with
  | Some (dest, d) => if decide (ends dest = ends addr) then Some d else None
  | None => None
  end.

Definition reaches_server (w : tunnel) (x : delivery) : option (sockaddr_in * list Z) :=
  match x with
  | FromClient j i =>
      match peers !! j, t_up w !! j with
      | Some pr, Some ds => (λ d, (p_addr pr, d)) <$> ds !! i
      | _, _ => None
      end
  | FromStranger from d => Some (from, d)
  end.

Definition activity_of (udp tun : option (list Z)) : activity :=
  match udp, tun with
  | None, None => SelectTimeout
  | _, _ => SelectReady (Some <$> udp) (Some <$> tun)
  end.

(** A client that has lost its connection takes no part any more. *)
Definition act (a : action) (w : tunnel) : res tunnel :=
  match a with
  | ClientTurn j udp tun =>
      match t_clients w !! j, peers !! j with
      | Some cs, Some pr =>
          if VpnClient.connected (client cs) then
            let arrived := udp ≫= reaches_client w (p_addr pr) in
            match @client_turn _ (m_garbage (cm j)) (m_env (cm j)) _ _ (activity_of arrived tun) cs with
            | Ok (_, cs') =>
                Ok (Tunnel (<[j := cs']> (t_clients w))
                           (alter (λ ds, ds ++ (since (udp_out (client_os cs)) (udp_out (client_os cs'))).*2)
                                  j (t_up w))
                           (t_server w) (t_last w) (t_down w))
            | Fault f => Fault f
            end
          else Ok w
      | _, _ => Ok w
      end
  | ServerTurn _ _ | ServerQuiet =>
      let tn := match a with
                | ServerTurn udp tun => Ready (Some <$> (udp ≫= reaches_server w)) (Some <$> tun)
                | _ => Quiet true
                end in
      match @loop_turn enclave (@enclave_channel _ (m_garbage sm)) (m_garbage sm) (m_env sm)
              (t_last w) tn (t_server w) with
      | Ok (last, srv') =>
          Ok (Tunnel (t_clients w) (t_up w) srv' (default (t_last w) last)
                     (t_down w ++ since (udp_out (sys (t_server w))) (udp_out (sys srv'))))
      | Fault f => Fault f
      end
  end.

Fixpoint run_tunnel (acts : list action) (w : tunnel) : res tunnel :=
  match acts with
  | [] => Ok w
  | a :: acts => match act a w with Ok w' => run_tunnel acts w' | Fault f => Fault f end
  end.

(** The packets that the hosts put into the TUN devices. *)
Definition read_by_client (j : nat) (acts : list action) : list (list Z) :=
  omap (λ a, match a with ClientTurn i _ tun => if decide (i = j) then tun else None | _ => None end)
       acts.
Definition read_by_server (acts : list action) : list (list Z) :=
  omap (λ a, match a with ServerTurn _ tun => tun | _ => None end) acts.

(** The schedules considered: packets fit the buffers, strangers are strangers. *)
Definition action_fits (a : action) : Prop :=
  match a with
  | ClientTurn _ _ tun => ∀ p, tun = Some p → zlen p ≤ 2004
  | ServerTurn udp tun =>
      (∀ p, tun = Some p → zlen p ≤ 2004) ∧
      (∀ from d, udp = Some (FromStranger from d) →
         (∀ pr, pr ∈ peers → ends (p_addr pr) ≠ ends from) ∧ packet_type d ≠ PKT_CONNECT_REQ)
  | ServerQuiet => True
  end.

(** The sessions are established and nothing has been sent in them yet. *)
Record established (w : tunnel) : Prop := Established {
  es_sessions : one_session_each peers;
  es_clients : Forall2 (λ cs pr, client_session_key (client cs) = p_key pr ∧
                                 tun_out (client_os cs) = []) (t_clients w) peers;
  es_up : Forall (λ ds, ds = []) (t_up w);
  es_down : t_down w = [];
  es_server : server_ready (t_server w) ∧ tun_out (sys (t_server w)) = [];
  es_entries : Forall (λ c, Exists (λ pr, entry_of pr c) peers) (active_clients (table (t_server w)));
  es_keys : Forall (λ pr, get_key (km_of (t_server w)) (p_ip pr) = Some (p_key pr)) peers
}.
End system.

Section invariant.
Context `{Sodium, HostEnv, Network} `{!SodiumLaws _}.
Context (sm : machine) (cm : nat → machine) (peers : list session) (one : one_session_each peers).
(** [U j]: the packets client [j] reads from its host; [D]: those the server reads. *)
Context (U : nat → list Z → Prop) (D : list Z → Prop).

Definition for_client (pr : session) (p : list Z) : Prop := D p ∧ ip_daddr p = p_ip pr.

Record tunnel_inv (w : tunnel) : Prop := TunnelInv {
  ti_clients : ∀ j cs, t_clients w !! j = Some cs →
    ∃ pr, peers !! j = Some pr ∧ client_good (p_key pr) (for_client pr) cs;
  ti_up : ∀ j pr ds, peers !! j = Some pr → t_up w !! j = Some ds →
    Forall (upward (p_key pr) (U j)) ds;
  ti_server : server_good peers (λ p, ∃ j, U j p) (t_server w);
  ti_down : Forall (addressed peers D) (t_down w)
}.

(** The packets an action reads are accounted for. *)
Definition accounted (a : action) : Prop :=
  match a with
  | ClientTurn j _ tun => ∀ p, tun = Some p → U j p
  | ServerTurn _ tun => ∀ p, tun = Some p → D p
  | ServerQuiet => True
  end.

Lemma since_app {A} (old new : list A) : since old (old ++ new) = new.
Proof. unfold since. by rewrite drop_app_length. Qed.

Lemma sealed_weaken k (P Q : list Z → Prop) d : (∀ p, P p → Q p) → sealed k P d → sealed k Q d.
Proof. intros HPQ (h & n & ct & p & ?). exists h, n, ct, p. naive_solver. Qed.
Lemma upward_weaken k (P Q : list Z → Prop) d : (∀ p, P p → Q p) → upward k P d → upward k Q d.
Proof. intros HPQ [?|?]; [by left|right]. by eapply sealed_weaken. Qed.

Lemma reaches_client_downward w pr i d :
  tunnel_inv w → pr ∈ peers → reaches_client w (p_addr pr) i = Some d →
  downward (p_key pr) (for_client pr) d.
Proof.
  intros Hw Hpr. unfold reaches_client. destruct (t_down w !! i) as [[dest d']|] eqn:Hi; [|done].
  case_decide as He; [|done]. intros [= ->].
  exact (Forall_lookup_1 _ _ _ _ (ti_down _ Hw) Hi pr Hpr He).
Qed.

Lemma client_act_inv j udp tun w :
  tunnel_inv w → action_fits peers (ClientTurn j udp tun) → accounted (ClientTurn j udp tun) →
  ∃ w', act sm cm peers (ClientTurn j udp tun) w = Ok w' ∧ tunnel_inv w'.
Proof.
  intros Hw Hfit Hacc. cbn [act].
  destruct (t_clients w !! j) as [cs|] eqn:Hj; [|by exists w].
  destruct (ti_clients _ Hw j cs Hj) as (pr & Hpr & Hcs). rewrite Hpr.
  destruct (VpnClient.connected (client cs)) eqn:Hc; [|by exists w].
  pose proof (list_elem_of_lookup_2 _ _ _ Hpr) as Hin.
  set (arrived := udp ≫= _).
  destruct (@client_turn_keeps _ (m_garbage (cm j)) (m_env (cm j)) _ _ _ (p_key pr) (U j)
    (for_client pr) (activity_of arrived tun) cs Hc (proj1 Hcs)) as (b & cs' & E & Hmoves).
  { assert (∀ d, arrived = Some d → downward (p_key pr) (for_client pr) d) as Harr.
    { intros d (i & -> & Hi)%bind_Some. by eapply reaches_client_downward. }
    unfold activity_of. destruct arrived as [d|], tun as [p|]; cbn; [..|done];
      (split; intros ? [= <-]; [by apply Harr|split; [by apply Hfit|by apply Hacc]]) ||
      (split; intros ?; [|done]; intros [= <-]; by apply Harr) ||
      (split; intros ?; [done|]; intros [= <-]; split; [by apply Hfit|by apply Hacc]). }
  pose proof (client_moves_good _ _ _ _ _ Hcs Hmoves) as Hcs'.
  destruct Hmoves as (_ & (new & Hout & Hnew) & _).
  rewrite E. eexists. split; [reflexivity|]. rewrite Hout, since_app.
  destruct Hw as [Hcl Hup Hsrv Hdown]. split; cbn [t_clients t_up t_server t_down]; [|..|done|done].
  - intros j' cs2. destruct (decide (j' = j)) as [->|Hne].
    + rewrite list_lookup_insert_eq by (by eapply lookup_lt_Some). intros [= <-]. by exists pr.
    + rewrite list_lookup_insert_ne by done. apply Hcl.
  - intros j' pr' ds Hpr'. destruct (decide (j' = j)) as [->|Hne].
    + rewrite list_lookup_alter_eq. intros (ds0 & Hds & ->)%fmap_Some. simplify_eq.
      apply Forall_app. split; [by eapply Hup|]. by apply Forall_fmap.
    + rewrite list_lookup_alter_ne by done. by apply Hup.
Qed.

Lemma server_act_inv a w :
  tunnel_inv w → action_fits peers a → accounted a → (∀ j udp tun, a ≠ ClientTurn j udp tun) →
  ∃ w', act sm cm peers a w = Ok w' ∧ tunnel_inv w'.
Proof.
  intros Hw Hfit Hacc Hna.
  set (tn := match a with
             | ServerTurn udp tun => Ready (Some <$> (udp ≫= reaches_server peers w)) (Some <$> tun)
             | _ => Quiet true
             end).
  destruct (@server_turn_moves _ (m_garbage sm) (m_env sm) _ peers (λ p, ∃ j, U j p) D
    (t_last w) tn (t_server w) one (ti_server _ Hw)) as (r & srv' & E & Hsrv' & new & Hout & Hnew).
  { subst tn. destruct a as [j udp tun|udp tun|]; [done| |done]. destruct Hfit as [Hp Hst]. split.
    - intros from d Hx. destruct udp as [x|]; [|done]. cbn in Hx.
      destruct (reaches_server peers w x) as [[from' d']|] eqn:Hr; [|done]. injection Hx as -> ->.
      destruct x as [j i|from' d']; cbn in Hr; [left|right].
      + destruct (peers !! j) as [pr|] eqn:Hpr; [|done]. destruct (t_up w !! j) as [ds|] eqn:Hds; [|done].
        apply fmap_Some in Hr as (d0 & Hi & [= -> ->]). exists pr.
        split; [by eapply list_elem_of_lookup_2|]. split; [done|].
        eapply upward_weaken, (Forall_lookup_1 _ _ _ _ (ti_up _ Hw j pr ds Hpr Hds) Hi). eauto.
      + injection Hr as -> ->. by apply Hst.
    - intros p Hx. destruct tun as [p'|]; [|done]. injection Hx as ->. split; [by apply Hp|by apply Hacc]. }
  destruct Hw as [Hcl Hup Hsrv Hdown].
  assert (act sm cm peers a w = Ok (Tunnel (t_clients w) (t_up w) srv' (default (t_last w) r)
    (t_down w ++ new))) as ->.
  { rewrite <-(since_app (udp_out (sys (t_server w))) new), <-Hout.
    destruct a as [j udp tun|udp tun|]; [by destruct (Hna j udp tun)|..]; cbn [act]; fold tn; by rewrite E. }
  eexists. split; [reflexivity|]. split; try done. by apply Forall_app.
Qed.

Lemma run_tunnel_inv acts w :
  tunnel_inv w → Forall (action_fits peers) acts → Forall accounted acts →
  ∃ w', run_tunnel sm cm peers acts w = Ok w' ∧ tunnel_inv w'.
Proof.
  intros Hw Hfit Hacc. revert w Hw. induction acts as [|a acts IH]; intros w Hw; [by exists w|].
  apply Forall_cons in Hfit as [Hfa Hfit], Hacc as [Haa Hacc].
  assert (∃ w1, act sm cm peers a w = Ok w1 ∧ tunnel_inv w1) as (w1 & E1 & Hw1).
  { destruct a as [j udp tun|udp tun|]; [by apply client_act_inv|by apply server_act_inv..]. }
  cbn [run_tunnel]. rewrite E1. by apply IH.
Qed.
End invariant.

Section claims.
Context `{Sodium, HostEnv, Network} `{!SodiumLaws _}.
Context (sm : machine) (cm : nat → machine) (peers : list session).

Lemma established_inv U D w : established peers w → tunnel_inv peers U D w.
Proof.
  intros [_ Hcl Hup Hdown [Hready Htun] Hent Hkeys]. split.
  - intros j cs Hj. destruct (Forall2_lookup_l _ _ _ _ _ Hcl Hj) as (pr & Hpr & Hk & Ht).
    exists pr. split; [done|]. split; [done|]. by rewrite Ht.
  - intros j pr ds _ Hds. rewrite (Forall_lookup_1 _ _ _ _ Hup Hds). done.
  - split; [done| | |by rewrite Htun].
    + intros c Hc. rewrite Forall_forall in Hent. apply Hent, Exists_exists in Hc. done.
    + intros pr Hpr. rewrite Forall_forall in Hkeys. by apply Hkeys.
  - by rewrite Hdown.
Qed.

Lemma accounted_reads acts :
  Forall (accounted (λ j p, p ∈ read_by_client j acts) (λ p, p ∈ read_by_server acts)) acts.
Proof.
  apply Forall_forall. intros [j udp tun|udp tun|] Ha; [..|done]; intros p ->;
    apply list_elem_of_omap; eexists; (split; [exact Ha|]); cbn; by rewrite ?decide_True.
Qed.

(** (C4) The tunnel delivers nothing but what was put into it, to nobody but the addressee.
    Let a server, its enclave and any number of connected clients take turns in any
    order, over a network that loses, repeats, delays and reorders their datagrams, with
    system calls failing at any time. Strangers may send any datagrams to the server except
    a CONNECT_REQ, but none to the clients, and no packet read from a TUN device is longer
    than 2004 bytes. No turn faults; every packet a client's TUN device is given was read by the server from its
    TUN device and has the VPN address of that client as its destination; and every
    packet the server's TUN device is given was read by a client from its own. *)
Theorem tunnel_is_faithful acts w :
  established peers w → Forall (action_fits peers) acts →
  ∃ w', run_tunnel sm cm peers acts w = Ok w' ∧
    (∀ p, p ∈ tun_out (sys (t_server w')) → ∃ j, p ∈ read_by_client j acts) ∧
    (∀ j cs p, t_clients w' !! j = Some cs → p ∈ tun_out (client_os cs) →
       p ∈ read_by_server acts ∧ ∃ pr, peers !! j = Some pr ∧ ip_daddr p = p_ip pr).
Proof.
  intros Hw Hfit.
  destruct (run_tunnel_inv sm cm peers (es_sessions _ _ Hw) _ _ acts w
    (established_inv _ _ _ Hw) Hfit (accounted_reads acts)) as (w' & E & [Hcl _ Hsrv _]).
  exists w'. split; [done|]. split.
  - intros p Hp. by apply (proj1 (Forall_forall _ _) (sg_tun _ _ _ Hsrv)).
  - intros j cs p Hj Hp. destruct (Hcl j cs Hj) as (pr & Hpr & _ & Ht).
    destruct (proj1 (Forall_forall _ _) Ht p Hp). split; [done|]. by exists pr.
Qed.
End claims.

(** ** Instances: the server of VpnServer.v and its client *)
Section instances.
#[local] Existing Instance kind_host.
#[local] Instance no_answers : Network := λ _, None.

Definition toy_session : session := Session (peer 1) client_ip toy_key.
Definition toy_connected : client_state :=
  ClientState (set_ping_pong 1000 1000 (set_connected true (client tunnel_client))) 0 0 0 [] host_boot os_boot.
Definition toy_tunnel : tunnel := Tunnel [toy_connected] [[]] toy_server 0 [].
(** The client's packet is delivered twice, the server's answer only after a ping of a stranger. *)
Definition toy_schedule : list action :=
  [ClientTurn 0 None (Some (ip_packet 30)); ServerTurn (Some (FromClient 0 0)) None;
   ServerTurn (Some (FromClient 0 0)) (Some (ip_packet 40));
   ServerTurn (Some (FromStranger (peer 9) (udp_packet PKT_PING 16))) None;
   ServerQuiet; ClientTurn 0 (Some 1%nat) None; ClientTurn 0 (Some 0%nat) None].

Lemma toy_tunnel_established : established [toy_session] toy_tunnel.
Proof.
  split; cbn [t_clients t_up t_server t_down toy_tunnel].
  - intros pr pr' ->%list_elem_of_singleton ->%list_elem_of_singleton. done.
  - by repeat constructor.
  - by repeat constructor.
  - done.
  - split; [apply toy_server_ready|done].
  - apply Forall_forall. intros c Hc. apply Exists_cons_hd.
    assert (active_clients (table toy_server) = [toy_client]) as E by (by vm_compute).
    rewrite E in Hc. by apply list_elem_of_singleton in Hc as ->.
  - apply Forall_singleton. by vm_compute.
Qed.

Lemma tunnel_is_faithful_witness :
  ∃ w', run_tunnel pc (λ _, pc) [toy_session] toy_schedule toy_tunnel = Ok w' ∧
    (∀ p, p ∈ tun_out (sys (t_server w')) → ∃ j, p ∈ read_by_client j toy_schedule) ∧
    (∀ j cs p, t_clients w' !! j = Some cs → p ∈ tun_out (client_os cs) →
       p ∈ read_by_server toy_schedule ∧
       ∃ pr, [toy_session] !! j = Some pr ∧ ip_daddr p = p_ip pr).
Proof.
  apply tunnel_is_faithful; [apply toy_tunnel_established|].
  repeat apply Forall_cons_2; try apply Forall_nil; cbn; try done.
  - by intros p [= <-].
  - split; [|done]. by intros p [= <-].
  - split; [done|]. intros from d [= <- <-]. split; [|done].
    by intros pr ->%list_elem_of_singleton.
Defined.

(** The packets do arrive in this schedule. *)
Example toy_schedule_delivers :
  match run_tunnel pc (λ _, pc) [toy_session] toy_schedule toy_tunnel with
  | Ok w => tun_out (sys (t_server w)) = [ip_packet 30; ip_packet 30] ∧
            (tun_out ∘ client_os) <$> t_clients w = [[ip_packet 40]]
  | Fault _ => False
  end.
Proof. by vm_compute. Qed.
End instances.
