(* ===== verification/Sessions.v ===== *)
(** * How the sessions of the tunnel come about

    The runs of Tunnel.v start with established sessions. Here the handshake of client,
    server and enclave establishes them, one after the other, from a server without
    clients on. *)

From S2P Require Import Prelude Os Crypto ToySodium Protocol KeyManager Enclave EnclaveClient.
From S2P Require Import ClientManager VpnServer Config Tun VpnClient System Tunnel.

Section joining.
Context `{Sodium, HostEnv, Network} `{!SodiumLaws _} (sm cm : machine).

(** The active clients after a new one was admitted. *)
Lemma add_outcome_new t addr ip t' :
  wf_table t → in_pool ip → find_client_by_addr t addr = None → add_outcome t addr ip t' →
  ∃ c, endpoint c = ends addr ∧ vpn_ip c = ip ∧ active_clients t' ≡ₚ c :: active_clients t.
Proof.
  intros Hwf Hp Hf Ho. destruct Ho as [|i c now _ Hf'|i c now sid _ _ Hs _].
  - by apply in_pool_nonzero in Hp.
  - congruence.
  - apply list_find_lookup in Hs as [Hi Ha]. eexists. split; [|split; [|by eapply active_insert_new]]; done.
Qed.

(** The key table after the handshake for an address that had no key. *)
Lemma handshake_keys km ip pk k km' :
  wf_key_manager km → key_count km < 256 → get_key km ip = None →
  perform_handshake km ip pk = (Some k, km') →
  get_key km' ip = Some k ∧ ∀ ip', ip' ≠ ip → get_key km' ip' = get_key km ip'.
Proof.
  intros Hwf Hroom Hn Hph. split; [by eapply perform_handshake_fresh|]. intros ip' Hne.
  apply perform_handshake_add in Hph as ->. by apply get_key_add_ne.
Qed.

(** The table has no client at an address that belongs to no session. *)
Lemma established_stranger peers w addr :
  established peers w → (∀ pr, pr ∈ peers → ends (p_addr pr) ≠ ends addr) →
  find_client_by_addr (table (t_server w)) addr = None.
Proof.
  intros Hw Hnew. apply (find_stranger peers (λ _, ∃ _ : nat, True)); [|done].
  exact (ti_server _ _ _ _ (established_inv peers (λ _ _, True) (λ _, True) w Hw)).
Qed.

(** A handshake adds a session: when a new client at [addr] connects to the server of an
    established tunnel (its request reaches the server, the answer reaches the client) and
    is given a VPN address for which the enclave has no key, then client and server are an
    established tunnel with one more session, the one the client believes to have. *)
Lemma handshake_joins_tunnel name cs r cs' saddr addr d b srv' (i j : nat) peers w :
  established peers w → client_inv cs → tun_out (client_os cs) = [] →
  (client_public_key (client cs), client_private_key (client cs)) = box_keypair i →
  (server_public_key (km_of (t_server w)), server_private_key (km_of (t_server w))) = box_keypair j →
  (∀ pr, pr ∈ peers → ends (p_addr pr) ≠ ends addr) →
  wf_key_manager (km_of (t_server w)) → key_count (km_of (t_server w)) < 256 →
  peer_connect cm name cs = Ok (r, cs') →
  udp_out (client_os cs') = udp_out (client_os cs) ++ [(saddr, d)] →
  server_udp sm (Some (addr, d)) (t_server w) = Ok ((), srv') →
  udp_out (sys srv') = udp_out (sys (t_server w)) ++ [(addr, b)] →
  env_answer (answers cs) = Some b →
  get_key (km_of (t_server w)) (client_vpn_ip (client cs')) = None →
  let pr := Session addr (client_vpn_ip (client cs')) (client_session_key (client cs')) in
  VpnClient.connected (client cs') = true ∧
  established (peers ++ [pr]) (Tunnel (t_clients w ++ [cs']) (t_up w ++ [[]]) srv' (t_last w) []).
Proof.
  intros Hw Hci Htun Hck Hsk Hnew Hwfk Hroom Hconn Hsent Hserve Hback Hans Hnone pr.
  pose proof (established_stranger peers w addr Hw Hnew) as Hf.
  destruct Hw as [Hone Hcl Hup Hdown [Hready Hst] Hent Hkeys].
  destruct (handshake_agreement sm cm name cs r cs' saddr addr d b (t_server w) srv' i j)
    as (-> & Hc & slot & c & _ & Hip & _ & Hph & Ho & Hp & Hready' & Htun');
    [done..|]. split; [done|]. rewrite <-Hip in Hph, Ho, Hp.
  destruct (handshake_keys _ _ _ _ _ Hwfk Hroom Hnone Hph) as [Hk Hkne].
  destruct (add_outcome_new _ _ _ _ (proj1 Hready) Hp Hf Ho) as (c' & Hends & Hip' & Hact).
  split; cbn [t_clients t_up t_server t_down].
  - intros p p' [Hin|Hin%list_elem_of_singleton]%elem_of_app [Hin'|Hin'%list_elem_of_singleton]%elem_of_app;
      subst; [by apply Hone|..|done]; cbn; intros E; exfalso; [by apply (Hnew p)|by apply (Hnew p')].
  - apply Forall2_app; [done|]. apply Forall2_cons. split; [|done]. split; [done|].
    rewrite <-Htun. by apply (@vpn_connect_tun _ (m_garbage cm) (m_env cm) _ _ name cs 0 cs').
  - apply Forall_app. split; [done|]. by apply Forall_singleton.
  - done.
  - split; [done|]. by rewrite Htun'.
  - rewrite Hact. apply Forall_cons. split.
    + apply Exists_app. right. by apply Exists_cons_hd.
    + eapply Forall_impl; [exact Hent|]. intros c0 Hc0. apply Exists_app. by left.
  - apply Forall_app. split; [|by apply Forall_singleton].
    apply Forall_forall. intros p Hin. rewrite Hkne.
    + by apply (proj1 (Forall_forall _ _) Hkeys).
    + intros E. apply (proj1 (Forall_forall _ _) Hkeys) in Hin. cbn in Hnone. congruence.
Qed.

(** A server that has just been started serves no session. *)
Lemma no_sessions_established srv last :
  server_ready srv → active_clients (table srv) = [] → tun_out (sys srv) = [] →
  established [] (Tunnel [] [] srv last []).
Proof.
  intros Hr Ha Ht. split; cbn; try done; [|by rewrite Ha].
  by intros pr pr' ?%elem_of_nil.
Qed.
End joining.

(** ** Instances: the client of System.v joins a server without clients *)
Section instances.
#[local] Existing Instance kind_host.

(** The server of VpnServer.v before its first client. *)
Definition idle_server : server enclave := Server empty_table 0 (Ipc 0 toy_enclave) os_boot.
Definition joined_server : server enclave :=
  match server_udp pc (Some (peer 2, toy_request)) idle_server with
  | Ok (_, s) => s
  | Fault _ => idle_server
  end.
#[local] Instance joining_network : Network := λ _, Some (last_sent (udp_out (sys joined_server))).
Definition joined_client : client_state :=
  match peer_connect pc (chars "bob") new_client with Ok (_, s) => s | Fault _ => new_client end.

Lemma idle_server_ready : server_ready idle_server.
Proof. split; [by apply init_client_table_wf|by split]. Qed.

Example toy_client_joins :
  let pr := Session (peer 2) (client_vpn_ip (client joined_client))
                    (client_session_key (client joined_client)) in
  VpnClient.connected (client joined_client) = true ∧
  established ([] ++ [pr]) (Tunnel ([] ++ [joined_client]) ([] ++ [[]]) joined_server 0 []).
Proof.
  apply (handshake_joins_tunnel pc pc (chars "bob") new_client 0 joined_client
    (server_addr (client joined_client)) (peer 2) toy_request
    (last_sent (udp_out (sys joined_server))) joined_server 4 0 [] (Tunnel [] [] idle_server 0 []));
    [by apply no_sessions_established; [apply idle_server_ready|..]|apply new_client_inv|done
    |by vm_compute|by vm_compute| |by vm_compute..].
  by intros pr ?%elem_of_nil.
Qed.
End instances.
