(* ===== verification/Lines.v ===== *)
(** * Sessions that come and go: the side of the server

    A line is a socket of a client: the server sees an address. This file follows a server
    while lines appear, send their CONNECT_REQ, their packets and their DISCONNECT, and
    time out. [hub_good] relates the client table and the key table of the enclave to
    the lines that were admitted so far; every turn of the server's loop keeps it. *)

From stdpp Require Import gmap.
From S2P Require Import Prelude Os Crypto ToySodium IpcProtocol Protocol KeyManager Enclave EnclaveClient.
From S2P Require Import ClientManager VpnServer Config Tun VpnClient System Tunnel.

(** The address of the socket, the client that opened it, its CONNECT_REQ while it is on
    its way, and what was sent from the socket afterwards. *)
Record line := Line {
  l_addr : sockaddr_in;
  l_owner : nat;
  l_request : option (list Z);
  l_sent : list (list Z)
}.

(** ** The key table during a turn *)
Section keytable.
Context `{Sodium, Garbage, Env} `{!SodiumLaws _}.

Lemma enclave_encrypt_km ip p out i r i' :
  idle (channel i) → is_uint 4 ip → zlen p ≤ 4068 →
  enclave_encrypt ip p out i = Ok (r, i') → e_km (channel i') = e_km (channel i).
Proof.
  intros Hidle Hip Hp Hrun.
  assert (request_fits IPC_ENCRYPT p) as Hfit by (split; autounfold with sizes; lia).
  destruct (serve IPC_ENCRYPT ip p (channel i)) as [[st pl] e'] eqn:Hserve.
  unfold enclave_encrypt in Hrun.
  rewrite (crypt_request_run i IPC_ENCRYPT ip p out _ _ _ Hidle ltac:(done) Hip Hfit Hserve) in Hrun.
  assert (e_km e' = e_km (channel i)) as Hkm.
  { rewrite serve_encrypt in Hserve. repeat case_match; by simplify_eq/=. }
  repeat case_decide; by simplify_eq/=.
Qed.

Lemma enclave_decrypt_km ip p out i r i' :
  idle (channel i) → is_uint 4 ip → zlen p ≤ 4096 →
  enclave_decrypt ip p out i = Ok (r, i') → e_km (channel i') = e_km (channel i).
Proof.
  intros Hidle Hip Hp Hrun.
  assert (request_fits IPC_DECRYPT p) as Hfit by (split; [done|by intros]).
  destruct (serve IPC_DECRYPT ip p (channel i)) as [[st pl] e'] eqn:Hserve.
  unfold enclave_decrypt in Hrun.
  rewrite (crypt_request_run i IPC_DECRYPT ip p out _ _ _ Hidle ltac:(done) Hip Hfit Hserve) in Hrun.
  assert (e_km e' = e_km (channel i)) as Hkm.
  { rewrite serve_decrypt in Hserve. repeat case_match; by simplify_eq/=. }
  repeat case_decide; by simplify_eq/=.
Qed.

(** Code of the server that does not talk to the enclave. *)
Definition keeps_conn {A} (m : M (server enclave) A) : Prop :=
  ∀ s a s', m s = Ok (a, s') → enclave_conn s' = enclave_conn s.

Lemma keeps_conn_sys {A} (m : M os A) : keeps_conn (on_sys m).
Proof.
  intros s a s'. unfold on_sys. rewrite run_zoom. destruct (m (sys s)) as [[??]|]; [|done].
  by intros [= <- <-].
Qed.
Lemma keeps_conn_bind {A B} (m : M (server enclave) A) (f : A → M (server enclave) B) :
  keeps_conn m → (∀ a, keeps_conn (f a)) → keeps_conn (m ≫= f).
Proof. intros Hm Hf s a s' Hrun. run_inv Hrun. by rewrite (Hf _ _ _ _ Hrun), (Hm _ _ _ Hrun0). Qed.
Lemma keeps_conn_ret {A} (a : A) : keeps_conn (mret a).
Proof. by intros s ? ? [= <- <-]. Qed.
Lemma keeps_conn_lift {A} (r : res A) : keeps_conn (lift r).
Proof. intros s a s'. destruct r; [by intros [= <- <-]|done]. Qed.
Lemma keeps_conn_table f : keeps_conn (on_table f).
Proof.
  intros s a s' Hrun. unfold on_table in Hrun. run_inv Hrun. rewrite run_gets in Hrun0.
  injection Hrun0 as <- <-. run_inv Hrun. apply keeps_conn_sys in Hrun0.
  by injection Hrun as <- <-.
Qed.
Lemma keeps_conn_header t len : keeps_conn (new_header t len).
Proof.
  intros s a s' Hrun. destruct (new_header_run t len s) as (ts & o' & _ & _ & E).
  rewrite E in Hrun. by injection Hrun as <- <-.
Qed.
Lemma keeps_conn_send b dest : keeps_conn (udp_send b dest).
Proof. apply keeps_conn_bind; [apply keeps_conn_sys|intros; apply keeps_conn_ret]. Qed.

Lemma on_enclave_inv {A} (m : M (ipc enclave) A) s a s' :
  on_enclave m s = Ok (a, s') →
  m (enclave_conn s) = Ok (a, enclave_conn s') ∧ table s' = table s ∧ sys s' = sys s.
Proof.
  unfold on_enclave. rewrite run_zoom. destruct (m (enclave_conn s)) as [[??]|]; [|done].
  by intros [= <- <-].
Qed.

(** Opening a packet leaves the key table as it was. *)
Lemma on_data_km buffer n addr s s' :
  server_ready s → zlen buffer = 2048 → n ≤ 2048 →
  on_data buffer n addr s = Ok ((), s') → km_of s' = km_of s.
Proof.
  intros [Hwf Hidle] Hb Hn Hrun. unfold on_data in Hrun. run_inv Hrun.
  rewrite run_gets in Hrun0. injection Hrun0 as <- <-.
  destruct (find_client_by_addr (table s) addr) as [[i c]|] eqn:Hf; [|by injection Hrun as <-].
  destruct (found_by_addr _ _ _ _ Hwf Hf) as (_ & _ & Hip).
  run_inv Hrun. apply keeps_conn_table in Hrun0 as Hc1. run_inv Hrun.
  change sizeof_vpn_header_t with 16 in *.
  destruct (buf_read buffer 16 (n - 16)) as [ct|] eqn:Hread; [|done]. injection Hrun1 as <- <-.
  run_inv Hrun. apply on_enclave_inv in Hrun1 as (Hd & _ & _). rewrite Hc1 in Hd.
  assert (enclave_conn s' = enclave_conn s1) as Hc2.
  { destruct a0 as [[buf len]|]; [|by injection Hrun as <-].
    revert Hrun. apply keeps_conn_bind; [apply keeps_conn_lift|intros pkt].
    apply keeps_conn_bind; [apply keeps_conn_sys|intros; apply keeps_conn_ret]. }
  unfold km_of. rewrite Hc2. apply (enclave_decrypt_km _ _ _ _ _ _ Hidle Hip) in Hd; [done|].
  unfold buf_read in Hread. case_decide; [|done]. injection Hread as <-. rewrite zlen_slice; lia.
Qed.

(** So does sealing one. *)
Lemma handle_tun_to_udp_km p s s' :
  server_ready s → zlen p ≤ 2004 →
  handle_tun_to_udp (Some p) s = Ok ((), s') → km_of s' = km_of s.
Proof.
  intros [Hwf Hidle] Hp Hrun. unfold handle_tun_to_udp in Hrun.
  rewrite recv_datagram_fits in Hrun by zlen.
  case_decide; [by injection Hrun as <-|]. case_decide; [by injection Hrun as <-|].
  run_inv Hrun. rewrite run_gets in Hrun0. injection Hrun0 as <- <-. rewrite slice_hit in Hrun by done.
  destruct (find_client_by_vpn_ip (table s) _) as [[i c]|] eqn:Hf; [|by injection Hrun as <-].
  destruct (found_by_ip _ _ _ _ Hwf Hf) as (_ & _ & _ & Hip).
  run_inv Hrun. apply on_enclave_inv in Hrun0 as (Hd & _ & _).
  assert (enclave_conn s' = enclave_conn s0) as Hc2.
  { destruct a as [[buf len]|]; [|by injection Hrun as <-].
    revert Hrun. unfold send_data_packet. apply keeps_conn_bind; [apply keeps_conn_header|intros h].
    apply keeps_conn_bind; [apply keeps_conn_lift|intros pkt].
    apply keeps_conn_bind; [apply keeps_conn_send|intros r].
    case_decide; [apply keeps_conn_table|apply keeps_conn_ret]. }
  unfold km_of. rewrite Hc2. apply (enclave_encrypt_km _ _ _ _ _ _ Hidle Hip) in Hd; [done|lia].
Qed.
End keytable.

(** ** What the server knows about the lines *)
Section knowledge.
Context `{Sodium} (kp : nat → nat) (sp : nat).

(** The session key of client [j]: client and server have the key pairs [kp j] and [sp]. *)
Definition agreed (j : nat) : list Z :=
  match crypto_ecdh (box_keypair sp).2 (box_keypair (kp j)).1 with
  | Some shared => crypto_derive_session_key shared None
  | None => []
  end.

(** No two lines have the same address. *)
Definition apart (lines : list line) : Prop :=
  ∀ l l' ln ln', lines !! l = Some ln → lines !! l' = Some ln' →
    ends (l_addr ln) = ends (l_addr ln') → l = l'.

(** An address that was handed out before. *)
Definition issued (t : client_table_t) (ip : Z) : Prop :=
  ∃ h, FIRST_IP ≤ h < next_ip t ∧ ip = htonl h.

(** What a client sends from a line after its CONNECT_REQ. *)
Definition outgoing (k : list Z) (U : list Z → Prop) (d : list Z) : Prop :=
  upward k U d ∨ (16 ≤ zlen d ∧ packet_type d = PKT_DISCONNECT).

(** A CONNECT_RESP that assigns the VPN address [ip]. *)
Definition welcome (ip : Z) (d : list Z) : Prop :=
  zlen d = 57 ∧ packet_type d = PKT_CONNECT_RESP ∧
  let r := connect_response_of_bytes d in
  hdr_type (resp_header r) = PKT_CONNECT_RESP ∧ resp_status r = 0 ∧ resp_vpn_ip r = ip ∧
  resp_server_public_key r = (box_keypair sp).1.

(** What the server may send, where [adm] has the VPN addresses of the admitted lines:
    packets without content to anyone, and to an admitted line its address and packets for
    that address under the key of its owner. *)
Definition addressed_to (lines : list line) (D : list Z → Prop) (adm : gmap nat Z)
    (x : sockaddr_in * list Z) : Prop :=
  (16 ≤ zlen x.2 ∧ packet_type x.2 ≠ PKT_DATA ∧ packet_type x.2 ≠ PKT_CONNECT_RESP) ∨
  ∃ l ln ip, lines !! l = Some ln ∧ adm !! l = Some ip ∧ ends x.1 = ends (l_addr ln) ∧
    (welcome ip x.2 ∨ sealed (agreed (l_owner ln)) (λ p, D p ∧ ip_daddr p = ip) x.2).

Record hub_good (lines : list line) (U : list Z → Prop) (adm : gmap nat Z)
    (s : server enclave) : Prop := HubGood {
  hg_ready : server_ready s;
  hg_pool : fresh_ips (Z.of_nat (size adm)) (table s);
  hg_entries : ∀ c, c ∈ active_clients (table s) →
    ∃ l ln, lines !! l = Some ln ∧ adm !! l = Some (vpn_ip c) ∧ endpoint c = ends (l_addr ln) ∧
      get_key (km_of s) (vpn_ip c) = Some (agreed (l_owner ln));
  hg_adm : ∀ l ip, adm !! l = Some ip → (l < length lines)%nat ∧ issued (table s) ip;
  hg_inj : ∀ l l' ip, adm !! l = Some ip → adm !! l' = Some ip → l = l';
  hg_room : wf_key_manager (km_of s) ∧ key_count (km_of s) ≤ Z.of_nat (size adm);
  hg_keys : ∀ ip k, get_key (km_of s) ip = Some k → issued (table s) ip;
  hg_pair : (server_public_key (km_of s), server_private_key (km_of s)) = box_keypair sp;
  hg_tun : Forall U (tun_out (sys s))
}.

Definition hub_moves (lines : list line) (U D : list Z → Prop) (adm adm' : gmap nat Z)
    (s s' : server enclave) : Prop :=
  hub_good lines U adm' s' ∧ adm ⊆ adm' ∧
  ∃ new, udp_out (sys s') = udp_out (sys s) ++ new ∧ Forall (addressed_to lines D adm') new.
End knowledge.

Section hub.
Context `{Sodium, Garbage, Env} `{!SodiumLaws _}.
Context (kp : nat → nat) (sp : nat) (lines : list line) (U D : list Z → Prop).
Implicit Types s : server enclave.
Abbreviation agreed := (agreed kp sp).
Abbreviation addressed_to := (addressed_to kp sp lines D).
Abbreviation hub_good := (hub_good kp sp lines U).
Abbreviation hub_moves := (hub_moves kp sp lines U D).

Lemma addressed_to_mono adm adm' x : adm ⊆ adm' → addressed_to adm x → addressed_to adm' x.
Proof.
  intros Hsub [?|(l & ln & ip & ? & Hl & ?)]; [by left|right]. exists l, ln, ip.
  split; [done|]. split; [by eapply lookup_weaken|done].
Qed.

Lemma hub_moves_refl adm s : hub_good adm s → hub_moves adm adm s s.
Proof. intros Hs. split; [done|]. split; [done|]. exists []. by rewrite app_nil_r. Qed.

Lemma hub_moves_trans a1 a2 a3 s1 s2 s3 :
  hub_moves a1 a2 s1 s2 → hub_moves a2 a3 s2 s3 → hub_moves a1 a3 s1 s3.
Proof.
  intros (_ & Hs1 & n1 & E1 & Hn1) (Hg & Hs2 & n2 & E2 & Hn2). split; [done|].
  split; [by etrans|]. exists (n1 ++ n2). split; [by rewrite E2, E1, app_assoc|].
  apply Forall_app. split; [|done]. eapply Forall_impl; [exact Hn1|].
  intros x. by apply addressed_to_mono.
Qed.

(** A step that admits nobody, drops no key and keeps the entries but for their times. *)
Lemma hub_steps adm s s' new newt :
  hub_good adm s → server_ready s' → km_of s' = km_of s → next_ip (table s') = next_ip (table s) →
  fresh_ips (Z.of_nat (size adm)) (table s') →
  (∀ c, c ∈ active_clients (table s') →
     ∃ c0, c0 ∈ active_clients (table s) ∧ endpoint c = endpoint c0 ∧ vpn_ip c = vpn_ip c0) →
  emits (sys s) (sys s') new newt → Forall (addressed_to adm) new → Forall U newt →
  hub_moves adm adm s s'.
Proof.
  intros [] Hr Hkm Hnext Hf Hent [Hudp Htun] Hnew Hnewt. split; [|split; [done|by exists new]].
  split; rewrite ?Hkm; try done.
  - intros c (c0 & Hc0 & -> & ->)%Hent. by apply hg_entries0.
  - unfold issued. by rewrite Hnext.
  - unfold issued. by rewrite Hnext.
  - rewrite Htun. by apply Forall_app.
Qed.

Lemma hub_touches adm s s' now i new newt :
  hub_good adm s → server_ready s' → km_of s' = km_of s →
  table s' = table s ∨ table s' = touch_slot now i (table s) →
  emits (sys s) (sys s') new newt → Forall (addressed_to adm) new → Forall U newt →
  hub_moves adm adm s s'.
Proof.
  intros Hs Hr Hkm Ht. apply hub_steps; try done.
  - destruct Ht as [->| ->]; done.
  - destruct Ht as [->| ->]; [apply Hs|]. apply fresh_ips_update, Hs.
  - intros c. destruct Ht as [->| ->]; [by exists c|]. apply active_touch_slot.
Qed.

Lemma hub_entry adm s i c :
  hub_good adm s → clients (table s) !! i = Some c → active c = true →
  ∃ l ln, lines !! l = Some ln ∧ adm !! l = Some (vpn_ip c) ∧ endpoint c = ends (l_addr ln) ∧
    get_key (km_of s) (vpn_ip c) = Some (agreed (l_owner ln)).
Proof.
  intros Hs Hi Ha. apply (hg_entries _ _ _ _ _ _ Hs), list_elem_of_filter.
  split; [done|]. by eapply list_elem_of_lookup_2.
Qed.

Lemma hub_find adm s addr i c :
  hub_good adm s → find_client_by_addr (table s) addr = Some (i, c) →
  ∃ l ln, lines !! l = Some ln ∧ adm !! l = Some (vpn_ip c) ∧ ends addr = ends (l_addr ln) ∧
    get_key (km_of s) (vpn_ip c) = Some (agreed (l_owner ln)).
Proof.
  intros Hs Hf. destruct (hg_ready _ _ _ _ _ _ Hs) as [Hwf _].
  destruct (found_by_addr _ _ _ _ Hwf Hf) as (Hi & (Ha & E1 & E2) & _).
  destruct (hub_entry adm s i c Hs Hi Ha) as (l & ln & Hl & Had & He & Hk).
  exists l, ln. split_and!; try done. rewrite <-He. unfold ends, endpoint. congruence.
Qed.

Lemma hub_find_none adm s addr :
  hub_good adm s →
  (∀ l ln, lines !! l = Some ln → ends (l_addr ln) = ends addr → adm !! l = None) →
  find_client_by_addr (table s) addr = None.
Proof.
  intros Hs Hnew. destruct (find_client_by_addr (table s) addr) as [[i c]|] eqn:Hf; [|done].
  destruct (hub_find adm s addr i c Hs Hf) as (l & ln & Hl & Had & He & _).
  by rewrite (Hnew l ln) in Had.
Qed.

Lemma hub_ping adm from s :
  hub_good adm s → ∃ s', on_ping from s = Ok ((), s') ∧ hub_moves adm adm s s'.
Proof.
  intros Hs. destruct (on_ping_run from s) as (now & ts & s' & E & _ & Ht & He & _ & Hem).
  exists s'. split; [done|]. destruct (hg_ready _ _ _ _ _ _ Hs) as [Hwf Hidle].
  destruct (touch_cases now (table s) from) as [i Hi].
  eapply (hub_touches adm s s' now i); try done.
  - split; [rewrite Ht; by apply touch_wf|by rewrite He].
  - unfold km_of. by rewrite He.
  - by rewrite Ht.
  - unfold sent. case_match; [|done]. apply Forall_singleton. left. cbn [snd]. split; [zlen|].
    rewrite <-(app_nil_r (vpn_header_bytes _)), packet_type_header by apply wf_init_header. done.
Qed.

(** Opening a packet from [from]. *)
Lemma hub_data adm from d s :
  hub_good adm s → 16 ≤ zlen d →
  (∀ i c p, find_client_by_addr (table s) from = Some (i, c) →
     open_packet (get_key (km_of s) (vpn_ip c)) (slice 16 (zlen (cut d) - 16) (rx_buffer d)) = Some p →
     U p) →
  ∃ s', on_data (rx_buffer d) (zlen (cut d)) from s = Ok ((), s') ∧ hub_moves adm adm s s'.
Proof.
  intros Hs Hd Hopen. pose proof (hg_ready _ _ _ _ _ _ Hs) as Hr.
  pose proof (server_ok_ready _ Hr) as Hok. pose proof (zlen_cut d).
  destruct (on_data_run (rx_buffer d) (zlen (cut d)) from s)
    as (now & s' & E & Hok' & Ht & _ & _ & Hem);
    [done|apply rx_buffer_len|autounfold with sizes; lia|].
  exists s'. split; [done|]. destruct (touch_cases now (table s) from) as [i Hi].
  eapply (hub_touches adm s s' now i); try done; [by destruct Hok'| |by rewrite Ht|].
  - eapply on_data_km; [done|apply rx_buffer_len| |exact E]. lia.
  - destruct (find_client_by_addr (table s) from) as [[i' c]|]; [|done].
    unfold delivered. destruct (open_packet _ _) as [p|] eqn:Hp; [|done].
    case_match; [|done]. apply Forall_singleton. by eapply Hopen.
Qed.

(** A packet of the server's TUN device. *)
Lemma hub_tun adm p s :
  hub_good adm s → zlen p ≤ 2004 → D p →
  ∃ s', handle_tun_to_udp (Some p) s = Ok ((), s') ∧ hub_moves adm adm s s'.
Proof.
  intros Hs Hp HD. pose proof (hg_ready _ _ _ _ _ _ Hs) as Hr.
  destruct (handle_tun_to_udp_run p s (server_ok_ready _ Hr) Hp) as (s' & E & Hok' & _ & Hrt).
  exists s'. split; [done|]. assert (server_ready s') as Hr' by (by destruct Hok').
  pose proof (handle_tun_to_udp_km p s s' Hr Hp E) as Hkm.
  destruct Hrt as [_|i c s' _ _ _ _ Ht _ Hem|i c key n ct ts now s' _ _ Hf Hkey Hn Hc Hts _ Hem Ht].
  - by apply hub_moves_refl.
  - eapply (hub_touches adm s s' 0 0); try done. by left.
  - eapply (hub_touches adm s s' now i); try done; [rewrite Ht; case_match; auto|].
    unfold sent. case_match; [|done]. apply Forall_singleton. right. cbn [fst snd].
    destruct Hr as [Hwf _]. destruct (found_by_ip _ _ _ _ Hwf Hf) as (Hi & Ha & Hip & _).
    destruct (hub_entry adm s i c Hs Hi Ha) as (l & ln & Hl & Had & He & Hk).
    change (svc_key (channel (enclave_conn s)) (vpn_ip c)) with (get_key (km_of s) (vpn_ip c)) in Hkey.
    rewrite Hk in Hkey. injection Hkey as <-. exists l, ln, (vpn_ip c).
    split_and!; [done..|]. right. eexists _, n, ct, p. split; [reflexivity|].
    split; [apply wf_init_header|]. split_and!; try done.
Qed.

(** The active clients without the one that has the address. *)
Lemma active_without_ip t ip c :
  NoDup (vpn_ip <$> active_clients t) → c ∈ active_clients (without_ip t ip) →
  c ∈ active_clients t ∧ vpn_ip c ≠ ip.
Proof.
  intros Hnd Hc. unfold without_ip in Hc.
  destruct (find_client_by_vpn_ip t ip) as [[i c0]|] eqn:Hf.
  - apply list_find_lookup in Hf as [Hi [Ha <-]].
    pose proof (active_insert_drop _ _ _ (count t - 1) (next_ip t) Hi Ha) as Hp.
    change (filter _ (clients t)) with (active_clients t) in Hp. rewrite <-Hp in Hnd |- *.
    rewrite fmap_cons in Hnd. apply NoDup_cons in Hnd as [Hn _]. split; [by right|].
    intros E. apply Hn. rewrite <-E. by apply list_elem_of_fmap_2.
  - split; [done|]. intros E. apply list_find_None in Hf. rewrite Forall_forall in Hf.
    apply list_elem_of_filter in Hc as [Ha Hin]. by apply (Hf c Hin).
Qed.

Lemma without_ip_sub t ip : active_clients (without_ip t ip) ⊆+ active_clients t.
Proof.
  unfold without_ip. destruct (find_client_by_vpn_ip t ip) as [[i c]|] eqn:Hf; [|done].
  apply list_find_lookup in Hf as [Hi [Ha _]]. unfold active_clients at 2.
  rewrite <-(active_insert_drop _ _ _ (count t - 1) (next_ip t) Hi Ha). by apply submseteq_cons.
Qed.

Lemma next_ip_without t ip : next_ip (without_ip t ip) = next_ip t.
Proof. unfold without_ip. by repeat case_match. Qed.

Lemma remove_key_count km ip : key_count (remove_key km ip) ≤ key_count km.
Proof. unfold remove_key. repeat case_match; cbn; lia. Qed.
Lemma remove_key_pair km ip :
  (server_public_key (remove_key km ip), server_private_key (remove_key km ip)) =
  (server_public_key km, server_private_key km).
Proof. unfold remove_key. by repeat case_match. Qed.

(** A DISCONNECT ends the session of its sender and no other. *)
Lemma hub_disconnect adm from s :
  hub_good adm s → ∃ s', on_disconnect from s = Ok ((), s') ∧ hub_moves adm adm s s'.
Proof.
  intros Hs. pose proof (hg_ready _ _ _ _ _ _ Hs) as [Hwf Hidle].
  destruct (on_disconnect_run from s) as (s' & E & [Hwf' Hidle'] & _ & Hem & Hc); [by split|].
  exists s'. split; [done|].
  destruct (find_client_by_addr (table s) from) as [[i c]|] eqn:Hf;
    [|subst s'; by apply hub_moves_refl].
  destruct Hc as (Ht & Hrem & _). destruct (found_by_addr _ _ _ _ Hwf Hf) as (Hi & [Ha _] & Hip).
  destruct (hub_entry adm s i c Hs Hi Ha) as (l & _ & _ & Had & _).
  rewrite (enclave_remove_key_run (enclave_conn s) (vpn_ip c) Hidle Hip) in Hrem. injection Hrem as Hconn.
  assert (km_of s' = remove_key (km_of s) (vpn_ip c)) as Hkm by (unfold km_of; by rewrite <-Hconn).
  destruct Hs as [_ (Hn & Hnd & Hiss) Hent Hadm Hinj [Hwfk Hroom] Hkeys Hpair Htun], Hem as [Hudp Htun'].
  split; [|split; [done|exists []; by rewrite Hudp]].
  split; rewrite ?Hkm, ?Ht; try done.
  - apply (fresh_ips_sub _ (table s)); [by split_and!|apply next_ip_without|apply without_ip_sub].
  - intros c' [Hin Hne]%active_without_ip; [|done]. rewrite get_key_remove_ne by done. by apply Hent.
  - unfold issued. by rewrite next_ip_without.
  - split; [by apply remove_key_wf|]. pose proof (remove_key_count (km_of s) (vpn_ip c)). lia.
  - intros ip k Hk. unfold issued. rewrite next_ip_without. destruct (decide (vpn_ip c = ip)) as [<-|Hne].
    + by apply (Hadm l).
    + rewrite get_key_remove_ne in Hk by done. by apply (Hkeys ip k).
  - by rewrite remove_key_pair.
  - by rewrite Htun', app_nil_r.
Qed.

(** What the owner of a line sends after its CONNECT_REQ. *)
Lemma hub_packet adm l ln d s :
  apart lines → hub_good adm s → lines !! l = Some ln → outgoing (agreed (l_owner ln)) U d →
  ∃ s', handle_udp_to_tun (Some (l_addr ln, d)) s = Ok ((), s') ∧ hub_moves adm adm s s'.
Proof.
  intros Hap Hs Hl Hd. rewrite handle_udp_dispatch.
  destruct Hd as [[[Hd Hty]|(h & n & ct & p & -> & Hh & Hty & Hn & Hc & Hp & HU)]|[Hd Hty]].
  - rewrite Hty. rewrite decide_False by lia. rewrite !decide_False by done.
    rewrite decide_True by done. by apply hub_ping.
  - pose proof (aead_encrypt_len _ _ _ _ Hc) as Hlen. change CRYPTO_MAC_SIZE with 16 in Hlen.
    pose proof (zlen_nonneg p). set (d := vpn_header_bytes h ++ n ++ ct).
    assert (zlen d = zlen p + 44) as Hd by (subst d; zlen).
    rewrite decide_False by lia.
    assert (packet_type d = PKT_DATA) as -> by (subst d; by rewrite packet_type_header).
    rewrite decide_False, decide_True by done. apply hub_data; [done|lia|].
    intros i c q Hf Hq. destruct (hub_find adm s _ i c Hs Hf) as (l' & ln' & Hl' & _ & He & Hk).
    rewrite (Hap l l' ln ln') in Hl by done. rewrite Hl in Hl'. injection Hl' as <-.
    assert (cut d = d) as Hcut by (apply (take_all_zlen 2048); lia).
    rewrite Hk in Hq. unfold rx_buffer in Hq. rewrite Hcut, slice_within in Hq by lia.
    assert (slice 16 (zlen d - 16) d = n ++ ct) as E.
    { subst d. rewrite slice_skip by zlen. autorewrite with zlen. rewrite slice_all; [done|zlen]. }
    rewrite E, (open_packet_sealed p _ n ct) in Hq by done. by injection Hq as <-.
  - rewrite Hty. rewrite decide_False by lia. rewrite !decide_False by done.
    rewrite decide_True by done. by apply hub_disconnect.
Qed.

(** What anybody else sends, as long as it opens no session. *)
Lemma hub_stranger adm from d s :
  hub_good adm s → (∀ l ln, lines !! l = Some ln → ends (l_addr ln) ≠ ends from) →
  packet_type d ≠ PKT_CONNECT_REQ →
  ∃ s', handle_udp_to_tun (Some (from, d)) s = Ok ((), s') ∧ hub_moves adm adm s s'.
Proof.
  intros Hs Hfrom Hty. pose proof (hub_moves_refl adm s Hs).
  rewrite handle_udp_dispatch. case_decide; [by exists s|]. rewrite decide_False by done.
  assert (find_client_by_addr (table s) from = None) as Hf.
  { apply (hub_find_none adm s from Hs). intros l ln Hl He. by destruct (Hfrom l ln). }
  case_decide; [apply hub_data; [done|lia|intros; congruence]|].
  case_decide; [by apply hub_ping|]. case_decide; [by apply hub_disconnect|by exists s].
Qed.

Lemma adm_size adm l ip s :
  hub_good adm s → (l < length lines)%nat → adm !! l = None → (length lines ≤ 254)%nat →
  (size adm < 254)%nat ∧ size (<[l := ip]> adm) = S (size adm).
Proof.
  intros Hs Hl Hn Hlen. assert (size (<[l := ip]> adm) = S (size adm)) as E by (by apply map_size_insert_None).
  split; [|done]. enough (size (<[l := ip]> adm) ≤ length lines)%nat by lia.
  rewrite <-size_dom, <-(size_set_seq (C := gset nat) 0 (length lines)). apply subseteq_size.
  intros l' Hl'. apply elem_of_dom in Hl' as [ip' Hl']. apply elem_of_set_seq.
  destruct (decide (l' = l)) as [->|Hne]; [lia|]. rewrite lookup_insert_ne in Hl' by done.
  destruct (hg_adm _ _ _ _ _ _ Hs l' ip' Hl'). lia.
Qed.

Lemma next_not_issued adm s :
  hub_good adm s → (size adm < 254)%nat → ¬ issued (table s) (htonl (next_ip (table s))).
Proof.
  intros Hs Hsz (h & Hh & E). destruct (hg_pool _ _ _ _ _ _ Hs) as (Hn & _ & _).
  unfold FIRST_IP in *. apply htonl_pool_inj in E; unfold FIRST_IP, LAST_IP in *; lia.
Qed.

(** The client at a new address gets the next address of the pool. *)
Lemma admission adm s addr ip t' :
  hub_good adm s → (size adm < 254)%nat → find_client_by_addr (table s) addr = None →
  in_pool ip → add_outcome (table s) addr ip t' →
  ip = htonl (next_ip (table s)) ∧ next_ip t' = next_ip (table s) + 1 ∧
  fresh_ips (Z.of_nat (size adm) + 1) t' ∧
  ∃ c, endpoint c = ends addr ∧ vpn_ip c = ip ∧ active_clients t' ≡ₚ c :: active_clients (table s).
Proof.
  intros Hs Hsz Hf Hp Ho. pose proof (hg_pool _ _ _ _ _ _ Hs) as Hfr. pose proof Hfr as (Hn & _ & _).
  assert (alloc_ip (table s) = next_ip (table s)) as Ha.
  { unfold alloc_ip. rewrite decide_False; [done|]. unfold FIRST_IP, LAST_IP in *. lia. }
  destruct Ho as [|i c now _ Hf'|i c now sid _ _ Hslot _].
  - by apply in_pool_nonzero in Hp.
  - congruence.
  - split; [by rewrite Ha|]. split; [cbn; by rewrite Ha|].
    split; [eapply fresh_ips_new; eauto; lia|]. apply list_find_lookup in Hslot as [Hi Hac].
    eexists. split; [|split; [|by eapply active_insert_new]]; done.
Qed.

(** The server after the line [l] was given the next address. *)
Lemma hub_admits adm l s s' :
  let ip := htonl (next_ip (table s)) in
  hub_good adm s → (l < length lines)%nat → adm !! l = None → (length lines ≤ 254)%nat →
  server_ready s' → next_ip (table s') = next_ip (table s) + 1 →
  fresh_ips (Z.of_nat (size adm) + 1) (table s') →
  (∀ c, c ∈ active_clients (table s') →
     (c ∈ active_clients (table s) ∧ get_key (km_of s') (vpn_ip c) = get_key (km_of s) (vpn_ip c)) ∨
     ∃ ln, lines !! l = Some ln ∧ vpn_ip c = ip ∧ endpoint c = ends (l_addr ln) ∧
       get_key (km_of s') (vpn_ip c) = Some (agreed (l_owner ln))) →
  wf_key_manager (km_of s') ∧ key_count (km_of s') ≤ key_count (km_of s) + 1 →
  (∀ ip', ip' ≠ ip → get_key (km_of s') ip' = get_key (km_of s) ip') →
  (server_public_key (km_of s'), server_private_key (km_of s')) =
    (server_public_key (km_of s), server_private_key (km_of s)) →
  tun_out (sys s') = tun_out (sys s) → hub_good (<[l := ip]> adm) s'.
Proof.
  intros ip Hs Hl Hnone Hlen Hr Hnext Hfr Hent Hroom Hkeys Hpair Htun.
  destruct (adm_size adm l ip s Hs Hl Hnone Hlen) as [Hsz Hsz'].
  pose proof (next_not_issued adm s Hs Hsz) as Hni.
  destruct Hs as [_ (Hn & _ & _) Hent0 Hadm0 Hinj0 [_ Hroom0] Hkeys0 Hpair0 Htun0].
  assert (∀ ip', issued (table s) ip' → issued (table s') ip') as Hmono.
  { intros ip' (h & Hh & E). exists h. split; [lia|done]. }
  assert (issued (table s') ip) as Hiss.
  { exists (next_ip (table s)). split; [|done]. unfold FIRST_IP in *. lia. }
  split; rewrite ?Hsz'; try done.
  - by rewrite Nat2Z.inj_succ.
  - intros c Hc. destruct (Hent c Hc) as [[Hold Hk]|(ln & Hln & Hip & He & Hk)].
    + destruct (Hent0 c Hold) as (l' & ln & Hln & Had & He & Hk0). exists l', ln.
      rewrite lookup_insert_ne by congruence. split_and!; try done. by rewrite Hk.
    + exists l, ln. rewrite lookup_insert_eq, Hip in *. by split_and!.
  - intros l' ip'. destruct (decide (l' = l)) as [->|Hne].
    + rewrite lookup_insert_eq. by intros [= <-].
    + rewrite lookup_insert_ne by done. intros Had. destruct (Hadm0 l' ip' Had). auto.
  - assert (∀ l' ip', adm !! l' = Some ip' → ip' ≠ ip) as Hdiff.
    { intros l' ip' Had ->. by destruct (Hadm0 l' ip Had). }
    intros l1 l2 ip'. destruct (decide (l1 = l)) as [->|N1], (decide (l2 = l)) as [->|N2];
      rewrite ?lookup_insert_eq, ?lookup_insert_ne by done; try done.
    + intros [= <-] Had. by destruct (Hdiff l2 ip).
    + intros Had [= <-]. by destruct (Hdiff l1 ip).
    + apply Hinj0.
  - split; [apply Hroom|]. lia.
  - intros ip' k Hk. destruct (decide (ip' = ip)) as [->|Hne]; [done|].
    rewrite Hkeys in Hk by done. eauto.
  - by rewrite Hpair.
  - by rewrite Htun.
Qed.

Lemma add_key_count km ip k : key_count (add_key km ip k).2 ≤ key_count km + 1.
Proof. unfold add_key. repeat case_match; cbn; lia. Qed.
Lemma add_key_pair km ip k :
  (server_public_key (add_key km ip k).2, server_private_key (add_key km ip k).2) =
  (server_public_key km, server_private_key km).
Proof. unfold add_key. by repeat case_match. Qed.

(** The answer tells the line its address. *)
Lemma welcome_response s ts ip sid :
  is_uint 4 ip → welcome sp ip (connect_response s ts ip sid (box_keypair sp).1).
Proof.
  intros Hip. destruct (connect_response_decodes s ts ip sid (box_keypair sp).1)
    as (Hl & h & Hty & Hdec); [done|apply box_keypair_len|].
  split; [done|]. split; [|rewrite Hdec; by split_and!].
  pose proof (f_equal (λ r, hdr_type (resp_header r)) Hdec) as E. cbn [resp_header] in E.
  by rewrite Hty in E.
Qed.

(** The keys after the handshake of client [j] for a new address. *)
Lemma handshake_agreed adm s j ip k km' :
  hub_good adm s → (size adm < 254)%nat → get_key (km_of s) ip = None →
  perform_handshake (km_of s) ip (box_keypair (kp j)).1 = (Some k, km') →
  k = agreed j ∧ km' = (add_key (km_of s) ip k).2 ∧ get_key km' ip = Some k.
Proof.
  intros Hs Hsz Hn Hph. destruct (hg_room _ _ _ _ _ _ Hs) as [Hwf Hroom].
  pose proof (f_equal snd (hg_pair _ _ _ _ _ _ Hs)) as Hsk. cbn in Hsk.
  destruct (perform_handshake_key _ _ _ _ _ Hph) as (shared & He & ->). rewrite Hsk in He.
  split; [unfold Lines.agreed; by rewrite He|]. split; [by eapply perform_handshake_add|].
  eapply perform_handshake_fresh; eauto. lia.
Qed.

(** A CONNECT_REQ of a line that was not admitted yet. *)
Lemma hub_request adm l ln d s :
  apart lines → (length lines ≤ 254)%nat → hub_good adm s → lines !! l = Some ln →
  adm !! l = None → is_connect_req (box_keypair (kp (l_owner ln))).1 d →
  ∃ adm' s', handle_udp_to_tun (Some (l_addr ln, d)) s = Ok ((), s') ∧ hub_moves adm adm' s s' ∧
    ∀ l', l' ≠ l → adm' !! l' = adm !! l'.
Proof.
  intros Hap Hlen Hs Hl Hnone (Hd & Hty & Hpk). pose proof (hg_ready _ _ _ _ _ _ Hs) as Hr.
  pose proof Hr as [Hwf Hidle]. pose proof (lookup_lt_Some _ _ _ Hl) as Hlt.
  pose proof (adm_size adm l (htonl (next_ip (table s))) s Hs Hlt Hnone Hlen) as [Hsz _].
  pose proof (next_not_issued adm s Hs Hsz) as Hni.
  assert (find_client_by_addr (table s) (l_addr ln) = None) as Hf.
  { apply (hub_find_none adm s _ Hs). intros l' ln' Hl' He. by rewrite (Hap l' l ln' ln). }
  assert (get_key (km_of s) (htonl (next_ip (table s))) = None) as Hnk.
  { destruct (get_key (km_of s) _) eqn:E; [|done]. by apply (hg_keys _ _ _ _ _ _ Hs) in E. }
  rewrite handle_udp_dispatch, decide_False, decide_True by (done || lia).
  destruct (on_connect_req_run (rx_buffer d) (l_addr ln) s (server_ok_ready _ Hr) (rx_buffer_len d))
    as (s' & E & [Hwf' Hidle'] & Hc). rewrite rx_buffer_key, Hpk in Hc by lia.
  assert (∀ adm', hub_good adm' s' → adm ⊆ adm' → (∀ l', l' ≠ l → adm' !! l' = adm !! l') →
    ∀ new, udp_out (sys s') = udp_out (sys s) ++ new → Forall (addressed_to adm') new →
    ∃ adm' s', on_connect_req (rx_buffer d) (l_addr ln) s = Ok ((), s') ∧ hub_moves adm adm' s s' ∧
      ∀ l', l' ≠ l → adm' !! l' = adm !! l') as Hdone.
  { intros adm' Hg Hsub Hoth new Hudp Hnew. exists adm', s'. split; [done|]. split; [|done].
    split; [done|]. split; [done|]. by exists new. }
  destruct Hc as [s' _ Ht Hconn _ Hem|ip t' s' Ho Hp Hh Ht _ [Hudp Htun]
    |ip t' s' spk sk i c ts Ho Hp Hh Ht Hfc Hipc _ Hts [Hudp Htun]].
  - destruct (hub_touches adm s s' 0 0 [] []) as (Hg & _ & _); try done;
      [by unfold km_of; rewrite Hconn|by left|]. destruct Hem as [Hudp _]. by eapply Hdone.
  - destruct (admission adm s _ _ _ Hs Hsz Hf Hp Ho) as (-> & Hnext & Hfr & c & He & Hip & Hact).
    rewrite enclave_handshake_run in Hh by (done || by apply in_pool_uint || apply box_keypair_len).
    fold (km_of s) in Hh. destruct (perform_handshake _ _ _) as [[k|] km'] eqn:Hph; [done|].
    apply perform_handshake_none in Hph as ->. injection Hh as Hconn.
    assert (km_of s' = km_of s) as Hkm by (unfold km_of; by rewrite <-Hconn).
    eapply (Hdone (<[l := htonl (next_ip (table s))]> adm)); [|by apply insert_subseteq| |exact Hudp|done].
    2:{ intros l' Hne. by apply lookup_insert_ne. }
    apply hub_admits; rewrite ?Ht, ?Hkm; try done.
    + by rewrite next_ip_without.
    + apply (fresh_ips_sub _ t'); [done|apply next_ip_without|apply without_ip_sub].
    + intros c' [Hin Hne]%active_without_ip; [|apply Hfr]. left. split; [|done].
      rewrite Hact in Hin. apply elem_of_cons in Hin as [->|Hin]; done.
    + split; [apply Hs|lia].
    + by rewrite Htun, app_nil_r.
  - destruct (admission adm s _ _ _ Hs Hsz Hf Hp Ho) as (-> & Hnext & Hfr & cn & He & Hip & Hact).
    rewrite enclave_handshake_run in Hh by (done || by apply in_pool_uint || apply box_keypair_len).
    fold (km_of s) in Hh. destruct (perform_handshake _ _ _) as [[k|] km'] eqn:Hph; [|done].
    injection Hh as <- <- Hconn.
    destruct (handshake_agreed adm s _ _ _ _ Hs Hsz Hnk Hph) as (Hk & -> & Hget).
    assert (km_of s' = (add_key (km_of s) (htonl (next_ip (table s))) k).2) as Hkm
      by (unfold km_of; by rewrite <-Hconn).
    eapply (Hdone (<[l := htonl (next_ip (table s))]> adm)); [|by apply insert_subseteq| |exact Hudp|].
    2:{ intros l' Hne. by apply lookup_insert_ne. }
    2:{ unfold sent. case_match; [|done]. apply Forall_singleton. right. cbn [fst snd].
        exists l, ln, (htonl (next_ip (table s))). rewrite lookup_insert_eq.
        split_and!; [done..|]. left.
        change (server_public_key (km_of s)) with
          (server_public_key (km_of s), server_private_key (km_of s)).1.
        rewrite (hg_pair _ _ _ _ _ _ Hs).
        by apply welcome_response, in_pool_uint. }
    apply hub_admits; rewrite ?Ht, ?Hkm; try done.
    + intros c'. rewrite Hact. intros [->|Hin]%elem_of_cons.
      * right. exists ln. rewrite Hip, Hget, Hk. by split_and!.
      * left. split; [done|]. apply get_key_add_ne. intros E'. apply Hni. rewrite E'.
        destruct (hg_entries _ _ _ _ _ _ Hs c' Hin) as (l' & _ & _ & Had & _).
        by apply (hg_adm _ _ _ _ _ _ Hs l').
    + split; [apply add_key_wf, Hs|]. apply add_key_count.
    + intros ip' Hne. by apply get_key_add_ne.
    + apply add_key_pair.
    + by rewrite Htun, app_nil_r.
Qed.

(** What reaches the server in a turn: a request that was not delivered before, something
    else a line has sent, or a datagram of a stranger. *)
Inductive arrival (adm : gmap nat Z) : sockaddr_in → list Z → option nat → Prop :=
| arrives_request l ln d :
    lines !! l = Some ln → adm !! l = None → is_connect_req (box_keypair (kp (l_owner ln))).1 d →
    arrival adm (l_addr ln) d (Some l)
| arrives_packet l ln d :
    lines !! l = Some ln → outgoing (agreed (l_owner ln)) U d → arrival adm (l_addr ln) d None
| arrives_other from d :
    (∀ l ln, lines !! l = Some ln → ends (l_addr ln) ≠ ends from) →
    packet_type d ≠ PKT_CONNECT_REQ → arrival adm from d None.

Lemma hub_receives adm from d asked s :
  apart lines → (length lines ≤ 254)%nat → hub_good adm s → arrival adm from d asked →
  ∃ adm' s', handle_udp_to_tun (Some (from, d)) s = Ok ((), s') ∧ hub_moves adm adm' s s' ∧
    ∀ l, asked ≠ Some l → adm' !! l = adm !! l.
Proof.
  intros Hap Hlen Hs [l ln d' Hl Hn Hreq|l ln d' Hl Hout|from' d' Hfrom Hty].
  - destruct (hub_request adm l ln d' s) as (adm' & s' & E & Hm & Ho); [done..|].
    exists adm', s'. split; [done|]. split; [done|]. intros l' Hne. apply Ho. congruence.
  - destruct (hub_packet adm l ln d' s) as (s' & E & Hm); [done..|]. by exists adm, s'.
  - destruct (hub_stranger adm from' d' s) as (s' & E & Hm); [done..|]. by exists adm, s'.
Qed.

(** A turn of the server's loop without an event. *)
Lemma hub_quiet adm last alive s :
  hub_good adm s →
  ∃ r s', loop_turn last (Quiet alive) s = Ok (r, s') ∧ hub_moves adm adm s s'.
Proof.
  intros Hs. cbn [loop_turn]. rewrite (run_bind_ok _ _ _ _ _ (on_sys_run _ _ _ _ eq_refl)).
  set (s1 := Server _ _ _ _). rewrite run_bind. destruct (hg_ready _ _ _ _ _ _ Hs) as [Hwf Hidle].
  destruct (decide _); cycle 1.
  { eexists _, _. split; [reflexivity|].
    by apply (hub_touches adm s _ 0 0 [] []); try done; [left|apply emits_quiet]. }
  destruct (check_client_timeouts_run (table s1) (sys s1)) as [o' E].
  rewrite (run_bind_ok _ _ _ _ _ (on_table_run _ _ _ _ E)). eexists _, _. split; [reflexivity|].
  pose proof (check_client_timeouts_quiet _ _ _ _ E) as Hq.
  apply (hub_steps adm s _ [] []); try done.
  - split; [by eapply check_client_timeouts_wf, E|done].
  - apply (fresh_ips_sub _ (table s)); [apply Hs|done|].
    unfold active_clients; simpl. rewrite filter_keep. apply sublist_submseteq, sublist_filter.
  - intros c Hc%active_keep. by exists c.
  - apply emits_quiet. exact Hq.
Qed.

(** A turn in which the server is given [udp] by the network and [tun] by its host. *)
Lemma hub_turn adm last udp tun asked s :
  apart lines → (length lines ≤ 254)%nat → hub_good adm s →
  match udp with
  | Some (Some (from, d)) => arrival adm from d asked
  | _ => True
  end → (∀ p, tun = Some (Some p) → zlen p ≤ 2004 ∧ D p) →
  ∃ adm' r s', loop_turn last (Ready udp tun) s = Ok (r, s') ∧ hub_moves adm adm' s s' ∧
    ∀ l, asked ≠ Some l → adm' !! l = adm !! l.
Proof.
  intros Hap Hlen Hs Hudp Htun. cbn [loop_turn].
  assert (∃ adm1 s1, match udp with Some d => handle_udp_to_tun d | None => mret () end s =
    Ok ((), s1) ∧ hub_moves adm adm1 s s1 ∧ ∀ l, asked ≠ Some l → adm1 !! l = adm !! l)
    as (adm1 & s1 & E1 & Hm1 & Ho).
  { pose proof (hub_moves_refl adm s Hs). destruct udp as [[[from d]|]|]; [|by exists adm, s..].
    by apply hub_receives. }
  rewrite (run_bind_ok _ _ _ _ _ E1).
  assert (∃ s2, match tun with Some d => handle_tun_to_udp d | None => mret () end s1 =
                Ok ((), s2) ∧ hub_moves adm1 adm1 s1 s2) as (s2 & E2 & Hm2).
  { pose proof (hub_moves_refl adm1 s1 (proj1 Hm1)). destruct tun as [[p|]|]; [|by exists s1..].
    destruct (Htun p eq_refl). apply hub_tun; try done. apply Hm1. }
  rewrite (run_bind_ok _ _ _ _ _ E2). exists adm1, (Some last), s2. split; [done|].
  split; [by eapply hub_moves_trans|done].
Qed.
End hub.
