(* ===== verification/Dialing.v ===== *)
(** * The client program, phase by phase

    [vpn_connect] blocks between its request and the answer. Here the client program is cut
    at that point: [first_dial] and [redial] run up to the blocking recvfrom, [answered]
    runs from there on, and the program is shown to be composed of these phases. *)

From S2P Require Import Prelude Os Crypto ToySodium Protocol KeyManager Enclave EnclaveClient.
From S2P Require Import ClientManager VpnServer Config Tun VpnClient System Tunnel Lines.

Section phases.
Context `{Sodium, Garbage, Env, HostEnv, Network}.

(** [vpn_connect] up to the recvfrom: the buffer, or [None] when no request was sent. *)
Definition connect_request (name : list Z) : M client_state (option (list Z)) :=
  let buffer := local "vpn_connect.buffer" CLIENT_BUFFER in
  r ← recreate_socket;
  if decide (r ≠ 0) then mret None
  else
    header ← client_header PKT_CONNECT_REQ (sizeof_connect_request_t - sizeof_vpn_header_t);
    pk ← get client_public_key;
    buffer ← lift (build_connect_req buffer header name pk);
    request ← lift (buf_read buffer 0 sizeof_connect_request_t);
    sent ← send_to_server request;
    mret (if decide (sent < 0) then None else Some buffer).

(** [main] from the initialised client up to the first recvfrom. *)
Definition first_dial : M client_state (option (list Z)) :=
  c ← get (λ c, c);
  name ← lift (strncpy (username c) (before 0 (cfg_username (config c))) (CLIENT_USERNAME - 1));
  _ ← set (set_username name);
  _ ← sleep 1;
  connect_request (before 0 name).

(** [attempt_reconnect] up to the recvfrom. *)
Definition redial : M client_state (option (list Z)) :=
  c ← get (λ c, c);
  if decide (max_reconnect_attempts (config c) ≤ reconnect_attempts c) then mret None
  else
    _ ← sleep (backoff_seconds c);
    let backoff := i32 (backoff_seconds c * 2) in
    let backoff := if decide (MAX_BACKOFF < backoff) then MAX_BACKOFF else backoff in
    _ ← set (λ c, set_connected false (set_backoff (i32 (reconnect_attempts c + 1)) backoff c));
    connect_request (before 0 (username c)).

(** What [main] and, without the sleep, [attempt_reconnect] do once [vpn_connect] has
    returned 0: whether the client can go on. *)
Definition after_connect (first : bool) : M client_state bool :=
  _ ← (if first then sleep 1 else mret ());
  r ← setup_client_tun;
  mret (bool_decide (r = 0)).

(** From the recvfrom of [vpn_connect] to the open TUN device. *)
Definition answered (first : bool) (buffer : list Z) : M client_state bool :=
  r ← await_response buffer;
  if decide (r ≠ 0) then mret false else after_connect first.

(** Goes through the calls both sides have in common. *)
Ltac in_step :=
  repeat (rewrite ?run_bind_assoc; first
    [ apply run_bind_ext; intros ? ? | progress case_decide | rewrite run_ret_bind ]).

Lemma vpn_connect_phases name s :
  vpn_connect name s =
  (b ← connect_request name;
   match b with Some buffer => await_response buffer | None => mret (-1) end) s.
Proof. unfold vpn_connect, connect_request. in_step; reflexivity. Qed.

Lemma attempt_reconnect_phases s :
  attempt_reconnect s =
  (b ← redial;
   ok ← match b with Some buffer => answered false buffer | None => mret false end;
   mret (if (ok : bool) then 0 else -1)) s.
Proof.
  unfold attempt_reconnect, redial. in_step; [reflexivity|].
  rewrite run_bind, vpn_connect_phases, <-run_bind, run_bind_assoc.
  apply run_bind_ext. intros [buf|] ?; [|reflexivity]. unfold answered, after_connect. in_step; try reflexivity.
  all: case_bool_decide; done || lia.
Qed.

Lemma client_main_phases turns s :
  client_main turns s =
  (b ← first_dial;
   ok ← match b with Some buffer => answered true buffer | None => mret false end;
   if (ok : bool) then
     _ ← client_loop turns; _ ← destroy_vpn_client; mret 0
   else _ ← destroy_vpn_client; mret 1) s.
Proof.
  unfold client_main, first_dial. in_step.
  rewrite run_bind, vpn_connect_phases, <-run_bind, run_bind_assoc.
  apply run_bind_ext. intros [buf|] ?; [|reflexivity]. unfold answered, after_connect. in_step; try reflexivity.
  all: case_bool_decide; done || lia.
Qed.
End phases.

(** ** What the phases do *)
Section runs.
Context `{Sodium, Garbage, Env, HostEnv, Network} `{!SodiumLaws _}.

Definition key_pair (c : vpn_client_t) : list Z * list Z :=
  (client_public_key c, client_private_key c).

(** What is on the wires and in the TUN device. *)
Definition traffic (s : client_state) : list (sockaddr_in * list Z) * list (list Z) :=
  (udp_out (client_os s), tun_out (client_os s)).

(** The request that was sent, if any. *)
Definition asks (b : option (list Z)) (s s' : client_state) : Prop :=
  client_inv s' ∧ key_pair (client s') = key_pair (client s) ∧
  tun_out (client_os s') = tun_out (client_os s) ∧
  match b with
  | Some buffer => zlen buffer = 2048 ∧ ∃ addr d,
      udp_out (client_os s') = udp_out (client_os s) ++ [(addr, d)] ∧
      is_connect_req (client_public_key (client s)) d
  | None => udp_out (client_os s') = udp_out (client_os s)
  end.

Lemma connect_request_run name s :
  client_inv s → ∃ b s', connect_request name s = Ok (b, s') ∧ asks b s s'.
Proof.
  intros Hs. unfold connect_request.
  destruct (recreate_socket_safe s Hs) as (r0 & s1 & E0 & Hs1).
  rewrite (run_bind_ok _ _ _ _ _ E0). apply recreate_socket_world in E0 as Hw.
  injection Hw as Hos Hans Hpub Hpriv.
  assert (key_pair (client s1) = key_pair (client s)) as Hkp by (unfold key_pair; congruence).
  case_decide; [exists None, s1; split; [done|]; split_and!; try done; by rewrite Hos|].
  destruct (client_header_run PKT_CONNECT_REQ (sizeof_connect_request_t - sizeof_vpn_header_t) s1)
    as (ts & o' & Hts & Hu & Ht & Hsc & E1).
  rewrite (run_bind_ok _ _ _ _ _ E1). set (h := VpnHeader _ _ _ _ _) in *.
  rewrite run_bind, run_get. cbn [client]. rewrite Hpub.
  set (buf := local "vpn_connect.buffer" CLIENT_BUFFER) in *.
  assert (zlen buf = 2048) as Hbl by (subst buf; by rewrite zlen_local).
  pose proof (ci_key _ Hs) as Hk.
  destruct (build_connect_req_run buf h name (client_public_key (client s)) Hbl Hk)
    as (field & Hf & E2).
  rewrite E2, run_bind, run_lift. cbn iota beta.
  set (req := vpn_header_bytes h ++ field ++ client_public_key (client s)) in *.
  assert (is_connect_req (client_public_key (client s)) req) as Hreq
    by (apply connect_req_shape; [apply wf_init_header|done..]).
  assert (zlen req = 80) as Hrl by apply Hreq.
  assert (zlen (drop 80 buf) = 1968) as Hd by (change 80%nat with (Z.to_nat 80); zlen).
  rewrite run_bind, buf_read_ok, slice_hit by zlen. rewrite run_lift. cbn iota beta.
  unfold send_to_server. rewrite run_bind. rewrite run_bind, run_get.
  unfold on_client_os, sendto. rewrite run_zoom. cbn [client_os client].
  destruct (env_sendto _); (eexists _, _; split; [reflexivity|]).
  - rewrite decide_False by lia. split; [by destruct Hs1|]. split; [done|].
    cbn [client_os tun_out udp_out]. rewrite Ht, Hu, Hos. split; [done|]. split; [zlen|]. eauto.
  - rewrite decide_True by lia. split; [by destruct Hs1|]. split; [done|].
    cbn [client_os tun_out udp_out]. by rewrite Ht, Hu, Hos.
Qed.

Lemma asks_after b s s1 s' :
  key_pair (client s1) = key_pair (client s) → traffic s1 = traffic s →
  asks b s1 s' → asks b s s'.
Proof.
  intros Hkp Htr (Hi & Hk & Ht & Hb). injection Htr as Eu Et. injection Hkp as Ep Es.
  split; [done|]. split; [unfold key_pair in *; congruence|]. split; [congruence|].
  destruct b; [|congruence]. by rewrite <-Eu, <-Ep.
Qed.

Lemma first_dial_run s :
  client_inv s → zlen (username (client s)) = 64 →
  ∃ b s', first_dial s = Ok (b, s') ∧ asks b s s'.
Proof.
  intros Hs Hu. unfold first_dial. rewrite run_bind, run_get.
  destruct (strncpy_run (username (client s)) (before 0 (cfg_username (config (client s))))
    (CLIENT_USERNAME - 1)) as (name & E & Hl & _); [autounfold with sizes; lia|].
  rewrite E, run_bind, run_lift. cbn iota beta. rewrite run_bind, run_set.
  rewrite run_bind. unfold sleep at 1. rewrite run_modify.
  match goal with |- ∃ b s', connect_request ?n ?s1 = _ ∧ _ =>
    assert (client_inv s1) as Hs1 by (by destruct Hs);
    destruct (connect_request_run n s1 Hs1) as (b & s' & E1 & Hask) end.
  exists b, s'. split; [done|]. by eapply asks_after.
Qed.

Lemma redial_run s : client_inv s → ∃ b s', redial s = Ok (b, s') ∧ asks b s s'.
Proof.
  intros Hs. unfold redial. rewrite run_bind, run_get.
  case_decide; [by exists None, s|]. rewrite run_bind. unfold sleep at 1. rewrite run_modify.
  rewrite run_bind, run_set.
  match goal with |- ∃ b s', connect_request ?n ?s1 = _ ∧ _ =>
    assert (client_inv s1) as Hs1 by (by destruct Hs);
    destruct (connect_request_run n s1 Hs1) as (b & s' & E1 & Hask) end.
  exists b, s'. split; [done|]. by eapply asks_after.
Qed.

(** What a phase that waits leaves alone. *)
Definition waiting_keeps (s : client_state) :=
  (key_pair (client s), traffic s).

Lemma await_response_keeps buffer : preserves waiting_keeps (await_response buffer).
Proof.
  assert (preserves waiting_keeps (on_client_os time)) as Ht by (by intros s ? ? [= <- <-]).
  unfold await_response, establish.
  apply keeps_bind; [by intros s ? ? [= <- <-]|intros [d|]; [|apply keeps_ret]].
  destruct (recv_datagram _ _). pace. destruct (crypto_ecdh _ _); pace.
Qed.

Lemma setup_client_tun_session : preserves (λ s, (card (client s), connected (client s), traffic s)) setup_client_tun.
Proof. unfold setup_client_tun. pace. Qed.

Lemma await_response_safe buffer : safe (await_response buffer).
Proof.
  unfold await_response. apply safe_bind; [apply safe_answer|intros [d|]]; [|apply safe_ret].
  destruct (recv_datagram _ d) as [n buf].
  repeat (apply safe_if; intros _; [apply safe_ret|]). apply establish_safe.
Qed.

(** The type field of a received packet is the one of the datagram. *)
Lemma recv_type buffer d :
  1 ≤ zlen d → zlen buffer = 2048 →
  hdr_type (resp_header (connect_response_of_bytes (recv_datagram buffer d).2)) = packet_type d.
Proof.
  intros Hd Hb. assert (length buffer = 2048%nat) as Hl by (unfold zlen in *; lia).
  rewrite recv_datagram_cut, Hl. pose proof (zlen_take_2048 d).
  unfold packet_type, connect_response_of_bytes, vpn_header_of_bytes. cbn [resp_header hdr_type snd].
  rewrite slice_within by lia. rewrite <-(take_drop 2048 d) at 2. by rewrite slice_within by lia.
Qed.

(** The client goes on only with a session that an answer gave it. *)
Lemma await_response_session buffer s s' :
  zlen buffer = 2048 → await_response buffer s = Ok (0, s') →
  ∃ d, env_answer (answers s) = Some d ∧
    (1 ≤ zlen d → packet_type d = PKT_CONNECT_RESP) ∧
    (57 ≤ zlen d ≤ 2048 →
     let resp := connect_response_of_bytes d in
     ∃ shared, crypto_ecdh (client_private_key (client s)) (resp_server_public_key resp) = Some shared ∧
       in_session resp shared (client s')).
Proof.
  intros Hb Hrun. unfold await_response in Hrun. rewrite run_bind in Hrun. unfold await_answer in Hrun.
  destruct (env_answer (answers s)) as [d|]; [|done]. exists d. split; [done|].
  destruct (recv_datagram buffer d) as [n buf] eqn:Hrecv.
  pose proof (f_equal snd Hrecv) as Hbuf. cbn [snd] in Hbuf.
  case_decide as Hty; [done|]. case_decide as Hst; [done|]. split.
  { intros Hd. rewrite <-(recv_type buffer d Hd Hb), Hbuf. by destruct (decide (hdr_type (resp_header (connect_response_of_bytes buf)) = PKT_CONNECT_RESP)). }
  intros Hl resp. rewrite recv_datagram_cut in Hbuf. cbn [snd] in Hbuf.
  rewrite take_ge in Hbuf by (unfold zlen in *; lia).
  rewrite <-Hbuf, connect_response_prefix in Hrun by lia. fold resp in Hrun.
  destruct (crypto_ecdh (client_private_key (client s)) (resp_server_public_key resp))
    as [shared|] eqn:He; cycle 1.
  { unfold establish in Hrun. rewrite run_bind, run_set, run_bind, run_get in Hrun.
    cbn [client with_client peer_public_key set_session client_private_key] in Hrun. by rewrite He in Hrun. }
  match type of Hrun with establish resp ?s1 = _ =>
    destruct (establish_run resp s1 shared He) as (s2 & E & _ & Hin) end.
  rewrite E in Hrun. injection Hrun as <-. by exists shared.
Qed.

Lemma answered_run first buffer s :
  client_inv s →
  ∃ ok s', answered first buffer s = Ok (ok, s') ∧ client_inv s' ∧
    key_pair (client s') = key_pair (client s) ∧ traffic s' = traffic s ∧
    (ok = true → ∃ s1, await_response buffer s = Ok (0, s1) ∧
       card (client s') = card (client s1) ∧ connected (client s') = connected (client s1)).
Proof.
  intros Hs. unfold answered, after_connect. destruct (await_response_safe buffer s Hs) as (r & s1 & E1 & Hs1).
  pose proof (await_response_keeps _ _ _ _ E1) as Hk. injection Hk as Ep Eq Eu Et.
  rewrite (run_bind_ok _ _ _ _ _ E1).
  assert (key_pair (client s1) = key_pair (client s)) as Hkp by (unfold key_pair; congruence).
  assert (traffic s1 = traffic s) as Htr by (unfold traffic; congruence).
  case_decide as Hr; [by exists false, s1|].
  assert (r = 0) as -> by (by destruct (decide (r = 0))).
  assert (∃ s2, (if first then sleep 1 else mret ()) s1 = Ok ((), s2) ∧ client_inv s2 ∧
    client s2 = client s1 ∧ traffic s2 = traffic s1) as (s2 & E2 & Hs2 & Hc2 & Ht2).
  { destruct first; [|by exists s1]. eexists. split; [reflexivity|]. by destruct Hs1. }
  rewrite (run_bind_ok _ _ _ _ _ E2).
  destruct (setup_client_tun_safe s2 Hs2) as (r3 & s3 & E3 & Hs3).
  pose proof (setup_client_tun_session _ _ _ E3) as Hk3. injection Hk3 as K1 K2 K3 K4 K5 K6 K7.
  rewrite (run_bind_ok _ _ _ _ _ E3). eexists _, s3. split; [reflexivity|]. rewrite Hc2 in *.
  split; [done|]. split; [unfold key_pair in *; congruence|].
  split; [unfold traffic in *; congruence|]. intros _. exists s1.
  split; [done|]. unfold card. split; congruence.
Qed.

(** A client that leaves says so. *)
Lemma destroy_sends k U s :
  client_inv s →
  ∃ s' new, destroy_vpn_client s = Ok ((), s') ∧ destroyed s' ∧
    udp_out (client_os s') = udp_out (client_os s) ++ new ∧
    Forall (λ x, outgoing k U x.2) new ∧ tun_out (client_os s') = tun_out (client_os s).
Proof.
  intros Hs. destruct (destroy_vpn_client_run s Hs) as (s' & E & Hd).
  assert (∃ new s1, (if decide (connected (client s) = true ∧ 0 ≤ sock_fd (client s)) then
         disconnect ← client_header PKT_DISCONNECT 0;
         _ ← send_to_server (vpn_header_bytes disconnect); mret ()
       else mret ()) s = Ok ((), s1) ∧ udp_out (client_os s1) = udp_out (client_os s) ++ new ∧
       Forall (λ x, outgoing k U x.2) new ∧ tun_out (client_os s1) = tun_out (client_os s))
    as (new & s1 & E1 & Hu & Hnew & Ht).
  { case_decide; [|exists [], s; by rewrite app_nil_r].
    destruct (client_header_run PKT_DISCONNECT 0 s) as (ts & o' & _ & Hu & Ht & _ & E1).
    rewrite (run_bind_ok _ _ _ _ _ E1). unfold send_to_server. rewrite run_bind.
    rewrite run_bind, run_get. unfold on_client_os, sendto. rewrite run_zoom. cbn [client_os client].
    eexists (if env_sendto (sendto_calls o') then _ else []), _. split; [reflexivity|].
    cbn [client_os udp_out tun_out]. rewrite Hu, Ht.
    split; [destruct (env_sendto _); [reflexivity|by rewrite app_nil_r]|].
    split; [|done]. destruct (env_sendto _); [|done]. apply Forall_singleton. right. cbn [snd].
    rewrite <-(app_nil_r (vpn_header_bytes _)).
    rewrite packet_type_header by apply (wf_init_header PKT_DISCONNECT). split; [zlen|done]. }
  exists s', new. split; [done|]. split; [done|].
  assert (preserves traffic (
    _ ← (if decide (0 ≤ sock_fd (client s)) then on_host (close (sock_fd (client s))) else mret ());
    _ ← (if decide (0 ≤ tun_fd (client s)) then on_host (close (tun_fd (client s))) else mret ());
    set memzero_client)) as Hrest by pace.
  unfold destroy_vpn_client in E. rewrite run_bind, run_get, (run_bind_ok _ _ _ _ _ E1) in E.
  apply Hrest in E. injection E as Eu Et. split_and!; congruence.
Qed.

(** A turn of a connected client that is given [udp] by the network and [tun] by its host. *)
Lemma client_turn_stays k U D udp tun s :
  connected (client s) = true → client_inv s → client_session_key (client s) = k →
  (∀ d, udp = Some d → downward k D d) → (∀ p, tun = Some p → zlen p ≤ 2004 ∧ U p) →
  ∃ b s', client_turn (activity_of udp tun) s = Ok (b, s') ∧ client_inv s' ∧
    client_moves k U D s s'.
Proof.
  intros Hc Hs Hk Hudp Htun.
  assert (∀ d, udp = Some d → udp_fits d) as Hfit.
  { intros d Hd. destruct (Hudp d Hd) as [Hty|(h & n & ct & p & -> & _ & _ & Hn & He & _)].
    - destruct (decide (zlen d < 1)) as [?|?]; [left; lia|]. right. left. unfold packet_type in Hty.
      pose proof (zlen_take_2048 d). unfold vpn_header_of_bytes in *. cbn [hdr_type] in *.
      rewrite <-(take_drop 2048 d) in Hty. by rewrite slice_within in Hty by lia.
    - right. right. apply aead_encrypt_len in He. change CRYPTO_MAC_SIZE with 16 in He.
      pose proof (zlen_nonneg p). zlen. }
  destruct (client_turn_keeps k U D (activity_of udp tun) s Hc Hk) as (b & s' & E & Hm).
  { unfold activity_of. destruct udp as [d|], tun as [p|]; cbn; [..|done];
      (split; intros ? [= <-]; auto) || (split; intros ?; [|done]; intros [= <-]; auto) ||
      (split; intros ?; [done|]; intros [= <-]; auto). }
  exists b, s'. split; [done|]. split; [|done].
  destruct (client_turn_safe (activity_of udp tun)) with s as (b2 & s2 & E2 & Hs2); [|done|].
  - unfold activity_of. destruct udp as [d|], tun as [p|]; cbn; [..|done];
      split; try done; intros ? [= <-]; (by apply Hfit) || (by apply Htun).
  - congruence.
Qed.
End runs.
