(* ===== verification/Roaming.v ===== *)
(** * Clients that come and go

    The whole system from its start on: a server without clients and its enclave, and
    any number of client programs. Each client dials from a new socket, waits for its
    answer, takes turns of its loop, may lose the connection and dial again, and may leave;
    the server takes turns of its own. The network loses, delays, repeats and reorders
    datagrams, but delivers a CONNECT_REQ at most once; a new socket has an address that was
    not used before. Strangers reach the server, not the clients, and send no CONNECT_REQ. *)

From stdpp Require Import gmap.
From S2P Require Import Prelude Os Crypto ToySodium Protocol KeyManager Enclave EnclaveClient.
From S2P Require Import ClientManager VpnServer Config Tun VpnClient System Tunnel Sessions Lines Dialing.

(** Where a client program is: before its first request, in the recvfrom of [vpn_connect]
    (with its buffer), in its loop with or without connection, or at its end. [l] is the
    line of its socket. *)
Inductive stage :=
| Starting
| Waiting (l : nat) (first : bool) (buffer : list Z)
| Online (l : nat)
| Lost (l : nat)
| Gone.

Record member := Member { mb_state : client_state; mb_stage : stage }.

(** The clients, their sockets, the server with the time of its last timeout check, what
    it has sent, and a record of what was given to TUN devices of clients: the client, the
    VPN address it had, and the packet. *)
Record net := Net {
  n_members : list member;
  n_lines : list line;
  n_server : server enclave;
  n_last : Z;
  n_down : list (sockaddr_in * list Z);
  n_log : list (nat * Z * list Z)
}.

(** What reaches the server: the request of a line, the [i]-th datagram that was sent from
    it afterwards, or a datagram of a stranger. *)
Inductive parcel :=
| Asked (l : nat)
| Sent (l i : nat)
| Foreign (from : sockaddr_in) (d : list Z).

(** [udp]: the datagram of the server that the network delivers (any number of times). *)
Inductive happens :=
| Dial (j : nat) (addr : sockaddr_in)
| Answer (j : nat) (udp : option nat)
| Turn (j : nat) (udp : option nat) (tun : option (list Z))
| Quit (j : nat)
| Serve (udp : option parcel) (tun : option (list Z))
| Tick.

Section system.
Context `{Sodium} (sm : machine) (cm : nat → machine) (hm : nat → HostEnv).

Definition dial (j : nat) (first : bool) : M client_state (option (list Z)) :=
  if first then @first_dial (m_garbage (cm j)) (m_env (cm j)) (hm j)
  else c ← get config;
       if decide (auto_reconnect c ≠ 0) then @redial (m_garbage (cm j)) (m_env (cm j)) (hm j)
       else mret None.
Definition answer (j : nat) (arrived : option (list Z)) (first : bool) (buffer : list Z) :
    M client_state bool :=
  @answered _ (m_env (cm j)) (hm j) (λ _, arrived) first buffer.
Definition turn_of (j : nat) (a : activity) : M client_state bool :=
  @client_turn _ (m_garbage (cm j)) (m_env (cm j)) (hm j) (λ _, None) a.
Definition leave (j : nat) : M client_state () := @destroy_vpn_client (m_env (cm j)).

Definition delivered_to (down : list (sockaddr_in * list Z)) (addr : sockaddr_in) (i : nat) :
    option (list Z) :=
  match down !! i with
  | Some (dest, d) => if decide (ends dest = ends addr) then Some d else None
  | None => None
  end.

(** The address belongs to a line. *)
Definition in_use (lines : list line) (addr : sockaddr_in) : Prop :=
  Exists (λ ln, ends (l_addr ln) = ends addr) lines.
#[export] Instance in_use_dec lines addr : Decision (in_use lines addr).
Proof. unfold in_use. apply _. Defined.

Definition add_sent (ds : list (list Z)) (ln : line) : line :=
  Line (l_addr ln) (l_owner ln) (l_request ln) (l_sent ln ++ ds).
Definition clear_request (ln : line) : line :=
  Line (l_addr ln) (l_owner ln) None (l_sent ln).

(** Client [j] went from [cs] to [cs'] while its socket was line [l]. *)
Definition client_went (j l : nat) (cs cs' : client_state) (st : stage) (w : net) : net :=
  Net (<[j := Member cs' st]> (n_members w))
      (alter (add_sent (since (udp_out (client_os cs)) (udp_out (client_os cs'))).*2) l (n_lines w))
      (n_server w) (n_last w) (n_down w)
      (n_log w ++ ((λ p, (j, client_vpn_ip (client cs'), p)) <$>
                   since (tun_out (client_os cs)) (tun_out (client_os cs')))).

(** The client program ends. *)
Definition client_ends (j l : nat) (cs cs' : client_state) (w : net) : res net :=
  match leave j cs' with
  | Ok (_, cs2) => Ok (client_went j l cs cs2 Gone w)
  | Fault f => Fault f
  end.

Definition with_lines (lines : list line) (w : net) : net :=
  Net (n_members w) lines (n_server w) (n_last w) (n_down w) (n_log w).

Definition dials (j : nat) (addr : sockaddr_in) (first : bool) (cs : client_state) (w : net) :
    res net :=
  let l := length (n_lines w) in
  match dial j first cs with
  | Ok (Some buffer, cs') =>
      let request := head (since (udp_out (client_os cs)) (udp_out (client_os cs'))).*2 in
      Ok (Net (<[j := Member cs' (Waiting l first buffer)]> (n_members w))
              (n_lines w ++ [Line addr j request []]) (n_server w) (n_last w) (n_down w) (n_log w))
  | Ok (None, cs') => client_ends j l cs cs' (with_lines (n_lines w ++ [Line addr j None []]) w)
  | Fault f => Fault f
  end.

Definition reaches (w : net) (x : parcel) : option (sockaddr_in * list Z) :=
  match x with
  | Asked l => ln ← n_lines w !! l; d ← l_request ln; Some (l_addr ln, d)
  | Sent l i => ln ← n_lines w !! l; d ← l_sent ln !! i; Some (l_addr ln, d)
  | Foreign from d => if decide (in_use (n_lines w) from) then None else Some (from, d)
  end.

Definition serves (tn : turn) (lines : list line) (w : net) : res net :=
  match @loop_turn enclave (@enclave_channel _ (m_garbage sm)) (m_garbage sm) (m_env sm)
          (n_last w) tn (n_server w) with
  | Ok (last, srv) =>
      Ok (Net (n_members w) lines srv (default (n_last w) last)
              (n_down w ++ since (udp_out (sys (n_server w))) (udp_out (sys srv))) (n_log w))
  | Fault f => Fault f
  end.

(** What happens has no effect when the client is not at that stage. *)
Definition occurs (a : happens) (w : net) : res net :=
  match a with
  | Dial j addr =>
      if decide (in_use (n_lines w) addr) then Ok w else
      match n_members w !! j with
      | Some (Member cs Starting) => dials j addr true cs w
      | Some (Member cs (Lost _)) => dials j addr false cs w
      | _ => Ok w
      end
  | Answer j udp =>
      match n_members w !! j with
      | Some (Member cs (Waiting l first buffer)) =>
          let arrived := ln ← n_lines w !! l; udp ≫= delivered_to (n_down w) (l_addr ln) in
          match answer j arrived first buffer cs with
          | Ok (true, cs') => Ok (client_went j l cs cs' (Online l) w)
          | Ok (false, cs') => client_ends j l cs cs' w
          | Fault f => Fault f
          end
      | _ => Ok w
      end
  | Turn j udp tun =>
      match n_members w !! j with
      | Some (Member cs (Online l)) =>
          let arrived := ln ← n_lines w !! l; udp ≫= delivered_to (n_down w) (l_addr ln) in
          match turn_of j (activity_of arrived tun) cs with
          | Ok (_, cs') =>
              Ok (client_went j l cs cs'
                    (if VpnClient.connected (client cs') then Online l else Lost l) w)
          | Fault f => Fault f
          end
      | _ => Ok w
      end
  | Quit j =>
      match n_members w !! j with
      | Some (Member cs (Online l)) | Some (Member cs (Lost l)) => client_ends j l cs cs w
      | _ => Ok w
      end
  | Serve udp tun =>
      serves (Ready (Some <$> (udp ≫= reaches w)) (Some <$> tun))
             (match udp with Some (Asked l) => alter clear_request l (n_lines w) | _ => n_lines w end) w
  | Tick => serves (Quiet true) (n_lines w) w
  end.

Fixpoint history (hs : list happens) (w : net) : res net :=
  match hs with
  | [] => Ok w
  | a :: hs => match occurs a w with Ok w' => history hs w' | Fault f => Fault f end
  end.

(** The packets that the hosts put into the TUN devices. *)
Definition read_by (j : nat) (hs : list happens) : list (list Z) :=
  omap (λ a, match a with Turn i _ tun => if decide (i = j) then tun else None | _ => None end) hs.
Definition read_for_clients (hs : list happens) : list (list Z) :=
  omap (λ a, match a with Serve _ tun => tun | _ => None end) hs.

(** Packets fit the buffers, strangers open no session. *)
Definition happens_fits (a : happens) : Prop :=
  match a with
  | Turn _ _ tun => ∀ p, tun = Some p → zlen p ≤ 2004
  | Serve udp tun =>
      (∀ p, tun = Some p → zlen p ≤ 2004) ∧
      (∀ from d, udp = Some (Foreign from d) → packet_type d ≠ PKT_CONNECT_REQ)
  | _ => True
  end.
Definition is_dial (a : happens) : Prop := match a with Dial _ _ => True | _ => False end.
#[export] Instance is_dial_dec a : Decision (is_dial a).
Proof. destruct a; apply _. Defined.
Definition dial_count (hs : list happens) : nat := length (filter is_dial hs).

(** The system before anything has happened: a client [j] has just been initialised with the
    key pair [kp j] and a configuration, the server has an empty client table, its enclave
    the key pair [sp] and no key. *)
Record launched (kp : nat → nat) (sp : nat) (w : net) : Prop := Launched {
  la_members : ∀ j m, n_members w !! j = Some m → mb_stage m = Starting ∧
    ∃ cfg c text, init_vpn_client true (kp j) cfg = Some c ∧
      c_string (server_address cfg) = Ok text ∧ mb_state m = client_boot c;
  la_wires : n_lines w = [] ∧ n_down w = [] ∧ n_log w = [];
  la_ready : server_ready (n_server w);
  la_table : init_client_table true = Some (table (n_server w));
  la_keys : init_key_manager true sp = Some (km_of (n_server w));
  la_tun : tun_out (sys (n_server w)) = []
}.
End system.

(** ** More lines *)
Section growing.
Context `{Sodium} (kp : nat → nat) (sp : nat).

(** The lines are still there, with the same addresses and owners. *)
Definition extends (lines lines' : list line) : Prop :=
  ∀ l ln, lines !! l = Some ln →
    ∃ ln', lines' !! l = Some ln' ∧ l_addr ln' = l_addr ln ∧ l_owner ln' = l_owner ln.

Lemma extends_refl lines : extends lines lines.
Proof. intros l ln Hl. by exists ln. Qed.
Lemma extends_app lines more : extends lines (lines ++ more).
Proof. intros l ln Hl. exists ln. by rewrite lookup_app_l by (by eapply lookup_lt_Some). Qed.
Lemma extends_alter lines f i :
  (∀ ln, l_addr (f ln) = l_addr ln ∧ l_owner (f ln) = l_owner ln) → extends lines (alter f i lines).
Proof.
  intros Hf l ln Hl. destruct (decide (l = i)) as [->|Hne].
  - exists (f ln). rewrite list_lookup_alter_eq, Hl. split; [done|apply Hf].
  - exists ln. by rewrite list_lookup_alter_ne.
Qed.

Lemma hub_extends lines lines' U adm s :
  extends lines lines' → hub_good kp sp lines U adm s → hub_good kp sp lines' U adm s.
Proof.
  intros He Hs. pose proof Hs as [_ _ hg_entries hg_adm _ _ _ _ _]. destruct Hs. split; try done.
  - intros c Hc. destruct (hg_entries c Hc) as (l & ln & Hl & Had & Hend & Hk).
    destruct (He l ln Hl) as (ln' & Hl' & Ea & Eo). exists l, ln'. by rewrite Ea, Eo.
  - intros l ip Had. destruct (hg_adm l ip Had) as [Hlt Hi]. split; [|done].
    apply lookup_lt_is_Some in Hlt as [ln Hl]. destruct (He l ln Hl) as (ln' & Hl' & _).
    by eapply lookup_lt_Some.
Qed.

Lemma addressed_extends lines lines' D adm x :
  extends lines lines' → addressed_to kp sp lines D adm x → addressed_to kp sp lines' D adm x.
Proof.
  intros He [?|(l & ln & ip & Hl & Had & Hend & Hx)]; [by left|right].
  destruct (He l ln Hl) as (ln' & Hl' & Ea & Eo). exists l, ln', ip. rewrite Ea, Eo. by split_and!.
Qed.

Lemma apart_alter lines f i :
  (∀ ln, l_addr (f ln) = l_addr ln) → apart lines → apart (alter f i lines).
Proof.
  intros Hf Hap.
  assert (∀ l ln, alter f i lines !! l = Some ln → ∃ ln0, lines !! l = Some ln0 ∧ l_addr ln = l_addr ln0)
    as Hold.
  { intros l ln. destruct (decide (l = i)) as [->|Hne].
    - rewrite list_lookup_alter_eq. intros (ln0 & Hl & ->)%fmap_Some. eauto.
    - rewrite list_lookup_alter_ne by done. eauto. }
  intros l l' ln ln' (ln0 & Hl & ->)%Hold (ln0' & Hl' & ->)%Hold. by apply Hap.
Qed.

Lemma apart_new lines ln :
  ¬ in_use lines (l_addr ln) → apart lines → apart (lines ++ [ln]).
Proof.
  intros Hnew Hap.
  assert (∀ l ln0, lines !! l = Some ln0 → ends (l_addr ln0) ≠ ends (l_addr ln)) as Hne.
  { intros l ln0 Hl E. apply Hnew, Exists_exists. exists ln0. split; [by eapply list_elem_of_lookup_2|done]. }
  intros l l' a b [[_ Hl]|[Hl <-]]%lookup_snoc_Some [[_ Hl']|[Hl' <-]]%lookup_snoc_Some E.
  - by eapply Hap.
  - by destruct (Hne l a).
  - by destruct (Hne l' b).
  - congruence.
Qed.
End growing.

(** ** The invariant *)
Section invariant.
Context `{Sodium} `{!SodiumLaws _} (sm : machine) (cm : nat → machine) (hm : nat → HostEnv).
Context (kp : nat → nat) (sp : nat).
(** [U j]: the packets client [j] reads from its host; [D]: those the server reads. *)
Context (U : nat → list Z → Prop) (D : list Z → Prop).
Implicit Types adm : gmap nat Z.

Definition owns (lines : list line) (j l : nat) : Prop :=
  ∃ ln, lines !! l = Some ln ∧ l_owner ln = j.

(** A client in its loop uses the address the server gave to its line and the key the
    enclave derived. *)
Definition member_ok (lines : list line) adm (j : nat) (m : member) : Prop :=
  let c := client (mb_state m) in
  let alive := client_inv (mb_state m) ∧ key_pair c = box_keypair (kp j) in
  match mb_stage m with
  | Starting => alive ∧ zlen (username c) = 64
  | Waiting l _ buffer => alive ∧ owns lines j l ∧ zlen buffer = 2048
  | Online l => alive ∧ owns lines j l ∧ VpnClient.connected c = true ∧
                client_session_key c = agreed kp sp j ∧ adm !! l = Some (client_vpn_ip c)
  | Lost l => alive ∧ owns lines j l
  | Gone => True
  end.

Definition line_ok adm (l : nat) (ln : line) : Prop :=
  (∀ d, l_request ln = Some d →
     adm !! l = None ∧ is_connect_req (box_keypair (kp (l_owner ln))).1 d) ∧
  Forall (outgoing (agreed kp sp (l_owner ln)) (U (l_owner ln))) (l_sent ln).

(** The packet was read for the client, which had its destination as VPN address. *)
Definition logged (x : nat * Z * list Z) : Prop := D x.2 ∧ ip_daddr x.2 = x.1.2.

Record net_inv adm (w : net) : Prop := NetInv {
  ni_apart : apart (n_lines w);
  ni_hub : hub_good kp sp (n_lines w) (λ p, ∃ j, U j p) adm (n_server w);
  ni_down : Forall (addressed_to kp sp (n_lines w) D adm) (n_down w);
  ni_lines : ∀ l ln, n_lines w !! l = Some ln → line_ok adm l ln;
  ni_members : ∀ j m, n_members w !! j = Some m → member_ok (n_lines w) adm j m;
  ni_log : Forall logged (n_log w)
}.

Lemma owns_extends lines lines' j l : extends lines lines' → owns lines j l → owns lines' j l.
Proof.
  intros He (ln & Hl & <-). destruct (He l ln Hl) as (ln' & Hl' & _ & Eo). by exists ln'.
Qed.

Lemma member_ok_mono lines lines' adm adm' j m :
  extends lines lines' → adm ⊆ adm' → member_ok lines adm j m → member_ok lines' adm' j m.
Proof.
  intros He Hsub. pose proof (owns_extends lines lines' j) as Ho. unfold member_ok.
  destruct (mb_stage m) as [|l first buf|l|l|]; [done|..|done]; intros Hm; destruct_and!;
    split_and!; eauto. by eapply lookup_weaken.
Qed.

Lemma set_member adm j m w :
  net_inv adm w → member_ok (n_lines w) adm j m →
  net_inv adm (Net (<[j := m]> (n_members w)) (n_lines w) (n_server w) (n_last w) (n_down w) (n_log w)).
Proof.
  intros [] Hm. split; try done. cbn. intros j' m'.
  destruct (decide (j' = j)) as [->|Hne]; [|rewrite list_lookup_insert_ne by done; auto].
  destruct (decide (j < length (n_members w))%nat).
  - rewrite list_lookup_insert_eq by done. by intros [= <-].
  - rewrite list_insert_ge by lia. auto.
Qed.

(** The lines change, but keep their addresses and owners. *)
Lemma set_lines adm lines w :
  net_inv adm w → extends (n_lines w) lines → apart lines →
  (∀ l ln, lines !! l = Some ln → line_ok adm l ln) → net_inv adm (with_lines lines w).
Proof.
  intros [] He Hap Hlines. split; cbn; try done.
  - by eapply hub_extends.
  - eapply Forall_impl; [exact ni_down0|]. intros x. by apply addressed_extends.
  - intros j m Hj. by eapply member_ok_mono; eauto.
Qed.

Lemma new_line adm addr j request w :
  net_inv adm w → ¬ in_use (n_lines w) addr →
  (∀ d, request = Some d → is_connect_req (box_keypair (kp j)).1 d) →
  net_inv adm (with_lines (n_lines w ++ [Line addr j request []]) w).
Proof.
  intros Hw Hnew Hreq. apply set_lines; [done|apply extends_app|by apply apart_new, Hw|].
  intros l ln [[_ Hl]|[-> <-]]%lookup_snoc_Some; [by apply Hw|]. split; cbn; [|done].
  intros d Hd. split; [|by apply Hreq].
  destruct (adm !! length (n_lines w)) as [ip|] eqn:E; [|done].
  apply (hg_adm _ _ _ _ _ _ (ni_hub _ _ Hw)) in E as [? _]. lia.
Qed.

Lemma extends_add_sent lines ds l : extends lines (alter (add_sent ds) l lines).
Proof. by apply extends_alter. Qed.

Lemma client_went_inv adm j l cs cs' st w new newt :
  net_inv adm w → owns (n_lines w) j l → member_ok (n_lines w) adm j (Member cs' st) →
  udp_out (client_os cs') = udp_out (client_os cs) ++ new →
  Forall (λ x, outgoing (agreed kp sp j) (U j) x.2) new →
  tun_out (client_os cs') = tun_out (client_os cs) ++ newt →
  Forall (λ p, D p ∧ ip_daddr p = client_vpn_ip (client cs')) newt →
  net_inv adm (client_went j l cs cs' st w).
Proof.
  intros Hw (ln & Hl & Ho) Hm Hu Hnew Ht Hnewt. unfold client_went. rewrite Hu, Ht, !since_app.
  assert (net_inv adm (with_lines (alter (add_sent new.*2) l (n_lines w)) w)) as Hw1.
  { apply set_lines; [done|apply extends_add_sent|by apply apart_alter, Hw|].
    intros l' ln'. destruct (decide (l' = l)) as [->|Hne].
    - rewrite list_lookup_alter_eq, Hl. intros [= <-]. destruct (ni_lines _ _ Hw l ln Hl) as [Hq Hs].
      split; [done|]. cbn. apply Forall_app. split; [done|]. rewrite Ho. by apply Forall_fmap.
    - rewrite list_lookup_alter_ne by done. apply Hw. }
  eapply member_ok_mono in Hm; [|apply (extends_add_sent _ new.*2 l)|reflexivity].
  destruct (set_member adm j _ _ Hw1 Hm) as [Ha Hh Hd Hli Hme Hlog]. split; try done.
  cbn. apply Forall_app. split; [done|]. by apply Forall_fmap.
Qed.

(** The end of a client program. *)
Lemma client_ends_inv adm j l cs cs' w new :
  net_inv adm w → owns (n_lines w) j l → client_inv cs' →
  udp_out (client_os cs') = udp_out (client_os cs) ++ new →
  Forall (λ x, outgoing (agreed kp sp j) (U j) x.2) new →
  tun_out (client_os cs') = tun_out (client_os cs) →
  ∃ w', client_ends cm j l cs cs' w = Ok w' ∧ net_inv adm w'.
Proof.
  intros Hw Ho Hi Hu Hnew Ht. unfold client_ends, leave.
  destruct (@destroy_sends _ (m_env (cm j)) (agreed kp sp j) (U j) cs' Hi)
    as (cs2 & new2 & -> & _ & Hu2 & Hnew2 & Ht2).
  eexists. split; [reflexivity|]. apply (client_went_inv adm j l cs cs2 Gone w (new ++ new2) []); try done.
  - by rewrite Hu2, Hu, app_assoc.
  - by apply Forall_app.
  - by rewrite Ht2, Ht, app_nil_r.
Qed.

Lemma dial_run j first cs :
  client_inv cs → (first = true → zlen (username (client cs)) = 64) →
  ∃ b cs', dial cm hm j first cs = Ok (b, cs') ∧ asks b cs cs'.
Proof.
  intros Hi Hu. destruct first; cbn [dial]; [by apply first_dial_run; auto|].
  rewrite run_bind, run_get. case_decide; [by apply redial_run|]. by exists None, cs.
Qed.

Lemma dials_inv adm j addr first cs w :
  net_inv adm w → ¬ in_use (n_lines w) addr → client_inv cs →
  key_pair (client cs) = box_keypair (kp j) → (first = true → zlen (username (client cs)) = 64) →
  ∃ w', dials cm hm j addr first cs w = Ok w' ∧ net_inv adm w'.
Proof.
  intros Hw Hnew Hi Hkp Hu. unfold dials.
  destruct (dial_run j first cs Hi Hu) as (b & cs' & -> & Hi' & Hkp' & Ht & Hb).
  destruct b as [buffer|].
  - destruct Hb as (Hbl & a & d & Hout & Hreq). eexists. split; [reflexivity|].
    rewrite Hout, since_app. cbn [fmap list_fmap snd head].
    assert (net_inv adm (with_lines (n_lines w ++ [Line addr j (Some d) []]) w)) as Hw1.
    { apply new_line; [done..|]. intros d' [= <-]. by rewrite <-(f_equal fst Hkp). }
    apply (set_member adm j _ _ Hw1). unfold member_ok. cbn.
    split; [split; [done|congruence]|]. split; [|done].
    exists (Line addr j (Some d) []). by rewrite list_lookup_middle.
  - assert (net_inv adm (with_lines (n_lines w ++ [Line addr j None []]) w)) as Hw1
      by (by apply new_line).
    apply (client_ends_inv adm j _ cs cs' _ []); try done; [|by rewrite app_nil_r].
    exists (Line addr j None []). cbn. by rewrite list_lookup_middle.
Qed.

(** What the network may deliver to the line [l]. *)
Lemma delivered_addressed adm w l ln i d :
  net_inv adm w → n_lines w !! l = Some ln → delivered_to (n_down w) (l_addr ln) i = Some d →
  (16 ≤ zlen d ∧ packet_type d ≠ PKT_DATA ∧ packet_type d ≠ PKT_CONNECT_RESP) ∨
  ∃ ip, adm !! l = Some ip ∧
    (welcome sp ip d ∨ sealed (agreed kp sp (l_owner ln)) (λ p, D p ∧ ip_daddr p = ip) d).
Proof.
  intros Hw Hl. unfold delivered_to. destruct (n_down w !! i) as [[dest d']|] eqn:Hi; [|done].
  case_decide as He; [|done]. intros [= ->].
  destruct (Forall_lookup_1 _ _ _ _ (ni_down _ _ Hw) Hi) as [?|(l' & ln' & ip & Hl' & Had & He' & Hx)];
    [by left|right]. cbn [fst snd] in *.
  rewrite (ni_apart _ _ Hw l l' ln ln') in Hl |- * by (done || congruence).
  rewrite Hl in Hl'. injection Hl' as <-. by exists ip.
Qed.

Lemma sealed_type k P d : sealed k P d → packet_type d = PKT_DATA ∧ 44 ≤ zlen d.
Proof.
  intros (h & n & ct & p & -> & Hh & Hty & Hn & Hc & _). apply aead_encrypt_len in Hc.
  change CRYPTO_MAC_SIZE with 16 in Hc. pose proof (zlen_nonneg p).
  split; [by rewrite packet_type_header|zlen].
Qed.

(** The key the client derives from the server's public key. *)
Lemma client_agrees j cs shared :
  key_pair (client cs) = box_keypair (kp j) →
  crypto_ecdh (client_private_key (client cs)) (box_keypair sp).1 = Some shared →
  crypto_derive_session_key shared None = agreed kp sp j.
Proof.
  intros Hkp He. pose proof (f_equal snd Hkp) as Hsk. cbn in Hsk.
  unfold agreed, crypto_ecdh in *. rewrite Hsk in He.
  pose proof (box_beforenm_comm (kp j) sp) as Hcomm. rewrite Hcomm. by rewrite He.
Qed.

Lemma answer_inv adm j l first buffer udp cs w :
  net_inv adm w → n_members w !! j = Some (Member cs (Waiting l first buffer)) →
  ∃ w', occurs sm cm hm (Answer j udp) w = Ok w' ∧ net_inv adm w'.
Proof.
  intros Hw Hj. cbn [occurs]. rewrite Hj.
  destruct (ni_members _ _ Hw j _ Hj) as ([Hi Hkp] & Howns & Hb). pose proof Howns as (ln & Hl & Ho).
  cbn [mb_state] in *. rewrite Hl. cbn [mbind option_bind]. set (arrived := udp ≫= _).
  destruct (@answered_run _ (m_env (cm j)) (hm j) (λ _, arrived) first buffer cs Hi)
    as (ok & cs' & E & Hi' & Hkp' & Htr & Hok). unfold answer. rewrite E.
  injection Htr as Eu Et. destruct ok; cycle 1.
  { apply (client_ends_inv adm j l cs cs' w []); try done. by rewrite app_nil_r. }
  destruct (Hok eq_refl) as (s1 & E1 & Hcard & Hconn).
  destruct (@await_response_session _ (m_env (cm j)) (λ _, arrived) buffer cs s1 Hb E1)
    as (d & Harr & Hty & Hin). unfold env_answer in Harr.
  subst arrived. apply bind_Some in Harr as (i & -> & Harr).
  eexists. split; [reflexivity|].
  assert (∃ ip, adm !! l = Some ip ∧ welcome sp ip d) as (ip & Had & Hd & _ & Hrt & Hst & Hrip & Hrpk).
  { destruct (delivered_addressed adm w l ln i d Hw Hl Harr) as [(Hd & _ & Hn)|(ip & Had & [Hx|Hx])].
    - destruct Hn. apply Hty. lia.
    - by exists ip.
    - destruct (sealed_type _ _ _ Hx) as [Hdata Hd]. rewrite Hty in Hdata by lia. done. }
  destruct (Hin ltac:(lia)) as (shared & He & Hc1 & Hip & _ & Hkey). rewrite Hrpk in He.
  injection Hcard as Ck Ci _ _.
  apply (client_went_inv adm j l cs cs' (Online l) w [] []); try done; try (by rewrite app_nil_r).
  split; [split; [done|]|]. { cbn [mb_state]. congruence. } split; [done|]. cbn [mb_state].
  split; [congruence|]. split; [rewrite Ck, Hkey; by eapply client_agrees|]. congruence.
Qed.

Lemma turn_inv adm j l udp tun cs w :
  net_inv adm w → n_members w !! j = Some (Member cs (Online l)) →
  (∀ p, tun = Some p → zlen p ≤ 2004 ∧ U j p) →
  ∃ w', occurs sm cm hm (Turn j udp tun) w = Ok w' ∧ net_inv adm w'.
Proof.
  intros Hw Hj Htun. cbn [occurs]. rewrite Hj.
  destruct (ni_members _ _ Hw j _ Hj) as ([Hi Hkp] & Howns & Hc & Hk & Had).
  pose proof Howns as (ln & Hl & Ho). cbn [mb_state] in *. rewrite Hl. cbn [mbind option_bind].
  set (arrived := udp ≫= _). unfold turn_of.
  destruct (@client_turn_stays _ (m_garbage (cm j)) (m_env (cm j)) (hm j) (λ _, None) _
    (agreed kp sp j) (U j) (λ p, D p ∧ ip_daddr p = client_vpn_ip (client cs)) arrived tun cs Hc Hi Hk)
    as (b & cs' & E & Hi' & Hcard & (new & Hu & Hnew) & (newt & Ht & Hnewt)); [|done|].
  { intros d (i & -> & Hd)%bind_Some.
    destruct (delivered_addressed adm w l ln i d Hw Hl Hd) as [(_ & Hn & _)|(ip & Had' & [Hx|Hx])].
    - by left.
    - left. destruct Hx as (_ & -> & _). done.
    - right. rewrite Had in Had'. injection Had' as <-. by rewrite <-Ho. }
  rewrite E. eexists. split; [reflexivity|]. injection Hcard as Ck Ci Cp Cs.
  apply (client_went_inv adm j l cs cs' _ w new newt); try done.
  - assert (key_pair (client cs') = box_keypair (kp j)) as Hkp' by (unfold key_pair in *; congruence).
    unfold member_ok. destruct (VpnClient.connected (client cs')) eqn:Hcc; cbn [mb_stage mb_state].
    + split_and!; try done; congruence.
    + by split_and!.
  - eapply Forall_impl; [exact Hnew|]. intros x Hx. by left.
  - rewrite Ci. done.
Qed.

Lemma quit_inv adm j w :
  net_inv adm w → ∃ w', occurs sm cm hm (Quit j) w = Ok w' ∧ net_inv adm w'.
Proof.
  intros Hw. cbn [occurs]. destruct (n_members w !! j) as [[cs [|l first buf|l|l|]]|] eqn:Hj;
    try (by exists w); destruct (ni_members _ _ Hw j _ Hj) as ([Hi _] & Ho); cbn in Hi;
    (apply (client_ends_inv adm j l cs cs w []); try done;
       first [by rewrite app_nil_r|apply Ho]).
Qed.

Lemma outgoing_weaken k (P Q : list Z → Prop) d :
  (∀ p, P p → Q p) → outgoing k P d → outgoing k Q d.
Proof. intros HPQ [?|?]; [left|by right]. by eapply upward_weaken. Qed.

(** The line whose request is delivered. *)
Definition asking (udp : option parcel) : option nat :=
  match udp with Some (Asked l) => Some l | _ => None end.

Lemma reaches_arrival adm udp w :
  net_inv adm w →
  (∀ from d, udp = Some (Foreign from d) → packet_type d ≠ PKT_CONNECT_REQ) →
  match udp ≫= reaches w with
  | Some (from, d) => arrival kp sp (n_lines w) (λ p, ∃ j, U j p) adm from d (asking udp)
  | None => True
  end.
Proof.
  intros Hw Hforeign. destruct udp as [[l|l i|from d]|]; [..|done]; cbn.
  - destruct (n_lines w !! l) as [ln|] eqn:Hl; [|done]. cbn.
    destruct (l_request ln) as [d|] eqn:Hd; [|done]. cbn.
    destruct (proj1 (ni_lines _ _ Hw l ln Hl) d Hd). by econstructor.
  - destruct (n_lines w !! l) as [ln|] eqn:Hl; [|done]. cbn.
    destruct (l_sent ln !! i) as [d|] eqn:Hd; [|done]. cbn. eapply arrives_packet; [exact Hl|].
    eapply outgoing_weaken, (Forall_lookup_1 _ _ _ _ (proj2 (ni_lines _ _ Hw l ln Hl)) Hd). eauto.
  - case_decide as Huse; [done|]. apply arrives_other; [|by apply (Hforeign from)].
    intros l ln Hl E. apply Huse, Exists_exists. exists ln. split; [by eapply list_elem_of_lookup_2|done].
Qed.

(** The net after a turn of the server. *)
Lemma serves_inv adm adm' lines srv last w new :
  net_inv adm w →
  hub_moves kp sp (n_lines w) (λ p, ∃ j, U j p) D adm adm' (n_server w) srv →
  udp_out (sys srv) = udp_out (sys (n_server w)) ++ new →
  extends (n_lines w) lines → apart lines → (∀ l ln, lines !! l = Some ln → line_ok adm' l ln) →
  net_inv adm' (Net (n_members w) lines srv last (n_down w ++ new) (n_log w)).
Proof.
  intros [Ha Hh Hd Hl Hm Hlog] (Hg & Hsub & new' & Hu & Hnew) Hout He Hap Hlines.
  rewrite Hu in Hout. apply app_inv_head in Hout as ->. split; cbn; try done.
  - by eapply hub_extends.
  - apply Forall_app. split; eapply Forall_impl; try eassumption; intros x Hx;
      eapply addressed_extends; try done. by eapply addressed_to_mono.
  - intros j m Hj. by eapply member_ok_mono, Hm.
Qed.

Lemma serve_inv adm udp tun w :
  net_inv adm w → (length (n_lines w) ≤ 254)%nat →
  (∀ p, tun = Some p → zlen p ≤ 2004 ∧ D p) →
  (∀ from d, udp = Some (Foreign from d) → packet_type d ≠ PKT_CONNECT_REQ) →
  ∃ adm' w', occurs sm cm hm (Serve udp tun) w = Ok w' ∧ net_inv adm' w'.
Proof.
  intros Hw Hlen Htun Hforeign. cbn [occurs]. unfold serves.
  destruct (@hub_turn _ (m_garbage sm) (m_env sm) _ kp sp (n_lines w) (λ p, ∃ j, U j p) D adm
    (n_last w) (Some <$> (udp ≫= reaches w)) (Some <$> tun) (asking udp) (n_server w))
    as (adm' & r & srv & E & Hm & Hoth); [apply Hw|done|apply Hw| | |].
  { pose proof (reaches_arrival adm udp w Hw Hforeign) as Harr.
    by destruct (udp ≫= reaches w) as [[from d]|]. }
  { intros p Hp. destruct tun as [p'|]; [|done]. injection Hp as ->. by apply Htun. }
  rewrite E. pose proof Hm as (_ & _ & new & Hu & _). exists adm'. eexists. split; [reflexivity|].
  rewrite Hu, since_app.
  assert (∀ l ln, asking udp ≠ Some l → n_lines w !! l = Some ln → line_ok adm' l ln) as Hold.
  { intros l ln Hne Hl. destruct (ni_lines _ _ Hw l ln Hl) as [Hq Hs]. split; [|done].
    intros d Hd. destruct (Hq d Hd). by rewrite Hoth. }
  destruct udp as [[l|l i|from d]|];
    try (eapply serves_inv; [done|done|done|apply extends_refl|apply Hw|]; intros; by apply Hold).
  eapply serves_inv; [done|done|done|by apply extends_alter|by apply apart_alter, Hw|].
  intros l' ln'. destruct (decide (l' = l)) as [->|Hne].
  - rewrite list_lookup_alter_eq. intros (ln & Hl & ->)%fmap_Some. split; [done|].
    apply (ni_lines _ _ Hw l ln Hl).
  - rewrite list_lookup_alter_ne by done. apply Hold. cbn. congruence.
Qed.

Lemma tick_inv adm w :
  net_inv adm w → ∃ w', occurs sm cm hm Tick w = Ok w' ∧ net_inv adm w'.
Proof.
  intros Hw. cbn [occurs]. unfold serves.
  destruct (@hub_quiet _ (m_garbage sm) (m_env sm) kp sp (n_lines w) (λ p, ∃ j, U j p) D adm (n_last w) true
    (n_server w)) as (r & srv & E & Hm); [apply Hw|].
  rewrite E. pose proof Hm as (_ & _ & new & Hu & _). eexists. split; [reflexivity|].
  rewrite Hu, since_app. eapply serves_inv; [done|done|done|apply extends_refl|apply Hw|apply Hw].
Qed.

(** The packets that are read are accounted for. *)
Definition happens_reads (a : happens) : Prop :=
  match a with
  | Turn j _ tun => ∀ p, tun = Some p → U j p
  | Serve _ tun => ∀ p, tun = Some p → D p
  | _ => True
  end.

Lemma occurs_inv adm a w :
  net_inv adm w → (length (n_lines w) ≤ 254)%nat → happens_fits a → happens_reads a →
  ∃ adm' w', occurs sm cm hm a w = Ok w' ∧ net_inv adm' w'.
Proof.
  intros Hw Hlen Hfit Hread.
  assert (∀ r, (∃ w', r = Ok w' ∧ net_inv adm w') → ∃ adm' w', r = Ok w' ∧ net_inv adm' w') as Hsame
    by (intros r (w' & ? & ?); by exists adm, w').
  destruct a as [j addr|j udp|j udp tun|j|udp tun|].
  - apply Hsame. cbn [occurs]. case_decide as Huse; [by exists w|].
    destruct (n_members w !! j) as [[cs [|l first buf|l|l|]]|] eqn:Hj; try (by exists w);
      destruct (ni_members _ _ Hw j _ Hj) as ([Hi Hk] & Hrest); by apply dials_inv.
  - apply Hsame. destruct (n_members w !! j) as [[cs [|l first buf|l|l|]]|] eqn:Hj;
      try (exists w; cbn [occurs]; by rewrite Hj). by eapply answer_inv.
  - apply Hsame. destruct (n_members w !! j) as [[cs [|l first buf|l|l|]]|] eqn:Hj;
      try (exists w; cbn [occurs]; by rewrite Hj). eapply turn_inv; [done..|]. split; auto.
  - by apply Hsame, quit_inv.
  - destruct Hfit as [Hp Hf]. apply (serve_inv adm); try done. split; auto.
  - by apply Hsame, tick_inv.
Qed.

Lemma occurs_lines a w w' :
  occurs sm cm hm a w = Ok w' →
  (length (n_lines w') ≤ length (n_lines w) + (if decide (is_dial a) then 1 else 0))%nat.
Proof.
  destruct a as [j addr|j udp|j udp tun|j|udp tun|]; cbn [occurs]; intros Hrun.
  - rewrite decide_True by done. unfold dials, client_ends in Hrun.
    repeat case_match; simplify_eq; cbn; rewrite ?length_alter, ?length_app; cbn; lia.
  - unfold client_ends in Hrun. repeat case_match; simplify_eq; cbn; rewrite ?length_alter; lia.
  - unfold client_ends in Hrun. repeat case_match; simplify_eq; cbn; rewrite ?length_alter; lia.
  - unfold client_ends in Hrun. repeat case_match; simplify_eq; cbn; rewrite ?length_alter; lia.
  - unfold serves in Hrun. repeat case_match; simplify_eq; cbn; rewrite ?length_alter; lia.
  - unfold serves in Hrun. repeat case_match; simplify_eq; cbn; lia.
Qed.

Lemma history_inv adm hs w :
  net_inv adm w → (length (n_lines w) + dial_count hs ≤ 254)%nat →
  Forall happens_fits hs → Forall happens_reads hs →
  ∃ adm' w', history sm cm hm hs w = Ok w' ∧ net_inv adm' w'.
Proof.
  intros Hw Hlen Hfit Hread. revert adm w Hw Hlen.
  induction hs as [|a hs IH]; intros adm w Hw Hlen; [by exists adm, w|].
  apply Forall_cons in Hfit as [Hfa Hfit], Hread as [Hra Hread].
  unfold dial_count in Hlen. rewrite filter_cons in Hlen.
  destruct (occurs_inv adm a w Hw ltac:(lia) Hfa Hra) as (adm1 & w1 & E & Hw1).
  pose proof (occurs_lines a w w1 E) as Hl. cbn [history]. rewrite E. apply (IH Hfit Hread adm1 w1 Hw1).
  unfold dial_count. destruct (decide (is_dial a)); cbn in Hlen; lia.
Qed.
End invariant.

Section claims.
Context `{Sodium} `{!SodiumLaws _} (sm : machine) (cm : nat → machine) (hm : nat → HostEnv).
Context (kp : nat → nat) (sp : nat).

Lemma launched_inv U D w : launched kp sp w → net_inv kp sp U D ∅ w.
Proof.
  intros [Hm (Hl & Hd & Hlog) Hr Ht Hk Htun]. split; rewrite ?Hl, ?Hd, ?Hlog; try done.
  - apply init_key_manager_sim in Hk as Hsim. destruct Hsim as [(Hwf & _ & Hmap) _].
    injection Ht as Ht. unfold init_key_manager in Hk.
    destruct (crypto_generate_keypair sp) as [pk sk] eqn:Hkp. injection Hk as Hk.
    split; rewrite <-?Ht; try done.
    + unfold fresh_ips. rewrite active_zero. by split_and!; try constructor.
    + rewrite active_zero. by intros c ?%elem_of_nil.
    + split; [done|]. by rewrite <-Hk.
    + intros ip k Hget. rewrite <-lookup_key_map, Hmap in Hget. done.
    + rewrite <-Hk. exact (eq_sym Hkp).
    + by rewrite Htun.
  - intros j m Hj. destruct (Hm j m Hj) as (Hs & cfg & c & text & Hi & Htext & Hst).
    destruct (init_vpn_client_inv _ _ _ _ Hi Htext) as [Hinv Hu]. unfold member_ok.
    rewrite Hs, Hst. split; [split; [done|]|done]. unfold init_vpn_client in Hi.
    case_decide; [done|]. destruct (crypto_generate_keypair (kp j)) as [pk sk] eqn:Hkp.
    injection Hi as <-. exact (eq_sym Hkp).
Qed.

Lemma reads_accounted hs :
  Forall (happens_reads (λ j p, p ∈ read_by j hs) (λ p, p ∈ read_for_clients hs)) hs.
Proof.
  apply Forall_forall. intros [j addr|j udp|j udp tun|j|udp tun|] Ha; try done; intros p ->;
    apply list_elem_of_omap; eexists; (split; [exact Ha|]); cbn; by rewrite ?decide_True.
Qed.

(** What holds in all states of the system. *)
Lemma history_reached hs w :
  launched kp sp w → Forall happens_fits hs → (dial_count hs ≤ 254)%nat →
  ∃ adm w', history sm cm hm hs w = Ok w' ∧
    net_inv kp sp (λ j p, p ∈ read_by j hs) (λ p, p ∈ read_for_clients hs) adm w'.
Proof.
  intros Hw Hfit Hn. apply (history_inv sm cm hm kp sp _ _ ∅ hs w); [by apply launched_inv| |done|].
  - by rewrite (proj1 (la_wires _ _ _ Hw)).
  - apply reads_accounted.
Qed.

(** (C2) From the start on, whoever connects, leaves, loses the connection or connects again,
    the tunnel is faithful. Let a server, its enclave and any number of client programs
    run from their start, the clients dialling at most 254 times in all, each time from
    a new socket, over a network that loses, delays, repeats and reorders their datagrams
    (a CONNECT_REQ arrives at most once), with system calls failing at any time. Strangers
    may send any datagrams to the server except a CONNECT_REQ, but none to the clients, and
    no packet read from a TUN device is longer than 2004 bytes. No program faults; every packet that comes out of
    the server's TUN device was read by a client from its own; and every packet that comes
    out of the TUN device of a client was read by the server and is addressed to the VPN
    address that this client has at that time. *)
Theorem roaming_is_faithful hs w :
  launched kp sp w → Forall happens_fits hs → (dial_count hs ≤ 254)%nat →
  ∃ w', history sm cm hm hs w = Ok w' ∧
    (∀ p, p ∈ tun_out (sys (n_server w')) → ∃ j, p ∈ read_by j hs) ∧
    (∀ j ip p, (j, ip, p) ∈ n_log w' → p ∈ read_for_clients hs ∧ ip_daddr p = ip).
Proof.
  intros Hw Hfit Hn. destruct (history_reached hs w Hw Hfit Hn) as (adm & w' & E & Hinv).
  exists w'. split; [done|]. split.
  - intros p Hp. exact (proj1 (Forall_forall _ _) (hg_tun _ _ _ _ _ _ (ni_hub _ _ _ _ _ _ Hinv)) p Hp).
  - intros j ip p Hp. exact (proj1 (Forall_forall _ _) (ni_log _ _ _ _ _ _ Hinv) _ Hp).
Qed.

(** (C3) In every state of such a history (at most 254 dials from new sockets, each
    CONNECT_REQ delivered at most once, TUN packets of at most 2004 bytes, strangers that
    reach only the server and send it no CONNECT_REQ) the two ends of a session agree: no two clients in
    their loops have the same VPN address, and when the server has an entry for the
    socket of such a client, the entry has the client's VPN address and the enclave's key
    for that address is the session key of the client. *)
Theorem roaming_sessions_agree hs w :
  launched kp sp w → Forall happens_fits hs → (dial_count hs ≤ 254)%nat →
  ∃ w', history sm cm hm hs w = Ok w' ∧
    (∀ j cs l j' cs' l', n_members w' !! j = Some (Member cs (Online l)) →
       n_members w' !! j' = Some (Member cs' (Online l')) →
       client_vpn_ip (client cs) = client_vpn_ip (client cs') → j = j') ∧
    (∀ j cs l ln i c, n_members w' !! j = Some (Member cs (Online l)) →
       n_lines w' !! l = Some ln →
       find_client_by_addr (table (n_server w')) (l_addr ln) = Some (i, c) →
       vpn_ip c = client_vpn_ip (client cs) ∧
       get_key (km_of (n_server w')) (vpn_ip c) = Some (client_session_key (client cs))).
Proof.
  intros Hw Hfit Hn. destruct (history_reached hs w Hw Hfit Hn) as (adm & w' & E & Hinv).
  exists w'. split; [done|]. destruct Hinv as [Hap Hhub _ _ Hmem _]. split.
  - intros j cs l j' cs' l' Hj Hj' Hip.
    destruct (Hmem j _ Hj) as (_ & (ln & Hl & Ho) & _ & _ & Had).
    destruct (Hmem j' _ Hj') as (_ & (ln' & Hl' & Ho') & _ & _ & Had'). cbn in Had, Had'.
    rewrite Hip in Had. rewrite (hg_inj _ _ _ _ _ _ Hhub _ _ _ Had Had') in Hl. congruence.
  - intros j cs l ln i c Hj Hl Hf. destruct (Hmem j _ Hj) as (_ & (ln0 & Hl0 & Ho) & _ & Hk & Had).
    cbn in Hk, Had. destruct (hub_find _ _ _ _ _ _ _ _ _ Hhub Hf) as (l' & ln' & Hl' & Had' & He & Hget).
    assert (l = l') as <- by (by apply (Hap l l' ln ln')).
    assert (ln' = ln0 ∧ ln = ln0) as [-> ->] by (split; congruence). split; congruence.
Qed.
End claims.

(** ** Instances: two clients of a new server *)
Section instances.
#[local] Existing Instance quiet_env.

Definition toy_config : vpn_config_t := VpnConfig (chars "10.0.0.1" ++ [0]) 51820 [0] 1 10 30 60 2.
Definition toy_program (k : nat) : client_state :=
  match init_vpn_client true k toy_config with Some c => client_boot c | None => new_client end.
Definition toy_net : net :=
  Net [Member (toy_program 4) Starting; Member (toy_program 5) Starting] [] idle_server 0 [] [].

(** Both clients connect; the packet of the first is delivered twice; the server's packet
    for the first reaches it late; the first leaves, and the second cannot take its place. *)
Definition toy_history : list happens :=
  [Dial 0 (peer 1); Serve (Some (Asked 0)) None; Answer 0 (Some 0%nat);
   Turn 0 None (Some (ip_packet 30)); Dial 1 (peer 2); Serve (Some (Sent 0 0)) None;
   Serve (Some (Asked 1)) (Some (ip_packet 40)); Serve (Some (Sent 0 0)) None;
   Answer 1 (Some 1%nat); Tick; Serve (Some (Foreign (peer 9) (udp_packet PKT_PING 16))) None;
   Turn 1 (Some 2%nat) None; Turn 0 (Some 2%nat) None; Quit 0; Serve (Some (Sent 0 1)) None;
   Serve (Some (Sent 0 0)) (Some (ip_packet 50))].

Lemma toy_net_launched : launched (λ j, (4 + j)%nat) 0 toy_net.
Proof.
  split; [|done|apply idle_server_ready|done|by vm_compute|done].
  intros [|[|j]] m; [..|done]; intros [= <-]; (split; [done|]);
    eexists toy_config, _, _; (split; [by vm_compute|]); by split.
Qed.

Lemma toy_history_fits : Forall happens_fits toy_history.
Proof.
  repeat apply Forall_cons_2; try apply Forall_nil; cbn; try done;
    try split; try done; (by intros p [= <-]) || (by intros from d [= <- <-]).
Qed.

Lemma roaming_is_faithful_witness :
  ∃ w', history pc (λ _, pc) (λ _, kind_host) toy_history toy_net = Ok w' ∧
    (∀ p, p ∈ tun_out (sys (n_server w')) → ∃ j, p ∈ read_by j toy_history) ∧
    (∀ j ip p, (j, ip, p) ∈ n_log w' → p ∈ read_for_clients toy_history ∧ ip_daddr p = ip).
Proof.
  apply (roaming_is_faithful pc (λ _, pc) (λ _, kind_host) _ _ toy_history toy_net toy_net_launched);
    [apply toy_history_fits|by vm_compute; lia].
Defined.

Lemma roaming_sessions_agree_witness :
  ∃ w', history pc (λ _, pc) (λ _, kind_host) toy_history toy_net = Ok w' ∧
    (∀ j cs l j' cs' l', n_members w' !! j = Some (Member cs (Online l)) →
       n_members w' !! j' = Some (Member cs' (Online l')) →
       client_vpn_ip (client cs) = client_vpn_ip (client cs') → j = j') ∧
    (∀ j cs l ln i c, n_members w' !! j = Some (Member cs (Online l)) →
       n_lines w' !! l = Some ln →
       find_client_by_addr (table (n_server w')) (l_addr ln) = Some (i, c) →
       vpn_ip c = client_vpn_ip (client cs) ∧
       get_key (km_of (n_server w')) (vpn_ip c) = Some (client_session_key (client cs))).
Proof.
  apply (roaming_sessions_agree pc (λ _, pc) (λ _, kind_host) _ _ toy_history toy_net toy_net_launched);
    [apply toy_history_fits|by vm_compute; lia].
Defined.

Example toy_history_delivers :
  match history pc (λ _, pc) (λ _, kind_host) toy_history toy_net with
  | Ok w => tun_out (sys (n_server w)) = [ip_packet 30; ip_packet 30] ∧
            n_log w = [(0%nat, htonl FIRST_IP, ip_packet 40)] ∧
            mb_stage <$> n_members w = [Gone; Online 1]
  | Fault _ => False
  end.
Proof. by vm_compute. Qed.
End instances.
