(* ===== verification/Output.v ===== *)
(** * What the programs print
    (src/common/logger.c, include/logger.h, print_vpn_packet of src/common/protocol.c,
    print_ip_packet of src/server/tun_manager.c, config_print of src/common/config.c)

    Texts are lists of bytes, with the conversions of printf that the code uses. The
    printing functions return their text; the logger adds to an output. *)

From S2P Require Import Prelude Os Protocol Config VpnClient.

(** ** printf *)

Definition hex_digit (n : Z) : Z := if decide (n < 10) then 48 + n else 87 + n.
(** %02x of a byte *)
Definition hex2 (b : Z) : list Z := [hex_digit (b `div` 16); hex_digit (b `mod` 16)].
(** %d of an int, %u of an unsigned int, %lu of an unsigned long *)
Definition show_int (n : Z) : list Z := if decide (n < 0) then 45 :: digits 10 (- n) else digits 10 n.
Definition show_unsigned (n : Z) : list Z := digits 10 n.
Definition show_ulong (n : Z) : list Z := digits 20 n.
(** %02d of a number with at most two digits *)
Definition pad2 (n : Z) : list Z := [48 + n `div` 10; 48 + n `mod` 10].

Definition newline : list Z := [10].
Definition line (t : list Z) : list Z := t ++ newline.

(** ** logger.c *)
Module Logger.

Definition LOG_ERROR : Z := 0.
Definition LOG_WARN : Z := 1.
Definition LOG_INFO : Z := 2.
Definition LOG_DEBUG : Z := 3.

(** The broken-down local time, which depends on the time zone of the machine. *)
Record tm := Tm { tm_year : Z; tm_mon : Z; tm_mday : Z; tm_hour : Z; tm_min : Z; tm_sec : Z }.
Class Clock := env_localtime : Z → tm.

(** [g_log_level], the rest of the world and the standard output. *)
Record log := Log { g_log_level : Z; log_os : os; stdout : list Z }.

Section logger.
Context `{Env, Clock}.

(** strftime with the format %Y-%m-%d %H:%M:%S; it always fits the buffer of 64 bytes. *)
Definition strftime (t : tm) : list Z :=
  show_int (tm_year t + 1900) ++ [45] ++ pad2 (tm_mon t + 1) ++ [45] ++ pad2 (tm_mday t) ++ [32] ++
  pad2 (tm_hour t) ++ [58] ++ pad2 (tm_min t) ++ [58] ++ pad2 (tm_sec t).

(** The enumeration type is unsigned. *)
Definition log_set_level (level : Z) : M log () :=
  modify (λ s, Log (u32 level) (log_os s) (stdout s)).

(** [message]: the text vprintf makes of the format and its arguments. *)
Definition log_print (level : Z) (level_str message : list Z) : M log () :=
  g ← gets g_log_level;
  if decide (g < level) then mret ()
  else
    now ← zoom log_os (λ o s, Log (g_log_level s) o (stdout s)) time;
    let time_buf := strftime (env_localtime now) in
    modify (λ s, Log (g_log_level s) (log_os s)
                     (stdout s ++ [91] ++ time_buf ++ chars "] [" ++ level_str ++ chars "] " ++
                      message ++ newline)).

Definition log_error (message : list Z) : M log () := log_print LOG_ERROR (chars "ERROR") message.
Definition log_warn (message : list Z) : M log () := log_print LOG_WARN (chars "WARN") message.
Definition log_info (message : list Z) : M log () := log_print LOG_INFO (chars "INFO") message.
Definition log_debug (message : list Z) : M log () := log_print LOG_DEBUG (chars "DEBUG") message.

(** A program's use of the logger. *)
Inductive log_call := CallError (m : list Z) | CallWarn (m : list Z) | CallInfo (m : list Z) | CallDebug (m : list Z).
Definition do_log (c : log_call) : M log () :=
  match c with
  | CallError m => log_error m | CallWarn m => log_warn m
  | CallInfo m => log_info m | CallDebug m => log_debug m
  end.
Fixpoint do_logs (cs : list log_call) : M log () :=
  match cs with [] => mret () | c :: cs => _ ← do_log c; do_logs cs end.

Definition call_level (c : log_call) : Z :=
  match c with CallError _ => 0 | CallWarn _ => 1 | CallInfo _ => 2 | CallDebug _ => 3 end.

Lemma log_print_hidden level name m s :
  g_log_level s < level → log_print level name m s = Ok ((), s).
Proof. intros Hl. unfold log_print. rewrite run_bind, run_gets. by rewrite decide_True. Qed.

Lemma log_print_keeps level name m s :
  ∃ s', log_print level name m s = Ok ((), s') ∧ g_log_level s' = g_log_level s.
Proof.
  unfold log_print. rewrite run_bind, run_gets. case_decide; [by exists s|]. by eexists.
Qed.

Lemma do_log_keeps c s : ∃ s', do_log c s = Ok ((), s') ∧ g_log_level s' = g_log_level s.
Proof. destruct c; apply log_print_keeps. Qed.

(** The level in force selects the messages: logging a sequence of messages is logging
    those of them that the level admits. *)
Lemma logger_filters cs s :
  do_logs cs s = do_logs (filter (λ c, call_level c ≤ g_log_level s) cs) s.
Proof.
  revert s. induction cs as [|c cs IH]; intros s; [done|]. cbn [do_logs]. rewrite filter_cons.
  case_decide as Hl.
  - cbn [do_logs]. destruct (do_log_keeps c s) as (s' & E & Hg).
    rewrite !(run_bind_ok _ _ _ _ _ E), IH. by rewrite Hg.
  - assert (do_log c s = Ok ((), s)) as E.
    { destruct c; cbn in Hl; apply log_print_hidden; unfold LOG_ERROR, LOG_WARN, LOG_INFO, LOG_DEBUG; lia. }
    by rewrite (run_bind_ok _ _ _ _ _ E).
Qed.
End logger.
End Logger.

(** ** protocol.c *)
Definition print_vpn_packet (h : vpn_header_t) : list Z :=
  line (chars "┌─ VPN Packet ─────────────────────") ++
  line (chars "│ Type:     " ++ chars (packet_type_str (hdr_type h)) ++ chars " (0x" ++
        hex2 (hdr_type h) ++ chars ")") ++
  line (chars "│ Version:  0x" ++ hex2 (hdr_version h)) ++
  line (chars "│ Length:   " ++ show_unsigned (ntohs (hdr_length h)) ++ chars " bytes") ++
  line (chars "│ Sequence: " ++ show_unsigned (ntohl (hdr_sequence h))) ++
  line (chars "│ Time:     " ++ show_ulong (be64toh (hdr_timestamp h)) ++ chars " ms") ++
  line (chars "└──────────────────────────────────").

(** (C27) The header one side builds is the header the other side shows: [init_vpn_header]
    stores length, sequence number and time stamp in network byte order, [print_vpn_packet]
    converts them back. For every packet type and length the 16 bytes of the header are the
    type, the version 1 and the three numbers with their most significant byte first, and
    the text shows the type with its name, the version, the length, the counter plus one
    modulo 2^32 and the time of the call in milliseconds. *)
Theorem built_header_is_printed `{Env} g t len o :
  0 ≤ t < 256 → 0 ≤ len < 65536 →
  let '(sec, usec) := env_timeofday (timeofday_calls o) in
  let ms := u64 (u64 sec * 1000 + u64 usec `div` 1000) in
  ∃ h o', init_vpn_header g t len o = Ok ((h, u32 (g + 1)), o') ∧
    vpn_header_bytes h = le 1 t ++ [1] ++ be 2 len ++ be 4 (u32 (g + 1)) ++ be 8 ms ∧
    print_vpn_packet h =
      line (chars "┌─ VPN Packet ─────────────────────") ++
      line (chars "│ Type:     " ++ chars (packet_type_str t) ++ chars " (0x" ++ hex2 t ++ chars ")") ++
      line (chars "│ Version:  0x01") ++
      line (chars "│ Length:   " ++ show_unsigned len ++ chars " bytes") ++
      line (chars "│ Sequence: " ++ show_unsigned (u32 (g + 1))) ++
      line (chars "│ Time:     " ++ show_ulong ms ++ chars " ms") ++
      line (chars "└──────────────────────────────────").
Proof.
  intros Ht Hlen. destruct (env_timeofday (timeofday_calls o)) as [sec usec] eqn:Etime. intros ms.
  assert (is_uint 8 ms) as Hms by (apply Z.mod_pos_bound; lia).
  eexists _, _. split.
  { unfold init_vpn_header, get_timestamp_ms, gettimeofday. run. rewrite Etime. reflexivity. }
  assert (u8 t = t) as -> by (apply Z.mod_small; lia).
  assert (u16 len = len) as -> by (apply Z.mod_small; lia). split.
  - unfold vpn_header_bytes, htons, htonl, htobe64.
    cbn [hdr_type hdr_version hdr_length hdr_sequence hdr_timestamp]. by rewrite !le_bswap by lia.
  - unfold print_vpn_packet, ntohs, ntohl, be64toh, htons, htonl, htobe64.
    cbn [hdr_type hdr_version hdr_length hdr_sequence hdr_timestamp].
    rewrite !bswap_involutive; [done|lia|done|lia|apply uint_u32|lia|]. split; [lia|cbn; lia].
Qed.

Section instances.
#[local] Existing Instance quiet_env.
(** A DATA packet, the 256th header of its process. *)
Lemma built_header_is_printed_witness :
  let '(sec, usec) := env_timeofday 0 in
  let ms := u64 (u64 sec * 1000 + u64 usec `div` 1000) in
  ∃ h o', init_vpn_header 255 PKT_DATA 68 os_boot = Ok ((h, u32 256), o') ∧
    vpn_header_bytes h = le 1 PKT_DATA ++ [1] ++ be 2 68 ++ be 4 (u32 256) ++ be 8 ms ∧
    print_vpn_packet h =
      line (chars "┌─ VPN Packet ─────────────────────") ++
      line (chars "│ Type:     " ++ chars (packet_type_str PKT_DATA) ++ chars " (0x" ++
            hex2 PKT_DATA ++ chars ")") ++
      line (chars "│ Version:  0x01") ++
      line (chars "│ Length:   " ++ show_unsigned 68 ++ chars " bytes") ++
      line (chars "│ Sequence: " ++ show_unsigned (u32 256)) ++
      line (chars "│ Time:     " ++ show_ulong ms ++ chars " ms") ++
      line (chars "└──────────────────────────────────").
Proof. apply (built_header_is_printed 255 PKT_DATA 68 os_boot); by vm_compute. Defined.
End instances.

(** ** tun_manager.c *)
Definition protocol_name (p : Z) : list Z :=
  if decide (p = 1) then chars "(ICMP)"
  else if decide (p = 6) then chars "(TCP)"
  else if decide (p = 17) then chars "(UDP)"
  else chars "(Other)".

(** for (int i = 0; i < len && i < 32; i++), [n] turns before its end *)
Fixpoint hex_dump (packet : list Z) (i : Z) (n : nat) : res (list Z) :=
  match n with
  | O => Ok []
  | S n =>
      b ← buf_read packet i 1;
      rest ← hex_dump packet (i + 1) n;
      Ok (hex2 (le_val b) ++ [32] ++
          (if decide ((i + 1) `mod` 16 = 0) then newline ++ chars "        " else []) ++ rest)
  end.

(** A field of the struct iphdr the packet is taken for. *)
Definition ip_field (packet : list Z) (off size : Z) : res Z :=
  b ← buf_read packet off size; Ok (le_val b).

Definition print_ip_packet (packet : list Z) (len : Z) : res (list Z) :=
  if decide (len < 20) then Ok (line (chars "Packet too short (" ++ show_int len ++ chars " bytes)"))
  else
    saddr ← ip_field packet 12 4;
    daddr ← ip_field packet 16 4;
    first ← ip_field packet 0 1;
    protocol ← ip_field packet 9 1;
    ttl ← ip_field packet 8 1;
    hex ← hex_dump packet 0 (Z.to_nat (len `min` 32));
    Ok (line (chars "IP Packet (" ++ show_int len ++ chars " bytes):") ++
        line (chars "   Version: " ++ show_int (Z.shiftr first 4)) ++
        chars "   Protocol: " ++ show_int protocol ++ [32] ++ line (protocol_name protocol) ++
        line (chars "   Src: " ++ inet_ntop saddr) ++
        line (chars "   Dst: " ++ inet_ntop daddr) ++
        line (chars "   TTL: " ++ show_int ttl) ++
        chars "   Hex: " ++ hex ++ newline).

Lemma hex_dump_run packet i n :
  0 ≤ i → i + Z.of_nat n ≤ zlen packet → ∃ t, hex_dump packet i n = Ok t.
Proof.
  revert i. induction n as [|n IH]; intros i Hi Hn; [by eexists|]. cbn [hex_dump].
  rewrite buf_read_ok by lia. destruct (IH (i + 1)) as [t Ht]; [lia|lia|].
  unfold mbind, res_bind at 1. rewrite Ht. by eexists.
Qed.

(** [print_ip_packet] reads no byte behind the packet. *)
Lemma print_ip_packet_in_bounds packet len :
  len ≤ zlen packet → ∃ t, print_ip_packet packet len = Ok t.
Proof.
  intros Hl. unfold print_ip_packet, ip_field. case_decide; [by eexists|].
  rewrite !buf_read_ok by lia.
  destruct (hex_dump_run packet 0 (Z.to_nat (len `min` 32))) as [t Ht]; [lia|lia|].
  unfold mbind, res_bind. rewrite Ht. by eexists.
Qed.

(** ** config.c *)

(** The name of a log level in [config_print]. *)
Definition level_text (level : Z) : list Z :=
  if decide (level = 0) then chars "ERROR"
  else if decide (level = 1) then chars "WARN"
  else if decide (level = 2) then chars "INFO"
  else if decide (level = 3) then chars "DEBUG"
  else show_int level.

Definition config_print (c : vpn_config_t) : res (list Z) :=
  address ← c_string (server_address c);
  user ← c_string (cfg_username c);
  Ok (line (chars "━━━ VPN Configuration ━━━") ++
      line (chars "  Server:              " ++ address ++ [58] ++ show_unsigned (server_port c)) ++
      line (chars "  Username:            " ++ user) ++
      line (chars "  Auto Reconnect:      " ++
            (if decide (auto_reconnect c = 0) then chars "disabled" else chars "enabled")) ++
      line (chars "  Max Reconnect:       " ++ show_int (max_reconnect_attempts c) ++ chars " attempts") ++
      line (chars "  Keep-alive Interval: " ++ show_int (keepalive_interval c) ++ chars " seconds") ++
      line (chars "  PONG Timeout:        " ++ show_int (pong_timeout c) ++ chars " seconds") ++
      line (chars "  Log Level:           " ++ level_text (log_level c)) ++
      line (chars "═══════════════════════════════════════")).

(** The level shown is the level a configuration file with that text sets. *)
Lemma log_level_roundtrip level : 0 ≤ level < 2 ^ 31 → parse_log_level (level_text level) = level.
Proof.
  intros Hl. unfold level_text. repeat case_decide; subst; [by vm_compute..|].
  unfold show_int. rewrite decide_False by lia. fold (decimal level).
  assert (Forall (λ c, 48 ≤ c ≤ 57) (decimal level)) as Hd by (apply digits_chars; lia).
  assert (∀ c t, 65 ≤ c → decimal level ≠ c :: t) as Hne.
  { intros c t Hc E. rewrite E in Hd. apply Forall_cons in Hd as [? _]. lia. }
  unfold parse_log_level. rewrite !decide_False by (apply Hne; by vm_compute). by apply atoi_decimal.
Qed.
