(* ===== verification/TestPrograms.v ===== *)
(** * The manual test programs
    (src/server/test_enclave_ipc.c, src/server/tun_test.c, src/client/udp_test_client.c)

    The three programs that come with the VPN, composed of the parts they exercise. What
    they print of the results is kept in [said], decoration is not. *)

From S2P Require Import Prelude Os Crypto ToySodium Protocol IpcProtocol KeyManager Enclave EnclaveClient.
From S2P Require Import ClientManager VpnServer Config Tun ServerMain VpnClient System Output.

(** ** test_enclave_ipc.c *)
Module IpcTest.

Record state (C : Type) := State { t_host : host; t_conn : ipc C; slept : Z; said : list (list Z) }.
Arguments State {C} _ _ _ _.
Arguments t_host {C} _.
Arguments t_conn {C} _.
Arguments slept {C} _.
Arguments said {C} _.

Definition plaintext : list Z := chars "Hello Enclave!".
Definition test_key : list Z := [171; 205; 239] ++ replicate 29 0.
(** inet_addr("10.8.0.5") *)
Definition test_vpn_ip : Z := default (2 ^ 32 - 1) (inet_pton (chars "10.8.0.5")).

Section program.
Context {C : Type} `{Channel C, Garbage, HostEnv}.

Definition on_t_host {A} (m : M host A) : M (state C) A :=
  zoom t_host (λ h s, State h (t_conn s) (slept s) (said s)) m.
Definition on_t_conn {A} (m : M (ipc C) A) : M (state C) A :=
  zoom t_conn (λ c s, State (t_host s) c (slept s) (said s)) m.
Definition sleep (n : Z) : M (state C) () :=
  modify (λ s, State (t_host s) (t_conn s) (slept s + n) (said s)).
Definition say (t : list Z) : M (state C) () :=
  modify (λ s, State (t_host s) (t_conn s) (slept s) (said s ++ [t])).

(** The ciphertext and its length, which stay uninitialised when the call fails. *)
Definition encrypt_test : M (state C) (list Z * Z) :=
  let ciphertext := local "ciphertext" 256 in
  r ← on_t_conn (enclave_encrypt test_vpn_ip plaintext ciphertext);
  match r with
  | Some (ciphertext, ciphertext_len) =>
      _ ← say (chars "Encrypted: " ++ show_ulong ciphertext_len ++ chars " bytes");
      shown ← lift (buf_read ciphertext 0 (ciphertext_len `min` 32));
      _ ← say (concat (hex2 <$> shown));
      mret (ciphertext, ciphertext_len)
  | None => mret (ciphertext, le_val (local "ciphertext_len" 8))
  end.

(** enclave_decrypt refuses a length above its limit before it reads the buffer. *)
Definition decrypt_test (ciphertext : list Z) (ciphertext_len : Z) : M (state C) () :=
  if decide (IPC_MAX_DATA_SIZE < ciphertext_len) then mret ()
  else
    input ← lift (buf_read ciphertext 0 ciphertext_len);
    r ← on_t_conn (enclave_decrypt test_vpn_ip input (local "decrypted" 256));
    match r with
    | Some (decrypted, decrypted_len) =>
        decrypted ← lift (buf_write decrypted decrypted_len [0]);
        _ ← say (chars "Decrypted: " ++ show_ulong decrypted_len ++ chars " bytes");
        text ← lift (c_string decrypted);
        say (chars "Plaintext: " ++ text)
    | None => mret ()
    end.

(** The calls over the connection. *)
Definition exercise : M (state C) () :=
  _ ← sleep 1;
  r ← on_t_conn enclave_ping;
  _ ← (if decide (r = 0) then say (chars "PING successful") else mret ());
  _ ← sleep 1;
  r ← on_t_conn (enclave_add_key test_vpn_ip test_key);
  _ ← (if decide (r = 0) then say (chars "Key added") else mret ());
  _ ← sleep 1;
  '(ciphertext, ciphertext_len) ← encrypt_test;
  _ ← sleep 1;
  _ ← decrypt_test ciphertext ciphertext_len;
  _ ← sleep 1;
  r ← on_t_conn (enclave_remove_key test_vpn_ip);
  _ ← (if decide (r = 0) then say (chars "Key removed") else mret ());
  sleep 1.

Definition ipc_test_main : M (state C) Z :=
  enclave_fd ← on_t_host enclave_connect;
  if decide (enclave_fd < 0) then mret 1
  else
    _ ← exercise;
    _ ← on_t_host (enclave_disconnect enclave_fd);
    mret 0.
End program.

(** ** The test against an enclave *)
Section passes.
Context `{Sodium, Garbage, HostEnv} `{!SodiumLaws _}.
Implicit Types s : state enclave.

Lemma run_on_t_host {A} (m : M host A) s a h :
  m (t_host s) = Ok (a, h) → on_t_host m s = Ok (a, State h (t_conn s) (slept s) (said s)).
Proof. intros E. unfold on_t_host. by rewrite run_zoom, E. Qed.
Lemma run_on_t_conn {A} (m : M (ipc enclave) A) s a c :
  m (t_conn s) = Ok (a, c) → on_t_conn m s = Ok (a, State (t_host s) c (slept s) (said s)).
Proof. intros E. unfold on_t_conn. by rewrite run_zoom, E. Qed.

Lemma test_ip_uint : is_uint 4 test_vpn_ip.
Proof. by vm_compute. Qed.

Definition conn_km s : key_manager_t := e_km (channel (t_conn s)).

(** Encryption with the key of the test. *)
Lemma encrypt_test_run s :
  idle (channel (t_conn s)) → get_key (conn_km s) test_vpn_ip = Some test_key →
  (∀ n, is_Some (crypto_encrypt plaintext test_key n)) →
  ∃ n ct hex s', zlen n = 12 ∧ crypto_encrypt plaintext test_key n = Some ct ∧
    encrypt_test s = Ok ((n ++ ct) ++ drop (length (n ++ ct)) (local "ciphertext" 256), 42, s') ∧
    idle (channel (t_conn s')) ∧ (∀ ip, get_key (conn_km s') ip = get_key (conn_km s) ip) ∧
    t_host s' = t_host s ∧ said s' = said s ++ [chars "Encrypted: 42 bytes"; hex].
Proof.
  intros Hi Hk Hok.
  destruct (enclave_encrypt_law (t_conn s) test_vpn_ip plaintext (local "ciphertext" 256))
    as (c & Hi' & _ & Hkeys & He); [done|apply test_ip_uint|by vm_compute|].
  unfold conn_km in Hk. rewrite Hk in He. destruct He as (n & Hn & He). destruct (Hok n) as [ct Hct].
  rewrite Hct in He. destruct He as [He _]. specialize (He ltac:(by rewrite zlen_local)).
  change (zlen plaintext + 28) with 42 in He.
  pose proof (aead_encrypt_len _ _ _ _ Hct) as Hl. change (zlen plaintext + CRYPTO_MAC_SIZE) with 30 in Hl.
  set (out := (n ++ ct) ++ _) in *.
  assert (32 ≤ zlen out) as Hout.
  { subst out. pose proof (zlen_nonneg (drop (length (n ++ ct)) (local "ciphertext" 256))). zlen. }
  eexists n, ct, (concat (hex2 <$> slice 0 32 out)), _. split; [done|]. split; [done|]. split.
  { unfold encrypt_test. rewrite (run_bind_ok _ _ _ _ _ (run_on_t_conn _ _ _ _ He)). cbn iota beta.
    rewrite run_bind. unfold say. rewrite run_modify, run_bind. change (42 `min` 32) with 32.
    rewrite buf_read_ok by lia. rewrite run_lift, run_bind, run_modify. reflexivity. }
  unfold conn_km. cbn [t_host t_conn said]. rewrite <-app_assoc. by split_and!.
Qed.

Lemma decrypt_test_run n ct rest s :
  idle (channel (t_conn s)) → get_key (conn_km s) test_vpn_ip = Some test_key →
  zlen n = 12 → crypto_encrypt plaintext test_key n = Some ct →
  ∃ s', decrypt_test ((n ++ ct) ++ rest) 42 s = Ok ((), s') ∧
    idle (channel (t_conn s')) ∧ (∀ ip, get_key (conn_km s') ip = get_key (conn_km s) ip) ∧
    t_host s' = t_host s ∧
    said s' = said s ++ [chars "Decrypted: 14 bytes"; chars "Plaintext: Hello Enclave!"].
Proof.
  intros Hi Hk Hn Hct. pose proof (aead_encrypt_len _ _ _ _ Hct) as Hl.
  change (zlen plaintext + CRYPTO_MAC_SIZE) with 30 in Hl. pose proof (zlen_nonneg rest).
  assert (zlen (n ++ ct) = 42) as H42 by zlen. unfold decrypt_test.
  rewrite decide_False by done. rewrite run_bind, buf_read_ok, slice_hit by (done || zlen).
  rewrite run_lift. cbn iota beta.
  destruct (enclave_decrypt_law (t_conn s) test_vpn_ip (n ++ ct) (local "decrypted" 256))
    as (c & Hi' & _ & Hkeys & He); [done|apply test_ip_uint|lia|rewrite zlen_local; lia|].
  unfold conn_km in Hk. rewrite Hk, (open_packet_sealed plaintext _ n ct) in He by done.
  rewrite (run_bind_ok _ _ _ _ _ (run_on_t_conn _ _ _ _ He)). cbn iota beta.
  set (tail := drop (length plaintext) (local "decrypted" 256)).
  assert (zlen tail = 242) as Htail by (subst tail; rewrite zlen_drop_length; by rewrite zlen_local).
  rewrite run_bind, buf_write_app by (done || (rewrite Htail; done)).
  rewrite run_lift. cbn iota beta. rewrite run_bind. unfold say. rewrite run_modify, run_bind.
  assert (∀ t, c_string (plaintext ++ [0] ++ t) = Ok plaintext) as Hs.
  { intros t. assert (0 ∉ plaintext) as H0' by (apply (bool_decide_eq_false (0 ∈ plaintext)); by vm_compute).
    unfold c_string. cbn [app]. by rewrite strchr_hit, before_hit. }
  rewrite Hs, run_lift. cbn iota beta. rewrite run_modify. eexists. split; [reflexivity|].
  unfold conn_km. cbn [t_host t_conn said]. rewrite <-app_assoc. by split_and!.
Qed.

Lemma exercise_run h c sl :
  idle (channel c) → wf_key_manager (e_km (channel c)) → key_count (e_km (channel c)) < 256 →
  get_key (e_km (channel c)) test_vpn_ip = None →
  (∀ n, is_Some (crypto_encrypt plaintext test_key n)) →
  ∃ s' hex, exercise (State h c sl []) = Ok ((), s') ∧ t_host s' = h ∧
    idle (channel (t_conn s')) ∧
    (∀ ip, ip ≠ test_vpn_ip → get_key (conn_km s') ip = get_key (e_km (channel c)) ip) ∧
    said s' = [chars "PING successful"; chars "Key added"; chars "Encrypted: 42 bytes"; hex;
      chars "Decrypted: 14 bytes"; chars "Plaintext: Hello Enclave!"; chars "Key removed"].
Proof.
  intros Hi Hwf Hroom Hnone Hok. unfold exercise, sleep, say.
  rewrite run_bind, run_modify. cbn [t_host t_conn slept said].
  rewrite (run_bind_ok _ _ _ _ _ (run_on_t_conn _ (State _ _ _ _) _ _ (enclave_ping_run c Hi))).
  rewrite decide_True by done. repeat (rewrite run_bind, run_modify; cbn [t_host t_conn slept said app]).
  set (c1 := bump c (channel c)). assert (idle (channel c1)) as Hi1 by exact Hi.
  pose proof (enclave_add_key_run c1 test_vpn_ip test_key Hi1 test_ip_uint ltac:(by vm_compute)) as E2.
  destruct (store_new_key (e_km (channel c1)) test_vpn_ip test_key Hwf Hroom Hnone) as [Hr Hk].
  rewrite Hr in E2. set (c2 := bump c1 _) in E2.
  rewrite (run_bind_ok _ _ _ _ _ (run_on_t_conn _ (State _ _ _ _) _ _ E2)).
  rewrite decide_True by done. repeat (rewrite run_bind, run_modify; cbn [t_host t_conn slept said app]).
  assert (idle (channel c2)) as Hi2.
  { pose proof (serve_idle IPC_ADD_KEY test_vpn_ip test_key (channel c1) Hi1 ltac:(done)) as Hx.
    rewrite serve_add_key, decide_True in Hx by done. subst c2. by destruct (add_key _ _ _). }
  set (s2 := State h c2 _ _). destruct (encrypt_test_run s2 Hi2 Hk Hok)
    as (n & ct & hex & s3 & Hn & Hct & E3 & Hi3 & Hk3 & Hh3 & Hs3).
  rewrite (run_bind_ok _ _ _ _ _ E3). cbn iota beta. rewrite run_bind, run_modify.
  set (s3' := State _ _ _ _). pose proof (eq_trans (Hk3 test_vpn_ip) Hk) as Hk3t.
  destruct (decrypt_test_run n ct (drop (length (n ++ ct)) (local "ciphertext" 256)) s3' Hi3 Hk3t Hn Hct)
    as (s4 & E4 & Hi4 & Hk4 & Hh4 & Hs4).
  rewrite (run_bind_ok _ _ _ _ _ E4). rewrite run_bind, run_modify.
  destruct (enclave_remove_key_law (t_conn s4) test_vpn_ip Hi4 test_ip_uint) as (c5 & E5 & Hi5 & _ & _ & Hk5).
  rewrite (run_bind_ok _ _ _ _ _ (run_on_t_conn _ (State _ _ _ _) _ _ E5)).
  rewrite decide_True by done. repeat (rewrite run_bind, run_modify; cbn [t_host t_conn slept said app]).
  rewrite run_modify. eexists _, hex. split; [reflexivity|]. cbn [t_host t_conn said].
  split; [rewrite Hh4; apply Hh3|]. split; [done|]. split.
  - intros ip Hne. unfold conn_km. cbn [t_conn]. rewrite Hk5 by done.
    transitivity (get_key (conn_km s2) ip); [by rewrite <-Hk3, <-Hk4|]. by apply get_key_add_ne.
  - rewrite Hs4. cbn [said s3']. by rewrite Hs3.
Qed.

(** The connection is made exactly when socket and connect succeed. *)
Definition can_connect (h : host) : bool := env_open (host_calls h) && env_attach (S (host_calls h)).

Lemma enclave_connect_succeeds h fd h' :
  holds [] h → enclave_connect h = Ok (fd, h') → bool_decide (0 ≤ fd) = can_connect h.
Proof.
  intros Hh. unfold enclave_connect, can_connect, open_fd. rewrite run_bind.
  assert (0 ≤ next_fd h) as Hn by apply Hh.
  destruct (env_open (host_calls h)) eqn:Eo; cbn [andb].
  - rewrite decide_False by lia. rewrite run_bind. unfold connect. cbn [host_calls].
    destruct (env_attach (S (host_calls h))).
    + rewrite decide_False by lia. intros [= <- <-]. by rewrite bool_decide_eq_true_2.
    + rewrite decide_True by lia. rewrite run_bind. unfold close. rewrite run_modify.
      by intros [= <- <-].
  - rewrite decide_True by lia. by intros [= <- <-].
Qed.

(** (C28) The IPC test passes: against an enclave that has a free slot and no key for the
    address of the test, and if the encryption of the test's plaintext succeeds, the program
    returns 0 whenever its socket can be opened and connected, and has then reported
    the ping, the key, 42 bytes of ciphertext, the 14 bytes and the text that was encrypted
    and the removal of the key; if it cannot connect it returns 1 and reports nothing. It
    leaves no descriptor open, the connection is ready for other requests, and no key of
    another address has changed. *)
Theorem ipc_test_passes s :
  idle (channel (t_conn s)) → wf_key_manager (conn_km s) → key_count (conn_km s) < 256 →
  get_key (conn_km s) test_vpn_ip = None →
  (∀ n, is_Some (crypto_encrypt plaintext test_key n)) →
  holds [] (t_host s) → said s = [] →
  ∃ code s', ipc_test_main s = Ok (code, s') ∧ open_fds (t_host s') = [] ∧ idle (channel (t_conn s')) ∧
    (∀ ip, ip ≠ test_vpn_ip → get_key (conn_km s') ip = get_key (conn_km s) ip) ∧
    if can_connect (t_host s)
    then code = 0 ∧ ∃ hex, said s' = [chars "PING successful"; chars "Key added";
        chars "Encrypted: 42 bytes"; hex; chars "Decrypted: 14 bytes";
        chars "Plaintext: Hello Enclave!"; chars "Key removed"]
    else code = 1 ∧ said s' = [].
Proof.
  intros Hi Hwf Hroom Hnone Hok Hh Hsaid. destruct s as [h0 c0 sl0 sd0]. cbn in *. subst sd0.
  unfold ipc_test_main. destruct (holds_open _ [] h0 enclave_connect_opens Hh) as (fd & h1 & E1 & Hh1).
  rewrite (run_bind_ok _ _ _ _ _ (run_on_t_host _ (State h0 c0 sl0 []) _ _ E1)). cbn [t_conn slept said].
  rewrite <-(enclave_connect_succeeds _ _ _ Hh E1).
  destruct Hh1 as [[Hfd Hh1]|[Hfd Hh1]].
  { rewrite decide_True by done. eexists 1, _. split; [reflexivity|]. split; [by apply holds_nothing|].
    split; [done|]. split; [done|]. by rewrite bool_decide_eq_false_2 by lia. }
  rewrite decide_False by lia. rewrite bool_decide_eq_true_2 by done.
  destruct (exercise_run h1 c0 sl0 Hi Hwf Hroom Hnone Hok) as (s' & hex & E2 & Hh' & Hi' & Hk' & Hs').
  rewrite (run_bind_ok _ _ _ _ _ E2). rewrite <-Hh' in Hh1.
  destruct (holds_close fd [] (t_host s') Hh1) as (h3 & E3 & Hh3).
  assert (enclave_disconnect fd (t_host s') = Ok ((), h3)) as E4
    by (unfold enclave_disconnect; by rewrite decide_True).
  rewrite (run_bind_ok _ _ _ _ _ (run_on_t_host _ s' _ _ E4)).
  eexists 0, _. split; [reflexivity|]. cbn [t_host t_conn said]. split; [by apply holds_nothing|].
  split; [done|]. split; [done|]. split; [done|]. by exists hex.
Qed.
End passes.
End IpcTest.

(** ** tun_test.c *)
Module TunTest.

(** What a read of the TUN device finds. *)
Inductive tun_read :=
| ReadPacket (d : list Z)
| ReadError
| ReadInterrupted.       (** a signal arrives, and read fails with EINTR *)

Definition TUN_DEVICE : list Z := chars "tun0".
Definition TUN_IP : list Z := chars "10.8.0.1".
Definition TUN_NETMASK : Z := 24.

Record state := State { t_host : host; packet_count : Z; said : list (list Z) }.

Section program.
Context `{Garbage, HostEnv}.

Definition on_t_host {A} (m : M host A) : M state A :=
  zoom t_host (λ h s, State h (packet_count s) (said s)) m.

(** The loop; [false]: it waits in read. *)
Fixpoint read_loop (reads : list tun_read) : M state bool :=
  match reads with
  | [] => mret false
  | ReadError :: _ | ReadInterrupted :: _ => mret true
  | ReadPacket d :: reads =>
      let '(nread, buffer) := recv_datagram (local "tun_test.buffer" 2048) d in
      if decide (nread = 0) then mret true
      else
        text ← lift (print_ip_packet buffer nread);
        _ ← modify (λ s, State (t_host s) (i32 (packet_count s + 1)) (said s ++ [text]));
        read_loop reads
  end.

(** The exit code, or [None] while the program waits for packets. *)
Definition tun_test_main (reads : list tun_read) : M state (option Z) :=
  tun_fd ← on_t_host (create_tun_interface (Some TUN_DEVICE));
  if decide (tun_fd < 0) then mret (Some 1)
  else
    r ← on_t_host (configure_tun_ip TUN_DEVICE TUN_IP TUN_NETMASK);
    if decide (r < 0) then _ ← on_t_host (close tun_fd); mret (Some 1)
    else
      r ← on_t_host (bring_tun_up TUN_DEVICE);
      if decide (r < 0) then _ ← on_t_host (close tun_fd); mret (Some 1)
      else
        left ← read_loop reads;
        if (left : bool) then _ ← on_t_host (close tun_fd); mret (Some 0) else mret None.

(** The packets before the first read that ends the loop. *)
Fixpoint packets (reads : list tun_read) : list (list Z) :=
  match reads with
  | ReadPacket (b :: d) :: reads => (b :: d) :: packets reads
  | _ => []
  end.

Lemma i32_succ x : i32 (i32 x + 1) = i32 (x + 1).
Proof.
  unfold i32. f_equal.
  replace ((x + 2 ^ 31) `mod` 2 ^ 32 - 2 ^ 31 + 1 + 2 ^ 31) with ((x + 2 ^ 31) `mod` 2 ^ 32 + 1) by lia.
  rewrite Zplus_mod_idemp_l. f_equal. lia.
Qed.

Lemma read_loop_run reads k h sd :
  ∃ left sd', read_loop reads (State h (i32 k) sd) =
    Ok (left, State h (i32 (k + zlen (packets reads))) (sd ++ sd')) ∧ zlen sd' = zlen (packets reads).
Proof.
  revert k sd. induction reads as [|[d| |] reads IH]; intros k sd; cbn [read_loop packets];
    try (eexists _, []; rewrite (zlen_nil (A:=list Z)), Z.add_0_r, app_nil_r; by split).
  pose proof (zlen_nonneg d). destruct (recv_datagram (local "tun_test.buffer" 2048) d) as [n buf] eqn:E.
  pose proof (recv_datagram_zlen _ _ _ _ E) as (Hb & Hn & Hnd). injection E as En _.
  rewrite zlen_local in * by lia. destruct d as [|b d].
  - rewrite decide_True by (rewrite <-En; done).
    eexists true, []. rewrite app_nil_r. cbn [packets]. by rewrite (zlen_nil (A:=list Z)), Z.add_0_r.
  - rewrite zlen_cons in En. pose proof (zlen_nonneg d). rewrite decide_False by lia.
    destruct (print_ip_packet_in_bounds buf n) as [text ->]; [lia|].
    rewrite run_bind, run_lift. cbn iota beta. rewrite run_bind, run_modify. cbn [t_host packet_count said].
    rewrite i32_succ. destruct (IH (k + 1) (sd ++ [text])) as (left & sd' & -> & Hl).
    exists left, (text :: sd'). rewrite !zlen_cons, Hl, <-app_assoc. split; [|done].
    do 4 f_equal. lia.
Qed.

(** The TUN test shows every packet it reads, reads no byte outside of its buffer, counts
    the packets modulo the range of int, and closes the device on every way out. *)
Lemma tun_test_counts_packets reads h :
  holds [] h →
  ∃ r s', tun_test_main reads (State h 0 []) = Ok (r, s') ∧
    match r with
    | Some code => open_fds (t_host s') = [] ∧ (code = 0 ∨ code = 1)
    | None => True
    end ∧
    (r ≠ Some 1 → zlen (said s') = zlen (packets reads) ∧ packet_count s' = i32 (zlen (packets reads))).
Proof.
  intros Hh. unfold tun_test_main.
  destruct (holds_open _ [] h (create_tun_interface_opens (Some TUN_DEVICE)) Hh) as (fd & h1 & E1 & Hh1).
  assert (∀ h' k sd A (m : M host A) a h2, m h' = Ok (a, h2) →
    on_t_host m (State h' k sd) = Ok (a, State h2 k sd)) as Hrun.
  { intros * E. unfold on_t_host. rewrite run_zoom. cbn [t_host]. by rewrite E. }
  rewrite (run_bind_ok _ _ _ _ _ (Hrun _ _ _ _ _ _ _ E1)).
  destruct Hh1 as [[Hfd Hh1]|[Hfd Hh1]].
  { rewrite decide_True by done. eexists (Some 1), _. split; [reflexivity|]. split; [|done].
    split; [by apply holds_nothing|auto]. }
  rewrite decide_False by lia.
  assert (∀ h2, holds [fd] h2 → ∃ s', (_ ← on_t_host (close fd); mret (Some 1)) (State h2 0 []) =
    Ok (Some 1, s') ∧ open_fds (t_host s') = []) as Hstop.
  { intros h2 Hh2. destruct (holds_close fd [] h2 Hh2) as (h3 & E3 & Hh3).
    rewrite (run_bind_ok _ _ _ _ _ (Hrun _ _ _ _ _ _ _ E3)). eexists. split; [reflexivity|].
    by apply holds_nothing. }
  destruct (configure_quiet TUN_DEVICE TUN_IP TUN_NETMASK h1) as (r2 & h2 & E2 & Eo2 & En2).
  rewrite (run_bind_ok _ _ _ _ _ (Hrun _ _ _ _ _ _ _ E2)).
  pose proof (holds_same _ _ _ Eo2 En2 Hh1) as Hh2. case_decide.
  { destruct (Hstop h2 Hh2) as (s' & -> & ?). exists (Some 1), s'. split; [done|]. split; [auto|done]. }
  destruct (bring_up_quiet TUN_DEVICE h2) as (r3 & h3 & E3 & Eo3 & En3).
  rewrite (run_bind_ok _ _ _ _ _ (Hrun _ _ _ _ _ _ _ E3)).
  pose proof (holds_same _ _ _ Eo3 En3 Hh2) as Hh3. case_decide.
  { destruct (Hstop h3 Hh3) as (s' & -> & ?). exists (Some 1), s'. split; [done|]. split; [auto|done]. }
  destruct (read_loop_run reads 0 h3 []) as (left & sd & E4 & Hl). rewrite (run_bind_ok _ _ _ _ _ E4).
  destruct left; cycle 1.
  { eexists None, _. split; [reflexivity|]. done. }
  destruct (holds_close fd [] h3 Hh3) as (h5 & E5 & Hh5).
  rewrite (run_bind_ok _ _ _ _ _ (Hrun _ _ _ _ _ _ _ E5)). eexists (Some 0), _. split; [reflexivity|].
  split; [|done]. split; [by apply holds_nothing|auto].
Qed.
End program.
End TunTest.

(** ** udp_test_client.c *)
Module UdpTest.

Record state := State { t_host : host; t_os : os; t_sequence : Z; said : list (list Z) }.

(** An ICMP packet from 10.8.0.5 to 192.168.100.10 that is not encrypted. *)
Definition fake_icmp : list Z :=
  [69; 0; 0; 84; 18; 52; 64; 0; 64; 1; 0; 0; 10; 8; 0; 5; 192; 168; 100; 10].

Section program.
Context `{Garbage, Env, HostEnv, Network}.

Definition on_t_host {A} (m : M host A) : M state A :=
  zoom t_host (λ h s, State h (t_os s) (t_sequence s) (said s)) m.
Definition on_t_os {A} (m : M os A) : M state A :=
  zoom t_os (λ o s, State (t_host s) o (t_sequence s) (said s)) m.
Definition say (t : list Z) : M state () :=
  modify (λ s, State (t_host s) (t_os s) (t_sequence s) (said s ++ [t])).
Definition test_header (t len : Z) : M state vpn_header_t :=
  g ← gets t_sequence;
  '(h, g) ← on_t_os (init_vpn_header g t len);
  _ ← modify (λ s, State (t_host s) (t_os s) g (said s));
  mret h.

(** Sends and, when that fails, closes the socket; [false]: main returns 1. *)
Definition send_or_close (sock_fd : Z) (b : list Z) (server_addr : sockaddr_in) : M state bool :=
  sent ← on_t_os (sendto b server_addr);
  if decide (sent < 0) then _ ← on_t_host (close sock_fd); mret false else mret true.

Definition report_response (answer : option (list Z)) : M state () :=
  match answer with
  | None => say (chars "No response (timeout or error)")
  | Some d =>
      let '(n, recv_buffer) := recv_datagram (local "recv_buffer" 2048) d in
      if decide (0 < n) then
        let resp := connect_response_of_bytes recv_buffer in
        _ ← say (print_vpn_packet (resp_header resp));
        if decide (Protocol.resp_status resp = 0) then
          _ ← say (chars "  VPN IP:     " ++ inet_ntop (resp_vpn_ip resp));
          say (chars "  Session ID: " ++ show_unsigned (ntohl (resp_session_id resp)))
        else say (chars "  Status: " ++ show_unsigned (Protocol.resp_status resp))
      else say (chars "No response (timeout or error)")
  end.

(** The three steps; [conn_req] and [packet_buffer] are arrays of the caller's stack. *)
Definition connect_step (sock_fd : Z) (server_addr : sockaddr_in) : M state bool :=
  header ← test_header PKT_CONNECT_REQ (sizeof_connect_request_t - sizeof_vpn_header_t);
  name ← lift (strncpy (local "conn_req.username" 32) (chars "test_user") 31);
  let conn_req := ConnectRequest header name (replicate 32 171) in
  _ ← say (print_vpn_packet header);
  text ← lift (c_string name);
  _ ← say (chars "  Username: " ++ text);
  ok ← send_or_close sock_fd (connect_request_bytes conn_req) server_addr;
  if (ok : bool) then _ ← report_response (env_answer 0); mret true else mret false.

Definition ping_step (sock_fd : Z) (server_addr : sockaddr_in) : M state bool :=
  ping_pkt ← test_header PKT_PING 0;
  _ ← say (print_vpn_packet ping_pkt);
  send_or_close sock_fd (vpn_header_bytes ping_pkt) server_addr.

Definition data_step (sock_fd : Z) (server_addr : sockaddr_in) : M state bool :=
  header ← test_header PKT_DATA (zlen fake_icmp);
  packet_buffer ← lift (buf_write (local "packet_buffer" 2048) 0 (vpn_header_bytes header));
  packet_buffer ← lift (buf_write packet_buffer sizeof_vpn_header_t fake_icmp);
  let total_len := sizeof_vpn_header_t + zlen fake_icmp in
  _ ← say (print_vpn_packet header);
  packet ← lift (buf_read packet_buffer 0 total_len);
  send_or_close sock_fd packet server_addr.

(** [args]: the arguments behind the name of the program. *)
Definition udp_test_main (args : list (list Z)) : M state Z :=
  match args with
  | [server_ip] =>
      sock_fd ← on_t_host open_fd;
      if decide (sock_fd < 0) then mret 1
      else match inet_pton server_ip with
      | None => _ ← on_t_host (close sock_fd); mret 1
      | Some a =>
          let server_addr := SockAddrIn AF_INET (htons 51820) a in
          ok ← connect_step sock_fd server_addr;
          if negb ok then mret 1 else
          ok ← ping_step sock_fd server_addr;
          if negb ok then mret 1 else
          ok ← data_step sock_fd server_addr;
          if negb ok then mret 1 else
          _ ← on_t_host (close sock_fd);
          mret 0
      end
  | _ => mret 1
  end.

Lemma udp_on_host_run {A} (m : M host A) s a h :
  m (t_host s) = Ok (a, h) → on_t_host m s = Ok (a, State h (t_os s) (t_sequence s) (said s)).
Proof. intros E. unfold on_t_host. by rewrite run_zoom, E. Qed.

Lemma test_header_run t len s :
  ∃ h s', test_header t len s = Ok (h, s') ∧ wf_header h ∧ hdr_type h = u8 t ∧
    t_host s' = t_host s ∧ udp_out (t_os s') = udp_out (t_os s).
Proof.
  destruct (init_vpn_header_run (t_sequence s) t len (t_os s))
    as (ts & o' & Hts & E & _ & _ & Eu & _).
  unfold test_header. rewrite run_bind, run_gets, run_bind. unfold on_t_os. rewrite run_zoom, E.
  eexists _, _. split; [reflexivity|]. split; [apply wf_init_header|]. done.
Qed.

Lemma say_run t s : say t s = Ok ((), State (t_host s) (t_os s) (t_sequence s) (said s ++ [t])).
Proof. done. Qed.

(** A step sends one datagram with [P], or fails and closes the socket. *)
Definition step_sends (fd : Z) (dest : sockaddr_in) (P : list Z → Prop) (m : M state bool) : Prop :=
  ∀ s, holds [fd] (t_host s) →
  ∃ ok s', m s = Ok (ok, s') ∧
    if (ok : bool) then
      holds [fd] (t_host s') ∧ ∃ d, P d ∧ udp_out (t_os s') = udp_out (t_os s) ++ [(dest, d)]
    else open_fds (t_host s') = [] ∧ udp_out (t_os s') = udp_out (t_os s).

Lemma send_or_close_sends fd dest b : step_sends fd dest (λ d, d = b) (send_or_close fd b dest).
Proof.
  intros s Hs. unfold send_or_close. rewrite run_bind. unfold on_t_os at 1. rewrite run_zoom.
  unfold sendto. pose proof (zlen_nonneg b). destruct (env_sendto _).
  - rewrite decide_False by lia. eexists true, _. split; [reflexivity|]. split; [done|]. by exists b.
  - rewrite decide_True by lia. destruct (holds_close fd [] (t_host s) Hs) as (h & E & Hh).
    rewrite (run_bind_ok _ _ _ _ _ (udp_on_host_run (close fd) (State _ _ _ _) _ _ E)).
    eexists false, _. split; [reflexivity|]. split; [by apply holds_nothing|done].
Qed.

(** The end of a step that has prepared its packet [b]. *)
Lemma send_prepared fd dest (P : list Z → Prop) b s s1 :
  P b → holds [fd] (t_host s1) → udp_out (t_os s1) = udp_out (t_os s) →
  ∃ ok s', send_or_close fd b dest s1 = Ok (ok, s') ∧
    if (ok : bool) then
      holds [fd] (t_host s') ∧ ∃ d, P d ∧ udp_out (t_os s') = udp_out (t_os s) ++ [(dest, d)]
    else open_fds (t_host s') = [] ∧ udp_out (t_os s') = udp_out (t_os s).
Proof.
  intros HP Hs <-. destruct (send_or_close_sends fd dest b s1 Hs) as (ok & s' & E & Hok).
  exists ok, s'. split; [done|]. destruct ok; [|done]. destruct Hok as (? & d & -> & ?).
  split; [done|]. by exists b.
Qed.

Lemma report_response_run answer s :
  ∃ s', report_response answer s = Ok ((), s') ∧ t_host s' = t_host s ∧ t_os s' = t_os s.
Proof.
  unfold report_response. destruct answer as [d|]; [|by eexists].
  destruct (recv_datagram _ d) as [n b]. case_decide; [|by eexists]. rewrite run_bind, say_run.
  case_decide; [rewrite run_bind, say_run|]; by eexists.
Qed.

Lemma connect_step_sends fd dest :
  step_sends fd dest (λ d, zlen d = 80 ∧ packet_type d = PKT_CONNECT_REQ) (connect_step fd dest).
Proof.
  intros s Hs. unfold connect_step.
  destruct (test_header_run PKT_CONNECT_REQ (sizeof_connect_request_t - sizeof_vpn_header_t) s)
    as (h & s1 & E1 & Hh & Ht & Eh & Eu). rewrite (run_bind_ok _ _ _ _ _ E1).
  destruct (strncpy_run (local "conn_req.username" 32) (chars "test_user") 31) as (name & En & Hl & _);
    [by rewrite zlen_local|]. rewrite zlen_local in Hl by done.
  assert (c_string name = Ok (chars "test_user")) as Ec.
  { eapply c_string_strncpy, En; [by rewrite zlen_local| |done].
    apply (bool_decide_eq_false (0 ∈ chars "test_user")). by vm_compute. }
  rewrite En, run_bind, run_lift. cbn iota beta. rewrite run_bind, say_run, run_bind, Ec, run_lift.
  cbn iota beta. rewrite run_bind, say_run. set (b := connect_request_bytes _). set (s2 := State _ _ _ _).
  destruct (send_or_close_sends fd dest b s2) as (ok & s3 & E3 & Hok); [by cbn; rewrite Eh|].
  rewrite (run_bind_ok _ _ _ _ _ E3). cbn [t_os s2] in Hok. rewrite Eu in Hok. destruct ok; cycle 1.
  { by exists false, s3. }
  destruct (report_response_run (env_answer 0) s3) as (s4 & E4 & Eh4 & Eo4).
  rewrite (run_bind_ok _ _ _ _ _ E4). exists true, s4. split; [done|]. rewrite Eh4, Eo4.
  destruct Hok as (? & d & -> & ?). split; [done|]. exists b. split; [|done].
  assert (wf_connect_request (ConnectRequest h name (replicate 32 171))) as Hwf by done.
  split; [by apply zlen_connect_request_bytes|]. subst b. unfold connect_request_bytes.
  by rewrite packet_type_header.
Qed.

Lemma ping_step_sends fd dest :
  step_sends fd dest (λ d, zlen d = 16 ∧ packet_type d = PKT_PING) (ping_step fd dest).
Proof.
  intros s Hs. unfold ping_step.
  destruct (test_header_run PKT_PING 0 s) as (h & s1 & E1 & Hh & Ht & Eh & Eu).
  rewrite (run_bind_ok _ _ _ _ _ E1). rewrite run_bind, say_run.
  apply (send_prepared fd dest (λ d, zlen d = 16 ∧ packet_type d = PKT_PING));
    [|cbn; by rewrite Eh|done].
  split; [zlen|]. rewrite <-(app_nil_r (vpn_header_bytes h)), packet_type_header by done. by rewrite Ht.
Qed.

Lemma data_step_sends fd dest :
  step_sends fd dest (λ d, ∃ h, wf_header h ∧ hdr_type h = PKT_DATA ∧ d = vpn_header_bytes h ++ fake_icmp)
    (data_step fd dest).
Proof.
  intros s Hs. unfold data_step.
  destruct (test_header_run PKT_DATA (zlen fake_icmp) s) as (h & s1 & E1 & Hh & Ht & Eh & Eu).
  rewrite (run_bind_ok _ _ _ _ _ E1). rewrite run_bind, buf_write_0 by zlen. rewrite run_lift.
  cbn iota beta. rewrite run_bind. change sizeof_vpn_header_t with 16.
  set (rest := drop (length (vpn_header_bytes h)) (local "packet_buffer" 2048)).
  assert (zlen rest = 2032) as Hr.
  { subst rest. rewrite zlen_drop_length; [rewrite zlen_local by done; zlen|rewrite zlen_local by done; zlen]. }
  rewrite buf_write_app by (zlen || (rewrite Hr; done)). rewrite run_lift. cbn iota beta.
  rewrite run_bind, say_run, run_bind, app_assoc.
  assert (zlen (vpn_header_bytes h ++ fake_icmp) = 16 + zlen fake_icmp) as Hp by zlen.
  rewrite buf_read_ok, slice_hit by (done || (rewrite zlen_app, Hp;
    pose proof (zlen_nonneg (drop (length fake_icmp) rest)); change (zlen fake_icmp) with 20; lia)).
  rewrite run_lift. cbn iota beta.
  apply (send_prepared fd dest (λ d, ∃ h, wf_header h ∧ hdr_type h = PKT_DATA ∧
    d = vpn_header_bytes h ++ fake_icmp)); [by exists h|cbn; by rewrite Eh|done].
Qed.

(** The program sends a prefix of its three packets and closes its socket. *)
Lemma udp_test_main_run args s :
  holds [] (t_host s) →
  ∃ code s', udp_test_main args s = Ok (code, s') ∧ open_fds (t_host s') = [] ∧
    (code = 0 → ∃ dest d1 d2 h, wf_header h ∧ hdr_type h = PKT_DATA ∧
       zlen d1 = 80 ∧ packet_type d1 = PKT_CONNECT_REQ ∧ zlen d2 = 16 ∧ packet_type d2 = PKT_PING ∧
       udp_out (t_os s') =
         udp_out (t_os s) ++ [(dest, d1); (dest, d2); (dest, vpn_header_bytes h ++ fake_icmp)]).
Proof.
  intros Hs. unfold udp_test_main. pose proof (holds_nothing _ Hs).
  destruct args as [|ip [|]]; [by exists 1, s| |by exists 1, s].
  destruct (holds_open _ [] _ open_fd_opens Hs) as (fd & h1 & E1 & Hh1).
  rewrite (run_bind_ok _ _ _ _ _ (udp_on_host_run _ _ _ _ E1)). destruct Hh1 as [[Hfd Hh1]|[Hfd Hh1]].
  { rewrite decide_True by done. eexists 1, _. split; [reflexivity|]. split; [by apply holds_nothing|done]. }
  rewrite decide_False by lia. set (s1 := State _ _ _ _).
  destruct (inet_pton ip) as [a|]; cycle 1.
  { destruct (holds_close fd [] h1 Hh1) as (h2 & E2 & Hh2).
    rewrite (run_bind_ok _ _ _ _ _ (udp_on_host_run _ s1 _ _ E2)). eexists 1, _.
    split; [reflexivity|]. split; [by apply holds_nothing|done]. }
  set (dest := SockAddrIn _ _ a).
  destruct (connect_step_sends fd dest s1 Hh1) as (ok & s2 & E2 & Hok2).
  rewrite (run_bind_ok _ _ _ _ _ E2). destruct ok; cbn [negb]; [|by exists 1, s2; destruct Hok2].
  destruct Hok2 as (Hh2 & d1 & [Hl1 Ht1] & Eu2).
  destruct (ping_step_sends fd dest s2 Hh2) as (ok & s3 & E3 & Hok3).
  rewrite (run_bind_ok _ _ _ _ _ E3). destruct ok; cbn [negb]; [|by exists 1, s3; destruct Hok3].
  destruct Hok3 as (Hh3 & d2 & [Hl2 Ht2] & Eu3).
  destruct (data_step_sends fd dest s3 Hh3) as (ok & s4 & E4 & Hok4).
  rewrite (run_bind_ok _ _ _ _ _ E4). destruct ok; cbn [negb]; [|by exists 1, s4; destruct Hok4].
  destruct Hok4 as (Hh4 & d3 & (h & Hwf & Ht3 & ->) & Eu4).
  destruct (holds_close fd [] (t_host s4) Hh4) as (h5 & E5 & Hh5).
  rewrite (run_bind_ok _ _ _ _ _ (udp_on_host_run _ s4 _ _ E5)). eexists 0, _.
  split; [reflexivity|]. split; [by apply holds_nothing|]. intros _. exists dest, d1, d2, h.
  split_and!; try done. cbn [t_os]. by rewrite Eu4, Eu3, Eu2, <-!app_assoc.
Qed.

(** What the UDP test sends is not what it is meant to be: when the program reports
    success it has sent a complete CONNECT_REQ, a PING and a DATA packet and has closed its
    socket, but whatever server gets the DATA packet, and whether the sender is connected
    or not, writes nothing to its TUN device, because the payload is not encrypted. *)
Lemma udp_test_data_is_dropped `{Sodium} `{!SodiumLaws _} (sm : machine) args s s' :
  holds [] (t_host s) → udp_test_main args s = Ok (0, s') →
  open_fds (t_host s') = [] ∧
  ∃ dest d1 d2 d3,
    udp_out (t_os s') = udp_out (t_os s) ++ [(dest, d1); (dest, d2); (dest, d3)] ∧
    zlen d1 = 80 ∧ packet_type d1 = PKT_CONNECT_REQ ∧ packet_type d2 = PKT_PING ∧
    packet_type d3 = PKT_DATA ∧
    ∀ addr srv, server_ready srv →
      ∃ srv', server_udp sm (Some (addr, d3)) srv = Ok ((), srv') ∧
        tun_out (sys srv') = tun_out (sys srv) ∧ udp_out (sys srv') = udp_out (sys srv).
Proof.
  intros Hs Hrun. destruct (udp_test_main_run args s Hs) as (code & s1 & E & Hfd & Hsent).
  rewrite E in Hrun. injection Hrun as -> ->.
  destruct (Hsent eq_refl) as (dest & d1 & d2 & h & Hwf & Ht & Hl1 & Ht1 & Hl2 & Ht2 & Eu).
  split; [done|]. exists dest, d1, d2, (vpn_header_bytes h ++ fake_icmp). split_and!; try done.
  { by rewrite packet_type_header. }
  intros addr srv [Hwft Hidle]. destruct sm as [G E']. unfold server_udp. cbn [m_garbage m_env].
  set (d := vpn_header_bytes h ++ fake_icmp).
  assert (zlen d = 36) as Hd by (subst d; rewrite zlen_app, zlen_vpn_header_bytes; done).
  assert (packet_type d = PKT_DATA) as Hty by (subst d; by rewrite packet_type_header).
  pose proof (zlen_cut d) as Hcut.
  rewrite handle_udp_dispatch, decide_False, Hty, decide_False, decide_True by (done || lia).
  pose proof (@rx_buffer_len G d) as Hrx.
  destruct (@on_data_run enclave _ G E' _ _ (@rx_buffer G d) (zlen (cut d)) addr srv)
    as (now & srv' & E2 & _ & _ & _ & _ & [Hudp Htun]);
    [by split|done|autounfold with sizes; lia|].
  exists srv'. split; [done|]. rewrite app_nil_r in Hudp. split; [|done].
  rewrite Htun. destruct (find_client_by_addr (table srv) addr) as [[i c]|]; [|apply app_nil_r].
  assert (∀ k, open_packet k (slice 16 (zlen (cut d) - 16) (@rx_buffer G d)) = None) as Hnone.
  { intros [k|]; [|done]. unfold open_packet. rewrite decide_True; [done|].
    rewrite zlen_slice; [lia|lia|lia|]. rewrite Hrx. autounfold with sizes. lia. }
  rewrite Hnone. apply app_nil_r.
Qed.
End program.
End UdpTest.

(** ** Instances *)
Section instances.
#[local] Existing Instance zero_garbage.
#[local] Existing Instance quiet_env.
#[local] Existing Instance kind_host.
#[local] Instance silence : Network := λ _, None.

Definition ipc_tester : IpcTest.state enclave := IpcTest.State host_boot (Ipc 0 toy_enclave) 0 [].

Lemma ipc_test_passes_witness :
  ∃ code s', IpcTest.ipc_test_main ipc_tester = Ok (code, s') ∧ open_fds (IpcTest.t_host s') = [] ∧
    idle (channel (IpcTest.t_conn s')) ∧
    (∀ ip, ip ≠ IpcTest.test_vpn_ip →
       get_key (IpcTest.conn_km s') ip = get_key (IpcTest.conn_km ipc_tester) ip) ∧
    code = 0 ∧ ∃ hex, IpcTest.said s' = [chars "PING successful"; chars "Key added";
        chars "Encrypted: 42 bytes"; hex; chars "Decrypted: 14 bytes";
        chars "Plaintext: Hello Enclave!"; chars "Key removed"].
Proof.
  destruct (IpcTest.ipc_test_passes ipc_tester) as (code & s' & Hs);
    [by split|by vm_compute|done|by vm_compute|intros n; by eexists|apply holds_boot|done|].
  exists code, s'. exact Hs.
Defined.

Definition udp_tester : UdpTest.state := UdpTest.State host_boot os_boot 0 [].

Example toy_udp_test :
  ∃ s', open_fds (UdpTest.t_host s') = [] ∧
  ∃ dest d1 d2 d3,
    udp_out (UdpTest.t_os s') =
      udp_out (UdpTest.t_os udp_tester) ++ [(dest, d1); (dest, d2); (dest, d3)] ∧
    zlen d1 = 80 ∧ packet_type d1 = PKT_CONNECT_REQ ∧ packet_type d2 = PKT_PING ∧
    packet_type d3 = PKT_DATA ∧
    ∀ addr srv, server_ready srv →
      ∃ srv', server_udp pc (Some (addr, d3)) srv = Ok ((), srv') ∧
        tun_out (sys srv') = tun_out (sys srv) ∧ udp_out (sys srv') = udp_out (sys srv).
Proof.
  eexists. apply (UdpTest.udp_test_data_is_dropped pc [chars "127.0.0.1"] udp_tester);
    [apply holds_boot|vm_compute; reflexivity].
Qed.
End instances.
